(** * Conditional join (janitor.functions.conditional_join)

    A shallow embedding of the conditional (non-equi) join engine and the
    properties its specification states, followed by further properties of
    the join and of [concatenate_columns]
    (janitor.functions.concatenate_columns), which has a module of its own.

    Conventions of the embedding:
    - numpy integer arrays are [list Z]; every value they hold is a position,
      a row label or a count bounded by an array length, so the 64-bit
      wrap-around is never reached and is not written out;
    - a cell of a column is a [value]: [Some z] for a number (an integer, a
      float holding a number, a datetime as its ordinal, the code of a string
      or of a category) and [None] for the null of numpy-backed columns
      (NaN, NaT);
    - a Python exception is the [Raise] outcome of the [res] monad; the
      [None] a matcher returns for "no match" is an ordinary value;
    - two cells are compared as the numbers they are, which is what numpy
      does on two arrays of one dtype. The type check also lets an [int64]
      column be compared with a [uint64] column; numpy compares two such
      arrays through [float64], which rounds integers beyond 2^53, and this
      the embedding does not follow. The properties that say which pairs of
      rows a call or a matcher returns are therefore stated for columns of
      one dtype ([same_dtype], [same_dtypes]);
    - where numpy and pandas leave an order open (the rows of one value under
      a sort, the pairs of the hash join), the embedding takes the order they
      give on short arrays; no property below depends on it. *)

From Stdlib Require Import ZArith Lia Bool.
From stdpp Require Import base tactics option list strings sorting.

Open Scope Z_scope.

(** ** Outcomes: a value or an exception *)

Inductive exn := ValueError | TypeError | IndexError | KeyError.

Inductive res (A : Type) :=
  | Ok (a : A)
  | Raise (e : exn).
Arguments Ok {A} a.
Arguments Raise {A} e.

Definition res_bind {A B} (f : A → res B) (m : res A) : res B :=
  match m with
  | Ok a => f a
  | Raise e => Raise e
  end.

#[global] Instance res_ret : MRet res := λ A a, Ok a.
#[global] Instance res_mbind : MBind res := λ A B f m, res_bind f m.

Definition raises {A} (m : res A) : bool :=
  match m with Ok _ => false | Raise _ => true end.

(** ** numpy primitives *)

Module np.

(** Position designated by index [i] in an array of length [n]; a negative
    index counts from the end. *)
Definition norm (n : nat) (i : Z) : option nat :=
  if (0 <=? i) && (i <? Z.of_nat n) then Some (Z.to_nat i)
  else if (- Z.of_nat n <=? i) && (i <? 0) then Some (Z.to_nat (Z.of_nat n + i))
  else None.

(** [a[i]] *)
Definition getitem {A} (a : list A) (i : Z) : res A :=
  match norm (length a) i ≫= (a !!.) with
  | Some x => Ok x
  | None => Raise IndexError
  end.

(** [a[i] = x] *)
Definition setitem {A} (a : list A) (i : Z) (x : A) : res (list A) :=
  match norm (length a) i with
  | Some k => Ok (<[k:=x]> a)
  | None => Raise IndexError
  end.

(** [a[idx]] for an integer array [idx] *)
Fixpoint take {A} (a : list A) (idx : list Z) : res (list A) :=
  match idx with
  | [] => Ok []
  | i :: idx' => x ← getitem a i; xs ← take a idx'; Ok (x :: xs)
  end.

Fixpoint put_seq {A} (a : list A) (idx : list Z) (vals : list A) : res (list A) :=
  match idx, vals with
  | i :: idx', x :: vals' => a' ← setitem a i x; put_seq a' idx' vals'
  | _, _ => Ok a
  end.

(** [a[idx] = vals] for an integer array [idx]: the assignments are made
    in order, so the last one wins on a repeated index. *)
Definition put {A} (a : list A) (idx : list Z) (vals : list A) : res (list A) :=
  if decide (length idx = length vals) then put_seq a idx vals
  else Raise ValueError.

Fixpoint mask_seq {A} (a : list A) (m : list bool) : list A :=
  match a, m with
  | x :: a', b :: m' => if b then x :: mask_seq a' m' else mask_seq a' m'
  | _, _ => []
  end.

(** [a[m]] for a boolean array [m] *)
Definition mask {A} (a : list A) (m : list bool) : res (list A) :=
  if decide (length a = length m) then Ok (mask_seq a m)
  else Raise IndexError.

(** Elementwise binary operation with numpy's broadcasting of a
    one-element array. *)
Definition binop {A B C} (f : A → B → C) (a : list A) (b : list B) : res (list C) :=
  if decide (length a = length b) then Ok (zip_with f a b)
  else match a, b with
       | [x], _ => Ok (f x <$> b)
       | _, [y] => Ok ((λ x, f x y) <$> a)
       | _, _ => Raise ValueError
       end.

Definition sub := binop Z.sub.

(** [np.where(c, x, y)] on arrays of one shape *)
Fixpoint where_ {A} (c : list bool) (x y : list A) : list A :=
  match c, x, y with
  | b :: c', u :: x', v :: y' => (if b then u else v) :: where_ c' x' y'
  | _, _, _ => []
  end.

Fixpoint cumsum_from (acc : Z) (a : list Z) : list Z :=
  match a with
  | [] => []
  | x :: a' => (acc + x) :: cumsum_from (acc + x) a'
  end.

(** [a.cumsum()] *)
Definition cumsum (a : list Z) : list Z := cumsum_from 0 a.

(** [np.ones(n, dtype=int)] *)
Definition ones (n : Z) : res (list Z) :=
  if n <? 0 then Raise ValueError else Ok (replicate (Z.to_nat n) 1).

(** [np.repeat(x, n)] for a scalar [x] *)
Definition repeat_scalar {A} (x : A) (n : nat) : list A := replicate n x.

Fixpoint repeat_seq {A} (a : list A) (counts : list Z) : list A :=
  match a, counts with
  | x :: a', c :: counts' => replicate (Z.to_nat c) x ++ repeat_seq a' counts'
  | _, _ => []
  end.

(** [a.repeat(counts)]: each element repeated by its own count, which
    cannot be negative. *)
Definition repeat {A} (a : list A) (counts : list Z) : res (list A) :=
  if decide (length a = length counts) then
    if forallb (λ c, 0 <=? c) counts then Ok (repeat_seq a counts)
    else Raise ValueError
  else Raise ValueError.

Definition any (m : list bool) : bool := existsb id m.

(** [~m] *)
Definition invert (m : list bool) : list bool := negb <$> m.

(** [a.size] *)
Definition size {A} (a : list A) : Z := Z.of_nat (length a).

Inductive Side := SideLeft | SideRight.

(** [a.searchsorted(v, side)] for one value. numpy finds by binary search
    the insertion index that keeps the sorted array [a] sorted, the lowest
    one for side "left" and the highest for side "right"; on a sorted
    array that index is the length of the longest prefix of entries [< v]
    (resp. [<= v]), which is what is computed here. *)
Fixpoint searchsorted1 (a : list Z) (v : Z) (side : Side) : Z :=
  match a with
  | [] => 0
  | x :: a' =>
      if match side with SideLeft => x <? v | SideRight => x <=? v end
      then 1 + searchsorted1 a' v side
      else 0
  end.

Definition searchsorted (a v : list Z) (side : Side) : list Z :=
  (λ x, searchsorted1 a x side) <$> v.

End np.

(** Python slice bounds: [a[lo:hi]] with either bound possibly absent or
    negative. *)
Definition slice_bound (n : nat) (i : Z) : nat :=
  if i <? 0 then Z.to_nat (Z.max 0 (Z.of_nat n + i))
  else Z.to_nat (Z.min i (Z.of_nat n)).

Definition py_slice {A} (a : list A) (lo hi : option Z) : list A :=
  let n := length a in
  let l := from_option (slice_bound n) 0%nat lo in
  let h := from_option (slice_bound n) n hi in
  take (h - l) (drop l a).

(** ** Interval expansion *)

Definition _interval_ranges (indices right : list Z) : res (list Z) :=
  cum_length ← np.sub right indices;
  let cum_length := np.cumsum cum_length in
  total ← np.getitem cum_length (-1);
  ids ← np.ones total;
  first ← np.getitem indices 0;
  ids ← np.setitem ids 0 first;
  shifts ← np.sub (py_slice indices (Some 1) None) (py_slice right None (Some (-1)));
  ids ← np.put ids (py_slice cum_length None (Some (-1))) ((λ d, d + 1) <$> shifts);
  Ok (np.cumsum ids).

(** The ranges [range(indices[i], right[i])], one after the other. *)
Definition zrange (lo hi : Z) : list Z :=
  (λ k : nat, lo + Z.of_nat k) <$> seq 0 (Z.to_nat (hi - lo)).

Fixpoint ranges (indices right : list Z) : list Z :=
  match indices, right with
  | i :: indices', r :: right' => zrange i r ++ ranges indices' right'
  | _, _ => []
  end.

(** Total length of the ranges. *)
Definition zsum (a : list Z) : Z := foldr Z.add 0 a.

(** The array [ids] of [_interval_ranges] just before its final cumulative
    sum: a range starts with the step from the last position of the range
    before it (from [prev] for the first one) and goes on by steps of one. *)
Fixpoint steps (prev : Z) (indices right : list Z) : list Z :=
  match indices, right with
  | i :: indices', r :: right' =>
      (i - prev) :: replicate (Z.to_nat (r - i) - 1) 1 ++ steps (r - 1) indices' right'
  | _, _ => []
  end.

(** ** Columns *)

(** A cell: a number, or the null of a numpy-backed column. *)
Definition value := option Z.

(** A pandas Series: its cells in row order, each with its row label. *)
Definition Series := list (Z * value).

(** A Series without null. *)
Definition NumSeries := list (Z * Z).

(** [s.hasnans] *)
Definition hasnans (s : Series) : bool := existsb (λ p, bool_decide (p.2 = None)) s.

(** [s.dropna()], as a Series. *)
Definition notna (s : Series) : Series := filter (λ p, p.2 ≠ None) s.

(** [s.dropna()] where the numbers are read next: the cells that remain are
    numbers, and the type records it. *)
Definition dropna (s : Series) : NumSeries := omap (λ p, pair p.1 <$> p.2) s.

(** [s.index.to_numpy(dtype=int)] and [extract_array(s, extract_numpy=True)] *)
Definition index_of {V} (s : list (Z * V)) : list Z := fst <$> s.
Definition extract_array {V} (s : list (Z * V)) : list V := snd <$> s.

Definition list_min (a : list Z) : value :=
  match a with [] => None | x :: a' => Some (foldr Z.min x a') end.
Definition list_max (a : list Z) : value :=
  match a with [] => None | x :: a' => Some (foldr Z.max x a') end.

(** [s.min()] and [s.max()] skip the nulls and are null when nothing is left. *)
Definition s_min (s : Series) : value := list_min (extract_array (dropna s)).
Definition s_max (s : Series) : value := list_max (extract_array (dropna s)).

(** [a > b] on scalars: false as soon as one is null. *)
Definition scalar_gt (a b : value) : bool :=
  match a, b with Some x, Some y => y <? x | _, _ => false end.
Definition scalar_lt (a b : value) : bool :=
  match a, b with Some x, Some y => x <? y | _, _ => false end.

Fixpoint monotonic (a : list Z) : bool :=
  match a with
  | x :: (y :: _) as a' => (x <=? y) && monotonic a'
  | _ => true
  end.

(** [s.is_monotonic_increasing] *)
Definition is_monotonic_increasing (s : NumSeries) : bool := monotonic (extract_array s).

(** [s.sort_values()]: the rows by ascending value, the rows of one value in
    the order they had (numpy's default sort of a short array is an insertion
    sort, which leaves them so). *)
Definition by_value (p q : Z * Z) : Prop := p.2 ≤ q.2.

Fixpoint insert_by_value (p : Z * Z) (s : NumSeries) : NumSeries :=
  match s with
  | [] => [p]
  | q :: s' => if q.2 <? p.2 then q :: insert_by_value p s' else p :: s
  end.

Definition sort_values (s : NumSeries) : NumSeries := foldr insert_by_value [] s.

(** ** Operators *)

Inductive _JoinOperator :=
  | GREATER_THAN
  | LESS_THAN
  | GREATER_THAN_OR_EQUAL
  | LESS_THAN_OR_EQUAL
  | STRICTLY_EQUAL
  | NOT_EQUAL.

Definition op_value (op : _JoinOperator) : string :=
  match op with
  | GREATER_THAN => ">"
  | LESS_THAN => "<"
  | GREATER_THAN_OR_EQUAL => ">="
  | LESS_THAN_OR_EQUAL => "<="
  | STRICTLY_EQUAL => "=="
  | NOT_EQUAL => "!="
  end.

Definition all_operators : list _JoinOperator :=
  [GREATER_THAN; LESS_THAN; GREATER_THAN_OR_EQUAL; LESS_THAN_OR_EQUAL; STRICTLY_EQUAL; NOT_EQUAL].

Definition less_than_join_types : list string :=
  [op_value LESS_THAN; op_value LESS_THAN_OR_EQUAL].
Definition greater_than_join_types : list string :=
  [op_value GREATER_THAN; op_value GREATER_THAN_OR_EQUAL].

(** [x in s] for a set of strings *)
Definition str_in (x : string) (s : list string) : bool := bool_decide (x ∈ s).

(** The functions of Python's [operator] module on cells, as numpy applies
    them elementwise: a comparison with a null is false, except [!=], which
    is true. *)
Module operator.
Definition eq (a b : value) : bool :=
  match a, b with Some x, Some y => x =? y | _, _ => false end.
Definition lt (a b : value) : bool :=
  match a, b with Some x, Some y => x <? y | _, _ => false end.
Definition le (a b : value) : bool :=
  match a, b with Some x, Some y => x <=? y | _, _ => false end.
Definition gt (a b : value) : bool :=
  match a, b with Some x, Some y => y <? x | _, _ => false end.
Definition ge (a b : value) : bool :=
  match a, b with Some x, Some y => y <=? x | _, _ => false end.
Definition ne (a b : value) : bool := negb (eq a b).
End operator.

Definition operator_map : list (string * (value → value → bool)) :=
  [ (op_value STRICTLY_EQUAL, operator.eq);
    (op_value LESS_THAN, operator.lt);
    (op_value LESS_THAN_OR_EQUAL, operator.le);
    (op_value GREATER_THAN, operator.gt);
    (op_value GREATER_THAN_OR_EQUAL, operator.ge);
    (op_value NOT_EQUAL, operator.ne) ].

(** [d[key]] for a dict given by its items *)
Definition dict_get {V} (d : list (string * V)) (key : string) : res V :=
  match list_find (λ kv, kv.1 = key) d with
  | Some (_, kv) => Ok kv.2
  | None => Raise KeyError
  end.

(** ** Range matchers *)

(** What a matcher returns when there is a match: the final index pairs, or,
    when more conditions remain ([len_conditions > 1]), the surviving left
    labels, the right labels in search order and, per left row, the bounds of
    the range of right positions it matches. *)
Inductive Matches :=
  | Pairs (left_c right_c : list Z)
  | Bounds (left_index right_index search_indices indices : list Z).

(** The rows flagged in [rows_equal] are discarded from the three parallel
    arrays of a matcher:
    [if rows_equal.any(): left_c = left_c[~rows_equal]; ...]. *)
Definition discard (rows_equal : list bool) (left_c left_index search_indices : list Z)
  : res (list Z * list Z * list Z) :=
  if np.any rows_equal then
    left_c ← np.mask left_c (np.invert rows_equal);
    left_index ← np.mask left_index (np.invert rows_equal);
    search_indices ← np.mask search_indices (np.invert rows_equal);
    Ok (left_c, left_index, search_indices)
  else Ok (left_c, left_index, search_indices).

Definition _less_than_indices (left_c right_c : Series) (strict : bool)
    (len_conditions : Z) : res (option Matches) :=
  if scalar_gt (s_min left_c) (s_max right_c) then Ok None else
  let right_c := dropna right_c in
  let right_c := if is_monotonic_increasing right_c then right_c else sort_values right_c in
  let left_c := dropna left_c in
  let left_index := index_of left_c in
  let left_c := extract_array left_c in
  let right_index := index_of right_c in
  let right_c := extract_array right_c in
  let search_indices := np.searchsorted right_c left_c np.SideLeft in
  let len_right := np.size right_c in
  let rows_equal := (λ i, i =? len_right) <$> search_indices in
  '(left_c, left_index, search_indices) ←
    discard rows_equal left_c left_index search_indices;
  if np.size search_indices =? 0 then Ok None else
  '(left_c, left_index, search_indices) ←
    (if strict then
       rows_equal ← np.take right_c search_indices;
       rows_equal ← np.binop Z.eqb left_c rows_equal;
       let search_indices :=
         if np.any rows_equal then
           let replacements := np.searchsorted right_c left_c np.SideRight in
           np.where_ rows_equal replacements search_indices
         else search_indices in
       let rows_equal := (λ i, i =? len_right) <$> search_indices in
       discard rows_equal left_c left_index search_indices
     else Ok (left_c, left_index, search_indices));
  if np.size search_indices =? 0 then Ok None else
  let indices := np.repeat_scalar len_right (length search_indices) in
  if 1 <? len_conditions then
    Ok (Some (Bounds left_index right_index search_indices indices))
  else
    positions ← _interval_ranges search_indices indices;
    search_indices ← np.sub indices search_indices;
    right_c ← np.take right_index positions;
    left_c ← np.repeat left_index search_indices;
    Ok (Some (Pairs left_c right_c)).

Definition _greater_than_indices (left_c right_c : Series) (strict : bool)
    (len_conditions : Z) : res (option Matches) :=
  if scalar_lt (s_max left_c) (s_min right_c) then Ok None else
  let right_c := dropna right_c in
  let right_c := if is_monotonic_increasing right_c then right_c else sort_values right_c in
  let left_c := dropna left_c in
  let left_index := index_of left_c in
  let left_c := extract_array left_c in
  let right_index := index_of right_c in
  let right_c := extract_array right_c in
  let search_indices := np.searchsorted right_c left_c np.SideRight in
  let rows_equal := (λ i, i <? 1) <$> search_indices in
  '(left_c, left_index, search_indices) ←
    discard rows_equal left_c left_index search_indices;
  if np.size search_indices =? 0 then Ok None else
  '(left_c, left_index, search_indices) ←
    (if strict then
       rows_equal ← np.take right_c ((λ i, i - 1) <$> search_indices);
       rows_equal ← np.binop Z.eqb left_c rows_equal;
       let search_indices :=
         if np.any rows_equal then
           let replacements := np.searchsorted right_c left_c np.SideLeft in
           let replacements :=
             (λ i, if i =? np.size right_c then i - 1 else i) <$> replacements in
           np.where_ rows_equal replacements search_indices
         else search_indices in
       let rows_equal := (λ i, i <? 1) <$> search_indices in
       discard rows_equal left_c left_index search_indices
     else Ok (left_c, left_index, search_indices));
  if np.size search_indices =? 0 then Ok None else
  let indices := np.repeat_scalar 0 (length search_indices) in
  if 1 <? len_conditions then
    Ok (Some (Bounds left_index right_index search_indices indices))
  else
    positions ← _interval_ranges indices search_indices;
    right_c ← np.take right_index positions;
    left_c ← np.repeat left_index search_indices;
    Ok (Some (Pairs left_c right_c)).

(** The key tuples of the rows of a table, each with its row label: what
    [_equal_indices] is given, a Series being a table of one key column. *)
Definition KeyRows := list (Z * list value).

Definition series_keys (s : Series) : KeyRows := (λ p, (p.1, [p.2])) <$> s.

(** pandas' hash join ([_MergeOperation(...)._get_join_indexers()], inner,
    [sort=False]): the pairs of positions whose key tuples are equal, key by
    key in the order in which the keys first come in the left table, and for
    one key by left and then right position. pandas takes two nulls as equal
    keys. *)
Definition first_seen (keys : list (list value)) : list (list value) :=
  reverse (remove_dups (reverse keys)).

Definition rows_with_key (k : list value) (keys : list (list value)) : list Z :=
  (filter (λ p, p.2 = k) (imap (λ i x, (Z.of_nat i, x)) keys)).*1.

Definition equal_positions (left right : list (list value)) : list (Z * Z) :=
  k ← first_seen left;
  i ← rows_with_key k left;
  j ← rows_with_key k right;
  [(i, j)].

Definition _get_join_indexers (left right : list (list value)) : list Z * list Z :=
  let pairs := equal_positions left right in
  (pairs.*1, pairs.*2).

(** [_MergeOperation(left=left_c, right=right_c, left_on=left_on,
    right_on=right_on, sort=False)]: building the operation reads every key
    column by its label, and pandas raises [ValueError] for a label that
    names two columns of its table, which is what a label listed twice in
    [left_on] or in [right_on] does. *)
Definition _MergeOperation (left_on right_on : list string) (left right : KeyRows)
  : res (list (list value) * list (list value)) :=
  if bool_decide (NoDup left_on ∧ NoDup right_on)
  then Ok (extract_array left, extract_array right)
  else Raise ValueError.

(** The key labels of a Series operand: its one name, which the model does
    not keep ([left_on = left_c.name]). *)
Definition series_name : list string := [""].

(** [left_on], [right_on]: [left_c.name] and [right_c.name] for two Series,
    [[*left_c.columns]] and [[*right_c.columns]] for two tables. *)
Definition _equal_indices (left_on right_on : list string) (left_c right_c : KeyRows)
    (len_conditions : Z) : res (option Matches) :=
  '(left_keys, right_keys) ← _MergeOperation left_on right_on left_c right_c;
  let '(left_index, right_index) := _get_join_indexers left_keys right_keys in
  if negb (0 <? np.size left_index) then Ok None else
  if 1 <? len_conditions then Ok (Some (Pairs left_index right_index)) else
  l ← np.take (index_of left_c) left_index;
  r ← np.take (index_of right_c) right_index;
  Ok (Some (Pairs l r)).

(** Unpacking a matcher's tuple into two names fails on the four-element
    form. *)
Definition unpack2 (m : Matches) : res (list Z * list Z) :=
  match m with
  | Pairs l r => Ok (l, r)
  | Bounds _ _ _ _ => Raise ValueError
  end.

Definition _not_equal_indices (left_c right_c : Series) : res (option Matches) :=
  let dummy : list Z := [] in
  outcome ← _less_than_indices left_c right_c true 1;
  '(lt_left, lt_right) ←
    match outcome with
    | None => Ok (dummy, dummy)
    | Some m => unpack2 m
    end;
  outcome ← _greater_than_indices left_c right_c true 1;
  '(gt_left, gt_right) ←
    match outcome with
    | None => Ok (dummy, dummy)
    | Some m => unpack2 m
    end;
  if negb (0 <? np.size lt_left) && negb (0 <? np.size gt_left) then Ok None else
  let left_c := lt_left ++ gt_left in
  let right_c := lt_right ++ gt_right in
  Ok (Some (Pairs left_c right_c)).

Definition _generic_func_cond_join (left_c right_c : Series) (op : string)
    (len_conditions : Z) : res (option Matches) :=
  let strict :=
    str_in op [op_value GREATER_THAN; op_value LESS_THAN; op_value NOT_EQUAL] in
  if str_in op less_than_join_types then
    _less_than_indices left_c right_c strict len_conditions
  else if str_in op greater_than_join_types then
    _greater_than_indices left_c right_c strict len_conditions
  else if bool_decide (op = op_value NOT_EQUAL) then
    _not_equal_indices left_c right_c
  else
    _equal_indices series_name series_name
      (series_keys left_c) (series_keys right_c) len_conditions.

(** ** Tables *)

(** numpy and pandas dtypes of a column. *)
Inductive dtype :=
  | int64 | uint64 | float64 | datetime64 | object_ | category | bool_.

#[global] Instance dtype_eq_dec : EqDecision dtype.
Proof. solve_decision. Defined.

(** [dtype.kind] *)
Definition kind (d : dtype) : string :=
  match d with
  | int64 => "i" | uint64 => "u" | float64 => "f" | datetime64 => "M"
  | object_ => "O" | category => "O" | bool_ => "b"
  end.

(** The column labels of a table: plain strings, or tuples of strings under
    a MultiIndex. *)
Inductive ColumnIndex :=
  | Index (labels : list string)
  | MultiIndex (labels : list (list string)).

(** A DataFrame, by rows: every row has its label and one cell per column. *)
Record DataFrame := mkDataFrame {
  columns : ColumnIndex;
  dtypes : list dtype;
  rows : list (Z * list value);
}.

Definition index (df : DataFrame) : list Z := index_of (rows df).

(** [len(df)] *)
Definition len (df : DataFrame) : Z := Z.of_nat (length (rows df)).

(** [pd.RangeIndex(start=0, stop=n)] *)
Definition RangeIndex (n : Z) : list Z := zrange 0 n.

(** [df.index = labels]: pandas refuses labels of another length. *)
Definition set_index (df : DataFrame) (labels : list Z) : res DataFrame :=
  if decide (length labels = length (rows df)) then
    Ok (mkDataFrame (columns df) (dtypes df) (zip labels (extract_array (rows df))))
  else Raise ValueError.

(** Position of a column of plain label [name]. *)
Definition column_pos (df : DataFrame) (name : string) : option nat :=
  match columns df with
  | Index labels => fst <$> list_find (λ l, l = name) labels
  | MultiIndex _ => None
  end.

Definition cell (k : nat) (row : Z * list value) : value := default None (row.2 !! k).

(** [df[name]] *)
Definition getitem_col (df : DataFrame) (name : string) : res Series :=
  match column_pos df name with
  | Some k => Ok ((λ row, (row.1, cell k row)) <$> rows df)
  | None => Raise KeyError
  end.

(** The row of label [l]. *)
Definition row_at (df : DataFrame) (l : Z) : res (Z * list value) :=
  match list_find (λ row, row.1 = l) (rows df) with
  | Some (_, row) => Ok row
  | None => Raise KeyError
  end.

Fixpoint rows_at (df : DataFrame) (labels : list Z) : res (list (Z * list value)) :=
  match labels with
  | [] => Ok []
  | l :: labels' => row ← row_at df l; rest ← rows_at df labels'; Ok (row :: rest)
  end.

(** [df.loc[labels]] and [df.loc[labels, name]] *)
Definition loc (df : DataFrame) (labels : list Z) : res DataFrame :=
  found ← rows_at df labels;
  Ok (mkDataFrame (columns df) (dtypes df) found).

Definition loc_col (df : DataFrame) (labels : list Z) (name : string) : res Series :=
  sub ← loc df labels;
  getitem_col sub name.

(** [df.loc[:, [*names]]]: the key columns of every row. *)
Fixpoint positions_of (df : DataFrame) (names : list string) : res (list nat) :=
  match names with
  | [] => Ok []
  | name :: names' =>
      match column_pos df name with
      | Some k => ks ← positions_of df names'; Ok (k :: ks)
      | None => Raise KeyError
      end
  end.

Definition loc_cols (df : DataFrame) (names : list string) : res KeyRows :=
  positions_of df names ≫= λ ks : list nat,
  Ok ((λ row, (row.1, (λ k, cell k row) <$> ks)) <$> rows df).

(** [keys.isna().any(axis=None)] and [keys.dropna()] on key columns *)
Definition keys_hasnans (keys : KeyRows) : bool :=
  existsb (λ row, existsb (λ v, bool_decide (v = None)) row.2) keys.
Definition keys_dropna (keys : KeyRows) : KeyRows :=
  filter (λ row, Forall (λ v, v ≠ None) row.2) keys.

(** ** Multi-condition combiners *)

(** A validated condition [(left_on, right_on, op)]. *)
Definition Condition : Type := string * string * string.

Definition cond_op (c : Condition) : string := c.2.

(** [df_index, right_index, *_ = result] *)
Definition unpack_star (m : Matches) : list Z * list Z :=
  match m with
  | Pairs l r => (l, r)
  | Bounds l r _ _ => (l, r)
  end.

(** [df_index, right_index, search_indices, indices = result] *)
Definition unpack4 (m : Matches) : res (list Z * list Z * list Z * list Z) :=
  match m with
  | Bounds l r s i => Ok (l, r, s, i)
  | Pairs _ _ => Raise ValueError
  end.

(** The masks of the conditions applied elementwise to the candidate cells:
    [mask = op(left_c, right_c)] for the first one, [mask &= op(...)] for the
    next ones. [cells] gives the two arrays of cells of a condition. *)
Fixpoint masks (cells : string → string → res (list value * list value))
    (rest : list Condition) (mask : option (list bool)) : res (option (list bool)) :=
  match rest with
  | [] => Ok mask
  | (left_on, right_on, op) :: rest' =>
      '(left_c, right_c) ← cells left_on right_on;
      op ← dict_get operator_map op;
      m ← np.binop op left_c right_c;
      mask ← match mask with
             | None => Ok m
             | Some mask => np.binop andb mask m
             end;
      masks cells rest' (Some mask)
  end.

(** [mask.any()], which fails when no mask was built. *)
Definition mask_any (mask : option (list bool)) : res (list bool * bool) :=
  match mask with
  | Some m => Ok (m, np.any m)
  | None => Raise TypeError
  end.

Definition _multiple_conditional_join_eq (df right : DataFrame)
    (conditions : list Condition) : res (option (list Z * list Z)) :=
  let eq_cond := filter (λ c, cond_op c = op_value STRICTLY_EQUAL) conditions in
  let rest := filter (λ c, cond_op c ≠ op_value STRICTLY_EQUAL) conditions in
  '(df, right, left_on, right_on, left_c, right_c) ←
    (if decide (length eq_cond = 1%nat) then
       '(left_on, right_on, _) ← np.getitem eq_cond 0;
       left_c ← getitem_col df left_on;
       right_c ← getitem_col right right_on;
       '(left_c, df) ←
         (if hasnans left_c then
            let left_c := notna left_c in
            df ← loc df (index_of left_c); Ok (left_c, df)
          else Ok (left_c, df));
       '(right_c, right) ←
         (if hasnans right_c then
            let right_c := notna right_c in
            right ← loc right (index_of right_c); Ok (right_c, right)
          else Ok (right_c, right));
       Ok (df, right, [left_on], [right_on], series_keys left_c, series_keys right_c)
     else
       let left_on := (λ c : Condition, c.1.1) <$> eq_cond in
       let right_on := (λ c : Condition, c.1.2) <$> eq_cond in
       left_c ← loc_cols df left_on;
       right_c ← loc_cols right right_on;
       '(left_c, df) ←
         (if keys_hasnans left_c then
            let left_c := keys_dropna left_c in
            df ← loc df (index_of left_c); Ok (left_c, df)
          else Ok (left_c, df));
       '(right_c, right) ←
         (if keys_hasnans right_c then
            let right_c := keys_dropna right_c in
            right ← loc right (index_of right_c); Ok (right_c, right)
          else Ok (right_c, right));
       Ok (df, right, left_on, right_on, left_c, right_c));
  (* _generic_func_cond_join with the operator == is _equal_indices *)
  result ← _equal_indices left_on right_on left_c right_c 2;
  match result with
  | None => Ok None
  | Some result =>
      '(df_index, right_index) ← unpack2 result;
      if decide (rest = []) then
        l ← np.take (index df) df_index;
        r ← np.take (index right) right_index;
        Ok (Some (l, r))
      else
        mask ← masks (λ left_on right_on,
                  left_c ← getitem_col df left_on;
                  left_c ← np.take (extract_array left_c) df_index;
                  right_c ← getitem_col right right_on;
                  right_c ← np.take (extract_array right_c) right_index;
                  Ok (left_c, right_c)) rest None;
        '(mask, any) ← mask_any mask;
        if negb any then Ok None else
        df_index ← np.mask df_index mask;
        right_index ← np.mask right_index mask;
        l ← np.take (index df) df_index;
        r ← np.take (index right) right_index;
        Ok (Some (l, r))
  end.

(** [first, *rest = conditions] *)
Definition uncons {A} (l : list A) : res (A * list A) :=
  match l with
  | x :: l' => Ok (x, l')
  | [] => Raise ValueError
  end.

(** The cells of a condition at the candidate labels, as the mask steps of
    the two other combiners read them. *)
Definition cells_at (df right : DataFrame) (df_index right_index : list Z)
    (left_on right_on : string) : res (list value * list value) :=
  left_c ← loc_col df df_index left_on;
  right_c ← loc_col right right_index right_on;
  Ok (extract_array left_c, extract_array right_c).

Definition _multiple_conditional_join_ne (df right : DataFrame)
    (conditions : list Condition) : res (option (list Z * list Z)) :=
  '(first, rest) ← uncons conditions;
  let '(left_on, right_on, op) := first in
  left_c ← getitem_col df left_on;
  right_c ← getitem_col right right_on;
  result ← _generic_func_cond_join left_c right_c op 1;
  match result with
  | None => Ok None
  | Some result =>
      '(df_index, right_index) ← unpack2 result;
      mask ← masks (cells_at df right df_index right_index) rest None;
      '(mask, any) ← mask_any mask;
      if negb any then Ok None else
      l ← np.mask df_index mask;
      r ← np.mask right_index mask;
      Ok (Some (l, r))
  end.

(** The first loop of [_multiple_conditional_join_le_lt]: every ordering
    condition narrows the labels of the two tables; [lt_gt] remembers the
    last ordering condition met. The result is [None] when the function
    returns [None] from inside the loop. *)
Fixpoint narrow (df right : DataFrame) (conditions : list Condition)
    (df_index right_index : list Z) (lt_gt : option Condition)
  : res (option (list Z * list Z * option Condition)) :=
  match conditions with
  | [] => Ok (Some (df_index, right_index, lt_gt))
  | (left_on, right_on, op) :: conditions' =>
      let less_greater_types := less_than_join_types ++ greater_than_join_types in
      if negb (str_in op less_greater_types) && bool_decide (op = op_value NOT_EQUAL) then
        narrow df right conditions' df_index right_index lt_gt
      else
        let lt_gt :=
          if str_in op less_greater_types then Some (left_on, right_on, op) else lt_gt in
        left_c ← loc_col df df_index left_on;
        right_c ← loc_col right right_index right_on;
        result ← _generic_func_cond_join left_c right_c op 2;
        match result with
        | None => Ok None
        | Some result =>
            let '(df_index, right_index) := unpack_star result in
            narrow df right conditions' df_index right_index lt_gt
        end
  end.

(** [conditions.remove(x)] *)
Fixpoint list_remove (x : Condition) (l : list Condition) : res (list Condition) :=
  match l with
  | [] => Raise ValueError
  | y :: l' => if decide (y = x) then Ok l' else l'' ← list_remove x l'; Ok (y :: l'')
  end.

(** The second loop of [_multiple_conditional_join_le_lt]: the range of right
    positions of every left row is scanned for the entries that meet the
    second condition. *)
Fixpoint scan (op : value → value → bool) (right_c : list value) (right_index : list Z)
    (todo : list (Z * value * Z * Z))
  : res (list Z * list Z * list (list Z)) :=
  match todo with
  | [] => Ok ([], [], [])
  | (indx, val, lo, hi) :: todo' =>
      let search := py_slice right_c (Some lo) (Some hi) in
      let indexer := py_slice right_index (Some lo) (Some hi) in
      let mask := op val <$> search in
      if negb (np.any mask) then scan op right_c right_index todo'
      else
        indexer ← np.mask indexer mask;
        '(index_df, repeater, index_right) ← scan op right_c right_index todo';
        Ok (indx :: index_df, np.size indexer :: repeater, indexer :: index_right)
  end.

(** [zip(a, b, c, d)] *)
Definition zip4 {A B C D} (a : list A) (b : list B) (c : list C) (d : list D)
  : list (A * B * C * D) :=
  zip (zip (zip a b) c) d.

(** The end of [_multiple_conditional_join_le_lt], from the second
    [first, *rest = rest] on: the second condition is checked along the
    range of every left row, the other ones are applied as masks. *)
Definition le_lt_scan (df right : DataFrame) (df_index right_index low high : list Z)
    (rest : list Condition) : res (option (list Z * list Z)) :=
  '(first, rest) ← uncons rest;
  let '(left_on, right_on, op) := first in
  left_c ← loc_col df df_index left_on;
  let left_c := extract_array left_c in
  right_c ← loc_col right right_index right_on;
  let right_c := extract_array right_c in
  op ← dict_get operator_map op;
  '(index_df, repeater, index_right) ←
    scan op right_c right_index (zip4 df_index left_c low high);
  if decide (index_df = []) then Ok None else
  df_index ← np.repeat index_df repeater;
  let right_index := concat index_right in
  if decide (rest = []) then Ok (Some (df_index, right_index)) else
  mask ← masks (cells_at df right df_index right_index) rest None;
  '(mask, any) ← mask_any mask;
  if negb any then Ok None else
  l ← np.mask df_index mask;
  r ← np.mask right_index mask;
  Ok (Some (l, r)).

(** The middle of [_multiple_conditional_join_le_lt], from the first
    [first, *rest = conditions] on: the first condition gives every left row
    its range of right positions. *)
Definition le_lt_search (df right : DataFrame) (df_index right_index : list Z)
    (conditions : list Condition) : res (option (list Z * list Z)) :=
  '(first, rest) ← uncons conditions;
  let '(left_on, right_on, op) := first in
  left_c ← loc_col df df_index left_on;
  right_c ← loc_col right right_index right_on;
  result ← _generic_func_cond_join left_c right_c op 2;
  match result with
  | None => Ok None
  | Some result =>
      '(df_index, right_index, search_indices, indices) ← unpack4 result;
      let '(low, high) :=
        if str_in op less_than_join_types then (search_indices, indices)
        else (indices, search_indices) in
      le_lt_scan df right df_index right_index low high rest
  end.

Definition _multiple_conditional_join_le_lt (df right : DataFrame)
    (conditions : list Condition) : res (option (list Z * list Z)) :=
  let df_index := index df in
  let right_index := index right in
  let less_greater_types := less_than_join_types ++ greater_than_join_types in
  narrowed ← narrow df right conditions df_index right_index None;
  match narrowed with
  | None => Ok None
  | Some (df_index, right_index, lt_gt) =>
      c0 ← np.getitem conditions 0;
      conditions ←
        (if negb (str_in (cond_op c0) less_greater_types) then
           match lt_gt with
           | Some lt_gt => others ← list_remove lt_gt conditions; Ok (lt_gt :: others)
           | None => Raise ValueError
           end
         else Ok conditions);
      le_lt_search df right df_index right_index conditions
  end.

(** The middle of [_conditional_join_compute]: with the flags its first loop
    has set, one matcher for one condition and one of the three combiners
    otherwise; the index pairs go to the assembly of the result. [df] and
    [right] are the working copies, already indexed by position. *)
Definition join_indices (df right : DataFrame) (conditions : list Condition)
    (eq_check less_great : bool) : res (option (list Z * list Z)) :=
  if decide (length conditions = 1%nat) then
    '(left_on, right_on, op) ← np.getitem conditions 0;
    left_c ← getitem_col df left_on;
    right_c ← getitem_col right right_on;
    let left_c := if eq_check && hasnans left_c then notna left_c else left_c in
    let right_c := if eq_check && hasnans right_c then notna right_c else right_c in
    result ← _generic_func_cond_join left_c right_c op 1;
    match result with
    | None => Ok None
    | Some result => pair ← unpack2 result; Ok (Some pair)
    end
  else if eq_check then _multiple_conditional_join_eq df right conditions
  else if less_great then _multiple_conditional_join_le_lt df right conditions
  else _multiple_conditional_join_ne df right conditions.

(** ** The objects of a call *)

(** A pandas Series object: its name, its dtype and its cells. *)
Record SeriesObj := mkSeries {
  name : option string;
  s_dtype : dtype;
  s_cells : Series;
}.

(** What a caller can pass for a table. *)
Inductive PandasObject :=
  | PdFrame (df : DataFrame)
  | PdSeries (s : SeriesObj)
  | PdOther.

(** What a caller can pass for a condition, for [how] and for
    [sort_by_appearance]. *)
#[local] Set Warnings "-register-all".
Inductive pyobj :=
  | PyStr (s : string)
  | PyBool (b : bool)
  | PyTuple (items : list pyobj)
  | PyOther.

(** The Python heap as far as the call is concerned: the pandas objects,
    named by their position. An object is shared when its position is. *)
Definition ref := nat.
Abbreviation store := (list PandasObject).

(** Computations that read and update the heap and may raise. *)
Definition State (A : Type) : Type := store → res A * store.

#[global] Instance State_ret : MRet State := λ A a s, (Ok a, s).
#[global] Instance State_bind : MBind State := λ A B f m s,
  match m s with
  | (Ok a, s') => f a s'
  | (Raise e, s') => (Raise e, s')
  end.

Definition raise {A} (e : exn) : State A := λ s, (Raise e, s).
Definition lift {A} (m : res A) : State A := λ s, (m, s).
Definition read (r : ref) : State PandasObject := λ s,
  match s !! r with
  | Some o => (Ok o, s)
  | None => (Raise KeyError, s)
  end.
Definition alloc (o : PandasObject) : State ref := λ s, (Ok (length s), s ++ [o]).
Definition write (r : ref) (o : PandasObject) : State unit := λ s, (Ok (), <[r:=o]> s).

Definition read_frame (r : ref) : State DataFrame :=
  o ← read r;
  match o with
  | PdFrame df => mret df
  | _ => raise TypeError
  end.

(** [obj.copy()]: a new object with the same content. *)
Definition copy (r : ref) : State ref := o ← read r; alloc o.

(** [df.index = labels] and [df.columns = labels] on the object [r]. *)
Definition assign_index (r : ref) (labels : list Z) : State unit :=
  df ← read_frame r;
  df ← lift (set_index df labels);
  write r (PdFrame df).

Definition assign_columns (r : ref) (labels : ColumnIndex) : State unit :=
  df ← read_frame r;
  write r (PdFrame (mkDataFrame labels (dtypes df) (rows df))).

(** ** Validation *)

(** Modelled from the spec: [check] of [janitor.utils], which is not among
    the sources. The specification has every violation of the contract on
    the arguments fail with a ValueError-kind error; [expected_types] are the
    [isinstance] tests of the accepted types. *)
Definition check {V} (varname : string) (value : V) (expected_types : list (V → bool))
  : res unit :=
  if existsb (λ t, t value) expected_types then Ok () else Raise ValueError.

Definition is_str (o : pyobj) : bool := match o with PyStr _ => true | _ => false end.
Definition is_bool (o : pyobj) : bool := match o with PyBool _ => true | _ => false end.
Definition is_tuple (o : pyobj) : bool := match o with PyTuple _ => true | _ => false end.
Definition is_DataFrame (o : PandasObject) : bool :=
  match o with PdFrame _ => true | _ => false end.
Definition is_Series (o : PandasObject) : bool :=
  match o with PdSeries _ => true | _ => false end.

Definition column_labels (df : DataFrame) : list (list string) :=
  match columns df with
  | Index labels => (λ l, [l]) <$> labels
  | MultiIndex labels => labels
  end.

(** Modelled from the spec: [check_column] of [janitor.utils], which is not
    among the sources: a condition must reference existing columns, and a
    violation fails with a ValueError-kind error. *)
Definition check_column (df : DataFrame) (column_name : string) : res unit :=
  if bool_decide ([column_name] ∈ column_labels df) then Ok () else Raise ValueError.

(** [df.empty]: no row or no column. *)
Definition empty (df : DataFrame) : bool :=
  bool_decide (rows df = []) || bool_decide (column_labels df = []).

(** [isinstance(df.columns, pd.MultiIndex)] *)
Definition is_MultiIndex (df : DataFrame) : bool :=
  match columns df with MultiIndex _ => true | Index _ => false end.

(** [series.to_frame()] for a named Series. *)
Definition to_frame (s : SeriesObj) : DataFrame :=
  mkDataFrame (Index [default "" (name s)]) [s_dtype s]
    ((λ p, (p.1, [p.2])) <$> s_cells s).

Inductive _JoinTypes := INNER | LEFT | RIGHT.

Definition how_value (h : _JoinTypes) : string :=
  match h with INNER => "inner" | LEFT => "left" | RIGHT => "right" end.

Definition _check_operator (op : string) : res unit :=
  let sequence_of_operators := op_value <$> all_operators in
  if negb (str_in op sequence_of_operators) then Raise ValueError else Ok ().

(** [len(condition) != 3] for every condition, after the tuple check. *)
Fixpoint check_shapes (conditions : list pyobj) : res unit :=
  match conditions with
  | [] => Ok ()
  | condition :: conditions' =>
      check "condition" condition [is_tuple];;
      match condition with
      | PyTuple items =>
          if negb (bool_decide (length items = 3%nat)) then Raise ValueError
          else check_shapes conditions'
      | _ => Raise ValueError
      end
  end.

Definition as_str (o : pyobj) : string := match o with PyStr s => s | _ => "" end.

(** The second loop over the conditions: the three elements are strings,
    the columns exist, the operator is known. *)
Fixpoint check_contents (df right : DataFrame) (conditions : list pyobj)
  : res (list Condition) :=
  match conditions with
  | [] => Ok []
  | PyTuple [left_on; right_on; op] :: conditions' =>
      check "left_on" left_on [is_str];;
      check "right_on" right_on [is_str];;
      check "operator" op [is_str];;
      check_column df (as_str left_on);;
      check_column right (as_str right_on);;
      _check_operator (as_str op);;
      rest ← check_contents df right conditions';
      Ok ((as_str left_on, as_str right_on, as_str op) :: rest)
  | _ => Raise ValueError
  end.

Definition _conditional_join_preliminary_checks (df right : ref)
    (conditions : list pyobj) (how sort_by_appearance : pyobj)
  : State (ref * ref * list Condition * string * bool) :=
  df_v ← read_frame df;
  if empty df_v then raise ValueError else
  if is_MultiIndex df_v then raise ValueError else
  right_v ← read right;
  lift (check "`right`" right_v [is_DataFrame; is_Series]);;
  df ← copy df;
  right ← copy right;
  right_v ← read right;
  right ←
    match right_v with
    | PdSeries s =>
        if bool_decide (name s = None ∨ name s = Some "") then raise ValueError
        else alloc (PdFrame (to_frame s))
    | _ => mret right
    end;
  right_v ← read_frame right;
  if empty right_v then raise ValueError else
  if is_MultiIndex right_v then raise ValueError else
  if bool_decide (conditions = []) then raise ValueError else
  lift (check_shapes conditions);;
  df_v ← read_frame df;
  conditions ← lift (check_contents df_v right_v conditions);
  lift (check "how" how [is_str]);;
  let join_types := how_value <$> [INNER; LEFT; RIGHT] in
  if negb (str_in (as_str how) join_types) then raise ValueError else
  lift (check "sort_by_appearance" sort_by_appearance [is_bool]);;
  mret (df, right, conditions, as_str how,
        match sort_by_appearance with PyBool b => b | _ => false end).

(** The dtype tests of [pandas.api.types]. *)
Definition is_datetime64_dtype (d : dtype) : bool := bool_decide (d = datetime64).
Definition is_integer_dtype (d : dtype) : bool := bool_decide (d = int64 ∨ d = uint64).
Definition is_float_dtype (d : dtype) : bool := bool_decide (d = float64).
Definition is_string_dtype (d : dtype) : bool := bool_decide (d = object_).
Definition is_categorical_dtype (d : dtype) : bool := bool_decide (d = category).

Definition permitted_types : list (dtype → bool) :=
  [is_datetime64_dtype; is_integer_dtype; is_float_dtype; is_string_dtype;
   is_categorical_dtype].

Definition _conditional_join_type_check (left_column right_column : dtype) (op : string)
  : res unit :=
  if negb (existsb (λ func, func left_column) permitted_types) then Raise ValueError else
  if negb (existsb (λ func, func left_column && func right_column) permitted_types)
  then Raise ValueError else
  if is_categorical_dtype left_column && negb (bool_decide (op = op_value STRICTLY_EQUAL))
  then Raise ValueError else
  if is_string_dtype left_column && negb (bool_decide (op = op_value STRICTLY_EQUAL))
  then Raise ValueError else
  Ok ().

(** The dtype of [df[name]]. *)
Definition dtype_of (df : DataFrame) (name : string) : res dtype :=
  match column_pos df name ≫= (dtypes df !!.) with
  | Some d => Ok d
  | None => Raise KeyError
  end.

(** The first loop of [_conditional_join_compute]: the type check of every
    condition, and the two flags that choose the combiner. *)
Fixpoint check_types (df right : DataFrame) (conditions : list Condition)
    (eq_check less_great : bool) : res (bool * bool) :=
  match conditions with
  | [] => Ok (eq_check, less_great)
  | (left_on, right_on, op) :: conditions' =>
      left_c ← dtype_of df left_on;
      right_c ← dtype_of right right_on;
      _conditional_join_type_check left_c right_c op;;
      if bool_decide (op = op_value STRICTLY_EQUAL) then
        check_types df right conditions' true less_great
      else if str_in op (less_than_join_types ++ greater_than_join_types) then
        check_types df right conditions' eq_check true
      else check_types df right conditions' eq_check less_great
  end.

(** ** Result assembly *)

(** [pd.MultiIndex.from_product([[side], df.columns])] *)
Definition from_product (side : string) (df : DataFrame) : ColumnIndex :=
  MultiIndex ((λ l, side :: l) <$> column_labels df).

(** The dtype a column takes when pandas has to put a null in it. *)
Definition promote (d : dtype) : dtype :=
  match d with
  | int64 | uint64 => float64
  | bool_ => object_
  | d => d
  end.

Definition append_columns (a b : DataFrame) : ColumnIndex :=
  match columns a, columns b with
  | Index la, Index lb => Index (la ++ lb)
  | _, _ => MultiIndex (column_labels a ++ column_labels b)
  end.

Definition nulls (df : DataFrame) : list value :=
  replicate (length (column_labels df)) None.

Definition matching (l : Z) (df : DataFrame) : list (Z * list value) :=
  filter (λ row, row.1 = l) (rows df).

(** pandas' join of two tables on their row labels ([df.join(other, how=how,
    sort=False)], and [pd.concat([df, other], axis="columns", join="inner")]
    for the inner one). The rows follow the order of the keys of the
    preserved side ([df] for "inner" and "left", [other] for "right"); a row
    of the preserved side without partner is completed with nulls, and the
    columns that receive a null are promoted. *)
Definition pd_join (df other : DataFrame) (how : string) : DataFrame :=
  let cols := append_columns df other in
  if bool_decide (how = how_value LEFT) then
    let unmatched := existsb (λ row, bool_decide (matching row.1 other = [])) (rows df) in
    mkDataFrame cols
      (dtypes df ++ if unmatched then promote <$> dtypes other else dtypes other)
      (row ← rows df;
       match matching row.1 other with
       | [] => [(row.1, row.2 ++ nulls other)]
       | found => (λ o, (row.1, row.2 ++ o.2)) <$> found
       end)
  else if bool_decide (how = how_value RIGHT) then
    let unmatched := existsb (λ row, bool_decide (matching row.1 df = [])) (rows other) in
    mkDataFrame cols
      ((if unmatched then promote <$> dtypes df else dtypes df) ++ dtypes other)
      (row ← rows other;
       match matching row.1 df with
       | [] => [(row.1, nulls df ++ row.2)]
       | found => (λ o, (row.1, o.2 ++ row.2)) <$> found
       end)
  else
    mkDataFrame cols (dtypes df ++ dtypes other)
      (row ← rows df; (λ o, (row.1, row.2 ++ o.2)) <$> matching row.1 other).

(** [df.reset_index(drop=True)] *)
Definition reset_index (df : DataFrame) : DataFrame :=
  mkDataFrame (columns df) (dtypes df)
    (zip (RangeIndex (len df)) (extract_array (rows df))).

(** [df.dtypes.to_dict()] and the merge [{**a, **b}] of two dicts given by
    their items. *)
Definition dtypes_to_dict (df : DataFrame) : list (list string * dtype) :=
  foldl (λ d kv, if bool_decide (kv.1 ∈ d.*1)
                 then (λ it, if bool_decide (it.1 = kv.1) then kv else it) <$> d
                 else d ++ [kv])
    [] (zip (column_labels df) (dtypes df)).

Definition dict_merge (a b : list (list string * dtype)) : list (list string * dtype) :=
  foldl (λ d kv, if bool_decide (kv.1 ∈ d.*1)
                 then (λ it, if bool_decide (it.1 = kv.1) then kv else it) <$> d
                 else d ++ [kv])
    a b.

(** [pd.DataFrame({key: pd.Series([], dtype=value) for key, value in d.items()})] *)
Definition empty_frame (d : list (list string * dtype)) : DataFrame :=
  mkDataFrame (MultiIndex d.*1) d.*2 [].

Definition widen (d : list (list string * dtype)) : list (list string * dtype) :=
  (λ kv, (kv.1, if bool_decide (kind kv.2 = "i") then float64 else kv.2)) <$> d.

Definition _create_conditional_join_empty_frame (df right : ref) (how : string)
  : State (option DataFrame) :=
  df_v ← read_frame df;
  assign_columns df (from_product "left" df_v);;
  right_v ← read_frame right;
  assign_columns right (from_product "right" right_v);;
  df_v ← read_frame df;
  right_v ← read_frame right;
  if bool_decide (how = how_value INNER) then
    let d := dict_merge (dtypes_to_dict df_v) (dtypes_to_dict right_v) in
    mret (Some (empty_frame d))
  else if bool_decide (how = how_value LEFT) then
    let right_v := empty_frame (widen (dtypes_to_dict right_v)) in
    mret (Some (pd_join df_v right_v how))
  else if bool_decide (how = how_value RIGHT) then
    let df_v := empty_frame (widen (dtypes_to_dict df_v)) in
    mret (Some (pd_join df_v right_v how))
  else mret None.

(** The order of [np.lexsort((right_index, left_index))]: by left label,
    then by right label, then by position (the sort is stable). *)
Definition lex_le (p q : Z * Z * Z) : Prop :=
  p.1.1 < q.1.1 ∨ (p.1.1 = q.1.1 ∧ (p.1.2 < q.1.2 ∨ (p.1.2 = q.1.2 ∧ p.2 ≤ q.2))).

#[global] Instance lex_le_dec : RelDecision lex_le.
Proof. intros p q. unfold lex_le. apply _. Defined.

Definition lexsort (right_index left_index : list Z) : res (list Z) :=
  if decide (length right_index = length left_index) then
    let keyed := zip (zip left_index right_index)
                   (RangeIndex (Z.of_nat (length left_index))) in
    Ok ((merge_sort lex_le keyed).*2)
  else Raise ValueError.

Definition _create_conditional_join_frame (df right : ref)
    (left_index right_index : list Z) (how : string) (sort_by_appearance : bool)
  : State (option DataFrame) :=
  '(left_index, right_index) ←
    (if sort_by_appearance then
       sorter ← lift (lexsort right_index left_index);
       right_index ← lift (np.take right_index sorter);
       left_index ← lift (np.take left_index sorter);
       mret (left_index, right_index)
     else mret (left_index, right_index));
  df_v ← read_frame df;
  assign_columns df (from_product "left" df_v);;
  right_v ← read_frame right;
  assign_columns right (from_product "right" right_v);;
  df_v ← read_frame df;
  right_v ← read_frame right;
  if bool_decide (how = how_value INNER) then
    df_v ← lift (loc df_v left_index);
    right_v ← lift (loc right_v right_index);
    df_v ← lift (set_index df_v (RangeIndex (np.size left_index)));
    right_v ← lift (set_index right_v (index df_v));
    mret (Some (pd_join df_v right_v how))
  else if bool_decide (how = how_value LEFT) then
    right_v ← lift (loc right_v right_index);
    right_v ← lift (set_index right_v left_index);
    mret (Some (reset_index (pd_join df_v right_v how)))
  else if bool_decide (how = how_value RIGHT) then
    df_v ← lift (loc df_v left_index);
    df_v ← lift (set_index df_v right_index);
    mret (Some (reset_index (pd_join df_v right_v how)))
  else mret None.

(** ** The join *)

Definition _conditional_join_compute (df right : ref) (conditions : list pyobj)
    (how sort_by_appearance : pyobj) : State (option DataFrame) :=
  '(df, right, conditions, how, sort_by_appearance) ←
    _conditional_join_preliminary_checks df right conditions how sort_by_appearance;
  df_v ← read_frame df;
  right_v ← read_frame right;
  '(eq_check, less_great) ← lift (check_types df_v right_v conditions false false);
  assign_index df (RangeIndex (len df_v));;
  assign_index right (RangeIndex (len right_v));;
  df_v ← read_frame df;
  right_v ← read_frame right;
  result ← lift (join_indices df_v right_v conditions eq_check less_great);
  match result with
  | None => _create_conditional_join_empty_frame df right how
  | Some (left_c, right_c) =>
      _create_conditional_join_frame df right left_c right_c how sort_by_appearance
  end.

Definition conditional_join (df right : ref) (conditions : list pyobj)
    (how sort_by_appearance : pyobj) : State (option DataFrame) :=
  _conditional_join_compute df right conditions how sort_by_appearance.

(** The index pairs a matcher returns, as a list of pairs. *)
Definition pairs_of (m : option Matches) : list (Z * Z) :=
  match m with
  | Some (Pairs l r) => zip l r
  | _ => []
  end.

(** ** What the conditions say *)

(** The cell of the column [name] in the row of label [l]. *)
Definition value_at (df : DataFrame) (name : string) (l : Z) : option value :=
  k ← column_pos df name;
  row ← list_find (λ row, row.1 = l) (rows df);
  Some (cell k row.2).

Definition val (df : DataFrame) (name : string) (l : Z) : value :=
  default None (value_at df name l).

(** The column [name] read at the labels [labels]. *)
Definition series_on (df : DataFrame) (name : string) (labels : list Z) : Series :=
  (λ l, (l, val df name l)) <$> labels.

(** A condition re-evaluated on the cells of a pair of rows, with the
    function its operator names. *)
Definition eval_cond (df right : DataFrame) (c : Condition) (l r : Z) : bool :=
  match dict_get operator_map c.2, value_at df c.1.1 l, value_at right c.1.2 r with
  | Ok f, Some x, Some y => f x y
  | _, _, _ => false
  end.

(** The same on cells that are not null. *)
Definition eval_strict (df right : DataFrame) (c : Condition) (l r : Z) : bool :=
  match dict_get operator_map c.2, value_at df c.1.1 l, value_at right c.1.2 r with
  | Ok f, Some (Some x), Some (Some y) => f (Some x) (Some y)
  | _, _, _ => false
  end.

(** A condition the validation accepts on two tables: its columns exist and
    its operator is one of the six. *)
Definition valid_condition (df right : DataFrame) (c : Condition) : Prop :=
  is_Some (column_pos df c.1.1) ∧ is_Some (column_pos right c.1.2)
  ∧ c.2 ∈ op_value <$> all_operators.

(** The operator of a condition applied to two cells. *)
Definition eval_on (c : Condition) (x y : value) : bool :=
  match dict_get operator_map c.2 with
  | Ok f => f x y
  | Raise _ => false
  end.

(** The index pairs of a join, as a list of pairs. *)
Definition result_pairs (result : option (list Z * list Z)) : list (Z * Z) :=
  match result with
  | Some (l, r) => zip l r
  | None => []
  end.

Definition well_paired (result : option (list Z * list Z)) : Prop :=
  match result with
  | Some (l, r) => length l = length r ∧ l ≠ []
  | None => True
  end.

(** Every pair names a row of each table and meets every condition. *)
Definition sound (df right : DataFrame) (conditions : list Condition)
    (pairs : list (Z * Z)) : Prop :=
  ∀ l r, (l, r) ∈ pairs →
    l ∈ index df ∧ r ∈ index right
    ∧ ∀ c, c ∈ conditions → eval_cond df right c l r = true.

(** Every pair of rows that meets every condition on cells that are not
    null is there. *)
Definition complete (df right : DataFrame) (conditions : list Condition)
    (pairs : list (Z * Z)) : Prop :=
  ∀ l r, l ∈ index df → r ∈ index right →
    (∀ c, c ∈ conditions → eval_strict df right c l r = true) → (l, r) ∈ pairs.

(** An operator applied to two cells that are not null. *)
Definition both (f : value → value → bool) (x y : value) : bool :=
  match x, y with
  | Some _, Some _ => f x y
  | _, _ => false
  end.

(** A final result of a matcher: two arrays of one length, not empty. *)
Definition paired (m : option Matches) : Prop :=
  match m with
  | Some (Pairs l r) => length l = length r ∧ l ≠ []
  | Some (Bounds _ _ _ _) => False
  | None => True
  end.

(** The two insertion points of a value. *)
Definition ipL (a : list Z) (v : Z) : Z := np.searchsorted1 a v np.SideLeft.
Definition ipR (a : list Z) (v : Z) : Z := np.searchsorted1 a v np.SideRight.

(** The right column as the matchers search it: without its nulls, by
    ascending value. *)
Definition search_order (right_c : Series) : NumSeries :=
  let right_c := dropna right_c in
  if is_monotonic_increasing right_c then right_c else sort_values right_c.

(** The position in the searched column from which on (less-than) or up to
    which (greater-than) the entries match the value [v]. *)
Definition lt_point (strict : bool) (a : list Z) (v : Z) : Z :=
  if strict then ipR a v else ipL a v.
Definition gt_point (strict : bool) (a : list Z) (v : Z) : Z :=
  if strict then ipL a v else ipR a v.

(** The rows of the left column that have a match. *)
Definition lt_rows (strict : bool) (left_c : Series) (a : list Z) : NumSeries :=
  filter (λ p, lt_point strict a p.2 < Z.of_nat (length a)) (dropna left_c).
Definition gt_rows (strict : bool) (left_c : Series) (a : list Z) : NumSeries :=
  filter (λ p, 1 ≤ gt_point strict a p.2) (dropna left_c).

(** Every row's label repeated along its range [lo, hi) of right positions,
    and the right labels found there. *)
Definition expand_left (rows : NumSeries) (lo hi : Z → Z) : list Z :=
  rows ≫= λ p, replicate (Z.to_nat (hi p.2 - lo p.2)) p.1.
Definition expand_right (rows : NumSeries) (right_index : list Z) (lo hi : Z → Z) : list Z :=
  rows ≫= λ p, take (Z.to_nat (hi p.2 - lo p.2)) (drop (Z.to_nat (lo p.2)) right_index).

(** What [_less_than_indices] and [_greater_than_indices] return, read off
    the rows and their insertion points. *)
Definition less_than_result (left_c right_c : Series) (strict : bool)
    (len_conditions : Z) : option Matches :=
  let R := search_order right_c in
  let a := extract_array R in
  let len := Z.of_nat (length a) in
  let rows := lt_rows strict left_c a in
  if decide (rows = []) then None
  else if 1 <? len_conditions then
    Some (Bounds (index_of rows) (index_of R)
            ((λ p, lt_point strict a p.2) <$> rows) (replicate (length rows) len))
  else
    Some (Pairs (expand_left rows (lt_point strict a) (λ _, len))
            (expand_right rows (index_of R) (lt_point strict a) (λ _, len))).

Definition greater_than_result (left_c right_c : Series) (strict : bool)
    (len_conditions : Z) : option Matches :=
  let R := search_order right_c in
  let a := extract_array R in
  let rows := gt_rows strict left_c a in
  if decide (rows = []) then None
  else if 1 <? len_conditions then
    Some (Bounds (index_of rows) (index_of R)
            ((λ p, gt_point strict a p.2) <$> rows) (replicate (length rows) 0))
  else
    Some (Pairs (expand_left rows (λ _, 0) (gt_point strict a))
            (expand_right rows (index_of R) (λ _, 0) (gt_point strict a))).

(** For an ordering operator: the bounds of the range of positions of the
    searched column that match the value [v], and the rows of the left column
    that have a match. *)
Definition is_strict (op : string) : bool :=
  str_in op [op_value GREATER_THAN; op_value LESS_THAN; op_value NOT_EQUAL].

Definition lo_of (op : string) (a : list Z) (v : Z) : Z :=
  if str_in op less_than_join_types then lt_point (is_strict op) a v else 0.
Definition hi_of (op : string) (a : list Z) (v : Z) : Z :=
  if str_in op less_than_join_types then Z.of_nat (length a)
  else gt_point (is_strict op) a v.

Definition ord_rows (op : string) (left_c : Series) (a : list Z) : NumSeries :=
  if str_in op less_than_join_types then lt_rows (is_strict op) left_c a
  else gt_rows (is_strict op) left_c a.

(** The ordering operators. *)
Definition ordering : list string := less_than_join_types ++ greater_than_join_types.

(** The last ordering condition of a list, if any: what the first loop of
    [_multiple_conditional_join_le_lt] leaves in [lt_gt]. *)
Definition last_ordering (conditions : list Condition) (lt_gt : option Condition)
  : option Condition :=
  foldl (λ acc c, if str_in c.2 ordering then Some c else acc) lt_gt conditions.

(** What the narrowing loop maintains on the labels it keeps: no label
    twice, labels of the two tables, and no pair that meets every condition
    on cells that are not null is lost. *)
Definition narrowed (df right : DataFrame) (conditions : list Condition)
    (df_index right_index : list Z) : Prop :=
  NoDup df_index ∧ NoDup right_index
  ∧ (∀ l, l ∈ df_index → l ∈ index df) ∧ (∀ r, r ∈ right_index → r ∈ index right)
  ∧ ∀ l r, l ∈ index df → r ∈ index right →
      (∀ c, c ∈ conditions → eval_strict df right c l r = true) →
      l ∈ df_index ∧ r ∈ right_index.

(** The pairs the scanning loop of [_multiple_conditional_join_le_lt] keeps
    for one left row. *)
Definition scanned (op : value → value → bool) (right_c : list value)
    (right_index : list Z) (row : Z * value * Z * Z) : list (Z * Z) :=
  let '(indx, val, lo, hi) := row in
  pair indx <$> np.mask_seq (py_slice right_index (Some lo) (Some hi))
                  (op val <$> py_slice right_c (Some lo) (Some hi)).

(** The key of a row on the columns at positions [ks], the rows whose key
    holds no null, and what [_multiple_conditional_join_eq] hands to the hash
    join: the table restricted to these rows, and their keys. *)
Definition key_of (ks : list nat) (row : Z * list value) : list value :=
  (λ k, cell k row) <$> ks.

Definition keyed (df : DataFrame) (ks : list nat) : DataFrame :=
  mkDataFrame (columns df) (dtypes df)
    (filter (λ row, Forall (λ v, v ≠ None) (key_of ks row)) (rows df)).

Definition keys_of (df : DataFrame) (ks : list nat) : KeyRows :=
  (λ row, (row.1, key_of ks row)) <$> rows df.

(** The two flags [check_types] computes from the operators. *)
Definition has_eq (conditions : list Condition) : bool :=
  existsb (λ c, bool_decide (c.2 = op_value STRICTLY_EQUAL)) conditions.
Definition has_ordering (conditions : list Condition) : bool :=
  existsb (λ c, str_in c.2 ordering) conditions.

(** A computation leaves the first [n] objects of the heap as they are, and
    its result, if it returns one, meets [Q]. *)
Definition preserves {A} (n : nat) (m : State A) (Q : A → Prop) : Prop :=
  ∀ s, (n ≤ length s)%nat →
    take n (m s).2 = take n s ∧ (n ≤ length (m s).2)%nat
    ∧ match (m s).1 with Ok a => Q a | Raise _ => True end.

(** ** Valid calls *)

(** The table a call reads as [right]: a frame, or a named Series as a
    frame of one column. *)
Definition frame_of (o : PandasObject) : option DataFrame :=
  match o with
  | PdFrame df => Some df
  | PdSeries s =>
      if bool_decide (name s = None ∨ name s = Some "") then None else Some (to_frame s)
  | PdOther => None
  end.

(** A condition as the caller writes it: a tuple of three strings. *)
Definition condition_of (o : pyobj) : option Condition :=
  match o with
  | PyTuple [PyStr left_on; PyStr right_on; PyStr op] => Some (left_on, right_on, op)
  | _ => None
  end.

(** What pandas maintains of a table: one dtype per column, distinct column
    labels, one cell per column in every row. *)
Definition well_formed (df : DataFrame) : bool :=
  bool_decide (length (dtypes df) = length (column_labels df))
  && bool_decide (NoDup (column_labels df))
  && forallb (λ row, bool_decide (length row.2 = length (column_labels df))) (rows df).

(** The objects of a call: [df] is a table, [right] is some object. *)
Definition inputs (s : store) (df right : ref) : option (DataFrame * PandasObject) :=
  match s !! df, s !! right with
  | Some (PdFrame df_v), Some right_v =>
      if well_formed df_v && from_option well_formed true (frame_of right_v)
      then Some (df_v, right_v) else None
  | _, _ => None
  end.

(** The two columns of a condition are of one family, and a string or
    categorical column is compared with [==] only. *)
Definition same_family (l r : dtype) : bool :=
  existsb (λ func, func l && func r) permitted_types.

Definition valid_types (df right : DataFrame) (c : Condition) : bool :=
  match dtype_of df c.1.1, dtype_of right c.1.2 with
  | Ok l, Ok r =>
      same_family l r
      && (if is_string_dtype l || is_categorical_dtype l
          then bool_decide (c.2 = op_value STRICTLY_EQUAL) else true)
  | _, _ => false
  end.

Definition valid_condition_b (df right : DataFrame) (c : Condition) : bool :=
  bool_decide ([c.1.1] ∈ column_labels df)
  && bool_decide ([c.1.2] ∈ column_labels right)
  && str_in c.2 (op_value <$> all_operators).

(** The contract of [conditional_join] on its arguments: what the
    preliminary checks ask for, and what the type check asks for. *)
Definition valid_arguments (df : DataFrame) (right : PandasObject)
    (conditions : list pyobj) (how sort_by_appearance : pyobj) : bool :=
  match frame_of right, mapM condition_of conditions with
  | Some right_v, Some conds =>
      negb (empty df) && negb (is_MultiIndex df)
      && negb (empty right_v) && negb (is_MultiIndex right_v)
      && negb (bool_decide (conditions = []))
      && forallb (valid_condition_b df right_v) conds
      && is_str how && str_in (as_str how) (how_value <$> [INNER; LEFT; RIGHT])
      && is_bool sort_by_appearance
  | _, _ => false
  end.

Definition valid_call (df : DataFrame) (right : PandasObject) (conditions : list pyobj)
    (how sort_by_appearance : pyobj) : bool :=
  valid_arguments df right conditions how sort_by_appearance
  && match frame_of right, mapM condition_of conditions with
     | Some right_v, Some conds => forallb (valid_types df right_v) conds
     | _, _ => false
     end.

(** No column is named by two [==] conditions. When one is,
    [_multiple_conditional_join_eq] asks the hash join for one key label
    twice. *)
Definition distinct_eq (conditions : list Condition) : bool :=
  let eq_cond := filter (λ c, cond_op c = op_value STRICTLY_EQUAL) conditions in
  bool_decide (NoDup ((λ c : Condition, c.1.1) <$> eq_cond))
  && bool_decide (NoDup ((λ c : Condition, c.1.2) <$> eq_cond)).

(** Every condition compares two columns of one dtype. numpy compares two
    arrays of one dtype cell by cell as they are, which is how the cells of
    this embedding are compared; arrays of two numeric dtypes it first casts
    to a common one ([float64] for [int64] against [uint64] or [float64]),
    which rounds integers beyond 2^53. *)
Definition same_dtype (df right : DataFrame) (left_on right_on : string) : bool :=
  match dtype_of df left_on, dtype_of right right_on with
  | Ok l, Ok r => bool_decide (l = r)
  | _, _ => false
  end.

Definition same_dtypes (df right : DataFrame) (conditions : list Condition) : bool :=
  forallb (λ c : Condition, same_dtype df right c.1.1 c.1.2) conditions.

(** ** The rows of a result *)

(** A table with its columns under the name of its side, as
    [df.columns = pd.MultiIndex.from_product([[side], df.columns])] leaves it. *)
Definition namespaced (side : string) (df : DataFrame) : DataFrame :=
  mkDataFrame (from_product side df) (dtypes df) (rows df).

(** The cells of the row of label [l]. *)
Definition cells_of (df : DataFrame) (l : Z) : list value :=
  match list_find (λ row, row.1 = l) (rows df) with
  | Some (_, row) => row.2
  | None => []
  end.

(** The index pairs in the order the assembly takes them: as the matchers
    return them, or sorted by left and then right label when
    [sort_by_appearance] is set. *)
Definition ordered (pairs : list (Z * Z)) (sort_by_appearance : bool) : list (Z * Z) :=
  if sort_by_appearance then
    (merge_sort lex_le (zip pairs (RangeIndex (Z.of_nat (length pairs))))).*1
  else pairs.

(** Where the rows of a result come from: for every row, the label of the
    left row and the label of the right row it is made of, one of them absent
    when the row is one the other table has no partner for. An inner join has
    a row per index pair; a left join goes through the left table and gives
    every row its partners, in the order of the pairs; a right join goes
    through the right table. *)
Definition provenance_row : Type := option Z * option Z.

Definition inner_provenance (pairs : list (Z * Z)) : list provenance_row :=
  (λ p, (Some p.1, Some p.2)) <$> pairs.

Definition left_provenance (df : DataFrame) (pairs : list (Z * Z)) : list provenance_row :=
  l ← index df;
  match filter (λ p, p.1 = l) pairs with
  | [] => [(Some l, None)]
  | partners => (λ p, (Some l, Some p.2)) <$> partners
  end.

Definition right_provenance (right : DataFrame) (pairs : list (Z * Z))
  : list provenance_row :=
  r ← index right;
  match filter (λ p, p.2 = r) pairs with
  | [] => [(None, Some r)]
  | partners => (λ p, (Some p.1, Some r)) <$> partners
  end.

Definition provenance (df right : DataFrame) (pairs : list (Z * Z)) (how : string)
  : list provenance_row :=
  if bool_decide (how = how_value INNER) then inner_provenance pairs
  else if bool_decide (how = how_value LEFT) then left_provenance df pairs
  else right_provenance right pairs.

(** The cells of a row of the result, from where it comes. *)
Definition row_cells (df right : DataFrame) (q : provenance_row) : list value :=
  from_option (cells_of df) (nulls df) q.1 ++ from_option (cells_of right) (nulls right) q.2.

(** What the contract excludes, case by case. *)
Inductive violation (df : DataFrame) (right : PandasObject) (conditions : list pyobj)
    (how : pyobj) : Prop :=
  | left_empty : empty df = true → violation df right conditions how
  | left_multiindex : is_MultiIndex df = true → violation df right conditions how
  | right_unusable : frame_of right = None → violation df right conditions how
  | right_empty right_v :
      frame_of right = Some right_v → empty right_v = true →
      violation df right conditions how
  | right_multiindex right_v :
      frame_of right = Some right_v → is_MultiIndex right_v = true →
      violation df right conditions how
  | no_condition : conditions = [] → violation df right conditions how
  | malformed_condition condition :
      condition ∈ conditions → condition_of condition = None →
      violation df right conditions how
  | unknown_column_or_operator right_v condition c :
      frame_of right = Some right_v → condition ∈ conditions →
      condition_of condition = Some c → valid_condition_b df right_v c = false →
      violation df right conditions how
  | unknown_how :
      is_str how && str_in (as_str how) (how_value <$> [INNER; LEFT; RIGHT]) = false →
      violation df right conditions how
  | mismatched_types right_v condition c :
      frame_of right = Some right_v → condition ∈ conditions →
      condition_of condition = Some c → valid_types df right_v c = false →
      violation df right conditions how.

(** The dtypes and the table of a result, from the index pairs of the join:
    the columns of the two tables under the names of their sides, the rows of
    [provenance] labelled from 0, and for the dtypes those of the two tables,
    the side that is completed with nulls being promoted when a row of the
    other side has no partner. *)
Definition joined_dtypes (df right : DataFrame) (pairs : list (Z * Z)) (how : string)
  : list dtype :=
  if bool_decide (how = how_value INNER) then dtypes df ++ dtypes right
  else if bool_decide (how = how_value LEFT) then
    dtypes df
    ++ (if existsb (λ l, bool_decide (filter (λ p, p.1 = l) pairs = [])) (index df)
        then promote <$> dtypes right else dtypes right)
  else
    (if existsb (λ r, bool_decide (filter (λ p, p.2 = r) pairs = [])) (index right)
     then promote <$> dtypes df else dtypes df)
    ++ dtypes right.

Definition joined (df right : DataFrame) (pairs : list (Z * Z)) (how : string)
  : DataFrame :=
  let cells := row_cells df right <$> provenance df right pairs how in
  mkDataFrame
    (MultiIndex (((λ l, "left" :: l) <$> column_labels df)
                   ++ ((λ l, "right" :: l) <$> column_labels right)))
    (joined_dtypes df right pairs how)
    (zip (RangeIndex (Z.of_nat (length cells))) cells).



(** ** Example calls *)

Definition example_left_column : Series := [(0, Some 1); (1, Some 3); (2, None); (3, Some 2)].
Definition example_right_column : Series := [(0, Some 3); (1, Some 2); (2, Some 2)].


Definition example_left : DataFrame :=
  mkDataFrame (Index ["a"; "b"]) [int64; float64]
    [(10, [Some 1; Some 5]); (11, [Some 3; None]); (12, [Some 2; Some 7])].

Definition example_right : DataFrame :=
  mkDataFrame (Index ["x"; "y"]) [int64; float64]
    [(0, [Some 2; Some 6]); (1, [Some 1; Some 5])].

Definition example_store : store := [PdFrame example_left; PdFrame example_right].

Definition example_conditions : list pyobj :=
  [PyTuple [PyStr "a"; PyStr "x"; PyStr "<"]; PyTuple [PyStr "b"; PyStr "y"; PyStr "!="]].




(** Two [==] conditions on the column [a]; the one pair of rows meets
    both. *)
Definition repeated_left : DataFrame :=
  mkDataFrame (Index ["a"]) [int64] [(0, [Some 1])].

Definition repeated_right : DataFrame :=
  mkDataFrame (Index ["x"; "y"]) [int64; int64] [(0, [Some 1; Some 1])].

Definition repeated_store : store := [PdFrame repeated_left; PdFrame repeated_right].

Definition repeated_conditions : list pyobj :=
  [PyTuple [PyStr "a"; PyStr "x"; PyStr "=="]; PyTuple [PyStr "a"; PyStr "y"; PyStr "=="]].

(** A left table with a null in its second column. *)
Definition null_left : DataFrame :=
  mkDataFrame (Index ["a"; "b"]) [float64; float64] [(0, [Some 1; None])].

Definition null_right : DataFrame :=
  mkDataFrame (Index ["x"; "y"]) [float64; float64] [(0, [Some 2; Some 5])].

Definition null_store : store := [PdFrame null_left; PdFrame null_right].

(** * Concatenating columns (janitor.functions.concatenate_columns)

    The table of [concatenate_columns] holds arbitrary Python values. A cell
    is the null, a string, or another value [v : V] of which the embedding
    knows the string [str v] Python's [str] gives; column labels are strings.
    The call works on the object [df] itself: it is a computation on the
    content of that object, and returns the object. *)

Module concatenate.

Inductive error := JanitorError | KeyError | ValueError.

Inductive outcome (A : Type) :=
  | Return (a : A)
  | Fail (e : error).
Arguments Return {A} a.
Arguments Fail {A} e.

Inductive scalar (V : Type) :=
  | NA
  | Text (s : string)
  | Value (v : V).
Arguments NA {V}.
Arguments Text {V} s.
Arguments Value {V} v.

Record Frame (V : Type) := mkFrame {
  labels : list string;
  lines : list (list (scalar V));
}.
Arguments mkFrame {V} labels lines.
Arguments labels {V} f.
Arguments lines {V} f.

(** [sep.join(pieces)] *)
Definition join (sep : string) (pieces : list string) : string := String.concat sep pieces.

(** [x.split(sep)]: the pieces between the occurrences of [sep], found from
    left to right; an empty separator is a ValueError. [skip] counts the
    characters of an occurrence that are still to pass. *)
Fixpoint split_from (sep : string) (skip : nat) (piece s : string) : list string :=
  match s with
  | EmptyString => [piece]
  | String c s' =>
      match skip with
      | S k => split_from sep k piece s'
      | O =>
          if String.prefix sep s
          then piece :: split_from sep (String.length sep - 1)%nat "" s'
          else split_from sep 0 (piece +:+ String c "") s'
      end
  end.

Definition split (sep x : string) : outcome (list string) :=
  if bool_decide (sep = "") then Fail ValueError else Return (split_from sep 0 "" x).

(** The function [remove_empty_string] of the source. *)
Definition remove_empty_string (sep x : string) : outcome string :=
  match split sep x with
  | Return pieces => Return (join sep (filter (λ x, x ≠ "") pieces))
  | Fail e => Fail e
  end.

(** A function applied to every element of a column; the first failure is
    the failure of the whole. *)
Fixpoint transform {A B} (func : A → outcome B) (column : list A) : outcome (list B) :=
  match column with
  | [] => Return []
  | x :: column' =>
      match func x with
      | Return y =>
          match transform func column' with
          | Return ys => Return (y :: ys)
          | Fail e => Fail e
          end
      | Fail e => Fail e
      end
  end.

Section operations.
Context {V : Type} (str : V → string).

(** [fillna("")] and [astype(str)] on a cell. *)
Definition fillna (fill : string) (c : scalar V) : scalar V :=
  match c with
  | NA => Text fill
  | c => c
  end.

Definition to_str (c : scalar V) : string :=
  match c with
  | NA => "nan"
  | Text s => s
  | Value v => str v
  end.

Definition astype_str (c : scalar V) : scalar V := Text (to_str c).

(** The position of a column. *)
Definition position (df : Frame V) (name : string) : option nat :=
  fst <$> list_find (λ l, l = name) (labels df).

(** [df[column_names]]: the cells of the columns, row by row; a KeyError when
    a name is no column. *)
Definition getitem_columns (df : Frame V) (column_names : list string)
  : outcome (list (list (scalar V))) :=
  match mapM (M := option) (position df) column_names with
  | Some ks => Return ((λ row, (λ k, default NA (row !! k)) <$> ks) <$> lines df)
  | None => Fail KeyError
  end.

(** [df[name]] *)
Definition getitem (df : Frame V) (name : string) : outcome (list (scalar V)) :=
  match position df name with
  | Some k => Return ((λ row, default NA (row !! k)) <$> lines df)
  | None => Fail KeyError
  end.

(** [df[name] = values], for values that come with the row labels of [df]:
    the column is replaced where it is, or added after the last one. *)
Definition setitem (df : Frame V) (name : string) (values : list (scalar V)) : Frame V :=
  match position df name with
  | Some k => mkFrame (labels df) (zip_with (λ row v, <[k:=v]> row) (lines df) values)
  | None => mkFrame (labels df ++ [name]) (zip_with (λ row v, row ++ [v]) (lines df) values)
  end.

Definition concatenate_columns (column_names : list string) (new_column_name sep : string)
    (ignore_empty : bool) (df : Frame V) : outcome unit * Frame V :=
  if (length column_names <? 2)%nat then (Fail JanitorError, df) else
  match getitem_columns df column_names with
  | Fail e => (Fail e, df)
  | Return selected =>
      (* over a table without rows [agg(sep.join, axis=1)] gives a table of
         the selected columns, not a column, and its assignment to the one
         label [new_column_name] raises *)
      if (length selected =? 0)%nat then (Fail ValueError, df) else
      let joined :=
        (λ row, Text (join sep (to_str <$> (astype_str <$> (fillna "" <$> row)))))
          <$> selected in
      let df := setitem df new_column_name joined in
      if ignore_empty then
        match getitem df new_column_name with
        | Fail e => (Fail e, df)
        | Return column =>
            match transform (λ x, remove_empty_string sep (to_str x)) column with
            | Return cleaned => (Return (), setitem df new_column_name (Text <$> cleaned))
            | Fail e => (Fail e, df)
            end
        end
      else (Return (), df)
  end.

(** The cell of a row in the column [name], and the text of a cell once its
    null is filled. *)
Definition at_column (df : Frame V) (name : string) (row : list (scalar V)) : scalar V :=
  default NA (position df name ≫= (row !!.)).

Definition text (c : scalar V) : string := to_str (fillna "" c).

(** The new column of a call, before empty pieces are removed: for every row
    the texts of its cells in the named columns, joined by [sep]. *)
Definition joined_column (column_names : list string) (sep : string) (df : Frame V)
  : list (scalar V) :=
  (λ row, Text (join sep ((λ name, text (at_column df name row)) <$> column_names)))
    <$> lines df.

End operations.

(** What pandas maintains of a table: distinct column labels, one cell per
    column in every row. *)
Definition well_formed {V} (df : Frame V) : bool :=
  bool_decide (NoDup (labels df))
  && forallb (λ row, bool_decide (length row = length (labels df))) (lines df).

(** The character [c] occurs in [s]. *)
Fixpoint occurs (c : Ascii.ascii) (s : string) : bool :=
  match s with
  | EmptyString => false
  | String a s' => bool_decide (a = c) || occurs c s'
  end.

(** A table of strings, nulls and booleans. *)
Definition example_frame : Frame bool :=
  mkFrame ["a"; "b"; "c"]
    [[Text "x"; NA; Value true]; [NA; NA; NA]; [Text "y"; Text "z"; Value false]].

Definition str_bool (b : bool) : string := if b then "True" else "False".

End concatenate.

(** * Properties *)

(** ** The [res] monad *)

Lemma res_bind_ok {A B} (m : res A) (f : A → res B) a :
  m = Ok a → (m ≫= f) = f a.
Proof. by intros ->. Qed.

Lemma res_bind_inv {A B} (m : res A) (f : A → res B) b :
  (m ≫= f) = Ok b → ∃ a, m = Ok a ∧ f a = Ok b.
Proof. destruct m as [a|e]; [by exists a | done]. Qed.

(** ** numpy primitives *)

Lemma norm_nonneg n i :
  0 ≤ i < Z.of_nat n → np.norm n i = Some (Z.to_nat i).
Proof.
  intros [H0 Hn]. unfold np.norm.
  by rewrite (proj2 (Z.leb_le 0 i) H0), (proj2 (Z.ltb_lt _ _) Hn).
Qed.

Lemma norm_minus1 n : (0 < n)%nat → np.norm n (-1) = Some (n - 1)%nat.
Proof.
  intros Hn. unfold np.norm. simpl.
  replace (- Z.of_nat n <=? -1) with true by (symmetry; apply Z.leb_le; lia).
  simpl. f_equal. lia.
Qed.

Lemma getitem_nonneg {A} (a : list A) i x :
  0 ≤ i → a !! Z.to_nat i = Some x → np.getitem a i = Ok x.
Proof.
  intros Hi Hx. unfold np.getitem.
  rewrite norm_nonneg; [simpl; by rewrite Hx |].
  apply lookup_lt_Some in Hx. lia.
Qed.

Lemma getitem_last {A} (a : list A) x :
  last a = Some x → np.getitem a (-1) = Ok x.
Proof.
  intros Hx. unfold np.getitem.
  assert (0 < length a)%nat by (destruct a; [done | simpl; lia]).
  rewrite norm_minus1 by done. simpl.
  rewrite last_lookup in Hx.
  replace (length a - 1)%nat with (pred (length a)) by lia. by rewrite Hx.
Qed.

Lemma setitem_nonneg {A} (a : list A) i x :
  0 ≤ i < Z.of_nat (length a) → np.setitem a i x = Ok (<[Z.to_nat i:=x]> a).
Proof. intros Hi. unfold np.setitem. by rewrite norm_nonneg. Qed.

Lemma cumsum_from_app acc a b :
  np.cumsum_from acc (a ++ b) = np.cumsum_from acc a ++ np.cumsum_from (acc + zsum a) b.
Proof.
  revert acc. induction a as [|x a IH]; intros acc; simpl.
  - by rewrite Z.add_0_r.
  - rewrite IH. do 3 f_equal. lia.
Qed.

Lemma cumsum_from_ones acc n :
  np.cumsum_from acc (replicate n 1) = (λ k : nat, acc + 1 + Z.of_nat k) <$> seq 0 n.
Proof.
  revert acc. induction n as [|n IH]; intros acc; [done |].
  simpl. f_equal; [lia |]. rewrite IH, <- fmap_S_seq, <- list_fmap_compose.
  apply list_fmap_ext. intros ? k _. simpl. lia.
Qed.

Lemma zsum_ones n : zsum (replicate n 1) = Z.of_nat n.
Proof. induction n as [|n IH]; [done |]. simpl replicate. simpl zsum. rewrite IH. lia. Qed.

Lemma cumsum_from_last acc a :
  a ≠ [] → last (np.cumsum_from acc a) = Some (acc + zsum a).
Proof.
  revert acc. induction a as [|x a IH]; intros acc Ha; [done |].
  destruct a as [|y a].
  - simpl. f_equal. lia.
  - change (np.cumsum_from acc (x :: y :: a))
      with ((acc + x) :: np.cumsum_from (acc + x) (y :: a)).
    rewrite last_cons, IH by done. simpl. f_equal. lia.
Qed.

Lemma cumsum_from_length acc a : length (np.cumsum_from acc a) = length a.
Proof. revert acc. induction a; intros; simpl; auto. Qed.

Lemma zrange_cons lo hi : lo < hi → zrange lo hi = lo :: zrange (lo + 1) hi.
Proof.
  intros H. unfold zrange.
  replace (Z.to_nat (hi - lo)) with (S (Z.to_nat (hi - (lo + 1)))) by lia.
  simpl. f_equal; [lia |].
  rewrite <- fmap_S_seq, <- list_fmap_compose.
  apply list_fmap_ext. intros ? k _. simpl. lia.
Qed.

Lemma zrange_nil lo hi : hi ≤ lo → zrange lo hi = [].
Proof. intros H. unfold zrange. by replace (Z.to_nat (hi - lo)) with 0%nat by lia. Qed.

Lemma zrange_length lo hi : length (zrange lo hi) = Z.to_nat (hi - lo).
Proof. unfold zrange. by rewrite length_fmap, length_seq. Qed.


Lemma lookup_zrange lo hi (i : nat) k : zrange lo hi !! i = Some k → k = lo + Z.of_nat i.
Proof.
  unfold zrange. rewrite list_lookup_fmap. intros (n & Hn & ->)%fmap_Some.
  apply lookup_seq in Hn as [-> _]. done.
Qed.


Lemma NoDup_zrange lo hi : NoDup (zrange lo hi).
Proof.
  unfold zrange. apply NoDup_fmap_2; [| apply NoDup_seq].
  intros a b. lia.
Qed.

(** ** Interval expansion *)

Section interval_ranges.

(** The final cumulative sum turns the steps into the ranges. *)
Lemma cumsum_steps prev indices right :
  Forall2 Z.lt indices right →
  np.cumsum_from prev (steps prev indices right) = ranges indices right.
Proof.
  intros H. revert prev. induction H as [|i r indices right Hlt _ IH]; intros prev; [done |].
  cbn [steps ranges np.cumsum_from].
  rewrite cumsum_from_app, cumsum_from_ones, zsum_ones, app_comm_cons.
  f_equal.
  - rewrite (zrange_cons i r) by done. f_equal; [lia |].
    unfold zrange. replace (Z.to_nat (r - (i + 1))) with (Z.to_nat (r - i) - 1)%nat by lia.
    apply list_fmap_ext. intros ? k _. simpl. lia.
  - rewrite <- (IH (r - 1)). f_equal. lia.
Qed.

Lemma lengths_nonneg indices right :
  Forall2 Z.lt indices right → 0 ≤ zsum (zip_with Z.sub right indices).
Proof. induction 1; simpl; lia. Qed.

(** The indexed assignment writes the first step of every range but the
    first one, each at the cumulated length of the ranges before it. *)
Lemma put_steps indices right :
  Forall2 Z.lt indices right →
  ∀ (pre : list Z) (x i r : Z), i < r →
    np.put_seq
      (pre ++ x :: replicate (Z.to_nat (r - i) - 1) 1
           ++ replicate (Z.to_nat (zsum (zip_with Z.sub right indices))) 1)
      (take (length right)
         (np.cumsum_from (Z.of_nat (length pre)) (zip_with Z.sub (r :: right) (i :: indices))))
      ((λ d, d + 1) <$> zip_with Z.sub indices (take (length right) (r :: right)))
    = Ok (pre ++ x :: replicate (Z.to_nat (r - i) - 1) 1 ++ steps (r - 1) indices right).
Proof.
  induction 1 as [|i1 r1 indices right Hlt Hall IH]; intros pre x i r Hir.
  - simpl. done.
  - pose proof (lengths_nonneg _ _ Hall) as Hnn.
    set (blk := x :: replicate (Z.to_nat (r - i) - 1) 1).
    assert (Hblk : length (pre ++ blk) = Z.to_nat (Z.of_nat (length pre) + (r - i))).
    { rewrite length_app. unfold blk. simpl. rewrite length_replicate. lia. }
    change (zsum (zip_with Z.sub (r1 :: right) (i1 :: indices)))
      with (r1 - i1 + zsum (zip_with Z.sub right indices)).
    replace (Z.to_nat (r1 - i1 + zsum (zip_with Z.sub right indices)))
      with (S (Z.to_nat (r1 - i1) - 1 + Z.to_nat (zsum (zip_with Z.sub right indices))))
      by lia.
    rewrite replicate_S, replicate_add.
    cbn [length take zip_with np.cumsum_from fmap list_fmap np.put_seq].
    rewrite setitem_nonneg; cycle 1.
    { rewrite length_app. cbn [length]. rewrite !length_app, !length_replicate. cbn. lia. }
    cbn [mbind res_mbind res_bind].
    replace (pre ++ x :: replicate (Z.to_nat (r - i) - 1) 1 ++
             1 :: replicate (Z.to_nat (r1 - i1) - 1) 1 ++
             replicate (Z.to_nat (zsum (zip_with Z.sub right indices))) 1)
      with ((pre ++ blk) ++ 1 :: replicate (Z.to_nat (r1 - i1) - 1) 1 ++
             replicate (Z.to_nat (zsum (zip_with Z.sub right indices))) 1)
      by (unfold blk; by rewrite <- app_assoc).
    rewrite <- Hblk, insert_app_r_alt, Nat.sub_diag by lia.
    cbn [insert list_insert].
    specialize (IH (pre ++ blk) (i1 - r + 1) i1 r1 Hlt).
    rewrite Hblk, Z2Nat.id in IH by lia.
    cbn [zip_with np.cumsum_from] in IH.
    replace (Z.of_nat (length pre) + (r - i)) with (0 + Z.of_nat (length pre) + (r - i)) in IH by lia.
    replace (Z.of_nat (length pre) + (r - i)) with (0 + Z.of_nat (length pre) + (r - i)) by lia.
    rewrite Z.add_0_l in *.
    rewrite IH. unfold blk. rewrite <- app_assoc. cbn [app steps].
    by replace (i1 - (r - 1)) with (i1 - r + 1) by lia.
Qed.

Lemma py_slice_tail {A} (a : list A) : py_slice a (Some 1) None = drop 1 a.
Proof.
  unfold py_slice, slice_bound. simpl.
  destruct a as [|x a]; [done |]. simpl length.
  replace (Z.to_nat (Z.min 1 (Z.of_nat (S (length a))))) with 1%nat by lia.
  apply take_ge. rewrite length_drop. simpl. lia.
Qed.

Lemma py_slice_init {A} (a : list A) :
  py_slice a None (Some (-1)) = take (length a - 1) a.
Proof.
  unfold py_slice, slice_bound. simpl.
  replace (Z.to_nat (Z.max 0 (Z.of_nat (length a) + -1))) with (length a - 1)%nat by lia.
  by rewrite Nat.sub_0_r.
Qed.

Lemma binop_same_length {A B C} (f : A → B → C) a b :
  length a = length b → np.binop f a b = Ok (zip_with f a b).
Proof. intros H. unfold np.binop. by rewrite decide_True. Qed.

(** Under its precondition (arrays of one length, not empty, every range
    not empty) [_interval_ranges] raises nothing and returns the ranges
    one after the other. *)
Lemma interval_ranges_ok indices right :
  indices ≠ [] → Forall2 Z.lt indices right →
  _interval_ranges indices right = Ok (ranges indices right).
Proof.
  intros Hne Hall. destruct Hall as [|i r indices right Hir Hall]; [done |].
  pose proof (Forall2_length _ _ _ Hall) as Hlen.
  pose proof (lengths_nonneg _ _ Hall) as Hnn.
  unfold _interval_ranges, np.sub.
  rewrite (binop_same_length Z.sub (r :: right) (i :: indices)) by (cbn [length]; congruence).
  cbn [mbind res_mbind res_bind]. unfold np.cumsum.
  rewrite (getitem_last _ (0 + zsum (zip_with Z.sub (r :: right) (i :: indices))))
    by (by apply cumsum_from_last).
  cbn [mbind res_mbind res_bind zip_with zsum foldr]. fold (zsum (zip_with Z.sub right indices)).
  unfold np.ones.
  replace (0 + (r - i + zsum (zip_with Z.sub right indices)) <? 0) with false
    by (symmetry; apply Z.ltb_ge; lia).
  cbn [mbind res_mbind res_bind].
  rewrite (getitem_nonneg _ 0 i) by done.
  cbn [mbind res_mbind res_bind].
  rewrite setitem_nonneg by (rewrite length_replicate; lia).
  cbn [mbind res_mbind res_bind].
  rewrite py_slice_tail, !py_slice_init.
  change (drop 1 (i :: indices)) with indices.
  rewrite cumsum_from_length. cbn [length].
  rewrite length_zip_with, !Nat.sub_succ, !Nat.sub_0_r.
  replace (length right `min` length indices)%nat with (length right) by lia.
  rewrite binop_same_length by (rewrite length_take; cbn [length]; lia).
  cbn [mbind res_mbind res_bind]. unfold np.put.
  rewrite decide_True; cycle 1.
  { rewrite length_take, length_fmap, length_zip_with, length_take, cumsum_from_length.
    simpl. rewrite length_zip_with. lia. }
  replace (Z.to_nat (0 + (r - i + zsum (zip_with Z.sub right indices))))
    with (S (Z.to_nat (r - i) - 1 + Z.to_nat (zsum (zip_with Z.sub right indices)))) by lia.
  rewrite replicate_S, replicate_add.
  change (Z.to_nat 0) with 0%nat. cbn [insert list_insert].
  pose proof (put_steps indices right Hall [] i i r Hir) as Hput.
  change (Z.of_nat (length [])) with 0 in Hput. cbn [app] in Hput.
  cbn [zip_with] in Hput. rewrite Hput.
  cbn [mbind res_mbind res_bind]. f_equal.
  rewrite <- (cumsum_steps 0) by (by constructor).
  cbn [steps]. by rewrite Z.sub_0_r.
Qed.

End interval_ranges.

(** ** Parallel arrays read off one list of rows *)

Section rows.
Context {A : Type}.
Implicit Types (l : list A) (g : A → bool).

Lemma mask_seq_fmap {B} (f : A → B) g l :
  np.mask_seq (f <$> l) (g <$> l) = f <$> filter (λ x, g x) l.
Proof.
  induction l as [|x l IH]; [done |]. cbn [fmap list_fmap np.mask_seq].
  rewrite filter_cons. destruct (g x) eqn:Hg.
  - rewrite decide_True by done. cbn. by rewrite IH.
  - rewrite decide_False by (by intros []). done.
Qed.

Lemma mask_fmap {B} (f : A → B) g l :
  np.mask (f <$> l) (g <$> l) = Ok (f <$> filter (λ x, g x) l).
Proof.
  unfold np.mask. rewrite decide_True by (by rewrite !length_fmap).
  by rewrite mask_seq_fmap.
Qed.

Lemma any_fmap g l : np.any (g <$> l) = true ↔ ∃ x, x ∈ l ∧ g x = true.
Proof.
  unfold np.any. rewrite existsb_exists. split.
  - intros (b & Hin & Hb). apply list_elem_of_In, list_elem_of_fmap in Hin.
    destruct Hin as (x & -> & Hx). by exists x.
  - intros (x & Hx & Hg). exists (g x). split; [| done].
    apply list_elem_of_In, list_elem_of_fmap. by exists x.
Qed.

Lemma filter_all (P : A → Prop) `{!∀ x, Decision (P x)} l :
  (∀ x, x ∈ l → P x) → filter P l = l.
Proof.
  induction l as [|x l IH]; intros Hall; [done |].
  rewrite filter_cons, decide_True by (apply Hall; left).
  f_equal. apply IH. intros y Hy. apply Hall. by right.
Qed.

Lemma filter_narrowed (P Q : A → Prop)
    `{!∀ x, Decision (P x)} `{!∀ x, Decision (Q x)} l :
  (∀ x, x ∈ l → P x → Q x) → filter P (filter Q l) = filter P l.
Proof.
  induction l as [|x l IH]; intros Hall; [done |].
  rewrite !filter_cons.
  assert (IH' : filter P (filter Q l) = filter P l).
  { apply IH. intros y Hy. apply Hall. by right. }
  destruct (decide (Q x)) as [HQ | HQ].
  - by rewrite filter_cons, IH'.
  - rewrite IH'. rewrite decide_False; [done |]. intros HP. apply HQ, Hall; [left | done].
Qed.

Lemma discard_fmap g (f1 f2 f3 : A → Z) l :
  discard (g <$> l) (f1 <$> l) (f2 <$> l) (f3 <$> l)
  = Ok (let l' := filter (λ x, negb (g x)) l in (f1 <$> l', f2 <$> l', f3 <$> l')).
Proof.
  unfold discard, np.invert. destruct (np.any (g <$> l)) eqn:Hany.
  - rewrite <- !list_fmap_compose.
    rewrite !(mask_fmap _ (negb ∘ g)). done.
  - cbn zeta. rewrite filter_all; [done |].
    intros x Hx. destruct (g x) eqn:Hg; [| done].
    assert (np.any (g <$> l) = true) by (apply any_fmap; eauto). congruence.
Qed.

Lemma take_fmap {B} `{!Inhabited B} (a : list B) (h : A → Z) l :
  (∀ x, x ∈ l → 0 ≤ h x < Z.of_nat (length a)) →
  np.take a (h <$> l) = Ok ((λ x, a !!! Z.to_nat (h x)) <$> l).
Proof.
  induction l as [|x l IH]; intros H; [done |].
  cbn [fmap list_fmap np.take].
  assert (Hx : 0 ≤ h x < Z.of_nat (length a)) by (apply H; left).
  rewrite (getitem_nonneg _ _ (a !!! Z.to_nat (h x))); [| lia |].
  - cbn [mbind res_mbind res_bind]. fold (h <$> l).
    rewrite IH by (intros y Hy; apply H; by right). done.
  - apply list_lookup_lookup_total_lt. lia.
Qed.

Lemma zip_with_fmap_same {B C D} (f : B → C → D) (u : A → B) (v : A → C) l :
  zip_with f (u <$> l) (v <$> l) = (λ x, f (u x) (v x)) <$> l.
Proof. induction l; [done |]. cbn. by f_equal. Qed.

Lemma where_fmap {B} g (u v : A → B) l :
  np.where_ (g <$> l) (u <$> l) (v <$> l) = (λ x, if g x then u x else v x) <$> l.
Proof. induction l; [done |]. cbn. by f_equal. Qed.

End rows.

(** ** Insertion points *)

Section searchsorted.
Implicit Types (a : list Z) (v : Z).

Lemma searchsorted1_range a v side :
  0 ≤ np.searchsorted1 a v side ≤ Z.of_nat (length a).
Proof.
  induction a as [|x a IH]; [simpl; lia |].
  cbn [np.searchsorted1 length]. destruct side; case_match; lia.
Qed.

Lemma ipL_le_ipR a v : ipL a v ≤ ipR a v.
Proof.
  unfold ipL, ipR. induction a as [|x a IH]; [done |]. cbn [np.searchsorted1].
  pose proof (searchsorted1_range a v np.SideRight).
  destruct (x <? v) eqn:H1, (x <=? v) eqn:H2; lia.
Qed.

(** Before the insertion point the entries are below the value. *)
Lemma ipL_before a v j x :
  a !! j = Some x → Z.of_nat j < ipL a v → x < v.
Proof.
  unfold ipL. revert j. induction a as [|y a IH]; intros j Hj Hlt; [done |].
  cbn [np.searchsorted1] in Hlt. destruct (y <? v) eqn:Hy; [| lia].
  destruct j as [|j]; simplify_eq/=; [by apply Z.ltb_lt |].
  apply (IH j); [done | lia].
Qed.

Lemma ipR_before a v j x :
  a !! j = Some x → Z.of_nat j < ipR a v → x ≤ v.
Proof.
  unfold ipR. revert j. induction a as [|y a IH]; intros j Hj Hlt; [done |].
  cbn [np.searchsorted1] in Hlt. destruct (y <=? v) eqn:Hy; [| lia].
  destruct j as [|j]; simplify_eq/=; [by apply Z.leb_le |].
  apply (IH j); [done | lia].
Qed.

(** The entry at the insertion point is not below the value. *)
Lemma ipL_at a v x : a !! Z.to_nat (ipL a v) = Some x → v ≤ x.
Proof.
  unfold ipL. induction a as [|y a IH]; [done |].
  cbn [np.searchsorted1]. destruct (y <? v) eqn:Hy.
  - pose proof (searchsorted1_range a v np.SideLeft).
    replace (Z.to_nat (1 + np.searchsorted1 a v np.SideLeft))
      with (S (Z.to_nat (np.searchsorted1 a v np.SideLeft))) by lia.
    done.
  - simpl. intros [= ->]. by apply Z.ltb_ge.
Qed.

Lemma ipR_at a v x : a !! Z.to_nat (ipR a v) = Some x → v < x.
Proof.
  unfold ipR. induction a as [|y a IH]; [done |].
  cbn [np.searchsorted1]. destruct (y <=? v) eqn:Hy.
  - pose proof (searchsorted1_range a v np.SideRight).
    replace (Z.to_nat (1 + np.searchsorted1 a v np.SideRight))
      with (S (Z.to_nat (np.searchsorted1 a v np.SideRight))) by lia.
    done.
  - simpl. intros [= ->]. by apply Z.leb_gt.
Qed.

Lemma sorted_lookup_le a (i j : nat) x y :
  StronglySorted Z.le a → a !! i = Some x → a !! j = Some y → (i < j)%nat → x ≤ y.
Proof.
  intros Hs. revert i j. induction Hs as [|z a Hs IH Hz]; intros i j Hi Hj Hlt; [done |].
  destruct j as [|j]; [lia |]. destruct i as [|i]; simplify_eq/=.
  - rewrite Forall_forall in Hz. apply Hz. by eapply list_elem_of_lookup_2.
  - apply (IH i j); [done | done | lia].
Qed.

(** From the insertion point on, a sorted array holds the entries that are
    not below the value. *)
Lemma ipL_after a v j x :
  StronglySorted Z.le a → a !! j = Some x → ipL a v ≤ Z.of_nat j → v ≤ x.
Proof.
  intros Hs Hj Hle.
  pose proof (searchsorted1_range a v np.SideLeft) as Hr. fold (ipL a v) in Hr.
  destruct (a !! Z.to_nat (ipL a v)) as [y|] eqn:Hy.
  - pose proof (ipL_at _ _ _ Hy).
    destruct (decide (Z.to_nat (ipL a v) = j)) as [<- | Hne]; [by simplify_eq |].
    assert (y ≤ x); [| lia].
    eapply (sorted_lookup_le a (Z.to_nat (ipL a v)) j); eauto. lia.
  - apply lookup_ge_None in Hy. apply lookup_lt_Some in Hj. lia.
Qed.

Lemma ipR_after a v j x :
  StronglySorted Z.le a → a !! j = Some x → ipR a v ≤ Z.of_nat j → v < x.
Proof.
  intros Hs Hj Hle.
  pose proof (searchsorted1_range a v np.SideRight) as Hr. fold (ipR a v) in Hr.
  destruct (a !! Z.to_nat (ipR a v)) as [y|] eqn:Hy.
  - pose proof (ipR_at _ _ _ Hy).
    destruct (decide (Z.to_nat (ipR a v) = j)) as [<- | Hne]; [by simplify_eq |].
    assert (y ≤ x); [| lia].
    eapply (sorted_lookup_le a (Z.to_nat (ipR a v)) j); eauto. lia.
  - apply lookup_ge_None in Hy. apply lookup_lt_Some in Hj. lia.
Qed.

End searchsorted.

(** ** Range matchers *)

Section matchers.
Implicit Types (a : list Z) (v : Z) (L R : NumSeries).

Lemma searchsorted_rows a L side :
  np.searchsorted a (extract_array L) side = (λ p, np.searchsorted1 a p.2 side) <$> L.
Proof. unfold np.searchsorted, extract_array. by rewrite <- list_fmap_compose. Qed.

Lemma searchsorted1_all_below a v side :
  (∀ x, x ∈ a → x < v) → np.searchsorted1 a v side = Z.of_nat (length a).
Proof.
  induction a as [|x a IH]; intros H; [done |].
  assert (x < v) by (apply H; left).
  cbn [np.searchsorted1 length]. rewrite IH by (intros y Hy; apply H; by right).
  destruct side.
  - rewrite (proj2 (Z.ltb_lt x v)) by done. lia.
  - rewrite (proj2 (Z.leb_le x v)) by lia. lia.
Qed.

Lemma searchsorted1_all_above a v side :
  (∀ x, x ∈ a → v < x) → np.searchsorted1 a v side = 0.
Proof.
  destruct a as [|x a]; intros H; [done |].
  assert (v < x) by (apply H; left).
  cbn [np.searchsorted1]. destruct side.
  - by rewrite (proj2 (Z.ltb_ge x v)) by lia.
  - by rewrite (proj2 (Z.leb_gt x v)) by lia.
Qed.

(** Where the boundary entry is not the value itself, the two insertion
    points agree. *)
Lemma ipR_eq_ipL a v :
  (∀ x, a !! Z.to_nat (ipL a v) = Some x → x ≠ v) → ipR a v = ipL a v.
Proof.
  unfold ipL, ipR. induction a as [|y a IH]; intros H; [done |].
  cbn [np.searchsorted1] in *. destruct (y <? v) eqn:Hy.
  - apply Z.ltb_lt in Hy. rewrite (proj2 (Z.leb_le y v)) by lia.
    rewrite IH; [done |]. intros x Hx. apply H.
    pose proof (searchsorted1_range a v np.SideLeft).
    replace (Z.to_nat (1 + np.searchsorted1 a v np.SideLeft))
      with (S (Z.to_nat (np.searchsorted1 a v np.SideLeft))) by lia.
    done.
  - apply Z.ltb_ge in Hy. specialize (H y eq_refl).
    by rewrite (proj2 (Z.leb_gt y v)) by lia.
Qed.

Lemma lt_replacement a v :
  ipL a v < Z.of_nat (length a) →
  (if v =? a !!! Z.to_nat (ipL a v) then ipR a v else ipL a v) = ipR a v.
Proof.
  intros Hlt. destruct (v =? a !!! Z.to_nat (ipL a v)) eqn:Heq; [done |].
  symmetry. apply ipR_eq_ipL. intros x Hx.
  apply list_lookup_total_correct in Hx. apply Z.eqb_neq in Heq. congruence.
Qed.

Lemma gt_replacement a v :
  StronglySorted Z.le a → 1 ≤ ipR a v →
  (if v =? a !!! Z.to_nat (ipR a v - 1)
   then (if ipL a v =? np.size a then ipL a v - 1 else ipL a v)
   else ipR a v) = ipL a v.
Proof.
  intros Hs Hge.
  pose proof (searchsorted1_range a v np.SideRight) as HR. fold (ipR a v) in HR.
  pose proof (searchsorted1_range a v np.SideLeft) as HL. fold (ipL a v) in HL.
  pose proof (ipL_le_ipR a v) as Hle.
  assert (Hlk : a !! Z.to_nat (ipR a v - 1) = Some (a !!! Z.to_nat (ipR a v - 1))).
  { apply list_lookup_lookup_total_lt. lia. }
  assert (Hbefore : a !!! Z.to_nat (ipR a v - 1) ≤ v).
  { apply (ipR_before _ v _ _ Hlk). lia. }
  destruct (v =? a !!! Z.to_nat (ipR a v - 1)) eqn:Heq.
  - apply Z.eqb_eq in Heq.
    assert (ipL a v ≤ ipR a v - 1).
    { destruct (decide (ipL a v ≤ ipR a v - 1)); [done |].
      pose proof (ipL_before _ v _ _ Hlk ltac:(lia)). lia. }
    unfold np.size. by rewrite (proj2 (Z.eqb_neq _ _)) by lia.
  - apply Z.eqb_neq in Heq.
    destruct (decide (ipL a v = ipR a v)) as [| Hne]; [done |].
    assert (Hlk' : a !! Z.to_nat (ipL a v) = Some (a !!! Z.to_nat (ipL a v))).
    { apply list_lookup_lookup_total_lt. lia. }
    pose proof (ipL_at _ _ _ Hlk').
    destruct (decide (ipL a v = ipR a v - 1)) as [He | Hne'].
    + rewrite He in H. lia.
    + pose proof (sorted_lookup_le a _ _ _ _ Hs Hlk' Hlk ltac:(lia)). lia.
Qed.

Lemma take_app {B} (b : list B) i1 i2 x1 x2 :
  np.take b i1 = Ok x1 → np.take b i2 = Ok x2 → np.take b (i1 ++ i2) = Ok (x1 ++ x2).
Proof.
  revert x1. induction i1 as [|i i1 IH]; intros x1 H1 H2.
  - by injection H1 as <-.
  - cbn [np.take app] in *. destruct (np.getitem b i) as [x|]; [| done].
    cbn [mbind res_mbind res_bind] in *.
    destruct (np.take b i1) as [xs|] eqn:Hxs; [| done].
    cbn [mbind res_mbind res_bind] in *. injection H1 as <-.
    by rewrite (IH xs eq_refl H2).
Qed.

Lemma take_zrange {B} (b : list B) lo hi :
  0 ≤ lo → hi ≤ Z.of_nat (length b) →
  np.take b (zrange lo hi) = Ok (take (Z.to_nat (hi - lo)) (drop (Z.to_nat lo) b)).
Proof.
  intros Hlo Hhi. remember (Z.to_nat (hi - lo)) as n eqn:Hn.
  revert lo Hlo Hn. induction n as [|n IH]; intros lo Hlo Hn.
  - rewrite zrange_nil by lia. done.
  - rewrite zrange_cons by lia. cbn [np.take].
    destruct (b !! Z.to_nat lo) as [x|] eqn:Hx; cycle 1.
    { apply lookup_ge_None in Hx. lia. }
    rewrite (getitem_nonneg _ _ x) by done.
    cbn [mbind res_mbind res_bind]. rewrite IH by lia.
    cbn [mbind res_mbind res_bind]. rewrite (drop_S _ x (Z.to_nat lo)) by done.
    cbn [take]. by replace (Z.to_nat (lo + 1)) with (S (Z.to_nat lo)) by lia.
Qed.

Lemma ranges_rows {A} (f g : A → Z) (rows : list A) :
  ranges (f <$> rows) (g <$> rows) = rows ≫= λ p, zrange (f p) (g p).
Proof. induction rows as [|p rows IH]; [done |]. cbn. by rewrite IH. Qed.

Lemma repeat_seq_rows {A B} (f : A → B) (c : A → Z) (rows : list A) :
  np.repeat_seq (f <$> rows) (c <$> rows) = rows ≫= λ p, replicate (Z.to_nat (c p)) (f p).
Proof. induction rows as [|p rows IH]; [done |]. cbn. by rewrite IH. Qed.

Lemma repeat_rows {A B} (f : A → B) (c : A → Z) (rows : list A) :
  (∀ p, p ∈ rows → 0 ≤ c p) →
  np.repeat (f <$> rows) (c <$> rows) = Ok (rows ≫= λ p, replicate (Z.to_nat (c p)) (f p)).
Proof.
  intros Hc. unfold np.repeat. rewrite decide_True by (by rewrite !length_fmap).
  rewrite (proj2 (forallb_forall _ _)), repeat_seq_rows; [done |].
  intros x Hx. apply list_elem_of_In, list_elem_of_fmap in Hx as (p & -> & Hp).
  apply Z.leb_le. by apply Hc.
Qed.

Lemma take_ranges_rows {B} (b : list B) (lo hi : Z → Z) (rows : NumSeries) :
  (∀ p, p ∈ rows → 0 ≤ lo p.2 ∧ hi p.2 ≤ Z.of_nat (length b)) →
  np.take b (rows ≫= λ p, zrange (lo p.2) (hi p.2))
  = Ok (rows ≫= λ p, take (Z.to_nat (hi p.2 - lo p.2)) (drop (Z.to_nat (lo p.2)) b)).
Proof.
  induction rows as [|p rows IH]; intros H; [done |].
  rewrite !bind_cons. apply take_app.
  - apply take_zrange; apply H; left.
  - apply IH. intros q Hq. apply H. by right.
Qed.

(** The expansion shared by the two matchers: under the bounds the matchers
    establish, [_interval_ranges] is called within its precondition and the
    two arrays of the result are the rows' labels along their ranges. *)
Lemma expand_ok (rows : NumSeries) (right_index : list Z) (lo hi : Z → Z) :
  rows ≠ [] →
  (∀ p, p ∈ rows → 0 ≤ lo p.2 < hi p.2 ∧ hi p.2 ≤ Z.of_nat (length right_index)) →
  _interval_ranges ((λ p, lo p.2) <$> rows) ((λ p, hi p.2) <$> rows)
    = Ok (rows ≫= λ p, zrange (lo p.2) (hi p.2))
  ∧ np.take right_index (rows ≫= λ p, zrange (lo p.2) (hi p.2))
    = Ok (expand_right rows right_index lo hi)
  ∧ np.repeat (fst <$> rows) ((λ p, hi p.2 - lo p.2) <$> rows)
    = Ok (expand_left rows lo hi).
Proof.
  intros Hne Hb. split_and!.
  - rewrite interval_ranges_ok, ranges_rows; [done | by destruct rows |].
    apply Forall2_fmap, Forall_Forall2_diag, Forall_forall.
    intros p Hp. apply Hb in Hp. simpl. lia.
  - apply take_ranges_rows. intros p Hp. apply Hb in Hp. lia.
  - apply (repeat_rows fst (λ p, hi p.2 - lo p.2)).
    intros p Hp. apply Hb in Hp. lia.
Qed.

Lemma replicate_rows {A B} (x : B) (rows : list A) :
  replicate (length rows) x = (λ _, x) <$> rows.
Proof. induction rows; [done |]. cbn. by f_equal. Qed.

Lemma list_min_le a m x : list_min a = Some m → x ∈ a → m ≤ x.
Proof.
  destruct a as [|y a]; [done |]. intros [= <-].
  assert (Hf : ∀ z, foldr Z.min y a ≤ y ∧ (z ∈ a → foldr Z.min y a ≤ z)).
  { induction a as [|w a IH]; intros z; simpl.
    - split; [lia | by intros ?%elem_of_nil].
    - destruct (IH z) as [H1 H2]. split; [lia |].
      intros [-> | Hz]%elem_of_cons; [lia |]. specialize (H2 Hz). lia. }
  intros [-> | Hx]%elem_of_cons; [exact (proj1 (Hf y)) | by apply Hf].
Qed.

Lemma list_max_ge a m x : list_max a = Some m → x ∈ a → x ≤ m.
Proof.
  destruct a as [|y a]; [done |]. intros [= <-].
  assert (Hf : ∀ z, y ≤ foldr Z.max y a ∧ (z ∈ a → z ≤ foldr Z.max y a)).
  { induction a as [|w a IH]; intros z; simpl.
    - split; [lia | by intros ?%elem_of_nil].
    - destruct (IH z) as [H1 H2]. split; [lia |].
      intros [-> | Hz]%elem_of_cons; [lia |]. specialize (H2 Hz). lia. }
  intros [-> | Hx]%elem_of_cons; [exact (proj1 (Hf y)) | by apply Hf].
Qed.

Lemma list_min_None a : list_min a = None → a = [].
Proof. by destruct a. Qed.

Lemma monotonic_sorted a : monotonic a = true → StronglySorted Z.le a.
Proof.
  intros H. apply Sorted_StronglySorted; [intros ???; lia |].
  induction a as [|x a IH]; [constructor |].
  destruct a as [|y a]; [by repeat constructor |].
  cbn [monotonic] in H. apply andb_true_iff in H as [Hxy Hm].
  constructor; [by apply IH |]. constructor. by apply Z.leb_le.
Qed.

Lemma insert_by_value_perm p (s : NumSeries) : insert_by_value p s ≡ₚ p :: s.
Proof.
  induction s as [|q s IH]; simpl; [done |].
  case_match; [| done]. rewrite IH. apply Permutation_swap.
Qed.

Lemma sort_values_perm (s : NumSeries) : sort_values s ≡ₚ s.
Proof.
  induction s as [|p s IH]; simpl; [done |].
  rewrite insert_by_value_perm. by f_equiv.
Qed.

Lemma insert_by_value_sorted p (s : NumSeries) :
  StronglySorted by_value s → StronglySorted by_value (insert_by_value p s).
Proof.
  induction 1 as [|q s Hs IH Hq]; simpl; [by repeat constructor |].
  case_match eqn:Hlt.
  - apply Z.ltb_lt in Hlt. constructor; [done |].
    apply Forall_forall. intros x Hx. rewrite insert_by_value_perm in Hx.
    apply elem_of_cons in Hx as [-> | Hx]; [unfold by_value; lia |].
    by eapply Forall_forall in Hq.
  - apply Z.ltb_ge in Hlt. constructor; [by constructor |].
    constructor; [done |].
    eapply Forall_impl; [exact Hq |]. unfold by_value. intros; simpl in *; lia.
Qed.

Lemma sort_values_sorted (s : NumSeries) : StronglySorted by_value (sort_values s).
Proof.
  induction s as [|p s IH]; simpl; [constructor |]. by apply insert_by_value_sorted.
Qed.

Lemma search_order_perm (right_c : Series) : search_order right_c ≡ₚ dropna right_c.
Proof. unfold search_order. case_match; [done |]. apply sort_values_perm. Qed.

Lemma search_order_sorted (right_c : Series) :
  StronglySorted Z.le (extract_array (search_order right_c)).
Proof.
  unfold search_order, is_monotonic_increasing.
  destruct (monotonic _) eqn:Hm; [by apply monotonic_sorted |].
  unfold extract_array. eapply StronglySorted_fmap; [| apply sort_values_sorted].
  done.
Qed.

Lemma search_order_values (right_c : Series) x :
  x ∈ extract_array (search_order right_c) ↔ x ∈ extract_array (dropna right_c).
Proof. unfold extract_array. by rewrite search_order_perm. Qed.

Lemma lt_point_range strict a v : 0 ≤ lt_point strict a v ≤ Z.of_nat (length a).
Proof. unfold lt_point, ipL, ipR. destruct strict; apply searchsorted1_range. Qed.

Lemma gt_point_range strict a v : 0 ≤ gt_point strict a v ≤ Z.of_nat (length a).
Proof. unfold gt_point, ipL, ipR. destruct strict; apply searchsorted1_range. Qed.

Lemma lt_rows_nil_of_gt strict (left_c right_c : Series) :
  scalar_gt (s_min left_c) (s_max right_c) = true →
  lt_rows strict left_c (extract_array (search_order right_c)) = [].
Proof.
  unfold scalar_gt, s_min, s_max.
  destruct (list_min _) as [m|] eqn:Hm; [| done].
  destruct (list_max _) as [M|] eqn:HM; [| done].
  intros Hlt%Z.ltb_lt. apply elem_of_nil_inv. intros p.
  unfold lt_rows. rewrite list_elem_of_filter. intros [Hp Hin].
  assert (m ≤ p.2).
  { eapply list_min_le; [done |]. unfold extract_array. by apply list_elem_of_fmap_2. }
  assert (lt_point strict (extract_array (search_order right_c)) p.2
          = Z.of_nat (length (extract_array (search_order right_c)))); [| lia].
  unfold lt_point, ipL, ipR. destruct strict; apply searchsorted1_all_below;
    intros x Hx%search_order_values; pose proof (list_max_ge _ _ _ HM Hx); lia.
Qed.

Lemma less_than_indices_eq (left_c right_c : Series) strict n :
  _less_than_indices left_c right_c strict n
  = Ok (less_than_result left_c right_c strict n).
Proof.
  unfold _less_than_indices, less_than_result.
  destruct (scalar_gt _ _) eqn:Hgt.
  { by rewrite lt_rows_nil_of_gt. }
  cbv zeta.
  change (if is_monotonic_increasing (dropna right_c) then dropna right_c
          else sort_values (dropna right_c)) with (search_order right_c).
  set (R := search_order right_c). set (a := extract_array R).
  set (L := dropna left_c). rewrite searchsorted_rows.
  unfold np.size. set (len := Z.of_nat (length a)).
  rewrite <- list_fmap_compose.
  change (extract_array L) with (snd <$> L). change (index_of L) with (fst <$> L).
  change ((λ i : Z, i =? len) ∘ (λ p : Z * Z, np.searchsorted1 a p.2 np.SideLeft))
    with (λ p : Z * Z, ipL a p.2 =? len).
  change ((λ p : Z * Z, np.searchsorted1 a p.2 np.SideLeft) <$> L)
    with ((λ p : Z * Z, ipL a p.2) <$> L).
  rewrite discard_fmap. cbn zeta. cbn [mbind res_mbind res_bind].
  match goal with |- context [@filter ?A ?B ?F ?P ?D L] => set (L1 := @filter A B F P D L) end.
  rewrite length_fmap.
  assert (HL1 : ∀ p, p ∈ L1 → 0 ≤ ipL a p.2 < len).
  { intros p [Hp _]%list_elem_of_filter. cbn in Hp.
    pose proof (searchsorted1_range a p.2 np.SideLeft). fold (ipL a p.2) in *.
    apply negb_prop_elim in Hp. apply Is_true_false in Hp. apply Z.eqb_neq in Hp.
    fold len in H. unfold ipL in *. lia. }
  assert (Hrows : lt_rows strict left_c a
                  = filter (λ p, lt_point strict a p.2 < len) L1).
  { unfold lt_rows. subst L1. fold L len. symmetry. apply filter_narrowed.
    intros p _ Hp. apply negb_prop_intro. intros Heq%Is_true_true%Z.eqb_eq.
    pose proof (ipL_le_ipR a p.2). unfold lt_point in *. destruct strict; lia. }
  rewrite Hrows. clearbody L1. clear Hrows.
  destruct (Z.of_nat (length L1) =? 0) eqn:Hz.
  { apply Z.eqb_eq in Hz. destruct L1; [done | simpl in Hz; lia]. }
  assert (Hmid :
    (if strict
     then
       rows_equal ← np.take a ((λ p, ipL a p.2) <$> L1);
       rows_equal ← np.binop Z.eqb (snd <$> L1) rows_equal;
       let search_indices :=
         if np.any rows_equal then
           np.where_ rows_equal (np.searchsorted a (snd <$> L1) np.SideRight)
             ((λ p, ipL a p.2) <$> L1)
         else (λ p, ipL a p.2) <$> L1 in
       discard ((λ i, i =? len) <$> search_indices) (snd <$> L1) (fst <$> L1)
         search_indices
     else Ok (snd <$> L1, fst <$> L1, (λ p, ipL a p.2) <$> L1))
    = Ok (let rows := filter (λ p, lt_point strict a p.2 < len) L1 in
          (snd <$> rows, fst <$> rows, (λ p, lt_point strict a p.2) <$> rows))).
  { destruct strict.
    - rewrite take_fmap by (fold len; done).
      cbn [mbind res_mbind res_bind].
      rewrite binop_same_length by (by rewrite !length_fmap).
      cbn [mbind res_mbind res_bind]. rewrite zip_with_fmap_same.
      set (eqs := (λ x : Z * Z, x.2 =? a !!! Z.to_nat (ipL a x.2)) <$> L1).
      assert (Hsi : (if np.any eqs
                     then np.where_ eqs (np.searchsorted a (snd <$> L1) np.SideRight)
                            ((λ p, ipL a p.2) <$> L1)
                     else (λ p, ipL a p.2) <$> L1)
                    = (λ p, ipR a p.2) <$> L1).
      { destruct (np.any eqs) eqn:Hany.
        - subst eqs. change (snd <$> L1) with (extract_array L1).
          rewrite searchsorted_rows, where_fmap.
          apply list_fmap_ext. intros i p Hp. apply lt_replacement.
          apply HL1. by eapply list_elem_of_lookup_2.
        - apply list_fmap_ext. intros i p Hp. symmetry.
          apply ipR_eq_ipL. intros x Hx Heq.
          assert (np.any eqs = true); [| congruence].
          apply any_fmap. exists p. split; [by eapply list_elem_of_lookup_2 |].
          apply Z.eqb_eq. apply list_lookup_total_correct in Hx. congruence. }
      cbv zeta. rewrite Hsi, <- list_fmap_compose.
      change ((λ i : Z, i =? len) ∘ (λ p : Z * Z, ipR a p.2))
        with (λ p : Z * Z, ipR a p.2 =? len).
      rewrite discard_fmap. cbv zeta.
      assert (Hf : filter (λ x : Z * Z, negb (ipR a x.2 =? len)) L1
                   = filter (λ p : Z * Z, lt_point true a p.2 < len) L1).
      { apply list_filter_iff. intros p. unfold lt_point.
        pose proof (searchsorted1_range a p.2 np.SideRight) as Hr.
        fold (ipR a p.2) in Hr. fold len in Hr.
        destruct (ipR a p.2 =? len) eqn:He; simpl;
          [apply Z.eqb_eq in He | apply Z.eqb_neq in He].
        - split; [by intros [] | lia].
        - split; [lia | done]. }
      by rewrite Hf.
    - cbv zeta. rewrite filter_all; [done |].
      intros p Hp. unfold lt_point. by apply HL1. }
  match type of Hmid with ?l = _ =>
    match goal with |- mbind ?k ?m = _ => change m with l; rewrite Hmid end
  end.
  cbv zeta. cbn [mbind res_mbind res_bind]. clear Hmid.
  match goal with |- context [@filter ?A ?B ?F ?P ?D L1] =>
    assert (Hrows : ∀ p, p ∈ @filter A B F P D L1 →
              0 ≤ lt_point strict a p.2 < len ∧ len ≤ Z.of_nat (length (index_of R)));
      [| generalize dependent (@filter A B F P D L1); intros rows Hrows]
  end.
  { intros p [Hp _]%list_elem_of_filter.
    pose proof (lt_point_range strict a p.2).
    unfold index_of, len, a, extract_array. rewrite !length_fmap. fold a len.
    unfold len, a, extract_array in *. rewrite !length_fmap in *. lia. }
  rewrite length_fmap. case_decide as Hne; [by subst |].
  rewrite (proj2 (Z.eqb_neq _ 0)) by (destruct rows; [done | simpl; lia]).
  unfold np.repeat_scalar.
  destruct (1 <? n); [done |].
  rewrite replicate_rows.
  destruct (expand_ok rows (index_of R) (lt_point strict a) (λ _, len) Hne Hrows)
    as (H1 & H2 & H3).
  rewrite H1. cbn [mbind res_mbind res_bind]. unfold np.sub.
  rewrite binop_same_length by (by rewrite !length_fmap).
  cbn [mbind res_mbind res_bind]. rewrite H2, zip_with_fmap_same.
  cbn [mbind res_mbind res_bind]. by rewrite H3.
Qed.

Lemma gt_rows_nil_of_lt strict (left_c right_c : Series) :
  scalar_lt (s_max left_c) (s_min right_c) = true →
  gt_rows strict left_c (extract_array (search_order right_c)) = [].
Proof.
  unfold scalar_lt, s_min, s_max.
  destruct (list_max _) as [M|] eqn:HM; [| done].
  destruct (list_min _) as [m|] eqn:Hm; [| done].
  intros Hlt%Z.ltb_lt. apply elem_of_nil_inv. intros p.
  unfold gt_rows. rewrite list_elem_of_filter. intros [Hp Hin].
  assert (p.2 ≤ M).
  { eapply list_max_ge; [done |]. unfold extract_array. by apply list_elem_of_fmap_2. }
  assert (gt_point strict (extract_array (search_order right_c)) p.2 = 0); [| lia].
  unfold gt_point, ipL, ipR. destruct strict; apply searchsorted1_all_above;
    intros x Hx%search_order_values; pose proof (list_min_le _ _ _ Hm Hx); lia.
Qed.

Lemma greater_than_indices_eq (left_c right_c : Series) strict n :
  _greater_than_indices left_c right_c strict n
  = Ok (greater_than_result left_c right_c strict n).
Proof.
  unfold _greater_than_indices, greater_than_result.
  destruct (scalar_lt _ _) eqn:Hlt.
  { by rewrite gt_rows_nil_of_lt. }
  cbv zeta.
  change (if is_monotonic_increasing (dropna right_c) then dropna right_c
          else sort_values (dropna right_c)) with (search_order right_c).
  pose proof (search_order_sorted right_c) as Hsorted.
  set (R := search_order right_c) in *. set (a := extract_array R) in *.
  set (L := dropna left_c). rewrite searchsorted_rows.
  unfold np.size. set (len := Z.of_nat (length a)).
  rewrite <- list_fmap_compose.
  change (extract_array L) with (snd <$> L). change (index_of L) with (fst <$> L).
  change ((λ i : Z, i <? 1) ∘ (λ p : Z * Z, np.searchsorted1 a p.2 np.SideRight))
    with (λ p : Z * Z, ipR a p.2 <? 1).
  change ((λ p : Z * Z, np.searchsorted1 a p.2 np.SideRight) <$> L)
    with ((λ p : Z * Z, ipR a p.2) <$> L).
  rewrite discard_fmap. cbn zeta. cbn [mbind res_mbind res_bind].
  match goal with |- context [@filter ?A ?B ?F ?P ?D L] => set (L1 := @filter A B F P D L) end.
  rewrite length_fmap.
  assert (HL1 : ∀ p, p ∈ L1 → 1 ≤ ipR a p.2 ≤ len).
  { intros p [Hp _]%list_elem_of_filter. cbn in Hp.
    pose proof (searchsorted1_range a p.2 np.SideRight) as Hr. fold (ipR a p.2) in Hr.
    apply negb_prop_elim in Hp. apply Is_true_false in Hp. apply Z.ltb_ge in Hp.
    fold len in Hr. lia. }
  assert (Hrows : gt_rows strict left_c a
                  = filter (λ p, 1 ≤ gt_point strict a p.2) L1).
  { unfold gt_rows. subst L1. fold L. symmetry. apply filter_narrowed.
    intros p _ Hp. apply negb_prop_intro. intros Heq%Is_true_true%Z.ltb_lt.
    pose proof (ipL_le_ipR a p.2). unfold gt_point in *. destruct strict; lia. }
  rewrite Hrows. clearbody L1. clear Hrows.
  destruct (Z.of_nat (length L1) =? 0) eqn:Hz.
  { apply Z.eqb_eq in Hz. destruct L1; [done | simpl in Hz; lia]. }
  assert (Hmid :
    (if strict
     then
       rows_equal ← np.take a ((λ i, i - 1) <$> ((λ p, ipR a p.2) <$> L1));
       rows_equal ← np.binop Z.eqb (snd <$> L1) rows_equal;
       let search_indices :=
         if np.any rows_equal then
           np.where_ rows_equal
             ((λ i, if i =? np.size a then i - 1 else i)
                <$> np.searchsorted a (snd <$> L1) np.SideLeft)
             ((λ p, ipR a p.2) <$> L1)
         else (λ p, ipR a p.2) <$> L1 in
       discard ((λ i, i <? 1) <$> search_indices) (snd <$> L1) (fst <$> L1)
         search_indices
     else Ok (snd <$> L1, fst <$> L1, (λ p, ipR a p.2) <$> L1))
    = Ok (let rows := filter (λ p, 1 ≤ gt_point strict a p.2) L1 in
          (snd <$> rows, fst <$> rows, (λ p, gt_point strict a p.2) <$> rows))).
  { destruct strict.
    - rewrite <- list_fmap_compose.
      change ((λ i : Z, i - 1) ∘ (λ p : Z * Z, ipR a p.2))
        with (λ p : Z * Z, ipR a p.2 - 1).
      rewrite take_fmap by (intros p Hp; apply HL1 in Hp; fold len; lia).
      cbn [mbind res_mbind res_bind].
      rewrite binop_same_length by (by rewrite !length_fmap).
      cbn [mbind res_mbind res_bind]. rewrite zip_with_fmap_same.
      set (eqs := (λ x : Z * Z, x.2 =? a !!! Z.to_nat (ipR a x.2 - 1)) <$> L1).
      assert (Hsi : (if np.any eqs
                     then np.where_ eqs
                            ((λ i, if i =? np.size a then i - 1 else i)
                               <$> np.searchsorted a (snd <$> L1) np.SideLeft)
                            ((λ p, ipR a p.2) <$> L1)
                     else (λ p, ipR a p.2) <$> L1)
                    = (λ p, ipL a p.2) <$> L1).
      { destruct (np.any eqs) eqn:Hany.
        - subst eqs. change (snd <$> L1) with (extract_array L1).
          rewrite searchsorted_rows, <- list_fmap_compose, where_fmap.
          apply list_fmap_ext. intros i p Hp. simpl.
          apply gt_replacement; [done |].
          apply HL1. by eapply list_elem_of_lookup_2.
        - apply list_fmap_ext. intros i p Hp.
          assert (Hin : p ∈ L1) by (by eapply list_elem_of_lookup_2).
          pose proof (gt_replacement a p.2 Hsorted (proj1 (HL1 p Hin))) as Hrep.
          destruct (p.2 =? a !!! Z.to_nat (ipR a p.2 - 1)) eqn:Heq; [| done].
          assert (np.any eqs = true); [| congruence].
          apply any_fmap. by exists p. }
      cbv zeta. rewrite Hsi, <- list_fmap_compose.
      change ((λ i : Z, i <? 1) ∘ (λ p : Z * Z, ipL a p.2))
        with (λ p : Z * Z, ipL a p.2 <? 1).
      rewrite discard_fmap. cbv zeta.
      assert (Hf : filter (λ x : Z * Z, negb (ipL a x.2 <? 1)) L1
                   = filter (λ p : Z * Z, 1 ≤ gt_point true a p.2) L1).
      { apply list_filter_iff. intros p. unfold gt_point.
        destruct (ipL a p.2 <? 1) eqn:He; simpl;
          [apply Z.ltb_lt in He | apply Z.ltb_ge in He].
        - split; [by intros [] | lia].
        - split; [lia | done]. }
      by rewrite Hf.
    - cbv zeta. rewrite filter_all; [done |].
      intros p Hp. unfold gt_point. by apply HL1. }
  match type of Hmid with ?l = _ =>
    match goal with |- mbind ?k ?m = _ => change m with l; rewrite Hmid end
  end.
  cbv zeta. cbn [mbind res_mbind res_bind]. clear Hmid.
  match goal with |- context [@filter ?A ?B ?F ?P ?D L1] =>
    assert (Hrows : ∀ p, p ∈ @filter A B F P D L1 →
              0 ≤ 0 < gt_point strict a p.2
              ∧ gt_point strict a p.2 ≤ Z.of_nat (length (index_of R)));
      [| generalize dependent (@filter A B F P D L1); intros rows Hrows]
  end.
  { intros p [Hp _]%list_elem_of_filter.
    pose proof (gt_point_range strict a p.2).
    unfold index_of, len, a, extract_array. rewrite !length_fmap. fold a len.
    unfold len, a, extract_array in *. rewrite !length_fmap in *. lia. }
  rewrite length_fmap. case_decide as Hne; [by subst |].
  rewrite (proj2 (Z.eqb_neq _ 0)) by (destruct rows; [done | simpl; lia]).
  unfold np.repeat_scalar.
  destruct (1 <? n); [done |].
  rewrite replicate_rows.
  destruct (expand_ok rows (index_of R) (λ _, 0) (gt_point strict a) Hne Hrows)
    as (H1 & H2 & H3).
  rewrite H1. cbn [mbind res_mbind res_bind]. rewrite H2.
  cbn [mbind res_mbind res_bind].
  replace ((λ p : Z * Z, gt_point strict a p.2) <$> rows)
    with ((λ p : Z * Z, gt_point strict a p.2 - 0) <$> rows)
    by (apply list_fmap_ext; intros; simpl; lia).
  by rewrite H3.
Qed.

End matchers.

(** ** The pairs of a matcher *)

Section pairs.
Implicit Types (a : list Z) (L R : NumSeries) (s : Series).

Lemma elem_of_dropna s l x : (l, x) ∈ dropna s ↔ (l, Some x) ∈ s.
Proof.
  unfold dropna. rewrite list_elem_of_omap. split.
  - intros ([l' [x'|]] & Hin & Heq); simplify_eq/=. done.
  - intros Hin. exists (l, Some x). done.
Qed.

Lemma dropna_index_sublist s : index_of (dropna s) `sublist_of` index_of s.
Proof.
  unfold index_of, dropna. induction s as [|[l [x|]] s IH]; simpl.
  - constructor.
  - by constructor.
  - by constructor.
Qed.

Lemma NoDup_dropna s : NoDup (index_of s) → NoDup (index_of (dropna s)).
Proof. intros H. eapply sublist_NoDup; [done | apply dropna_index_sublist]. Qed.

Lemma NoDup_index_inj {V} (t : list (Z * V)) l x y :
  NoDup (index_of t) → (l, x) ∈ t → (l, y) ∈ t → x = y.
Proof.
  unfold index_of. induction t as [|[l' z] t IH]; intros Hnd Hx Hy.
  - by apply elem_of_nil in Hx.
  - apply NoDup_cons in Hnd as [Hnotin Hnd].
    apply elem_of_cons in Hx as [Hx | Hx]; apply elem_of_cons in Hy as [Hy | Hy];
      simplify_eq/=; [done | | | by apply IH].
    + exfalso. apply Hnotin. apply list_elem_of_fmap. by exists (l', y).
    + exfalso. apply Hnotin. apply list_elem_of_fmap. by exists (l', x).
Qed.

Lemma zip_expand (rows : NumSeries) (right_index : list Z) (lo hi : Z → Z) :
  (∀ p, p ∈ rows → 0 ≤ lo p.2 ∧ hi p.2 ≤ Z.of_nat (length right_index)) →
  zip (expand_left rows lo hi) (expand_right rows right_index lo hi)
  = rows ≫= λ p, pair p.1 <$>
      take (Z.to_nat (hi p.2 - lo p.2)) (drop (Z.to_nat (lo p.2)) right_index).
Proof.
  unfold expand_left, expand_right.
  induction rows as [|p rows IH]; intros Hb; [done |].
  rewrite !bind_cons.
  assert (Hp : 0 ≤ lo p.2 ∧ hi p.2 ≤ Z.of_nat (length right_index)) by (apply Hb; left).
  rewrite zip_with_app; cycle 1.
  { rewrite length_replicate, length_take, length_drop. lia. }
  rewrite IH by (intros q Hq; apply Hb; by right). f_equal.
  set (sl := take _ _).
  assert (Hlen : length sl = Z.to_nat (hi p.2 - lo p.2)).
  { unfold sl. rewrite length_take, length_drop. lia. }
  rewrite <- Hlen. clear. induction sl; [done |]. cbn. by f_equal.
Qed.

Lemma elem_of_slice {B} (idx : list B) (k n : nat) x :
  x ∈ take n (drop k idx) ↔ ∃ j, (k ≤ j < k + n)%nat ∧ idx !! j = Some x.
Proof.
  rewrite list_elem_of_lookup. split.
  - intros (i & Hi). pose proof (lookup_lt_Some _ _ _ Hi) as Hlt.
    rewrite length_take in Hlt. rewrite lookup_take_lt, lookup_drop in Hi by lia.
    exists (k + i)%nat. split; [lia | done].
  - intros (j & Hj & Hx). exists (j - k)%nat.
    rewrite lookup_take_lt, lookup_drop by lia. by replace (k + (j - k))%nat with j by lia.
Qed.

(** In a sorted array, the positions from an insertion point on are those
    of the entries the value is below. *)
Lemma lt_point_iff strict a v (j : nat) y :
  StronglySorted Z.le a → a !! j = Some y →
  lt_point strict a v ≤ Z.of_nat j ↔ (if strict then v < y else v ≤ y).
Proof.
  intros Hs Hj. unfold lt_point. destruct strict; split.
  - by apply ipR_after.
  - intros Hlt. destruct (decide (ipR a v ≤ Z.of_nat j)); [done |].
    pose proof (ipR_before a v j y Hj ltac:(lia)). lia.
  - by apply ipL_after.
  - intros Hle. destruct (decide (ipL a v ≤ Z.of_nat j)); [done |].
    pose proof (ipL_before a v j y Hj ltac:(lia)). lia.
Qed.

Lemma gt_point_iff strict a v (j : nat) y :
  StronglySorted Z.le a → a !! j = Some y →
  Z.of_nat j < gt_point strict a v ↔ (if strict then y < v else y ≤ v).
Proof.
  intros Hs Hj. unfold gt_point. destruct strict; split.
  - by apply ipL_before.
  - intros Hlt. destruct (decide (Z.of_nat j < ipL a v)); [done |].
    pose proof (ipL_after a v j y Hs Hj ltac:(lia)). lia.
  - by apply ipR_before.
  - intros Hle. destruct (decide (Z.of_nat j < ipR a v)); [done |].
    pose proof (ipR_after a v j y Hs Hj ltac:(lia)). lia.
Qed.

Lemma row_pairs_spec (rows src R : NumSeries) (lo hi : Z → Z) (P : Z → Z → Prop) :
  NoDup (index_of src) → NoDup (index_of R) → NoDup rows →
  (∀ p, p ∈ rows ↔ p ∈ src ∧ lo p.2 < hi p.2) →
  (∀ p, p ∈ src → 0 ≤ lo p.2 ∧ hi p.2 ≤ Z.of_nat (length R)) →
  (∀ p (j : nat) q, p ∈ src → R !! j = Some q →
     lo p.2 ≤ Z.of_nat j < hi p.2 ↔ P p.2 q.2) →
  let pairs := rows ≫= λ p, pair p.1 <$>
                 take (Z.to_nat (hi p.2 - lo p.2)) (drop (Z.to_nat (lo p.2)) (index_of R)) in
  NoDup pairs
  ∧ ∀ l r, (l, r) ∈ pairs ↔ ∃ x y, (l, x) ∈ src ∧ (r, y) ∈ R ∧ P x y.
Proof.
  intros Hsrc HR Hrows Hin Hb HP pairs. split.
  - apply NoDup_bind; [| | done].
    + intros p1 p2 z [Hp1 _]%Hin [Hp2 _]%Hin (r1 & -> & _)%list_elem_of_fmap
        (r2 & [= H1 _] & _)%list_elem_of_fmap.
      destruct p1 as [l1 x1], p2 as [l2 x2]. simpl in *. subst l2.
      f_equal. by eapply (NoDup_index_inj src).
    + intros p _. apply NoDup_fmap_2; [by intros ?? [=] |].
      eapply sublist_NoDup; [exact HR |].
      etrans; [apply sublist_take | apply sublist_drop].
  - intros l r. unfold pairs. rewrite list_elem_of_bind. split.
    + intros (p & (r' & [= -> ->] & Hr)%list_elem_of_fmap & Hp).
      apply Hin in Hp as [Hp Hlt]. apply elem_of_slice in Hr as (j & Hj & Hr).
      unfold index_of in Hr. rewrite list_lookup_fmap in Hr.
      apply fmap_Some in Hr as (q & Hq & ->).
      exists p.2, q.2. split_and!.
      * by destruct p.
      * destruct q. by eapply list_elem_of_lookup_2.
      * apply (HP p j q Hp Hq). specialize (Hb p Hp). lia.
    + intros (x & y & Hx & Hy & HPxy).
      apply list_elem_of_lookup in Hy as (j & Hj).
      pose proof (proj2 (HP (l, x) j (r, y) Hx Hj) HPxy) as Hrange. simpl in Hrange.
      exists (l, x). split.
      * apply list_elem_of_fmap. exists r. split; [done |]. simpl.
        apply elem_of_slice. exists j. split; [lia |].
        unfold index_of. by rewrite list_lookup_fmap, Hj.
      * apply Hin. split; [done | simpl; lia].
Qed.

Lemma expand_length (rows : NumSeries) (right_index : list Z) (lo hi : Z → Z) :
  (∀ p, p ∈ rows → 0 ≤ lo p.2 ∧ hi p.2 ≤ Z.of_nat (length right_index)) →
  length (expand_left rows lo hi) = length (expand_right rows right_index lo hi).
Proof.
  unfold expand_left, expand_right.
  induction rows as [|p rows IH]; intros Hb; [done |].
  rewrite !bind_cons, !length_app, IH by (intros q Hq; apply Hb; by right).
  assert (Hp : 0 ≤ lo p.2 ∧ hi p.2 ≤ Z.of_nat (length right_index)) by (apply Hb; left).
  rewrite length_replicate, length_take, length_drop. lia.
Qed.

Lemma expand_left_nonnil (rows : NumSeries) (lo hi : Z → Z) :
  rows ≠ [] → (∀ p, p ∈ rows → lo p.2 < hi p.2) → expand_left rows lo hi ≠ [].
Proof.
  destruct rows as [|p rows]; [done |]. intros _ Hlt.
  assert (lo p.2 < hi p.2) by (apply Hlt; left).
  unfold expand_left. rewrite bind_cons.
  replace (Z.to_nat (hi p.2 - lo p.2)) with (S (Z.to_nat (hi p.2 - lo p.2) - 1)) by lia.
  done.
Qed.

Lemma search_order_index_NoDup (right_c : Series) :
  NoDup (index_of right_c) → NoDup (index_of (search_order right_c)).
Proof.
  intros H. unfold index_of. rewrite search_order_perm. by apply NoDup_dropna.
Qed.

Lemma elem_of_search_order (right_c : Series) r y :
  (r, y) ∈ search_order right_c ↔ (r, Some y) ∈ right_c.
Proof. by rewrite search_order_perm, elem_of_dropna. Qed.

Lemma NoDup_of_index {V} (t : list (Z * V)) : NoDup (index_of t) → NoDup t.
Proof. apply NoDup_fmap_1. Qed.

(** The pairs of the less-than matcher are the pairs of rows whose numbers
    compare, each once. *)
Lemma less_than_pairs (left_c right_c : Series) strict :
  NoDup (index_of left_c) → NoDup (index_of right_c) →
  let m := less_than_result left_c right_c strict 1 in
  paired m ∧ NoDup (pairs_of m)
  ∧ ∀ l r, (l, r) ∈ pairs_of m ↔
      ∃ x y, (l, Some x) ∈ left_c ∧ (r, Some y) ∈ right_c
             ∧ if strict then x < y else x ≤ y.
Proof.
  intros Hl Hr.
  set (R := search_order right_c). set (a := extract_array R).
  set (rows := lt_rows strict left_c a).
  assert (Hlen : length a = length R) by (unfold a, extract_array; by rewrite length_fmap).
  assert (Hb : ∀ p, p ∈ dropna left_c →
            0 ≤ lt_point strict a p.2 ∧ Z.of_nat (length a) ≤ Z.of_nat (length R)).
  { intros p _. pose proof (lt_point_range strict a p.2). lia. }
  assert (Hrows : ∀ p, p ∈ rows ↔
            p ∈ dropna left_c ∧ lt_point strict a p.2 < Z.of_nat (length a)).
  { intros p. unfold rows, lt_rows. rewrite list_elem_of_filter. tauto. }
  destruct (row_pairs_spec rows (dropna left_c) R (lt_point strict a)
              (λ _, Z.of_nat (length a)) (λ x y, if strict then x < y else x ≤ y))
    as [Hnd Hiff].
  { by apply NoDup_dropna. }
  { by apply search_order_index_NoDup. }
  { apply NoDup_filter, NoDup_of_index. by apply NoDup_dropna. }
  { done. }
  { done. }
  { intros p j q _ Hq.
    assert (Ha : a !! j = Some q.2).
    { unfold a, extract_array. rewrite list_lookup_fmap. apply fmap_Some. by exists q. }
    rewrite <- (lt_point_iff strict a p.2 j q.2 (search_order_sorted right_c) Ha).
    apply lookup_lt_Some in Ha. lia. }
  assert (Hiff' : ∀ l r,
    (l, r) ∈ (rows ≫= λ p, pair p.1 <$>
                take (Z.to_nat (Z.of_nat (length a) - lt_point strict a p.2))
                  (drop (Z.to_nat (lt_point strict a p.2)) (index_of R)))
    ↔ ∃ x y, (l, Some x) ∈ left_c ∧ (r, Some y) ∈ right_c
             ∧ if strict then x < y else x ≤ y).
  { intros l r. rewrite Hiff.
    split; intros (x & y & Hx & Hy & Hc); exists x, y;
      (split_and!; [by apply elem_of_dropna | by apply elem_of_search_order | done]). }
  clear Hiff. cbv zeta. unfold less_than_result. fold R a rows.
  case_decide as Hnil.
  - rewrite Hnil in *. split_and!; [done | constructor | done].
  - change (1 <? 1) with false. cbn [pairs_of paired].
    assert (Hb' : ∀ p, p ∈ rows →
              0 ≤ lt_point strict a p.2
              ∧ Z.of_nat (length a) ≤ Z.of_nat (length (index_of R))).
    { intros p [Hp _]%Hrows. unfold index_of. rewrite length_fmap. by apply Hb. }
    rewrite zip_expand by done. split_and!; [| | done | done].
    + by apply expand_length.
    + apply expand_left_nonnil; [done |]. intros p Hp. by apply Hrows.
Qed.

Lemma greater_than_pairs (left_c right_c : Series) strict :
  NoDup (index_of left_c) → NoDup (index_of right_c) →
  let m := greater_than_result left_c right_c strict 1 in
  paired m ∧ NoDup (pairs_of m)
  ∧ ∀ l r, (l, r) ∈ pairs_of m ↔
      ∃ x y, (l, Some x) ∈ left_c ∧ (r, Some y) ∈ right_c
             ∧ if strict then y < x else y ≤ x.
Proof.
  intros Hl Hr.
  set (R := search_order right_c). set (a := extract_array R).
  set (rows := gt_rows strict left_c a).
  assert (Hlen : length a = length R) by (unfold a, extract_array; by rewrite length_fmap).
  assert (Hb : ∀ p, p ∈ dropna left_c →
            0 ≤ 0 ∧ gt_point strict a p.2 ≤ Z.of_nat (length R)).
  { intros p _. pose proof (gt_point_range strict a p.2). lia. }
  assert (Hrows : ∀ p, p ∈ rows ↔ p ∈ dropna left_c ∧ 0 < gt_point strict a p.2).
  { intros p. unfold rows, gt_rows. rewrite list_elem_of_filter. split; intros []; split; (done || lia). }
  destruct (row_pairs_spec rows (dropna left_c) R (λ _, 0) (gt_point strict a)
              (λ x y, if strict then y < x else y ≤ x))
    as [Hnd Hiff].
  { by apply NoDup_dropna. }
  { by apply search_order_index_NoDup. }
  { apply NoDup_filter, NoDup_of_index. by apply NoDup_dropna. }
  { done. }
  { done. }
  { intros p j q _ Hq.
    assert (Ha : a !! j = Some q.2).
    { unfold a, extract_array. rewrite list_lookup_fmap. apply fmap_Some. by exists q. }
    rewrite <- (gt_point_iff strict a p.2 j q.2 (search_order_sorted right_c) Ha). lia. }
  assert (Hiff' : ∀ l r,
    (l, r) ∈ (rows ≫= λ p, pair p.1 <$>
                take (Z.to_nat (gt_point strict a p.2 - 0))
                  (drop (Z.to_nat 0) (index_of R)))
    ↔ ∃ x y, (l, Some x) ∈ left_c ∧ (r, Some y) ∈ right_c
             ∧ if strict then y < x else y ≤ x).
  { intros l r. rewrite Hiff.
    split; intros (x & y & Hx & Hy & Hc); exists x, y;
      (split_and!; [by apply elem_of_dropna | by apply elem_of_search_order | done]). }
  clear Hiff. cbv zeta. unfold greater_than_result. fold R a rows.
  case_decide as Hnil.
  - rewrite Hnil in *. split_and!; [done | constructor | done].
  - change (1 <? 1) with false. cbn [pairs_of paired].
    assert (Hb' : ∀ p, p ∈ rows →
              0 ≤ 0 ∧ gt_point strict a p.2 ≤ Z.of_nat (length (index_of R))).
    { intros p [Hp _]%Hrows. unfold index_of. rewrite length_fmap. by apply Hb. }
    rewrite (zip_expand rows (index_of R) (λ _, 0) (gt_point strict a)) by done.
    split_and!; [| | done | done].
    + by apply expand_length.
    + apply expand_left_nonnil; [done |]. intros p Hp. by apply Hrows.
Qed.

End pairs.

(** ** Reading tables by label *)

Section tables.
Implicit Types (df : DataFrame) (name : string) (labels : list Z).

Lemma list_find_NoDup df (row : Z * list value) :
  NoDup (index df) → row ∈ rows df →
  ∃ i, list_find (λ r, r.1 = row.1) (rows df) = Some (i, row).
Proof.
  intros Hnd Hin. destruct (list_find (λ r, r.1 = row.1) (rows df)) as [[i row']|] eqn:Hf.
  - exists i. apply list_find_Some in Hf as (Hi & Heq & _).
    do 2 f_equal. destruct row as [l c], row' as [l' c']. simpl in Heq. subst l'.
    f_equal. eapply (NoDup_index_inj (rows df) l); [done | | done].
    by eapply list_elem_of_lookup_2.
  - apply list_find_None in Hf. rewrite Forall_forall in Hf. by destruct (Hf row Hin).
Qed.

Lemma row_at_elem df row :
  NoDup (index df) → row ∈ rows df → row_at df row.1 = Ok row.
Proof.
  intros Hnd Hin. unfold row_at.
  by destruct (list_find_NoDup df row Hnd Hin) as [i ->].
Qed.

Lemma rows_at_sub df (sub : list (Z * list value)) :
  NoDup (index df) → (∀ row, row ∈ sub → row ∈ rows df) →
  rows_at df (index_of sub) = Ok sub.
Proof.
  intros Hnd. induction sub as [|row sub IH]; intros Hsub; [done |].
  cbn [index_of fmap list_fmap rows_at]. rewrite row_at_elem by (done || apply Hsub; left).
  cbn [mbind res_mbind res_bind]. fold (index_of sub).
  rewrite IH by (intros r Hr; apply Hsub; by right). done.
Qed.

Lemma value_at_elem df name k row :
  NoDup (index df) → column_pos df name = Some k → row ∈ rows df →
  value_at df name row.1 = Some (cell k row).
Proof.
  intros Hnd Hk Hin. unfold value_at. rewrite Hk. simpl.
  by destruct (list_find_NoDup df row Hnd Hin) as [i ->].
Qed.

Lemma value_at_Some df name l v :
  value_at df name l = Some v →
  ∃ k row, column_pos df name = Some k ∧ row ∈ rows df ∧ row.1 = l ∧ v = cell k row.
Proof.
  unfold value_at. destruct (column_pos df name) as [k|]; [| done]. simpl.
  destruct (list_find _ _) as [[i row]|] eqn:Hf; [| done]. simpl. intros [= <-].
  apply list_find_Some in Hf as (Hi & Heq & _).
  exists k, row. split_and!; [done | by eapply list_elem_of_lookup_2 | done | done].
Qed.

Lemma value_at_is_Some df name l :
  is_Some (column_pos df name) → l ∈ index df → is_Some (value_at df name l).
Proof.
  intros [k Hk] (row & -> & Hrow)%list_elem_of_fmap. unfold value_at. rewrite Hk. simpl.
  destruct (list_find (λ r, r.1 = row.1) (rows df)) as [[i row']|] eqn:Hf; [by eexists |].
  apply list_find_None in Hf. rewrite Forall_forall in Hf. by destruct (Hf row Hrow).
Qed.

Lemma getitem_col_series df name :
  NoDup (index df) → is_Some (column_pos df name) →
  getitem_col df name = Ok (series_on df name (index df)).
Proof.
  intros Hnd [k Hk]. unfold getitem_col, series_on, index, index_of. rewrite Hk. f_equal.
  rewrite <- list_fmap_compose. apply list_fmap_ext. intros i row Hrow. simpl.
  unfold val. rewrite (value_at_elem df name k row); [done | done | done |].
  by eapply list_elem_of_lookup_2.
Qed.

Lemma rows_at_labels df labels :
  (∀ l, l ∈ labels → l ∈ index df) →
  ∃ sub, rows_at df labels = Ok sub ∧ index_of sub = labels
         ∧ ∀ row, row ∈ sub → row ∈ rows df.
Proof.
  induction labels as [|l labels IH]; intros Hsub.
  - exists []. split_and!; [done | done |]. by intros ? ?%elem_of_nil.
  - destruct IH as (sub & Hrows & Hidx & Hin); [intros l' Hl'; apply Hsub; by right |].
    assert (Hl : l ∈ index df) by (apply Hsub; left).
    apply list_elem_of_fmap in Hl as (row & -> & Hrow).
    cbn [rows_at]. unfold row_at.
    destruct (list_find (λ r, r.1 = row.1) (rows df)) as [[i row']|] eqn:Hf; cycle 1.
    { apply list_find_None in Hf. rewrite Forall_forall in Hf. by destruct (Hf row Hrow). }
    apply list_find_Some in Hf as (Hi & Heq & _).
    exists (row' :: sub). cbn [mbind res_mbind res_bind]. rewrite Hrows. split_and!.
    + done.
    + cbn. by rewrite Heq, <- Hidx.
    + intros r [-> | Hr]%elem_of_cons; [by eapply list_elem_of_lookup_2 | by apply Hin].
Qed.

Lemma loc_col_series df name labels :
  NoDup (index df) → is_Some (column_pos df name) →
  (∀ l, l ∈ labels → l ∈ index df) →
  loc_col df labels name = Ok (series_on df name labels).
Proof.
  intros Hnd [k Hk] Hsub. unfold loc_col, loc.
  destruct (rows_at_labels df labels Hsub) as (sub & -> & <- & Hin).
  cbn [mbind res_mbind res_bind]. unfold getitem_col, column_pos. cbn [columns rows].
  fold (column_pos df name). rewrite Hk. f_equal. unfold series_on, index_of.
  rewrite <- list_fmap_compose. apply list_fmap_ext. intros i row Hrow. simpl.
  unfold val. rewrite (value_at_elem df name k row); [done | done | done |].
  apply Hin. by eapply list_elem_of_lookup_2.
Qed.

Lemma index_of_series_on df name labels : index_of (series_on df name labels) = labels.
Proof.
  unfold index_of, series_on. rewrite <- list_fmap_compose. apply list_fmap_id.
Qed.

Lemma elem_of_series_on df name labels l v :
  (l, v) ∈ series_on df name labels ↔ l ∈ labels ∧ v = val df name l.
Proof.
  unfold series_on. rewrite list_elem_of_fmap. split.
  - by intros (l' & [= -> ->] & Hl).
  - intros [Hl ->]. by exists l.
Qed.

End tables.

(** ** The matchers of [!=] and [==] *)

Section ne_eq.
Implicit Types (left_c right_c : Series).

Lemma paired_zip_app {A B} (l1 l2 : list A) (r1 r2 : list B) :
  length l1 = length r1 → zip (l1 ++ l2) (r1 ++ r2) = zip l1 r1 ++ zip l2 r2.
Proof. intros H. by apply zip_with_app. Qed.

Lemma not_equal_pairs left_c right_c :
  NoDup (index_of left_c) → NoDup (index_of right_c) →
  ∃ m, _not_equal_indices left_c right_c = Ok m ∧ paired m ∧ NoDup (pairs_of m)
       ∧ ∀ l r, (l, r) ∈ pairs_of m ↔
           ∃ x y, (l, Some x) ∈ left_c ∧ (r, Some y) ∈ right_c ∧ x ≠ y.
Proof.
  intros Hl Hr. unfold _not_equal_indices.
  rewrite less_than_indices_eq, greater_than_indices_eq.
  destruct (less_than_pairs left_c right_c true Hl Hr) as (Hp1 & Hn1 & Hi1).
  destruct (greater_than_pairs left_c right_c true Hl Hr) as (Hp2 & Hn2 & Hi2).
  cbv zeta in *. cbn [mbind res_mbind res_bind].
  destruct (less_than_result left_c right_c true 1) as [[l1 r1|]|];
    destruct (greater_than_result left_c right_c true 1) as [[l2 r2|]|];
    try done; cbn [unpack2 mbind res_mbind res_bind pairs_of paired] in *.
  - destruct Hp1 as [Hlen1 Hne1], Hp2 as [Hlen2 Hne2].
    assert (Hz : (0 <? np.size l1) = true).
    { apply Z.ltb_lt. unfold np.size. destruct l1; [done | simpl; lia]. }
    rewrite Hz. cbn [negb andb]. eexists. split; [done |]. cbn [pairs_of paired].
    rewrite paired_zip_app by done. split_and!.
    + rewrite !length_app. lia.
    + by destruct l1.
    + apply NoDup_app. split_and!; [done | | done].
      intros [l r] (x & y & Hx & Hy & Hlt)%Hi1 (x' & y' & Hx' & Hy' & Hgt)%Hi2.
      pose proof (NoDup_index_inj _ _ _ _ Hl Hx Hx').
      pose proof (NoDup_index_inj _ _ _ _ Hr Hy Hy'). simplify_eq. lia.
    + intros l r. rewrite elem_of_app, Hi1, Hi2. split.
      * intros [(x & y & ? & ? & ?) | (x & y & ? & ? & ?)]; exists x, y; split_and!; (done || lia).
      * intros (x & y & ? & ? & ?). destruct (decide (x < y)); [left | right];
          exists x, y; split_and!; (done || lia).
  - destruct Hp1 as [Hlen1 Hne1].
    assert (Hz : (0 <? np.size l1) = true).
    { apply Z.ltb_lt. unfold np.size. destruct l1; [done | simpl; lia]. }
    rewrite Hz. cbn [negb andb]. eexists. split; [done |]. cbn [pairs_of paired].
    rewrite !app_nil_r. split_and!; [done | done | done |].
    intros l r. rewrite Hi1. split.
    + intros (x & y & ? & ? & ?); exists x, y; split_and!; (done || lia).
    + intros (x & y & Hx & Hy & Hne). exists x, y. split_and!; [done | done |].
      destruct (decide (x < y)); [done |]. exfalso.
      apply (not_elem_of_nil (l, r)). apply Hi2. exists x, y. split_and!; (done || lia).
  - destruct Hp2 as [Hlen2 Hne2].
    change (0 <? np.size []) with false.
    assert (Hz : (0 <? np.size l2) = true).
    { apply Z.ltb_lt. unfold np.size. destruct l2; [done | simpl; lia]. }
    rewrite Hz. cbn [negb andb app]. eexists. split; [done |]. cbn [pairs_of paired].
    split_and!; [done | done | done |].
    intros l r. rewrite Hi2. split.
    + intros (x & y & ? & ? & ?); exists x, y; split_and!; (done || lia).
    + intros (x & y & Hx & Hy & Hne). exists x, y. split_and!; [done | done |].
      destruct (decide (y < x)); [done |]. exfalso.
      apply (not_elem_of_nil (l, r)). apply Hi1. exists x, y. split_and!; (done || lia).
  - change (0 <? np.size []) with false. cbn [negb andb].
    eexists. split; [done |]. cbn [pairs_of paired]. split_and!; [done | constructor |].
    intros l r. split; [by intros ?%elem_of_nil |].
    intros (x & y & Hx & Hy & Hne). exfalso.
    destruct (decide (x < y)).
    + apply (not_elem_of_nil (l, r)). apply Hi1. exists x, y. split_and!; (done || lia).
    + apply (not_elem_of_nil (l, r)). apply Hi2. exists x, y. split_and!; (done || lia).
Qed.

Ltac singleton_or_nil H :=
  match type of H with
  | _ ∈ (if decide ?P then _ else _) =>
      destruct (decide P); [apply list_elem_of_singleton in H | by apply elem_of_nil in H]
  end.

Lemma elem_of_rows_with_key (k : list value) (keys : list (list value)) i :
  i ∈ rows_with_key k keys ↔ ∃ a : nat, i = Z.of_nat a ∧ keys !! a = Some k.
Proof.
  unfold rows_with_key. rewrite list_elem_of_fmap. split.
  - intros ([i' k'] & -> & [Hk (a & x & [= -> ->] & Ha)%elem_of_lookup_imap]%list_elem_of_filter).
    simpl in Hk. subst. by exists a.
  - intros (a & -> & Ha). exists (Z.of_nat a, k). split; [done |].
    apply list_elem_of_filter. split; [done |].
    by apply (elem_of_lookup_imap_2 (λ j k, (Z.of_nat j, k))).
Qed.

Lemma NoDup_rows_with_key (k : list value) (keys : list (list value)) :
  NoDup (rows_with_key k keys).
Proof.
  unfold rows_with_key. apply NoDup_fmap_2_strong.
  - intros [i x] [i' x'] [_ (a & y & [= -> ->] & Ha)%elem_of_lookup_imap]%list_elem_of_filter
      [_ (a' & y' & [= -> ->] & Ha')%elem_of_lookup_imap]%list_elem_of_filter Heq.
    simpl in Heq. apply Nat2Z.inj in Heq. by simplify_eq.
  - apply NoDup_filter, NoDup_alt. intros n n' [j kr].
    rewrite !list_lookup_imap_Some. intros (k1 & Hk & [= -> ->]) (k' & Hk' & [= ? ?]). lia.
Qed.

Lemma elem_of_first_seen (keys : list (list value)) k : k ∈ first_seen keys ↔ k ∈ keys.
Proof. unfold first_seen. by rewrite elem_of_reverse, elem_of_remove_dups, elem_of_reverse. Qed.

Lemma equal_positions_spec (left right : list (list value)) :
  NoDup (equal_positions left right)
  ∧ ∀ i j, (i, j) ∈ equal_positions left right ↔
      ∃ (a b : nat) k, i = Z.of_nat a ∧ j = Z.of_nat b
                       ∧ left !! a = Some k ∧ right !! b = Some k.
Proof.
  assert (Hin : ∀ k i j,
            (i, j) ∈ (rows_with_key k left ≫= λ i, rows_with_key k right ≫= λ j, [(i, j)])
            ↔ i ∈ rows_with_key k left ∧ j ∈ rows_with_key k right).
  { intros k i j. rewrite list_elem_of_bind. split.
    - intros (i' & (j' & [= -> ->]%list_elem_of_singleton & Hj)%list_elem_of_bind & Hi). done.
    - intros [Hi Hj]. exists i. split; [| done]. apply list_elem_of_bind.
      exists j. split; [by apply list_elem_of_singleton | done]. }
  unfold equal_positions. split.
  - apply NoDup_bind.
    + intros k k' [i j] _ _ [(a & -> & Ha)%elem_of_rows_with_key _]%Hin
        [(a' & Heq & Ha')%elem_of_rows_with_key _]%Hin.
      apply Nat2Z.inj in Heq. by simplify_eq.
    + intros k _. apply NoDup_bind.
      * intros i i' [a b] _ _ (j & [= -> ->]%list_elem_of_singleton & _)%list_elem_of_bind
          (j' & [= -> ->]%list_elem_of_singleton & _)%list_elem_of_bind. done.
      * intros i _. apply NoDup_bind.
        -- intros j j' [a b] _ _ [= -> ->]%list_elem_of_singleton
             [= ->]%list_elem_of_singleton. done.
        -- intros; apply NoDup_singleton.
        -- apply NoDup_rows_with_key.
      * apply NoDup_rows_with_key.
    + unfold first_seen. rewrite reverse_Permutation. apply NoDup_remove_dups.
  - intros i j. rewrite list_elem_of_bind. split.
    + intros (k & [(a & -> & Ha)%elem_of_rows_with_key
                   (b & -> & Hb)%elem_of_rows_with_key]%Hin & _).
      by exists a, b, k.
    + intros (a & b & k & -> & -> & Ha & Hb). exists k. split.
      * apply Hin. split; apply elem_of_rows_with_key; by eexists.
      * apply elem_of_first_seen. by eapply list_elem_of_lookup_2.
Qed.

Lemma equal_positions_range (left right : list (list value)) p :
  p ∈ equal_positions left right →
  0 ≤ p.1 < Z.of_nat (length left) ∧ 0 ≤ p.2 < Z.of_nat (length right).
Proof.
  destruct p as [i j]. intros (a & b & k & -> & -> & Ha & Hb)%equal_positions_spec.
  apply lookup_lt_Some in Ha, Hb. simpl. lia.
Qed.

Lemma lookup_total_index {V} (t : list (Z * V)) (a : nat) row :
  t !! a = Some row → index_of t !!! Z.to_nat (Z.of_nat a) = row.1.
Proof.
  intros H. rewrite Nat2Z.id. apply list_lookup_total_correct.
  unfold index_of. by rewrite list_lookup_fmap, H.
Qed.

Lemma merge_operation_ok (left_on right_on : list string) (left_c right_c : KeyRows) :
  NoDup left_on → NoDup right_on →
  _MergeOperation left_on right_on left_c right_c
  = Ok (extract_array left_c, extract_array right_c).
Proof. intros Hl Hr. unfold _MergeOperation. by rewrite bool_decide_eq_true_2. Qed.

Lemma merge_operation_raise (left_on right_on : list string) (left_c right_c : KeyRows) :
  ¬ (NoDup left_on ∧ NoDup right_on) →
  _MergeOperation left_on right_on left_c right_c = Raise ValueError.
Proof. intros H. unfold _MergeOperation. by rewrite bool_decide_eq_false_2. Qed.

Lemma equal_indices_labels (left_on right_on : list string) (left_c right_c : KeyRows) :
  NoDup left_on → NoDup right_on →
  NoDup (index_of left_c) → NoDup (index_of right_c) →
  ∃ m, _equal_indices left_on right_on left_c right_c 1 = Ok m ∧ paired m
       ∧ NoDup (pairs_of m)
       ∧ ∀ l r, (l, r) ∈ pairs_of m ↔ ∃ k, (l, k) ∈ left_c ∧ (r, k) ∈ right_c.
Proof.
  intros Hlo Hro Hl Hr. unfold _equal_indices. rewrite merge_operation_ok by done.
  cbn [mbind res_mbind res_bind]. unfold _get_join_indexers. cbv zeta.
  set (P := equal_positions (extract_array left_c) (extract_array right_c)).
  destruct (equal_positions_spec (extract_array left_c) (extract_array right_c))
    as [Hnd Hiff]. fold P in Hnd, Hiff.
  assert (Hpos : ∀ l r, (∃ k, (l, k) ∈ left_c ∧ (r, k) ∈ right_c) ↔
            ∃ p, p ∈ P ∧ l = index_of left_c !!! Z.to_nat p.1
                 ∧ r = index_of right_c !!! Z.to_nat p.2).
  { intros l r. split.
    - intros (k & (a & Ha)%list_elem_of_lookup & (b & Hb)%list_elem_of_lookup).
      exists (Z.of_nat a, Z.of_nat b). split_and!.
      + apply Hiff. exists a, b, k. unfold extract_array.
        rewrite !list_lookup_fmap, Ha, Hb. done.
      + simpl. by rewrite (lookup_total_index _ _ _ Ha).
      + simpl. by rewrite (lookup_total_index _ _ _ Hb).
    - intros ([i j] & (a & b & k & -> & -> & Ha & Hb)%Hiff & -> & ->).
      unfold extract_array in Ha, Hb. rewrite list_lookup_fmap in Ha, Hb.
      apply fmap_Some in Ha as ([l k1] & Ha & ->), Hb as ([r k2] & Hb & Hk).
      simpl in Hk. subst k2. exists k1. simpl.
      rewrite (lookup_total_index _ _ _ Ha), (lookup_total_index _ _ _ Hb).
      split; by eapply list_elem_of_lookup_2. }
  destruct (0 <? np.size P.*1) eqn:Hz; cbn [negb].
  - change (1 <? 1) with false. cbv iota.
    rewrite (take_fmap (index_of left_c) fst P); cycle 1.
    { intros p Hp%equal_positions_range. unfold index_of, extract_array in *.
      rewrite !length_fmap in *. lia. }
    cbn [mbind res_mbind res_bind].
    rewrite (take_fmap (index_of right_c) snd P); cycle 1.
    { intros p Hp%equal_positions_range. unfold index_of, extract_array in *.
      rewrite !length_fmap in *. lia. }
    cbn [mbind res_mbind res_bind]. eexists. split; [done |].
    cbn [paired pairs_of]. rewrite zip_with_fmap_same. split_and!.
    + by rewrite !length_fmap.
    + apply Z.ltb_lt in Hz. unfold np.size in Hz. destruct P; [simpl in Hz; lia | done].
    + apply NoDup_fmap_2_strong; [| done].
      intros [i j] [i' j'] (a & b & k & -> & -> & Ha & Hb)%Hiff
        (a' & b' & k' & -> & -> & Ha' & Hb')%Hiff [= H1 H2].
      unfold extract_array in *. rewrite list_lookup_fmap in Ha, Hb, Ha', Hb'.
      apply fmap_Some in Ha as (ra & Ha & _), Hb as (rb & Hb & _),
        Ha' as (ra' & Ha' & _), Hb' as (rb' & Hb' & _).
      simpl in H1, H2.
      rewrite (lookup_total_index _ _ _ Ha), (lookup_total_index _ _ _ Ha') in H1.
      rewrite (lookup_total_index _ _ _ Hb), (lookup_total_index _ _ _ Hb') in H2.
      assert (a = a').
      { eapply (NoDup_lookup (index_of left_c)); [done | |];
          unfold index_of; rewrite list_lookup_fmap; [by rewrite Ha | by rewrite Ha', H1]. }
      assert (b = b').
      { eapply (NoDup_lookup (index_of right_c)); [done | |];
          unfold index_of; rewrite list_lookup_fmap; [by rewrite Hb | by rewrite Hb', H2]. }
      by subst.
    + intros l r. rewrite Hpos, list_elem_of_fmap. split.
      * intros (p & [= -> ->] & Hp). by exists p.
      * intros (p & Hp & -> & ->). by exists p.
  - eexists. split; [done |]. cbn [paired pairs_of]. split_and!; [done | constructor |].
    intros l r. rewrite Hpos. split; [by intros ?%elem_of_nil |].
    intros (p & Hp & _). apply Z.ltb_ge in Hz. unfold np.size in Hz.
    destruct P; [by apply elem_of_nil in Hp | simpl in Hz; lia].
Qed.

Lemma both_iff (f : value → value → bool) (P : Z → Z → Prop) left_c right_c l r :
  (∀ a b, f (Some a) (Some b) = true ↔ P a b) →
  (∃ x y : value, (l, x) ∈ left_c ∧ (r, y) ∈ right_c ∧ both f x y = true)
  ↔ ∃ a b : Z, (l, Some a) ∈ left_c ∧ (r, Some b) ∈ right_c ∧ P a b.
Proof.
  intros Hf. split.
  - intros ([a|] & [b|] & Hx & Hy & Hb); try done. exists a, b. split_and!; [done | done |].
    by apply Hf.
  - intros (a & b & Hx & Hy & HP). exists (Some a), (Some b). split_and!; [done | done |].
    by apply Hf.
Qed.

Lemma hasnans_false left_c l x : hasnans left_c = false → (l, x) ∈ left_c → x ≠ None.
Proof.
  unfold hasnans. intros H%not_true_iff_false Hin ->. apply H.
  apply existsb_exists. exists (l, None). split; [by apply list_elem_of_In |].
  by apply bool_decide_eq_true.
Qed.

Lemma index_of_series_keys left_c : index_of (series_keys left_c) = index_of left_c.
Proof.
  unfold index_of, series_keys. rewrite <- list_fmap_compose. by apply list_fmap_ext.
Qed.

Lemma elem_of_series_keys left_c l k :
  (l, k) ∈ series_keys left_c ↔ ∃ x, k = [x] ∧ (l, x) ∈ left_c.
Proof.
  unfold series_keys. rewrite list_elem_of_fmap. split.
  - intros ([l' x] & [= -> ->] & Hin). by exists x.
  - intros (x & -> & Hin). by exists (l, x).
Qed.

(** One matcher on one condition: the pairs are those of the rows whose
    cells are not null and compare under the operator, each once. For [==]
    the columns come without nulls, which pandas' hash join would match
    with each other. *)
Lemma generic_pairs left_c right_c op f :
  NoDup (index_of left_c) → NoDup (index_of right_c) →
  dict_get operator_map op = Ok f →
  (op = op_value STRICTLY_EQUAL → hasnans left_c = false ∧ hasnans right_c = false) →
  ∃ m, _generic_func_cond_join left_c right_c op 1 = Ok m ∧ paired m
       ∧ NoDup (pairs_of m)
       ∧ ∀ l r, (l, r) ∈ pairs_of m ↔
           ∃ x y, (l, x) ∈ left_c ∧ (r, y) ∈ right_c ∧ both f x y = true.
Proof.
  intros Hl Hr Hf Hnan.
  assert (Hop : op ∈ op_value <$> [STRICTLY_EQUAL; LESS_THAN; LESS_THAN_OR_EQUAL;
                                    GREATER_THAN; GREATER_THAN_OR_EQUAL; NOT_EQUAL]).
  { unfold dict_get in Hf. destruct (list_find _ _) as [[i kv]|] eqn:Hfind; [| done].
    apply list_find_Some in Hfind as (Hi & <- & _).
    apply list_elem_of_lookup_2 in Hi. revert Hi. unfold operator_map.
    rewrite !elem_of_cons, elem_of_nil. intros H. cbn [fmap list_fmap].
    rewrite !elem_of_cons. destruct H as [->|[->|[->|[->|[->|[->|[]]]]]]]; simpl; tauto. }
  cbn [fmap list_fmap op_value] in Hop. rewrite !elem_of_cons, elem_of_nil in Hop.
  destruct Hop as [->|[->|[->|[->|[->|[->|[]]]]]]]; injection Hf as <-.
  - (* == *)
    destruct (Hnan eq_refl) as [Hnl Hnr].
    destruct (equal_indices_labels series_name series_name
                (series_keys left_c) (series_keys right_c))
      as (m & Hm & Hp & Hnd & Hiff);
      [apply NoDup_singleton | apply NoDup_singleton
      | by rewrite index_of_series_keys | by rewrite index_of_series_keys |].
    exists m. split_and!; [exact Hm | done | done |].
    intros l r. rewrite Hiff. split.
    + intros (k & (x & -> & Hx)%elem_of_series_keys & (y & [= <-] & Hy)%elem_of_series_keys).
      exists x, x. split_and!; [done | done |].
      pose proof (hasnans_false _ _ _ Hnl Hx). destruct x as [a|]; [| done].
      simpl. by apply Z.eqb_eq.
    + intros ([a|] & [b|] & Hx & Hy & Hb); try done. simpl in Hb. apply Z.eqb_eq in Hb.
      subst b. exists [Some a]. split; apply elem_of_series_keys; by eexists.
  - (* < *)
    exists (less_than_result left_c right_c true 1).
    destruct (less_than_pairs left_c right_c true Hl Hr) as (Hp & Hnd & Hiff).
    split_and!; [apply less_than_indices_eq | done | done |].
    intros l r. rewrite Hiff. symmetry. apply both_iff. intros a b. apply Z.ltb_lt.
  - (* <= *)
    exists (less_than_result left_c right_c false 1).
    destruct (less_than_pairs left_c right_c false Hl Hr) as (Hp & Hnd & Hiff).
    split_and!; [apply less_than_indices_eq | done | done |].
    intros l r. rewrite Hiff. symmetry. apply both_iff. intros a b. apply Z.leb_le.
  - (* > *)
    exists (greater_than_result left_c right_c true 1).
    destruct (greater_than_pairs left_c right_c true Hl Hr) as (Hp & Hnd & Hiff).
    split_and!; [apply greater_than_indices_eq | done | done |].
    intros l r. rewrite Hiff. symmetry. apply both_iff. intros a b. apply Z.ltb_lt.
  - (* >= *)
    exists (greater_than_result left_c right_c false 1).
    destruct (greater_than_pairs left_c right_c false Hl Hr) as (Hp & Hnd & Hiff).
    split_and!; [apply greater_than_indices_eq | done | done |].
    intros l r. rewrite Hiff. symmetry. apply both_iff. intros a b. apply Z.leb_le.
  - (* != *)
    destruct (not_equal_pairs left_c right_c Hl Hr) as (m & Hm & Hp & Hnd & Hiff).
    exists m. split_and!; [exact Hm | done | done |].
    intros l r. rewrite Hiff. symmetry. apply both_iff. intros a b.
    unfold operator.ne, operator.eq. rewrite negb_true_iff. apply Z.eqb_neq.
Qed.

End ne_eq.

(** ** Conditions applied as masks *)

Section masks.
Context {X : Type}.
Implicit Types (C : list X) (rest : list Condition).

Lemma dict_get_valid op :
  op ∈ op_value <$> all_operators → ∃ f, dict_get operator_map op = Ok f.
Proof.
  cbn [fmap list_fmap all_operators op_value]. rewrite !elem_of_cons, elem_of_nil.
  intros [->|[->|[->|[->|[->|[->|[]]]]]]]; by eexists.
Qed.

Lemma masks_some C (gl gr : string → X → value) cells rest (g : X → bool) :
  (∀ c, c ∈ rest →
     c.2 ∈ op_value <$> all_operators
     ∧ cells c.1.1 c.1.2 = Ok (gl c.1.1 <$> C, gr c.1.2 <$> C)) →
  masks cells rest (Some (g <$> C))
  = Ok (Some ((λ x, g x && forallb (λ c, eval_on c (gl c.1.1 x) (gr c.1.2 x)) rest) <$> C)).
Proof.
  revert g. induction rest as [|[[lo ro] op] rest IH]; intros g Hrest.
  - cbn. do 2 f_equal. apply list_fmap_ext. intros i x _. by rewrite andb_true_r.
  - destruct (Hrest (lo, ro, op)) as [Hop Hcells]; [left |]. simpl in Hop, Hcells.
    destruct (dict_get_valid op Hop) as [f Hf].
    cbn [masks]. rewrite Hcells. cbn [mbind res_mbind res_bind]. rewrite Hf.
    cbn [mbind res_mbind res_bind].
    rewrite binop_same_length by (by rewrite !length_fmap).
    cbn [mbind res_mbind res_bind]. rewrite zip_with_fmap_same.
    rewrite binop_same_length by (by rewrite !length_fmap).
    cbn [mbind res_mbind res_bind]. rewrite zip_with_fmap_same.
    rewrite IH by (intros c Hc; apply Hrest; by right).
    do 2 f_equal. apply list_fmap_ext. intros i x _. cbn [forallb].
    unfold eval_on at 2. cbn [snd fst]. rewrite Hf. by rewrite andb_assoc.
Qed.

Lemma masks_none C (gl gr : string → X → value) cells rest :
  rest ≠ [] →
  (∀ c, c ∈ rest →
     c.2 ∈ op_value <$> all_operators
     ∧ cells c.1.1 c.1.2 = Ok (gl c.1.1 <$> C, gr c.1.2 <$> C)) →
  masks cells rest None
  = Ok (Some ((λ x, forallb (λ c, eval_on c (gl c.1.1 x) (gr c.1.2 x)) rest) <$> C)).
Proof.
  destruct rest as [|[[lo ro] op] rest]; [done |]. intros _ Hrest.
  destruct (Hrest (lo, ro, op)) as [Hop Hcells]; [left |]. simpl in Hop, Hcells.
  destruct (dict_get_valid op Hop) as [f Hf].
  cbn [masks]. rewrite Hcells. cbn [mbind res_mbind res_bind]. rewrite Hf.
  cbn [mbind res_mbind res_bind].
  rewrite binop_same_length by (by rewrite !length_fmap).
  cbn [mbind res_mbind res_bind]. rewrite zip_with_fmap_same.
  rewrite (masks_some C gl gr) by (intros c Hc; apply Hrest; by right).
  do 2 f_equal. apply list_fmap_ext. intros i x _. cbn [forallb].
  unfold eval_on at 2. cbn [snd fst]. by rewrite Hf.
Qed.

(** The end shared by the three combiners: the candidates the mask keeps. *)
Lemma mask_finish C (hl hr : X → Z) (m : X → bool) :
  ('(mask, any) ← mask_any (Some (m <$> C));
   if negb any then Ok None else
   l ← np.mask (hl <$> C) mask;
   r ← np.mask (hr <$> C) mask;
   Ok (Some (l, r)))
  = Ok (if decide (filter (λ x, m x) C = []) then None
        else Some (hl <$> filter (λ x, m x) C, hr <$> filter (λ x, m x) C)).
Proof.
  cbn [mask_any mbind res_mbind res_bind].
  destruct (np.any (m <$> C)) eqn:Hany; cbn [negb].
  - rewrite !mask_fmap. cbn [mbind res_mbind res_bind].
    apply any_fmap in Hany as (x & Hx & Hm).
    rewrite decide_False; [done |]. intros Hnil.
    assert (x ∈ filter (λ x, m x) C) by (apply list_elem_of_filter; by rewrite Hm).
    rewrite Hnil in *. by apply elem_of_nil in H.
  - rewrite decide_True; [done |]. apply elem_of_nil_inv. intros x [Hm Hx]%list_elem_of_filter.
    assert (np.any (m <$> C) = true); [| congruence].
    apply any_fmap. exists x. split; [done |]. by apply Is_true_true.
Qed.

End masks.

(** ** Conditions on the cells of two tables *)

Section conditions.
Implicit Types (df right : DataFrame) (c : Condition).

Lemma value_at_val df name l :
  is_Some (column_pos df name) → l ∈ index df →
  value_at df name l = Some (val df name l).
Proof.
  intros Hk Hl. unfold val. by destruct (value_at_is_Some df name l Hk Hl) as [v ->].
Qed.

Lemma eval_cond_val df right c l r f :
  valid_condition df right c → dict_get operator_map c.2 = Ok f →
  l ∈ index df → r ∈ index right →
  eval_cond df right c l r = f (val df c.1.1 l) (val right c.1.2 r).
Proof.
  intros (Hl & Hr & _) Hf Hil Hir. unfold eval_cond.
  by rewrite Hf, (value_at_val df), (value_at_val right).
Qed.

Lemma eval_strict_val df right c l r f :
  valid_condition df right c → dict_get operator_map c.2 = Ok f →
  l ∈ index df → r ∈ index right →
  eval_strict df right c l r = both f (val df c.1.1 l) (val right c.1.2 r).
Proof.
  intros (Hl & Hr & _) Hf Hil Hir. unfold eval_strict.
  rewrite Hf, (value_at_val df), (value_at_val right) by done.
  by destruct (val df c.1.1 l), (val right c.1.2 r).
Qed.

Lemma eval_on_val df right c l r :
  valid_condition df right c → l ∈ index df → r ∈ index right →
  eval_on c (val df c.1.1 l) (val right c.1.2 r) = eval_cond df right c l r.
Proof.
  intros Hv Hil Hir. destruct (dict_get_valid c.2 (proj2 (proj2 Hv))) as [f Hf].
  rewrite (eval_cond_val df right c l r f) by done. unfold eval_on. by rewrite Hf.
Qed.

Lemma eval_strict_cond df right c l r :
  eval_strict df right c l r = true → eval_cond df right c l r = true.
Proof.
  unfold eval_strict, eval_cond. destruct (dict_get _ _); [| done].
  by destruct (value_at df c.1.1 l) as [[x|]|], (value_at right c.1.2 r) as [[y|]|].
Qed.

Lemma both_true f x y : both f x y = true → f x y = true.
Proof. by destruct x, y. Qed.

Lemma cells_at_zip df right (C : list (Z * Z)) lo ro :
  NoDup (index df) → NoDup (index right) →
  is_Some (column_pos df lo) → is_Some (column_pos right ro) →
  (∀ p, p ∈ C → p.1 ∈ index df ∧ p.2 ∈ index right) →
  cells_at df right C.*1 C.*2 lo ro
  = Ok ((λ p, val df lo p.1) <$> C, (λ p, val right ro p.2) <$> C).
Proof.
  intros Hd Hr Hlo Hro HC. unfold cells_at.
  rewrite loc_col_series; [| done | done |]; cycle 1.
  { intros l (p & -> & Hp)%list_elem_of_fmap. by apply HC. }
  cbn [mbind res_mbind res_bind].
  rewrite loc_col_series; [| done | done |]; cycle 1.
  { intros l (p & -> & Hp)%list_elem_of_fmap. by apply HC. }
  cbn [mbind res_mbind res_bind]. unfold extract_array, series_on.
  by rewrite <- !list_fmap_compose.
Qed.

End conditions.

(** ** The combiner of [!=] conditions *)

Section combiner_ne.
Implicit Types (df right : DataFrame) (c : Condition).

Lemma ne_spec df right conditions :
  NoDup (index df) → NoDup (index right) →
  (∀ c, c ∈ conditions → valid_condition df right c) →
  (∀ c, c ∈ conditions → c.2 ≠ op_value STRICTLY_EQUAL) →
  (2 ≤ length conditions)%nat →
  ∃ result, _multiple_conditional_join_ne df right conditions = Ok result
    ∧ well_paired result ∧ NoDup (result_pairs result)
    ∧ sound df right conditions (result_pairs result)
    ∧ complete df right conditions (result_pairs result).
Proof.
  intros Hd Hr Hvalid Hneq Hlen.
  destruct conditions as [|[[lo ro] op] rest]; [simpl in Hlen; lia |].
  assert (Hrest : rest ≠ []) by (destruct rest; [simpl in Hlen; lia | done]).
  destruct (Hvalid (lo, ro, op)) as (Hlo & Hro & Hop); [left |]. simpl in Hlo, Hro, Hop.
  destruct (dict_get_valid op Hop) as [f Hf].
  unfold _multiple_conditional_join_ne. cbn [uncons mbind res_mbind res_bind].
  rewrite !getitem_col_series by done. cbn [mbind res_mbind res_bind].
  destruct (generic_pairs (series_on df lo (index df)) (series_on right ro (index right)) op f)
    as (m & -> & Hpaired & Hnd & Hiff).
  { by rewrite index_of_series_on. }
  { by rewrite index_of_series_on. }
  { done. }
  { intros ->. by destruct (Hneq (lo, ro, op_value STRICTLY_EQUAL)); [left |]. }
  cbn [mbind res_mbind res_bind].
  assert (Hfirst : ∀ l r, (l, r) ∈ pairs_of m ↔
            l ∈ index df ∧ r ∈ index right
            ∧ eval_strict df right (lo, ro, op) l r = true).
  { intros l r. rewrite Hiff. split.
    - intros (x & y & [Hl ->]%elem_of_series_on & [Hr' ->]%elem_of_series_on & Hb).
      split_and!; [done | done |].
      by rewrite (eval_strict_val df right (lo, ro, op) l r f).
    - intros (Hl & Hr' & Hs).
      rewrite (eval_strict_val df right (lo, ro, op) l r f) in Hs by done.
      exists (val df lo l), (val right ro r).
      split_and!; [by apply elem_of_series_on | by apply elem_of_series_on | done]. }
  clear Hiff.
  destruct m as [[df_index right_index|]|]; [| done |].
  - (* candidates *)
    cbn [unpack2 mbind res_mbind res_bind pairs_of paired] in *.
    destruct Hpaired as [Hlen2 Hne].
    set (C := zip df_index right_index) in *.
    assert (HC1 : df_index = C.*1) by (unfold C; rewrite fst_zip; [done | lia]).
    assert (HC2 : right_index = C.*2) by (unfold C; rewrite snd_zip; [done | lia]).
    rewrite HC1, HC2.
    rewrite (masks_none C (λ name p, val df name p.1) (λ name p, val right name p.2));
      [| done |]; cycle 1.
    { intros c Hc. destruct (Hvalid c) as (Hl' & Hr' & Hop'); [by right |].
      split; [done |]. apply cells_at_zip; [done.. |].
      intros [l r] Hp. apply Hfirst in Hp. simpl. tauto. }
    cbn [mbind res_mbind res_bind].
    rewrite (mask_finish C fst snd). eexists. split; [done |].
    set (F := filter _ C).
    assert (HF : ∀ l r, (l, r) ∈ F ↔
              (l, r) ∈ C ∧ ∀ c, c ∈ rest → eval_cond df right c l r = true).
    { intros l r. unfold F. rewrite list_elem_of_filter. split.
      - intros [Hm HinC]. split; [done |]. intros c Hc.
        apply Is_true_true in Hm. rewrite forallb_forall in Hm.
        specialize (Hm c (proj1 (list_elem_of_In _ _) Hc)). simpl in Hm.
        apply Hfirst in HinC as (? & ? & _).
        rewrite <- (eval_on_val df right c l r); [done | | done | done].
        apply Hvalid. by right.
      - intros [HinC Hall]. split; [| done]. apply Is_true_true, forallb_forall.
        intros c Hc%list_elem_of_In. simpl.
        pose proof HinC as (? & ? & _)%Hfirst.
        rewrite (eval_on_val df right c l r); [by apply Hall | | done | done].
        apply Hvalid. by right. }
    assert (HndF : NoDup F) by (by apply NoDup_filter).
    clearbody F. case_decide as HFnil.
    + subst F. cbn [well_paired result_pairs]. split_and!; [done | constructor | |].
      * by intros l r ?%elem_of_nil.
      * intros l r Hl' Hr' Hall. apply HF. split.
        -- apply Hfirst. split_and!; [done | done |]. apply Hall. left.
        -- intros c Hc. apply eval_strict_cond, Hall. by right.
    + cbn [well_paired result_pairs]. rewrite zip_fst_snd. split_and!.
      * by rewrite !length_fmap.
      * by destruct F.
      * done.
      * intros l r [HinC Hall]%HF. apply Hfirst in HinC as (? & ? & Hs).
        split_and!; [done | done |]. intros c [-> | Hc]%elem_of_cons;
          [by apply eval_strict_cond | by apply Hall].
      * intros l r Hl' Hr' Hall. apply HF. split.
        -- apply Hfirst. split_and!; [done | done |]. apply Hall. left.
        -- intros c Hc. apply eval_strict_cond, Hall. by right.
  - (* no candidate *)
    eexists. split; [done |]. cbn [well_paired result_pairs pairs_of] in *.
    split_and!; [done | constructor | |].
    + by intros l r ?%elem_of_nil.
    + intros l r Hl' Hr' Hall. apply Hfirst. split_and!; [done | done |]. apply Hall. left.
Qed.

End combiner_ne.

(** ** A matcher that returns range bounds *)

Section bounds.
Implicit Types (left_c right_c : Series).

Lemma elem_of_ordering op :
  op ∈ ordering ↔ op = "<" ∨ op = "<=" ∨ op = ">" ∨ op = ">=".
Proof.
  change ordering with ["<"; "<="; ">"; ">="].
  rewrite !elem_of_cons, elem_of_nil. tauto.
Qed.

Lemma generic_bounds left_c right_c op :
  op ∈ ordering →
  let R := search_order right_c in
  let a := extract_array R in
  let rows := ord_rows op left_c a in
  _generic_func_cond_join left_c right_c op 2
  = Ok (if decide (rows = []) then None
        else Some (if str_in op less_than_join_types
                   then Bounds (index_of rows) (index_of R)
                          ((λ p, lo_of op a p.2) <$> rows) ((λ p, hi_of op a p.2) <$> rows)
                   else Bounds (index_of rows) (index_of R)
                          ((λ p, hi_of op a p.2) <$> rows) ((λ p, lo_of op a p.2) <$> rows))).
Proof.
  intros [->|[->|[->| ->]]]%elem_of_ordering; cbv zeta.
  - change (_generic_func_cond_join left_c right_c "<" 2)
      with (_less_than_indices left_c right_c true 2).
    rewrite less_than_indices_eq. unfold less_than_result. f_equal.
    change (ord_rows "<" left_c) with (lt_rows true left_c).
    case_decide; [done |]. change (1 <? 2) with true. cbv iota.
    change (str_in "<" less_than_join_types) with true. cbv iota.
    by rewrite replicate_rows.
  - change (_generic_func_cond_join left_c right_c "<=" 2)
      with (_less_than_indices left_c right_c false 2).
    rewrite less_than_indices_eq. unfold less_than_result. f_equal.
    change (ord_rows "<=" left_c) with (lt_rows false left_c).
    case_decide; [done |]. change (1 <? 2) with true. cbv iota.
    change (str_in "<=" less_than_join_types) with true. cbv iota.
    by rewrite replicate_rows.
  - change (_generic_func_cond_join left_c right_c ">" 2)
      with (_greater_than_indices left_c right_c true 2).
    rewrite greater_than_indices_eq. unfold greater_than_result. f_equal.
    change (ord_rows ">" left_c) with (gt_rows true left_c).
    case_decide; [done |]. change (1 <? 2) with true. cbv iota.
    change (str_in ">" less_than_join_types) with false. cbv iota.
    by rewrite replicate_rows.
  - change (_generic_func_cond_join left_c right_c ">=" 2)
      with (_greater_than_indices left_c right_c false 2).
    rewrite greater_than_indices_eq. unfold greater_than_result. f_equal.
    change (ord_rows ">=" left_c) with (gt_rows false left_c).
    case_decide; [done |]. change (1 <? 2) with true. cbv iota.
    change (str_in ">=" less_than_join_types) with false. cbv iota.
    by rewrite replicate_rows.
Qed.

(** The range of a row holds the positions of the entries its number
    compares with. *)
Lemma ord_range_iff op f right_c v (j : nat) q :
  op ∈ ordering → dict_get operator_map op = Ok f →
  let a := extract_array (search_order right_c) in
  search_order right_c !! j = Some q →
  lo_of op a v ≤ Z.of_nat j < hi_of op a v ↔ f (Some v) (Some q.2) = true.
Proof.
  intros Hop Hf a Hq.
  assert (Ha : a !! j = Some q.2).
  { unfold a, extract_array. rewrite list_lookup_fmap. apply fmap_Some. by exists q. }
  pose proof (lookup_lt_Some _ _ _ Ha) as Hlt.
  pose proof (search_order_sorted right_c) as Hs. fold a in Hs.
  revert Hf. apply elem_of_ordering in Hop as [->|[->|[->| ->]]]; intros [= <-].
  - change (lo_of "<" a v) with (lt_point true a v).
    change (hi_of "<" a v) with (Z.of_nat (length a)).
    pose proof (lt_point_iff true a v j q.2 Hs Ha) as Hiff. simpl in *.
    rewrite Z.ltb_lt. lia.
  - change (lo_of "<=" a v) with (lt_point false a v).
    change (hi_of "<=" a v) with (Z.of_nat (length a)).
    pose proof (lt_point_iff false a v j q.2 Hs Ha) as Hiff. simpl in *.
    rewrite Z.leb_le. lia.
  - change (lo_of ">" a v) with 0.
    change (hi_of ">" a v) with (gt_point true a v).
    pose proof (gt_point_iff true a v j q.2 Hs Ha) as Hiff. simpl in *.
    rewrite Z.ltb_lt. lia.
  - change (lo_of ">=" a v) with 0.
    change (hi_of ">=" a v) with (gt_point false a v).
    pose proof (gt_point_iff false a v j q.2 Hs Ha) as Hiff. simpl in *.
    rewrite Z.leb_le. lia.
Qed.

Lemma ord_bounds op a v :
  0 ≤ lo_of op a v ∧ hi_of op a v ≤ Z.of_nat (length a).
Proof.
  unfold lo_of, hi_of.
  pose proof (lt_point_range (is_strict op) a v).
  pose proof (gt_point_range (is_strict op) a v).
  destruct (str_in op less_than_join_types); lia.
Qed.

Lemma elem_of_ord_rows op left_c a p :
  p ∈ ord_rows op left_c a ↔ p ∈ dropna left_c ∧ lo_of op a p.2 < hi_of op a p.2.
Proof.
  unfold ord_rows, lo_of, hi_of, lt_rows, gt_rows.
  destruct (str_in op less_than_join_types); rewrite list_elem_of_filter;
    split; intros []; split; (done || lia).
Qed.

Lemma ord_rows_sublist op left_c a : ord_rows op left_c a `sublist_of` dropna left_c.
Proof.
  unfold ord_rows, lt_rows, gt_rows.
  destruct (str_in op less_than_join_types); apply sublist_filter.
Qed.

End bounds.

(** ** The combiner of ordering conditions *)

Section combiner_le_lt.
Implicit Types (df right : DataFrame) (c : Condition).

Lemma not_eq_cases op :
  op ∈ op_value <$> all_operators → op ≠ op_value STRICTLY_EQUAL →
  op ∈ ordering ∨ op = op_value NOT_EQUAL.
Proof.
  cbn [fmap list_fmap all_operators op_value]. rewrite !elem_of_cons, elem_of_nil.
  rewrite elem_of_ordering. intros [->|[->|[->|[->|[->|[->|[]]]]]]] Hne; tauto.
Qed.

(** One ordering condition applied to the labels kept so far. *)
Lemma narrow_step df right conditions df_index right_index lo ro op f :
  NoDup (index df) → NoDup (index right) →
  valid_condition df right (lo, ro, op) → (lo, ro, op) ∈ conditions →
  op ∈ ordering → dict_get operator_map op = Ok f →
  narrowed df right conditions df_index right_index →
  let R := search_order (series_on right ro right_index) in
  let rows := ord_rows op (series_on df lo df_index) (extract_array R) in
  (rows = [] → ∀ l r, l ∈ index df → r ∈ index right →
                 ¬ (∀ c, c ∈ conditions → eval_strict df right c l r = true))
  ∧ narrowed df right conditions (index_of rows) (index_of R)
  ∧ (∀ l x, (l, x) ∈ rows ↔
       l ∈ df_index ∧ val df lo l = Some x
       ∧ lo_of op (extract_array R) x < hi_of op (extract_array R) x)
  ∧ (∀ r y, (r, y) ∈ R ↔ r ∈ right_index ∧ val right ro r = Some y).
Proof.
  intros Hd Hr Hv Hin Hop Hf (Hnd1 & Hnd2 & Hsub1 & Hsub2 & Hcomp) R rows.
  assert (HR : ∀ r y, (r, y) ∈ R ↔ r ∈ right_index ∧ val right ro r = Some y).
  { intros r y. unfold R. rewrite elem_of_search_order, elem_of_series_on.
    split; intros [? ?]; split; congruence. }
  assert (Hrows : ∀ l x, (l, x) ∈ rows ↔
            l ∈ df_index ∧ val df lo l = Some x
            ∧ lo_of op (extract_array R) x < hi_of op (extract_array R) x).
  { intros l x. unfold rows. rewrite elem_of_ord_rows, elem_of_dropna, elem_of_series_on.
    simpl. split; [intros [[? ?] ?] | intros (? & ? & ?)]; split_and!; congruence || done. }
  assert (Hkeep : ∀ l r, l ∈ index df → r ∈ index right →
            (∀ c, c ∈ conditions → eval_strict df right c l r = true) →
            l ∈ index_of rows ∧ r ∈ index_of R).
  { intros l r Hl Hr' Hall. destruct (Hcomp l r Hl Hr' Hall) as [Hdi Hri].
    pose proof (Hall _ Hin) as Hs.
    rewrite (eval_strict_val df right _ l r f) in Hs by done. simpl in Hs.
    destruct (val df lo l) as [x|] eqn:Hx; [| done].
    destruct (val right ro r) as [y|] eqn:Hy; [| done]. simpl in Hs.
    assert (HinR : (r, y) ∈ R) by (by apply HR).
    apply list_elem_of_lookup in HinR as (j & Hj).
    pose proof (proj2 (ord_range_iff op f _ x j (r, y) Hop Hf Hj) Hs) as Hrange.
    split.
    - apply list_elem_of_fmap. exists (l, x). split; [done |]. apply Hrows.
      split_and!; [done | done |]. fold R in Hrange. lia.
    - apply list_elem_of_fmap. exists (r, y). split; [done |].
      by eapply list_elem_of_lookup_2. }
  split_and!; [| | done | done].
  - intros Hnil l r Hl Hr' Hall. destruct (Hkeep l r Hl Hr' Hall) as [Hl' _].
    rewrite Hnil in Hl'. by apply elem_of_nil in Hl'.
  - split_and!; [| | | | done].
    + eapply sublist_NoDup; [| apply fmap_sublist, ord_rows_sublist].
      apply NoDup_dropna. by rewrite index_of_series_on.
    + apply search_order_index_NoDup. by rewrite index_of_series_on.
    + intros l ([l' x] & -> & Hp%Hrows)%list_elem_of_fmap. apply Hsub1. tauto.
    + intros r ([r' y] & -> & Hp%HR)%list_elem_of_fmap. apply Hsub2. tauto.
Qed.

Lemma narrow_spec df right allconds conditions df_index right_index lt_gt :
  NoDup (index df) → NoDup (index right) →
  (∀ c, c ∈ conditions →
     c ∈ allconds ∧ valid_condition df right c ∧ c.2 ≠ op_value STRICTLY_EQUAL) →
  narrowed df right allconds df_index right_index →
  ∃ result, narrow df right conditions df_index right_index lt_gt = Ok result ∧
    match result with
    | None => ∀ l r, l ∈ index df → r ∈ index right →
                ¬ (∀ c, c ∈ allconds → eval_strict df right c l r = true)
    | Some (df_index', right_index', lt_gt') =>
        narrowed df right allconds df_index' right_index'
        ∧ lt_gt' = last_ordering conditions lt_gt
    end.
Proof.
  intros Hd Hr. revert df_index right_index lt_gt.
  induction conditions as [|[[lo ro] op] conditions IH];
    intros df_index right_index lt_gt Hconds Hinv.
  - eexists. split; [done |]. done.
  - destruct (Hconds (lo, ro, op)) as (Hall & Hv & Hne); [left |].
    assert (Hconds' : ∀ c, c ∈ conditions →
              c ∈ allconds ∧ valid_condition df right c ∧ c.2 ≠ op_value STRICTLY_EQUAL).
    { intros c Hc. apply Hconds. by right. }
    cbn [narrow]. fold ordering.
    destruct (not_eq_cases op (proj2 (proj2 Hv)) Hne) as [Hop | ->].
    + assert (Hin : str_in op ordering = true) by (by apply bool_decide_eq_true).
      rewrite Hin. cbn [negb andb].
      destruct (dict_get_valid op (proj2 (proj2 Hv))) as [f Hf].
      pose proof Hinv as (_ & _ & Hsub1 & Hsub2 & _).
      rewrite !loc_col_series; [| done | apply Hv | done | done | apply Hv | done].
      cbn [mbind res_mbind res_bind]. rewrite generic_bounds by done.
      cbn [mbind res_mbind res_bind].
      destruct (narrow_step df right allconds df_index right_index lo ro op f)
        as (Hnil & Hinv' & _); [done.. |].
      case_decide as Hrows.
      * exists None. split; [done |]. by apply Hnil.
      * destruct (IH _ _ (Some (lo, ro, op)) Hconds' Hinv') as (result & Hres & Hspec).
        exists result. split.
        { destruct (str_in op less_than_join_types); exact Hres. }
        destruct result as [[[di ri] lg]|]; [| done].
        destruct Hspec as [? ->]. split; [done |].
        cbn [last_ordering foldl]. simpl. by rewrite Hin.
    + change (negb (str_in (op_value NOT_EQUAL) ordering)
              && bool_decide (op_value NOT_EQUAL = op_value NOT_EQUAL)) with true.
      cbv iota. destruct (IH _ _ lt_gt Hconds' Hinv) as (result & Hres & Hspec).
      exists result. split; [done |].
      destruct result as [[[di ri] lg]|]; [| done]. done.
Qed.

Lemma py_slice_fmap {A B} (g : A → B) (a : list A) lo hi :
  py_slice (g <$> a) lo hi = g <$> py_slice a lo hi.
Proof. unfold py_slice. by rewrite length_fmap, fmap_take, fmap_drop. Qed.

Lemma py_slice_length {A B} (a : list A) (b : list B) lo hi :
  length a = length b → length (py_slice a lo hi) = length (py_slice b lo hi).
Proof. intros H. unfold py_slice. rewrite !length_take, !length_drop, H. done. Qed.

Lemma py_slice_bounds {A} (a : list A) lo hi :
  0 ≤ lo → lo ≤ hi → hi ≤ Z.of_nat (length a) →
  py_slice a (Some lo) (Some hi) = take (Z.to_nat (hi - lo)) (drop (Z.to_nat lo) a).
Proof.
  intros H0 H1 H2. unfold py_slice, slice_bound. simpl.
  rewrite !(proj2 (Z.ltb_ge _ 0)) by lia. f_equal. lia. f_equal. lia.
Qed.

Lemma mask_seq_none {A} (a : list A) m : np.any m = false → np.mask_seq a m = [].
Proof.
  revert a. induction m as [|b m IH]; intros a Hany; [by destruct a |].
  destruct a as [|x a]; [done |]. unfold np.any in Hany. simpl in Hany.
  apply orb_false_iff in Hany as [-> Hany]. simpl. by apply IH.
Qed.

Lemma mask_seq_some {A} (a : list A) m :
  length a = length m → np.any m = true → np.mask_seq a m ≠ [].
Proof.
  revert a. induction m as [|b m IH]; intros a Hlen Hany; [done |].
  destruct a as [|x a]; [done |]. unfold np.any in Hany. simpl in *.
  destruct b; [done |]. simpl in Hany. apply IH; [lia | done].
Qed.

Lemma repeat_ok {A} (a : list A) counts :
  length a = length counts → Forall (λ k : Z, 0 ≤ k) counts →
  np.repeat a counts = Ok (np.repeat_seq a counts).
Proof.
  intros Hlen Hc. unfold np.repeat. rewrite decide_True by done.
  rewrite (proj2 (forallb_forall _ _)); [done |].
  intros k Hin%list_elem_of_In. rewrite Forall_forall in Hc. apply Z.leb_le. by apply Hc.
Qed.

Lemma scan_spec f (right_c : list value) (right_index : list Z) todo :
  length right_c = length right_index →
  ∃ index_df repeater index_right,
    scan f right_c right_index todo = Ok (index_df, repeater, index_right)
    ∧ length index_df = length repeater ∧ Forall (λ k : Z, 0 ≤ k) repeater
    ∧ length (np.repeat_seq index_df repeater) = length (concat index_right)
    ∧ zip (np.repeat_seq index_df repeater) (concat index_right)
      = todo ≫= scanned f right_c right_index
    ∧ (index_df = [] ↔ todo ≫= scanned f right_c right_index = []).
Proof.
  intros Hlen. induction todo as [|[[[indx val] lo] hi] todo IH].
  - exists [], [], []. by split_and!.
  - destruct IH as (idf & rep & ir & Hscan & Hl & Hc & Hlen2 & Hzip & Hnil).
    cbn [scan]. rewrite bind_cons. cbn [scanned].
    set (indexer := py_slice right_index (Some lo) (Some hi)).
    set (mask := f val <$> py_slice right_c (Some lo) (Some hi)).
    assert (Hlm : length indexer = length mask).
    { unfold indexer, mask. rewrite length_fmap. by apply py_slice_length. }
    destruct (np.any mask) eqn:Hany; cbn [negb].
    + unfold np.mask. rewrite decide_True by done. cbn [mbind res_mbind res_bind].
      rewrite Hscan. cbn [mbind res_mbind res_bind].
      pose proof (mask_seq_some indexer mask Hlm Hany) as Hkept.
      set (kept := np.mask_seq indexer mask) in *.
      exists (indx :: idf), (np.size kept :: rep), (kept :: ir). split_and!.
      * done.
      * simpl. lia.
      * constructor; [unfold np.size; lia | done].
      * cbn [np.repeat_seq concat]. rewrite !length_app, length_replicate, Hlen2.
        unfold np.size. lia.
      * cbn [np.repeat_seq concat]. unfold np.size. rewrite Nat2Z.id.
        rewrite zip_with_app by (by rewrite length_replicate). rewrite Hzip. f_equal.
        clear. induction kept; [done |]. cbn. by f_equal.
      * split; [done |]. intros Happ. apply app_eq_nil in Happ as [Happ _].
        apply fmap_nil_inv in Happ. done.
    + rewrite Hscan. exists idf, rep, ir.
      rewrite mask_seq_none by done. cbn [fmap list_fmap app].
      by split_and!.
Qed.

Lemma last_ordering_found (allconds conditions : list Condition) (acc : option Condition) :
  (∀ c, c ∈ conditions → c ∈ allconds) →
  (∃ g, acc = Some g ∧ g ∈ allconds ∧ g.2 ∈ ordering)
  ∨ (∃ c, c ∈ conditions ∧ c.2 ∈ ordering) →
  ∃ g, last_ordering conditions acc = Some g ∧ g ∈ allconds ∧ g.2 ∈ ordering.
Proof.
  revert acc. induction conditions as [|c conditions IH]; intros acc Hsub Hex.
  - destruct Hex as [Hacc | (c & Hc & _)]; [done | by apply elem_of_nil in Hc].
  - cbn [last_ordering foldl]. fold (last_ordering conditions).
    assert (Hsub' : ∀ c', c' ∈ conditions → c' ∈ allconds).
    { intros c' Hc'. apply Hsub. by right. }
    destruct (str_in c.2 ordering) eqn:Hc.
    + apply IH; [done |]. left. exists c.
      split_and!; [done | apply Hsub; left | by apply bool_decide_eq_true in Hc].
    + apply IH; [done |]. destruct Hex as [Hacc | (c' & Hc' & Hord)]; [by left |].
      right. exists c'. split; [| done].
      apply elem_of_cons in Hc' as [-> | Hc']; [| done].
      apply bool_decide_eq_false in Hc. done.
Qed.

Lemma list_remove_perm (g : Condition) (l : list Condition) :
  g ∈ l → ∃ others, list_remove g l = Ok others ∧ g :: others ≡ₚ l.
Proof.
  induction l as [|y l IH]; intros Hin; [by apply elem_of_nil in Hin |].
  cbn [list_remove]. destruct (decide (y = g)) as [-> | Hne].
  - by exists l.
  - apply elem_of_cons in Hin as [-> | Hin]; [done |].
    destruct (IH Hin) as (others & -> & Hperm). exists (y :: others).
    split; [done |]. rewrite Permutation_swap. by f_equiv.
Qed.

Lemma scanned_rows (f2 : value → value → bool) (rows1 R1 : NumSeries)
    (vl vr : Z → value) (lo hi : Z → Z) :
  (∀ p, p ∈ rows1 → 0 ≤ lo p.2 ≤ hi p.2 ∧ hi p.2 ≤ Z.of_nat (length R1)) →
  ((λ p : Z * Z, (p.1, vl p.1, lo p.2, hi p.2)) <$> rows1)
    ≫= scanned f2 ((λ q : Z * Z, vr q.1) <$> R1) (index_of R1)
  = rows1 ≫= λ p, pair p.1 <$>
      (fst <$> filter (λ q : Z * Z, f2 (vl p.1) (vr q.1))
                 (take (Z.to_nat (hi p.2 - lo p.2)) (drop (Z.to_nat (lo p.2)) R1))).
Proof.
  induction rows1 as [|p rows1 IH]; intros Hb; [done |].
  rewrite fmap_cons, !bind_cons, IH by (intros q Hq; apply Hb; by right).
  f_equal. cbn [scanned]. unfold index_of.
  rewrite !py_slice_fmap, <- list_fmap_compose.
  rewrite (mask_seq_fmap fst (λ q : Z * Z, f2 (vl p.1) (vr q.1))).
  rewrite py_slice_bounds; [done | | |]; apply (Hb p); left.
Qed.

Lemma scanned_spec (f2 : value → value → bool) (rows1 R1 : NumSeries)
    (vl vr : Z → value) (lo hi : Z → Z) :
  NoDup (index_of rows1) → NoDup (index_of R1) →
  (∀ p, p ∈ rows1 → 0 ≤ lo p.2 ≤ hi p.2 ∧ hi p.2 ≤ Z.of_nat (length R1)) →
  let C2 := rows1 ≫= λ p, pair p.1 <$>
      (fst <$> filter (λ q : Z * Z, f2 (vl p.1) (vr q.1))
                 (take (Z.to_nat (hi p.2 - lo p.2)) (drop (Z.to_nat (lo p.2)) R1))) in
  NoDup C2
  ∧ ∀ l r, (l, r) ∈ C2 ↔
      ∃ x y (j : nat), (l, x) ∈ rows1 ∧ R1 !! j = Some (r, y)
        ∧ lo x ≤ Z.of_nat j < hi x ∧ f2 (vl l) (vr r) = true.
Proof.
  intros Hnd1 Hnd2 Hb C2. split.
  - apply NoDup_bind; [| | by apply NoDup_of_index].
    + intros [l1 x1] [l2 x2] z Hp1 Hp2 (r1 & -> & _)%list_elem_of_fmap
        (r2 & [= H1 _] & _)%list_elem_of_fmap. simpl in *. subst l2.
      f_equal. by eapply (NoDup_index_inj rows1).
    + intros p _. apply NoDup_fmap_2; [by intros ?? [=] |].
      eapply sublist_NoDup; [exact Hnd2 |]. unfold index_of. apply fmap_sublist.
      etrans; [apply sublist_filter |]. etrans; [apply sublist_take | apply sublist_drop].
  - intros l r. unfold C2. rewrite list_elem_of_bind. split.
    + intros ([l' x] & (r' & [= -> ->] & Hr)%list_elem_of_fmap & Hp). simpl in *.
      apply list_elem_of_fmap in Hr as ([r y] & -> & Hq).
      apply list_elem_of_filter in Hq as [Hf Hq]. simpl in *.
      apply elem_of_slice in Hq as (j & Hj & Hq).
      exists x, y, j. specialize (Hb _ Hp). simpl in Hb.
      split_and!; [done | done | lia | lia | by apply Is_true_true].
    + intros (x & y & j & Hp & Hq & Hj & Hf). exists (l, x). split; [| done].
      apply list_elem_of_fmap. exists r. split; [done |].
      apply list_elem_of_fmap. exists (r, y). split; [done |].
      apply list_elem_of_filter. split; [by apply Is_true_true |].
      apply elem_of_slice. exists j. simpl. split; [lia | done].
Qed.

Lemma zip4_rows {A B C D E} (f1 : E → A) (f2 : E → B) (f3 : E → C) (f4 : E → D)
    (l : list E) :
  zip4 (f1 <$> l) (f2 <$> l) (f3 <$> l) (f4 <$> l) = (λ x, (f1 x, f2 x, f3 x, f4 x)) <$> l.
Proof. unfold zip4. by rewrite !zip_with_fmap_same. Qed.

Lemma le_lt_scan_spec df right (rows1 R1 : NumSeries) (lo hi : Z → Z) rest :
  NoDup (index df) → NoDup (index right) →
  NoDup (index_of rows1) → NoDup (index_of R1) →
  (∀ p, p ∈ rows1 → p.1 ∈ index df) → (∀ q, q ∈ R1 → q.1 ∈ index right) →
  (∀ p, p ∈ rows1 → 0 ≤ lo p.2 ≤ hi p.2 ∧ hi p.2 ≤ Z.of_nat (length R1)) →
  rest ≠ [] → (∀ c, c ∈ rest → valid_condition df right c) →
  ∃ result,
    le_lt_scan df right (index_of rows1) (index_of R1)
      ((λ p, lo p.2) <$> rows1) ((λ p, hi p.2) <$> rows1) rest = Ok result
    ∧ well_paired result ∧ NoDup (result_pairs result)
    ∧ ∀ l r, (l, r) ∈ result_pairs result ↔
        (∃ x y (j : nat), (l, x) ∈ rows1 ∧ R1 !! j = Some (r, y)
                          ∧ lo x ≤ Z.of_nat j < hi x)
        ∧ ∀ c, c ∈ rest → eval_cond df right c l r = true.
Proof.
  intros Hd Hr Hnd1 Hnd2 Hsub1 Hsub2 Hb Hrest Hvalid.
  destruct rest as [|[[lo2 ro2] op2] rest3]; [done |]. clear Hrest.
  destruct (Hvalid (lo2, ro2, op2)) as (Hlo2 & Hro2 & Hop2); [left |].
  simpl in Hlo2, Hro2, Hop2. destruct (dict_get_valid op2 Hop2) as [f2 Hf2].
  unfold le_lt_scan. cbn [uncons mbind res_mbind res_bind].
  rewrite (loc_col_series df lo2 (index_of rows1)); [| done | done |]; cycle 1.
  { intros l (p & -> & Hp)%list_elem_of_fmap. by apply Hsub1. }
  cbn [mbind res_mbind res_bind].
  rewrite (loc_col_series right ro2 (index_of R1)); [| done | done |]; cycle 1.
  { intros r (q & -> & Hq)%list_elem_of_fmap. by apply Hsub2. }
  cbn [mbind res_mbind res_bind]. rewrite Hf2. cbn [mbind res_mbind res_bind].
  unfold extract_array, series_on, index_of. rewrite <- !list_fmap_compose.
  rewrite (zip4_rows fst (λ p : Z * Z, val df lo2 p.1) (λ p, lo p.2) (λ p, hi p.2)).
  fold (index_of R1).
  destruct (scan_spec f2 ((λ q : Z * Z, val right ro2 q.1) <$> R1) (index_of R1)
              ((λ p : Z * Z, (p.1, val df lo2 p.1, lo p.2, hi p.2)) <$> rows1))
    as (idf & rep & ir & Hscan & Hl & Hc & Hlen2 & Hzip & Hnil).
  { unfold index_of. by rewrite !length_fmap. }
  change ((snd ∘ (λ l : Z, (l, val right ro2 l))) ∘ fst)
    with (λ q : Z * Z, val right ro2 q.1).
  change ((snd ∘ (λ l : Z, (l, val df lo2 l))) ∘ fst)
    with (λ p : Z * Z, val df lo2 p.1).
  rewrite Hscan. cbn [mbind res_mbind res_bind].
  rewrite scanned_rows in Hzip, Hnil by done.
  destruct (scanned_spec f2 rows1 R1 (val df lo2) (val right ro2) lo hi Hnd1 Hnd2 Hb)
    as [HndC HC]. cbv zeta in HndC, HC.
  set (C2 := rows1 ≫= _) in *.
  assert (HC' : ∀ l r, (l, r) ∈ C2 ↔
            (∃ x y (j : nat), (l, x) ∈ rows1 ∧ R1 !! j = Some (r, y)
                              ∧ lo x ≤ Z.of_nat j < hi x)
            ∧ eval_cond df right (lo2, ro2, op2) l r = true).
  { intros l r. rewrite HC. split.
    - intros (x & y & j & Hp & Hq & Hj & Hf). split; [by exists x, y, j |].
      rewrite (eval_cond_val df right _ l r f2); [done | done | done | |].
      + by apply (Hsub1 (l, x)).
      + apply (Hsub2 (r, y)). by eapply list_elem_of_lookup_2.
    - intros [(x & y & j & Hp & Hq & Hj) He]. exists x, y, j.
      split_and!; [done | done | lia | lia |].
      rewrite (eval_cond_val df right _ l r f2) in He; [done | done | done | |].
      + by apply (Hsub1 (l, x)).
      + apply (Hsub2 (r, y)). by eapply list_elem_of_lookup_2. }
  clear HC. clearbody C2.
  case_decide as Hidf.
  { exists None. split; [done |]. cbn [well_paired result_pairs].
    split_and!; [done | constructor |].
    intros l r. split; [by intros ?%elem_of_nil |].
    intros [Hex Hall]. rewrite (proj1 Hnil Hidf) in HC'. apply HC'.
    split; [done |]. apply Hall. left. }
  rewrite repeat_ok by done. cbn [mbind res_mbind res_bind].
  assert (HCne : C2 ≠ []) by (intros HH; by apply Hidf, Hnil).
  set (L := np.repeat_seq idf rep) in *. set (Rr := concat ir) in *.
  case_decide as Hrest3.
  { subst rest3. exists (Some (L, Rr)). split; [done |]. cbn [well_paired result_pairs].
    rewrite Hzip. split_and!; [done | | done |].
    - intros ->. by destruct Rr.
    - intros l r. rewrite HC'. split.
      + intros [Hex He]. split; [done |]. by intros c ->%list_elem_of_singleton.
      + intros [Hex Hall]. split; [done |]. apply Hall. left. }
  assert (HL : L = C2.*1) by (rewrite <- Hzip, fst_zip; [done | lia]).
  assert (HRr : Rr = C2.*2) by (rewrite <- Hzip, snd_zip; [done | lia]).
  rewrite HL, HRr.
  rewrite (masks_none C2 (λ name p, val df name p.1) (λ name p, val right name p.2));
    [| done |]; cycle 1.
  { intros c Hc'. destruct (Hvalid c) as (Hl' & Hr' & Hop'); [by right |].
    split; [done |]. apply cells_at_zip; [done.. |].
    intros [l r] [(x & y & j & Hp & Hq & _) _]%HC'. simpl. split.
    - by apply (Hsub1 (l, x)).
    - apply (Hsub2 (r, y)). by eapply list_elem_of_lookup_2. }
  cbn [mbind res_mbind res_bind]. rewrite (mask_finish C2 fst snd).
  eexists. split; [done |].
  set (F := filter _ C2).
  assert (HF : ∀ l r, (l, r) ∈ F ↔
            (∃ x y (j : nat), (l, x) ∈ rows1 ∧ R1 !! j = Some (r, y)
                              ∧ lo x ≤ Z.of_nat j < hi x)
            ∧ ∀ c, c ∈ (lo2, ro2, op2) :: rest3 → eval_cond df right c l r = true).
  { intros l r. unfold F. rewrite list_elem_of_filter, HC'. split.
    - intros [Hm [Hex He]]. split; [done |].
      destruct Hex as (x & y & j & Hp & Hq & Hj).
      assert (l ∈ index df) by (by apply (Hsub1 (l, x))).
      assert (r ∈ index right).
      { apply (Hsub2 (r, y)). by eapply list_elem_of_lookup_2. }
      intros c [-> | Hc']%elem_of_cons; [done |].
      apply Is_true_true in Hm. rewrite forallb_forall in Hm.
      specialize (Hm c (proj1 (list_elem_of_In _ _) Hc')). simpl in Hm.
      rewrite <- (eval_on_val df right c l r); [done | | done | done].
      apply Hvalid. by right.
    - intros [Hex Hall]. split_and!; [| done | apply Hall; left].
      destruct Hex as (x & y & j & Hp & Hq & Hj).
      assert (l ∈ index df) by (by apply (Hsub1 (l, x))).
      assert (r ∈ index right).
      { apply (Hsub2 (r, y)). by eapply list_elem_of_lookup_2. }
      apply Is_true_true, forallb_forall. intros c Hc'%list_elem_of_In. simpl.
      rewrite (eval_on_val df right c l r); [apply Hall; by right | | done | done].
      apply Hvalid. by right. }
  assert (HndF : NoDup F) by (by apply NoDup_filter).
  clearbody F. case_decide as HFnil.
  - subst F. cbn [well_paired result_pairs]. split_and!; [done | constructor | done].
  - cbn [well_paired result_pairs]. rewrite zip_fst_snd. split_and!.
    + by rewrite !length_fmap.
    + by destruct F.
    + done.
    + done.
Qed.

Lemma le_lt_search_spec df right conditions df_index right_index c1 rest :
  NoDup (index df) → NoDup (index right) →
  (∀ c, c ∈ conditions → valid_condition df right c) →
  narrowed df right conditions df_index right_index →
  conditions = c1 :: rest → c1.2 ∈ ordering → rest ≠ [] →
  ∃ result, le_lt_search df right df_index right_index conditions = Ok result
    ∧ well_paired result ∧ NoDup (result_pairs result)
    ∧ sound df right conditions (result_pairs result)
    ∧ complete df right conditions (result_pairs result).
Proof.
  intros Hd Hr Hvalid Hinv -> Hop1 Hrest. destruct c1 as [[lo1 ro1] op1]. simpl in Hop1.
  destruct (Hvalid (lo1, ro1, op1)) as (Hlo1 & Hro1 & Hop1'); [left |].
  simpl in Hlo1, Hro1, Hop1'. destruct (dict_get_valid op1 Hop1') as [f1 Hf1].
  pose proof Hinv as (_ & _ & Hsub1 & Hsub2 & _).
  unfold le_lt_search. cbn [uncons mbind res_mbind res_bind].
  rewrite (loc_col_series df lo1 df_index) by done. cbn [mbind res_mbind res_bind].
  rewrite (loc_col_series right ro1 right_index) by done. cbn [mbind res_mbind res_bind].
  rewrite generic_bounds by done. cbn [mbind res_mbind res_bind].
  assert (Hv1 : valid_condition df right (lo1, ro1, op1)) by (apply Hvalid; left).
  assert (Hin1 : (lo1, ro1, op1) ∈ (lo1, ro1, op1) :: rest) by left.
  destruct (narrow_step df right ((lo1, ro1, op1) :: rest) df_index right_index
              lo1 ro1 op1 f1 Hd Hr Hv1 Hin1 Hop1 Hf1 Hinv) as (Hnil & Hinv' & Hrows & HR).
  set (R1 := search_order (series_on right ro1 right_index)) in *.
  set (a1 := extract_array R1) in *.
  set (rows1 := ord_rows op1 (series_on df lo1 df_index) a1) in *.
  case_decide as Hrows1.
  { exists None. split; [done |]. cbn [well_paired result_pairs].
    split_and!; [done | constructor | by intros l r ?%elem_of_nil |].
    intros l r Hl Hr' Hall. by destruct (Hnil Hrows1 l r Hl Hr'). }
  destruct Hinv' as (Hnd1 & Hnd2 & Hsub1' & Hsub2' & Hcomp').
  destruct (le_lt_scan_spec df right rows1 R1 (lo_of op1 a1) (hi_of op1 a1) rest)
    as (result & Hres & Hwp & Hnd & Hiff); [done.. | | | | done | |].
  { intros p Hp. apply Hsub1'. by apply list_elem_of_fmap_2. }
  { intros q Hq. apply Hsub2'. by apply list_elem_of_fmap_2. }
  { intros [l x] Hp%Hrows. simpl. pose proof (ord_bounds op1 a1 x).
    unfold a1, extract_array in *. rewrite length_fmap in *. lia. }
  { intros c Hc. apply Hvalid. by right. }
  exists result. split.
  { destruct (str_in op1 less_than_join_types); exact Hres. }
  split_and!; [done | done | |].
  - intros l r [(x & y & j & Hp & Hq & Hj) Hall]%Hiff.
    assert (l ∈ index df) by (apply Hsub1'; by apply (list_elem_of_fmap_2 fst _ (l, x))).
    assert (r ∈ index right).
    { apply Hsub2'. apply (list_elem_of_fmap_2 fst _ (r, y)).
      by eapply list_elem_of_lookup_2. }
    split_and!; [done | done |].
    intros c [-> | Hc]%elem_of_cons; [| by apply Hall].
    rewrite (eval_cond_val df right _ l r f1); [| by apply Hvalid; left | done..].
    simpl. apply Hrows in Hp as (_ & -> & _).
    pose proof (list_elem_of_lookup_2 _ _ _ Hq) as (_ & ->)%HR.
    apply (ord_range_iff op1 f1 _ x j (r, y) Hop1 Hf1 Hq). exact Hj.
  - intros l r Hl Hr' Hall. apply Hiff.
    destruct (Hcomp' l r Hl Hr' Hall) as
      [([l' x] & -> & Hp)%list_elem_of_fmap ([r' y] & -> & Hq)%list_elem_of_fmap].
    simpl in *. split.
    + apply list_elem_of_lookup in Hq as (j & Hq). exists x, y, j.
      split_and!; [done | done | |];
        pose proof (Hall _ (list_elem_of_here _ _)) as Hs;
        rewrite (eval_strict_val df right _ l' r' f1) in Hs
          by (done || (apply Hvalid; left));
        simpl in Hs; apply Hrows in Hp as (_ & Hx & _);
        pose proof (list_elem_of_lookup_2 _ _ _ Hq) as (_ & Hy)%HR;
        rewrite Hx, Hy in Hs; simpl in Hs;
        apply (ord_range_iff op1 f1 _ x j (r', y) Hop1 Hf1 Hq) in Hs; fold R1 a1 in Hs; lia.
    + intros c Hc. apply eval_strict_cond, Hall. by right.
Qed.

Lemma narrowed_ext df right (conds conds' : list Condition) df_index right_index :
  (∀ c, c ∈ conds ↔ c ∈ conds') →
  narrowed df right conds df_index right_index →
  narrowed df right conds' df_index right_index.
Proof.
  intros Heq (? & ? & ? & ? & Hcomp). split_and!; [done.. |].
  intros l r Hl Hr Hall. apply Hcomp; [done | done |].
  intros c Hc. by apply Hall, Heq.
Qed.

Lemma sound_ext df right (conds conds' : list Condition) pairs :
  (∀ c, c ∈ conds ↔ c ∈ conds') → sound df right conds pairs → sound df right conds' pairs.
Proof.
  intros Heq Hs l r Hin. destruct (Hs l r Hin) as (? & ? & Hall).
  split_and!; [done | done |]. intros c Hc. by apply Hall, Heq.
Qed.

Lemma complete_ext df right (conds conds' : list Condition) pairs :
  (∀ c, c ∈ conds ↔ c ∈ conds') →
  complete df right conds pairs → complete df right conds' pairs.
Proof.
  intros Heq Hc l r Hl Hr Hall. apply Hc; [done | done |].
  intros c Hin. by apply Hall, Heq.
Qed.

Lemma le_lt_spec df right conditions :
  NoDup (index df) → NoDup (index right) →
  (∀ c, c ∈ conditions →
     valid_condition df right c ∧ c.2 ≠ op_value STRICTLY_EQUAL) →
  (∃ c, c ∈ conditions ∧ c.2 ∈ ordering) →
  (2 ≤ length conditions)%nat →
  ∃ result, _multiple_conditional_join_le_lt df right conditions = Ok result
    ∧ well_paired result ∧ NoDup (result_pairs result)
    ∧ sound df right conditions (result_pairs result)
    ∧ complete df right conditions (result_pairs result).
Proof.
  intros Hd Hr Hconds Hex Hlen.
  unfold _multiple_conditional_join_le_lt. cbv zeta.
  destruct (narrow_spec df right conditions conditions (index df) (index right) None)
    as (narrowed_result & -> & Hspec); [done | done | | |].
  { intros c Hc. destruct (Hconds c Hc). done. }
  { split_and!; done. }
  cbn [mbind res_mbind res_bind].
  destruct narrowed_result as [[[df_index right_index] lt_gt]|]; cycle 1.
  { exists None. split; [done |]. cbn [well_paired result_pairs].
    split_and!; [done | constructor | by intros l r ?%elem_of_nil |].
    intros l r Hl Hr' Hall. by destruct (Hspec l r Hl Hr'). }
  destruct Hspec as [Hinv ->].
  destruct conditions as [|c0 tl]; [simpl in Hlen; lia |].
  assert (Htl : tl ≠ []) by (destruct tl; [simpl in Hlen; lia | done]).
  change (np.getitem (c0 :: tl) 0) with (Ok c0). cbn [mbind res_mbind res_bind].
  fold ordering. unfold cond_op.
  assert (Hvalid : ∀ c, c ∈ c0 :: tl → valid_condition df right c).
  { intros c Hc. by destruct (Hconds c Hc). }
  destruct (str_in c0.2 ordering) eqn:Hc0; cbn [negb].
  - cbn [mbind res_mbind res_bind].
    apply (le_lt_search_spec df right (c0 :: tl) df_index right_index c0 tl);
      [done.. | by apply bool_decide_eq_true in Hc0 | done].
  - destruct (last_ordering_found (c0 :: tl) (c0 :: tl) None) as (g & -> & Hg & Hgord);
      [done | by right |].
    destruct (list_remove_perm g (c0 :: tl) Hg) as (others & -> & Hperm).
    cbn [mbind res_mbind res_bind].
    assert (Heq : ∀ c, c ∈ c0 :: tl ↔ c ∈ g :: others).
    { intros c. by rewrite Hperm. }
    destruct (le_lt_search_spec df right (g :: others) df_index right_index g others)
      as (result & Hres & Hwp & Hnd & Hs & Hc); [done | done | | | done | done | |].
    + intros c Hc. by apply Hvalid, Heq.
    + by apply (narrowed_ext df right (c0 :: tl)).
    + apply Permutation_length in Hperm. destruct others; [| done].
      destruct tl; [done | simpl in Hperm; lia].
    + exists result. split_and!; [done | done | done | |].
      * by apply (sound_ext df right (g :: others)).
      * by apply (complete_ext df right (g :: others)).
Qed.

End combiner_le_lt.

(** ** The combiner anchored on [==] *)

Section combiner_eq.
Implicit Types (df right : DataFrame) (c : Condition).

Lemma filter_fmap {A B} (f : A → B) (P : B → Prop) `{!∀ x, Decision (P x)} (l : list A) :
  filter P (f <$> l) = f <$> filter (λ x, P (f x)) l.
Proof.
  induction l as [|x l IH]; [done |]. cbn [fmap list_fmap]. rewrite !filter_cons, IH.
  by destruct (decide (P (f x))).
Qed.

Lemma keyed_eta df : mkDataFrame (columns df) (dtypes df) (rows df) = df.
Proof. by destruct df. Qed.

Lemma loc_keyed df ks :
  NoDup (index df) → loc df (index_of (rows (keyed df ks))) = Ok (keyed df ks).
Proof.
  intros Hnd. unfold loc. rewrite rows_at_sub; [done | done |].
  intros row [_ Hrow]%list_elem_of_filter. done.
Qed.

Lemma index_of_keys_of df ks : index_of (keys_of df ks) = index df.
Proof.
  unfold index_of, keys_of, index, index_of. rewrite <- list_fmap_compose.
  by apply list_fmap_ext.
Qed.

(** The nulls of the key columns leave, with their rows. *)
Lemma drop_null_keys df ks :
  NoDup (index df) →
  (if keys_hasnans (keys_of df ks) then
     let left_c := keys_dropna (keys_of df ks) in
     df' ← loc df (index_of left_c); Ok (left_c, df')
   else Ok (keys_of df ks, df))
  = Ok (keys_of (keyed df ks) ks, keyed df ks).
Proof.
  intros Hnd.
  assert (Hdrop : keys_dropna (keys_of df ks) = keys_of (keyed df ks) ks).
  { unfold keys_dropna, keys_of. cbn [keyed rows].
    exact (filter_fmap (λ row : Z * list value, (row.1, key_of ks row))
             (λ row : Z * list value, Forall (λ v, v ≠ None) row.2) (rows df)). }
  destruct (keys_hasnans (keys_of df ks)) eqn:Hnan.
  - cbv zeta. rewrite Hdrop, index_of_keys_of. unfold index.
    by rewrite loc_keyed.
  - assert (Hall : filter (λ row, Forall (λ v, v ≠ None) (key_of ks row)) (rows df)
                   = rows df).
    { apply filter_all. intros row Hrow. apply Forall_forall. intros v Hv ->.
      apply not_true_iff_false in Hnan. apply Hnan. unfold keys_hasnans.
      apply existsb_exists. exists (row.1, key_of ks row). split.
      - apply list_elem_of_In. unfold keys_of. apply list_elem_of_fmap. by exists row.
      - apply existsb_exists. exists None. split; [by apply list_elem_of_In |].
        by apply bool_decide_eq_true. }
    unfold keyed. rewrite Hall, keyed_eta. done.
Qed.

Lemma drop_null_single df name k :
  NoDup (index df) → column_pos df name = Some k →
  (left_c ← getitem_col df name;
   '(left_c, df') ←
     (if hasnans left_c then
        let left_c := notna left_c in
        df' ← loc df (index_of left_c); Ok (left_c, df')
      else Ok (left_c, df));
   Ok (series_keys left_c, df'))
  = Ok (keys_of (keyed df [k]) [k], keyed df [k]).
Proof.
  intros Hnd Hk. unfold getitem_col. rewrite Hk. cbn [mbind res_mbind res_bind].
  set (left_c := (λ row : Z * list value, (row.1, cell k row)) <$> rows df).
  assert (Hkeys : series_keys left_c = keys_of df [k]).
  { unfold series_keys, left_c, keys_of. rewrite <- list_fmap_compose.
    by apply list_fmap_ext. }
  assert (Hnan : hasnans left_c = keys_hasnans (keys_of df [k])).
  { unfold hasnans, keys_hasnans, left_c, keys_of. clear.
    induction (rows df) as [|row l IH]; [done |]. cbn. rewrite IH. f_equal.
    by rewrite orb_false_r. }
  assert (Hdrop : series_keys (notna left_c) = keys_dropna (keys_of df [k])).
  { rewrite <- Hkeys. unfold series_keys, notna, keys_dropna.
    etrans; [| symmetry;
      exact (filter_fmap (λ p : Z * value, (p.1, [p.2]))
               (λ row : Z * list value, Forall (λ v, v ≠ None) row.2) left_c)].
    f_equal. apply list_filter_iff. intros [l v]. simpl.
    rewrite Forall_singleton. done. }
  assert (Hidx : index_of (notna left_c) = index_of (keys_dropna (keys_of df [k]))).
  { rewrite <- Hdrop. by rewrite index_of_series_keys. }
  pose proof (drop_null_keys df [k] Hnd) as Hgen. rewrite <- Hnan in Hgen.
  destruct (hasnans left_c); cbv zeta in *.
  - rewrite Hidx. destruct (loc df _) as [df'|]; [| done].
    cbn [mbind res_mbind res_bind] in *. by rewrite Hdrop.
  - cbn [mbind res_mbind res_bind]. by rewrite Hkeys.
Qed.

Lemma positions_of_ok df names :
  (∀ n, n ∈ names → is_Some (column_pos df n)) →
  ∃ ks, positions_of df names = Ok ks
        ∧ Forall2 (λ n k, column_pos df n = Some k) names ks.
Proof.
  induction names as [|n names IH]; intros H.
  - by exists [].
  - destruct (H n) as [k Hk]; [left |]. destruct IH as (ks & Hks & HF).
    { intros. apply H. by right. }
    exists (k :: ks). cbn. rewrite Hk, Hks. split; [done | by constructor].
Qed.

(** The key of a row, read through the names of its columns. *)
Lemma key_of_names df names ks row :
  NoDup (index df) → row ∈ rows df →
  Forall2 (λ n k, column_pos df n = Some k) names ks →
  key_of ks row = (λ n, val df n row.1) <$> names.
Proof.
  intros Hnd Hrow HF. induction HF as [|n k names ks Hk _ IH]; [done |].
  unfold key_of in *. cbn. rewrite IH. f_equal.
  unfold val. by rewrite (value_at_elem df n k row).
Qed.

Lemma fmap_eq_iff {A B} (f g : A → B) (l : list A) :
  f <$> l = g <$> l ↔ ∀ x, x ∈ l → f x = g x.
Proof.
  induction l as [|x l IH]; cbn.
  - split; [by intros _ y ?%elem_of_nil | done].
  - split.
    + intros [= Hx Hl] y [-> | Hy]%elem_of_cons; [done |]. by apply IH.
    + intros H. f_equal; [apply H; left | apply IH; intros; apply H; by right].
Qed.

Lemma eq_strict_iff df right c l r :
  valid_condition df right c → c.2 = op_value STRICTLY_EQUAL →
  l ∈ index df → r ∈ index right →
  eval_strict df right c l r = true ↔
    val df c.1.1 l ≠ None ∧ val right c.1.2 r ≠ None
    ∧ val df c.1.1 l = val right c.1.2 r.
Proof.
  intros Hv Hop Hl Hr.
  rewrite (eval_strict_val df right c l r operator.eq);
    [| done | by rewrite Hop | done | done].
  destruct (val df c.1.1 l) as [x|], (val right c.1.2 r) as [y|]; simpl;
    try (split; [done | by intros (? & ? & ?)]).
  rewrite Z.eqb_eq. split; [by intros -> | by intros (_ & _ & [= ->])].
Qed.

(** The first step: the rows with a null in a key column leave both
    tables, and the keys of the rows that stay are handed on. *)
Lemma eq_block df right (eq_cond : list Condition) ksL ksR :
  NoDup (index df) → NoDup (index right) → eq_cond ≠ [] →
  positions_of df ((λ c : Condition, c.1.1) <$> eq_cond) = Ok ksL →
  positions_of right ((λ c : Condition, c.1.2) <$> eq_cond) = Ok ksR →
  (if decide (length eq_cond = 1%nat) then
     '(left_on, right_on, _) ← np.getitem eq_cond 0;
     left_c ← getitem_col df left_on;
     right_c ← getitem_col right right_on;
     '(left_c, df) ←
       (if hasnans left_c then
          let left_c := notna left_c in
          df ← loc df (index_of left_c); Ok (left_c, df)
        else Ok (left_c, df));
     '(right_c, right) ←
       (if hasnans right_c then
          let right_c := notna right_c in
          right ← loc right (index_of right_c); Ok (right_c, right)
        else Ok (right_c, right));
     Ok (df, right, [left_on], [right_on], series_keys left_c, series_keys right_c)
   else
     let left_on := (λ c : Condition, c.1.1) <$> eq_cond in
     let right_on := (λ c : Condition, c.1.2) <$> eq_cond in
     left_c ← loc_cols df left_on;
     right_c ← loc_cols right right_on;
     '(left_c, df) ←
       (if keys_hasnans left_c then
          let left_c := keys_dropna left_c in
          df ← loc df (index_of left_c); Ok (left_c, df)
        else Ok (left_c, df));
     '(right_c, right) ←
       (if keys_hasnans right_c then
          let right_c := keys_dropna right_c in
          right ← loc right (index_of right_c); Ok (right_c, right)
        else Ok (right_c, right));
     Ok (df, right, left_on, right_on, left_c, right_c))
  = Ok (keyed df ksL, keyed right ksR,
        (λ c : Condition, c.1.1) <$> eq_cond, (λ c : Condition, c.1.2) <$> eq_cond,
        keys_of (keyed df ksL) ksL, keys_of (keyed right ksR) ksR).
Proof.
  intros Hd Hr Hne HL HR. case_decide as Hlen.
  - destruct eq_cond as [|[[lo ro] op] [|]]; try done. clear Hlen Hne.
    cbn in HL, HR.
    destruct (column_pos df lo) as [kl|] eqn:Hkl; [| done].
    destruct (column_pos right ro) as [kr|] eqn:Hkr; [| done].
    injection HL as <-. injection HR as <-.
    change (np.getitem [(lo, ro, op)] 0) with (Ok (lo, ro, op)).
    cbn [mbind res_mbind res_bind].
    pose proof (drop_null_single df lo kl Hd Hkl) as HdL.
    pose proof (drop_null_single right ro kr Hr Hkr) as HdR.
    destruct (getitem_col df lo) as [left_c|]; [| done].
    destruct (getitem_col right ro) as [right_c|]; [| done].
    cbn [mbind res_mbind res_bind] in *.
    destruct (if hasnans left_c then _ else _) as [[left_c' df']|]; [| done].
    destruct (if hasnans right_c then _ else _) as [[right_c' right']|]; [| done].
    cbn [mbind res_mbind res_bind] in *. by injection HdL as -> ->; injection HdR as -> ->.
  - cbv zeta. unfold loc_cols. rewrite HL, HR. cbn [mbind res_mbind res_bind].
    change ((λ row : Z * list value, (row.1, (λ k, cell k row) <$> ksL)) <$> rows df)
      with (keys_of df ksL).
    change ((λ row : Z * list value, (row.1, (λ k, cell k row) <$> ksR)) <$> rows right)
      with (keys_of right ksR).
    pose proof (drop_null_keys df ksL Hd) as HdL.
    pose proof (drop_null_keys right ksR Hr) as HdR. cbv zeta in HdL, HdR.
    destruct (if keys_hasnans (keys_of df ksL) then _ else _)
      as [[left_c' df']|]; [| done].
    destruct (if keys_hasnans (keys_of right ksR) then _ else _)
      as [[right_c' right']|]; [| done].
    cbn [mbind res_mbind res_bind]. by injection HdL as -> ->; injection HdR as -> ->.
Qed.

Lemma key_of_conds df (E : list Condition) (name : Condition → string) ks row :
  NoDup (index df) → row ∈ rows df →
  Forall2 (λ n k, column_pos df n = Some k) (name <$> E) ks →
  key_of ks row = (λ c, val df (name c) row.1) <$> E.
Proof.
  intros Hnd Hrow HF. rewrite (key_of_names df (name <$> E) ks row Hnd Hrow HF).
  by rewrite <- list_fmap_compose.
Qed.

(** The candidates of the hash join: the pairs of rows that meet every
    equality on cells that are not null. *)
Lemma eq_candidates df right (E : list Condition) ksL ksR :
  NoDup (index df) → NoDup (index right) →
  (∀ c, c ∈ E → valid_condition df right c ∧ c.2 = op_value STRICTLY_EQUAL) →
  Forall2 (λ n k, column_pos df n = Some k) ((λ c : Condition, c.1.1) <$> E) ksL →
  Forall2 (λ n k, column_pos right n = Some k) ((λ c : Condition, c.1.2) <$> E) ksR →
  let LK := rows (keyed df ksL) in
  let RK := rows (keyed right ksR) in
  let P := equal_positions (key_of ksL <$> LK) (key_of ksR <$> RK) in
  NoDup P
  ∧ (∀ p, p ∈ P → ∃ (a b : nat) rowL rowR,
        p = (Z.of_nat a, Z.of_nat b) ∧ LK !! a = Some rowL ∧ RK !! b = Some rowR
        ∧ rowL ∈ rows df ∧ rowR ∈ rows right)
  ∧ (∀ l r,
       (∃ (a b : nat) rowL rowR,
          (Z.of_nat a, Z.of_nat b) ∈ P ∧ LK !! a = Some rowL ∧ RK !! b = Some rowR
          ∧ rowL.1 = l ∧ rowR.1 = r)
       ↔ l ∈ index df ∧ r ∈ index right
         ∧ ∀ c, c ∈ E → eval_strict df right c l r = true).
Proof.
  intros Hd Hr HE HL HR LK RK P.
  destruct (equal_positions_spec (key_of ksL <$> LK) (key_of ksR <$> RK))
    as [HndP HP]. fold P in HndP, HP.
  assert (HLK : ∀ row, row ∈ LK ↔
            row ∈ rows df ∧ ∀ c, c ∈ E → val df c.1.1 row.1 ≠ None).
  { intros row. unfold LK. cbn [keyed rows]. rewrite list_elem_of_filter. split.
    - intros [Hnn Hrow]. split; [done |].
      rewrite (key_of_conds df E (λ c, c.1.1) ksL row Hd Hrow HL), Forall_fmap,
        Forall_forall in Hnn. done.
    - intros [Hrow Hnn]. split; [| done].
      rewrite (key_of_conds df E (λ c, c.1.1) ksL row Hd Hrow HL), Forall_fmap,
        Forall_forall. done. }
  assert (HRK : ∀ row, row ∈ RK ↔
            row ∈ rows right ∧ ∀ c, c ∈ E → val right c.1.2 row.1 ≠ None).
  { intros row. unfold RK. cbn [keyed rows]. rewrite list_elem_of_filter. split.
    - intros [Hnn Hrow]. split; [done |].
      rewrite (key_of_conds right E (λ c, c.1.2) ksR row Hr Hrow HR), Forall_fmap,
        Forall_forall in Hnn. done.
    - intros [Hrow Hnn]. split; [| done].
      rewrite (key_of_conds right E (λ c, c.1.2) ksR row Hr Hrow HR), Forall_fmap,
        Forall_forall. done. }
  assert (Hkey : ∀ rowL rowR, rowL ∈ rows df → rowR ∈ rows right →
            key_of ksL rowL = key_of ksR rowR
            ↔ ∀ c, c ∈ E → val df c.1.1 rowL.1 = val right c.1.2 rowR.1).
  { intros rowL rowR HrowL HrowR.
    rewrite (key_of_conds df E (λ c, c.1.1) ksL rowL Hd HrowL HL),
      (key_of_conds right E (λ c, c.1.2) ksR rowR Hr HrowR HR).
    apply fmap_eq_iff. }
  split_and!; [done | |].
  - intros [i j] (a & b & k & -> & -> & Ha & Hb)%HP.
    rewrite list_lookup_fmap in Ha, Hb.
    apply fmap_Some in Ha as (rowL & Ha & _). apply fmap_Some in Hb as (rowR & Hb & _).
    exists a, b, rowL, rowR. split_and!; [done | done | done | |].
    + apply list_elem_of_lookup_2 in Ha. by apply HLK in Ha as [? _].
    + apply list_elem_of_lookup_2 in Hb. by apply HRK in Hb as [? _].
  - intros l r. split.
    + intros (a & b & rowL & rowR & Hin & Ha & Hb & <- & <-).
      apply HP in Hin as (a' & b' & k & Ha'%Nat2Z.inj & Hb'%Nat2Z.inj & HkL & HkR).
      subst a' b'. rewrite list_lookup_fmap in HkL, HkR.
      rewrite Ha in HkL. rewrite Hb in HkR. simpl in HkL, HkR.
      pose proof (list_elem_of_lookup_2 _ _ _ Ha) as [HrowL HnnL]%HLK.
      pose proof (list_elem_of_lookup_2 _ _ _ Hb) as [HrowR HnnR]%HRK.
      assert (Hk : key_of ksL rowL = key_of ksR rowR) by congruence.
      pose proof (proj1 (Hkey rowL rowR HrowL HrowR) Hk) as Hk'.
      assert (rowL.1 ∈ index df) by (apply list_elem_of_fmap; by exists rowL).
      assert (rowR.1 ∈ index right) by (apply list_elem_of_fmap; by exists rowR).
      split_and!; [done | done |]. intros c Hc. destruct (HE c Hc) as [Hv Hop].
      apply eq_strict_iff; [done.. |]. split_and!; [by apply HnnL | by apply HnnR | by apply Hk'].
    + intros (Hl & Hr' & Hall).
      apply list_elem_of_fmap in Hl as (rowL & -> & HrowL).
      apply list_elem_of_fmap in Hr' as (rowR & -> & HrowR).
      assert (Hs : ∀ c, c ∈ E →
                val df c.1.1 rowL.1 ≠ None ∧ val right c.1.2 rowR.1 ≠ None
                ∧ val df c.1.1 rowL.1 = val right c.1.2 rowR.1).
      { intros c Hc. destruct (HE c Hc) as [Hv Hop].
        apply (eq_strict_iff df right c); [done | done | | | by apply Hall].
        - apply list_elem_of_fmap. by exists rowL.
        - apply list_elem_of_fmap. by exists rowR. }
      assert (HinL : rowL ∈ LK) by (apply HLK; split; [done |]; intros c Hc; by apply Hs).
      assert (HinR : rowR ∈ RK) by (apply HRK; split; [done |]; intros c Hc; by apply Hs).
      apply list_elem_of_lookup in HinL as [a Ha]. apply list_elem_of_lookup in HinR as [b Hb].
      exists a, b, rowL, rowR. split_and!; [| done..].
      apply HP. exists a, b, (key_of ksL rowL). split_and!; [done | done | |].
      * by rewrite list_lookup_fmap, Ha.
      * rewrite list_lookup_fmap, Hb. simpl. f_equal. symmetry.
        apply (Hkey rowL rowR HrowL HrowR). intros c Hc. by apply Hs.
Qed.

Lemma NoDup_keyed df ks : NoDup (index df) → NoDup (index (keyed df ks)).
Proof.
  intros H. eapply sublist_NoDup; [done |]. unfold index, index_of. cbn [keyed rows].
  apply fmap_sublist, sublist_filter.
Qed.

Lemma extract_keys_of df ks : extract_array (keys_of df ks) = key_of ks <$> rows df.
Proof. unfold extract_array, keys_of. by rewrite <- list_fmap_compose. Qed.

Lemma eq_spec df right conditions :
  NoDup (index df) → NoDup (index right) →
  (∀ c, c ∈ conditions → valid_condition df right c) →
  (∃ c, c ∈ conditions ∧ c.2 = op_value STRICTLY_EQUAL) →
  distinct_eq conditions = true →
  ∃ result, _multiple_conditional_join_eq df right conditions = Ok result
    ∧ well_paired result ∧ NoDup (result_pairs result)
    ∧ sound df right conditions (result_pairs result)
    ∧ complete df right conditions (result_pairs result).
Proof.
  intros Hd Hr Hvalid (c0 & Hc0 & Hop0) Hdist.
  unfold distinct_eq in Hdist. cbv zeta in Hdist.
  apply andb_true_iff in Hdist as [HdL%bool_decide_eq_true HdR%bool_decide_eq_true].
  unfold _multiple_conditional_join_eq. cbv zeta.
  match goal with
  | |- context [@filter ?A ?B ?F (λ c, cond_op c = ?o) ?D conditions] =>
      set (E := @filter A B F (λ c, cond_op c = o) D conditions) in *
  end.
  match goal with
  | |- context [@filter ?A ?B ?F (λ c, cond_op c ≠ ?o) ?D conditions] =>
      set (R := @filter A B F (λ c, cond_op c ≠ o) D conditions)
  end.
  assert (HE : ∀ c, c ∈ E ↔ c ∈ conditions ∧ c.2 = op_value STRICTLY_EQUAL).
  { intros c. unfold E. rewrite list_elem_of_filter. unfold cond_op. tauto. }
  assert (HR : ∀ c, c ∈ R ↔ c ∈ conditions ∧ c.2 ≠ op_value STRICTLY_EQUAL).
  { intros c. unfold R. rewrite list_elem_of_filter. unfold cond_op. tauto. }
  assert (HEne : E ≠ []).
  { intros Hnil. assert (Hin : c0 ∈ E) by (by apply HE).
    rewrite Hnil in Hin. by apply elem_of_nil in Hin. }
  clearbody E R.
  destruct (positions_of_ok df ((λ c : Condition, c.1.1) <$> E)) as (ksL & HposL & HFL).
  { intros n (c & -> & [Hc _]%HE)%list_elem_of_fmap. by destruct (Hvalid c Hc). }
  destruct (positions_of_ok right ((λ c : Condition, c.1.2) <$> E)) as (ksR & HposR & HFR).
  { intros n (c & -> & [Hc _]%HE)%list_elem_of_fmap. by destruct (Hvalid c Hc) as (_ & ? & _). }
  pose proof (eq_block df right E ksL ksR Hd Hr HEne HposL HposR) as Hblock.
  cbv zeta in Hblock. rewrite Hblock. clear Hblock. cbn [mbind res_mbind res_bind].
  unfold _equal_indices. rewrite merge_operation_ok by done.
  cbn [mbind res_mbind res_bind]. unfold _get_join_indexers. cbv zeta.
  rewrite !extract_keys_of.
  destruct (eq_candidates df right E ksL ksR) as (HndP & Hrows & Hsem); [done | done | | done | done |].
  { intros c [Hc Hop]%HE. split; [by apply Hvalid | done]. }
  cbv zeta in HndP, Hrows, Hsem.
  set (P := equal_positions _ _) in *.
  set (dfK := keyed df ksL) in *. set (rightK := keyed right ksR) in *.
  clearbody P.
  set (labL := λ p : Z * Z, index dfK !!! Z.to_nat p.1).
  set (labR := λ p : Z * Z, index rightK !!! Z.to_nat p.2).
  assert (HndL : NoDup (index dfK)) by (by apply NoDup_keyed).
  assert (HndR : NoDup (index rightK)) by (by apply NoDup_keyed).
  assert (Hlab : ∀ p, p ∈ P → ∃ rowL rowR,
            rows dfK !! Z.to_nat p.1 = Some rowL ∧ rows rightK !! Z.to_nat p.2 = Some rowR
            ∧ rowL ∈ rows df ∧ rowR ∈ rows right
            ∧ labL p = rowL.1 ∧ labR p = rowR.1 ∧ 0 ≤ p.1 ∧ 0 ≤ p.2).
  { intros p (a & b & rowL & rowR & -> & Ha & Hb & HrowL & HrowR)%Hrows.
    exists rowL, rowR. cbn [fst snd]. rewrite !Nat2Z.id.
    split_and!; [done | done | done | done | | | lia | lia].
    - by apply lookup_total_index.
    - by apply lookup_total_index. }
  assert (Hrange : ∀ p, p ∈ P →
            0 ≤ p.1 < Z.of_nat (length (rows dfK))
            ∧ 0 ≤ p.2 < Z.of_nat (length (rows rightK))).
  { intros p (rowL & rowR & Ha%lookup_lt_Some & Hb%lookup_lt_Some & _ & _ & _ & _ & ? & ?)%Hlab.
    lia. }
  assert (Hmem : ∀ l r, (∃ p, p ∈ P ∧ labL p = l ∧ labR p = r)
            ↔ l ∈ index df ∧ r ∈ index right
              ∧ ∀ c, c ∈ E → eval_strict df right c l r = true).
  { intros l r. rewrite <- Hsem. split.
    - intros (p & Hp & <- & <-).
      destruct (Hrows p Hp) as (a & b & rowL & rowR & -> & Ha & Hb & _).
      exists a, b, rowL, rowR. split_and!; [done | done | done | |].
      + symmetry. by apply lookup_total_index.
      + symmetry. by apply lookup_total_index.
    - intros (a & b & rowL & rowR & Hp & Ha & Hb & <- & <-).
      exists (Z.of_nat a, Z.of_nat b). split_and!; [done | |].
      + by apply lookup_total_index.
      + by apply lookup_total_index. }
  assert (Hinj : ∀ p q, p ∈ P → q ∈ P →
            (labL p, labR p) = (labL q, labR q) → p = q).
  { intros p q Hp Hq [= HL HR'].
    destruct (Hrows p Hp) as (a & b & rowL & rowR & -> & Ha & Hb & _).
    destruct (Hrows q Hq) as (a' & b' & rowL' & rowR' & -> & Ha' & Hb' & _).
    unfold labL, labR, index in HL, HR'. cbn [fst snd] in HL, HR'.
    rewrite (lookup_total_index _ _ _ Ha), (lookup_total_index _ _ _ Ha') in HL.
    rewrite (lookup_total_index _ _ _ Hb), (lookup_total_index _ _ _ Hb') in HR'.
    f_equal; f_equal.
    - apply (NoDup_lookup (index dfK) a a' rowL.1); [done | |].
      + unfold index, index_of. by rewrite list_lookup_fmap, Ha.
      + unfold index, index_of. by rewrite list_lookup_fmap, Ha', HL.
    - apply (NoDup_lookup (index rightK) b b' rowR.1); [done | |].
      + unfold index, index_of. by rewrite list_lookup_fmap, Hb.
      + unfold index, index_of. by rewrite list_lookup_fmap, Hb', HR'. }
  assert (Hfin : ∀ m : Z * Z → bool,
            (∀ p, p ∈ P → m p = true ↔
               ∀ c, c ∈ R → eval_cond df right c (labL p) (labR p) = true) →
            let F := filter (λ p, m p) P in
            let pairs := zip (labL <$> F) (labR <$> F) in
            NoDup pairs ∧ sound df right conditions pairs
            ∧ complete df right conditions pairs).
  { intros m Hm F pairs.
    assert (Hpairs : pairs = (λ p, (labL p, labR p)) <$> F)
      by apply zip_with_fmap_same.
    rewrite Hpairs. clear Hpairs pairs.
    assert (HF : ∀ p, p ∈ F ↔ p ∈ P ∧ m p = true).
    { intros p. unfold F. rewrite list_elem_of_filter, Is_true_true. tauto. }
    split_and!.
    - apply NoDup_fmap_2_strong; [| by apply NoDup_filter].
      intros p q [Hp _]%HF [Hq _]%HF. by apply Hinj.
    - intros l r (p & [= -> ->] & [Hp Hmp]%HF)%list_elem_of_fmap.
      destruct (proj1 (Hmem (labL p) (labR p))) as (Hl & Hr' & Hs); [by exists p |].
      split_and!; [done | done |]. intros c Hc.
      destruct (decide (c.2 = op_value STRICTLY_EQUAL)) as [Hop | Hop].
      + apply eval_strict_cond, Hs. by apply HE.
      + apply (proj1 (Hm p Hp) Hmp). by apply HR.
    - intros l r Hl Hr' Hall.
      destruct (proj2 (Hmem l r)) as (p & Hp & <- & <-).
      { split_and!; [done | done |]. intros c [Hc _]%HE. by apply Hall. }
      apply list_elem_of_fmap. exists p. split; [done |]. apply HF. split; [done |].
      apply Hm; [done |]. intros c [Hc _]%HR. by apply eval_strict_cond, Hall. }
  destruct (decide (P = [])) as [Hnil | Hnonnil].
  { rewrite Hnil. cbn. exists None. cbn [well_paired result_pairs].
    split_and!; [done | done | constructor | |].
    - by intros l r ?%elem_of_nil.
    - intros l r Hl Hr' Hall. destruct (proj2 (Hmem l r)) as (p & Hp & _).
      { split_and!; [done | done |]. intros c [Hc _]%HE. by apply Hall. }
      rewrite Hnil in Hp. by apply elem_of_nil in Hp. }
  assert (Hsz : (0 <? np.size P.*1) = true).
  { unfold np.size. rewrite length_fmap. destruct P; [done |]. simpl. apply Z.ltb_lt. lia. }
  rewrite Hsz. change (1 <? 2) with true. cbn [negb mbind res_mbind res_bind unpack2].
  assert (HtakeL : ∀ F : list (Z * Z), (∀ p, p ∈ F → p ∈ P) →
            np.take (index dfK) F.*1 = Ok (labL <$> F)).
  { intros F HF. apply (take_fmap (index dfK) fst F). intros p Hp%HF%Hrange.
    unfold index, index_of. rewrite length_fmap. lia. }
  assert (HtakeR : ∀ F : list (Z * Z), (∀ p, p ∈ F → p ∈ P) →
            np.take (index rightK) F.*2 = Ok (labR <$> F)).
  { intros F HF. apply (take_fmap (index rightK) snd F). intros p Hp%HF%Hrange.
    unfold index, index_of. rewrite length_fmap. lia. }
  case_decide as HRnil.
  - rewrite (HtakeL P), (HtakeR P) by done. cbn [mbind res_mbind res_bind].
    eexists. split; [done |]. cbn [well_paired result_pairs].
    destruct (Hfin (λ _, true)) as (Hnd & Hsound & Hcomplete).
    { intros p _. split; [| done]. intros _ c Hc. rewrite HRnil in Hc.
      by apply elem_of_nil in Hc. }
    cbv zeta in Hnd, Hsound, Hcomplete.
    rewrite (filter_all (λ _ : Z * Z, Is_true true) P) in Hnd, Hsound, Hcomplete by done.
    split_and!; [by rewrite !length_fmap | by destruct P | done..].
  - assert (HlabL : ∀ p, p ∈ P → labL p ∈ index df ∧ labR p ∈ index right).
    { intros p Hp. destruct (proj1 (Hmem (labL p) (labR p))) as (? & ? & _); [by exists p | done]. }
    rewrite (masks_none P (λ name p, val df name (labL p)) (λ name p, val right name (labR p)));
      [| done |]; cycle 1.
    { intros c [Hc _]%HR. destruct (Hvalid c Hc) as ([kl Hkl] & [kr Hkr] & Hop).
      split; [done |]. unfold getitem_col.
      change (column_pos dfK c.1.1) with (column_pos df c.1.1).
      change (column_pos rightK c.1.2) with (column_pos right c.1.2).
      rewrite Hkl, Hkr. cbn [mbind res_mbind res_bind].
      unfold extract_array. rewrite <- !list_fmap_compose.
      rewrite (take_fmap _ fst P);
        [| intros q Hq%Hrange; rewrite length_fmap; lia].
      cbn [mbind res_mbind res_bind].
      rewrite (take_fmap _ snd P);
        [| intros q Hq%Hrange; rewrite length_fmap; lia].
      cbn [mbind res_mbind res_bind]. f_equal. f_equal.
      - apply list_fmap_ext. intros i q Hq%list_elem_of_lookup_2.
        destruct (Hlab q Hq) as (rowL & rowR & Ha & Hb & HrowL & HrowR & HlL & HlR & _).
        rewrite HlL. unfold val. rewrite (value_at_elem df c.1.1 kl rowL) by done.
        apply list_lookup_total_correct. by rewrite list_lookup_fmap, Ha.
      - apply list_fmap_ext. intros i q Hq%list_elem_of_lookup_2.
        destruct (Hlab q Hq) as (rowL & rowR & Ha & Hb & HrowL & HrowR & HlL & HlR & _).
        rewrite HlR. unfold val. rewrite (value_at_elem right c.1.2 kr rowR) by done.
        apply list_lookup_total_correct. by rewrite list_lookup_fmap, Hb. }
    set (m := λ p : Z * Z,
           forallb (λ c : Condition,
             eval_on c (val df c.1.1 (labL p)) (val right c.1.2 (labR p))) R).
    cbn [mbind res_mbind res_bind mask_any].
    destruct (Hfin m) as (Hnd & Hsound & Hcomplete).
    { intros q Hq. destruct (HlabL q Hq) as [HqL HqR]. unfold m. rewrite forallb_forall.
      split.
      - intros H c Hc. rewrite <- (eval_on_val df right c); [| | done | done].
        + by apply H, list_elem_of_In.
        + apply Hvalid. by apply HR in Hc as [? _].
      - intros H c Hc%list_elem_of_In.
        rewrite (eval_on_val df right c); [by apply H | | done | done].
        apply Hvalid. by apply HR in Hc as [? _]. }
    cbv zeta in Hnd, Hsound, Hcomplete.
    set (F := filter (λ p, m p) P) in *.
    assert (HF : ∀ q, q ∈ F → q ∈ P) by (by intros q [_ ?]%list_elem_of_filter).
    destruct (np.any (m <$> P)) eqn:Hany; cbn [negb].
    + rewrite (mask_fmap fst m P), (mask_fmap snd m P). cbn [mbind res_mbind res_bind].
      fold F. rewrite (HtakeL F HF), (HtakeR F HF). cbn [mbind res_mbind res_bind].
      eexists. split; [done |]. cbn [well_paired result_pairs].
      split_and!; [by rewrite !length_fmap | | done..].
      apply any_fmap in Hany as (q & Hq & Hmq).
      assert (q ∈ F) by (apply list_elem_of_filter; by rewrite Hmq).
      intros Hnil%fmap_nil_inv. rewrite Hnil in *. by apply elem_of_nil in H.
    + exists None. cbn [well_paired result_pairs].
      assert (Hnil : F = []).
      { destruct F as [|q F'] eqn:HeqF; [done |].
        assert (Hq : q ∈ filter (λ p, m p) P) by (fold F; rewrite HeqF; left).
        apply list_elem_of_filter in Hq as [Hmq Hq].
        apply not_true_iff_false in Hany. destruct Hany. apply any_fmap.
        exists q. by apply Is_true_true in Hmq. }
      rewrite Hnil in *. done.
Qed.

(** Two [==] conditions on one column: the hash join is asked for a key
    label twice, and the call ends there. *)
Lemma distinct_eq_false conditions :
  distinct_eq conditions = false →
  let E := filter (λ c, cond_op c = op_value STRICTLY_EQUAL) conditions in
  ¬ (NoDup ((λ c : Condition, c.1.1) <$> E) ∧ NoDup ((λ c : Condition, c.1.2) <$> E)).
Proof.
  unfold distinct_eq. cbv zeta. intros H [H1 H2].
  rewrite !bool_decide_eq_true_2 in H by done. done.
Qed.

Lemma eq_raise df right conditions :
  NoDup (index df) → NoDup (index right) →
  (∀ c, c ∈ conditions → valid_condition df right c) →
  distinct_eq conditions = false →
  _multiple_conditional_join_eq df right conditions = Raise ValueError.
Proof.
  intros Hd Hr Hvalid Hdist%distinct_eq_false. cbv zeta in Hdist.
  unfold _multiple_conditional_join_eq. cbv zeta.
  match goal with
  | |- context [@filter ?A ?B ?F (λ c, cond_op c = ?o) ?D conditions] =>
      set (E := @filter A B F (λ c, cond_op c = o) D conditions) in *
  end.
  assert (HE : ∀ c, c ∈ E → c ∈ conditions).
  { intros c. unfold E. rewrite list_elem_of_filter. tauto. }
  assert (HEne : E ≠ []).
  { intros Hnil. apply Hdist. rewrite Hnil. split; constructor. }
  clearbody E.
  destruct (positions_of_ok df ((λ c : Condition, c.1.1) <$> E)) as (ksL & HposL & HFL).
  { intros n (c & -> & Hc%HE)%list_elem_of_fmap. by destruct (Hvalid c Hc). }
  destruct (positions_of_ok right ((λ c : Condition, c.1.2) <$> E)) as (ksR & HposR & HFR).
  { intros n (c & -> & Hc%HE)%list_elem_of_fmap. by destruct (Hvalid c Hc) as (_ & ? & _). }
  pose proof (eq_block df right E ksL ksR Hd Hr HEne HposL HposR) as Hblock.
  cbv zeta in Hblock. rewrite Hblock. clear Hblock. cbn [mbind res_mbind res_bind].
  unfold _equal_indices. by rewrite merge_operation_raise.
Qed.

End combiner_eq.

(** ** The index pairs of a join *)

Section join_indices_spec.
Implicit Types (df right : DataFrame) (c : Condition).

Lemma has_eq_true conditions :
  has_eq conditions = true ↔ ∃ c, c ∈ conditions ∧ c.2 = op_value STRICTLY_EQUAL.
Proof.
  unfold has_eq. rewrite existsb_exists. split.
  - intros (c & Hc%list_elem_of_In & Hop%bool_decide_eq_true). by exists c.
  - intros (c & Hc & Hop). exists c. split; [by apply list_elem_of_In |].
    by apply bool_decide_eq_true.
Qed.

Lemma has_ordering_true conditions :
  has_ordering conditions = true ↔ ∃ c, c ∈ conditions ∧ c.2 ∈ ordering.
Proof.
  unfold has_ordering, str_in. rewrite existsb_exists. split.
  - intros (c & Hc%list_elem_of_In & Hop%bool_decide_eq_true). by exists c.
  - intros (c & Hc & Hop). exists c. split; [by apply list_elem_of_In |].
    by apply bool_decide_eq_true.
Qed.

Lemma NoDup_notna (s : Series) : NoDup (index_of s) → NoDup (index_of (notna s)).
Proof.
  intros H. eapply sublist_NoDup; [done |]. unfold index_of, notna.
  apply fmap_sublist, sublist_filter.
Qed.

Lemma hasnans_notna (s : Series) : hasnans (notna s) = false.
Proof.
  apply not_true_iff_false. unfold hasnans, notna.
  intros ([l x] & [Hx _]%list_elem_of_In%list_elem_of_filter & Hn%bool_decide_eq_true)%existsb_exists.
  done.
Qed.

(** Dropping the nulls of a column keeps its cells that are not null. *)
Lemma elem_of_drop_nulls (b : bool) (s : Series) l (x : Z) :
  (l, Some x) ∈ (if b && hasnans s then notna s else s) ↔ (l, Some x) ∈ s.
Proof.
  destruct (b && hasnans s); [| done]. unfold notna.
  rewrite list_elem_of_filter. simpl. split; [by intros [_ ?] | done].
Qed.

Lemma join_indices_spec df right conditions :
  NoDup (index df) → NoDup (index right) → conditions ≠ [] →
  (∀ c, c ∈ conditions → valid_condition df right c) →
  distinct_eq conditions = true →
  ∃ result,
    join_indices df right conditions (has_eq conditions) (has_ordering conditions)
    = Ok result
    ∧ well_paired result ∧ NoDup (result_pairs result)
    ∧ sound df right conditions (result_pairs result)
    ∧ complete df right conditions (result_pairs result).
Proof.
  intros Hd Hr Hne Hvalid Hdist. unfold join_indices. case_decide as Hlen.
  - destruct conditions as [|[[lo ro] op] [|]]; try done. clear Hlen Hne.
    change (np.getitem [(lo, ro, op)] 0) with (Ok (lo, ro, op)).
    cbn [mbind res_mbind res_bind].
    destruct (Hvalid (lo, ro, op)) as (Hlo & Hro & Hop); [left |]. simpl in Hlo, Hro, Hop.
    rewrite !getitem_col_series by done. cbn [mbind res_mbind res_bind]. cbv zeta.
    destruct (dict_get_valid op Hop) as [f Hf].
    set (left_c := series_on df lo (index df)).
    set (right_c := series_on right ro (index right)).
    match goal with
    | |- context [_generic_func_cond_join ?a ?b op 1] =>
        set (left_c' := a); set (right_c' := b)
    end.
    destruct (generic_pairs left_c' right_c' op f) as (m & -> & Hpaired & Hnd & Hiff).
    { unfold left_c'. destruct (_ && hasnans left_c);
        [apply NoDup_notna |]; unfold left_c; by rewrite index_of_series_on. }
    { unfold right_c'. destruct (_ && hasnans right_c);
        [apply NoDup_notna |]; unfold right_c; by rewrite index_of_series_on. }
    { done. }
    { intros ->. unfold left_c', right_c'.
      change (has_eq [(lo, ro, op_value STRICTLY_EQUAL)]) with true. cbn [andb].
      split.
      - destruct (hasnans left_c) eqn:?; [apply hasnans_notna | done].
      - destruct (hasnans right_c) eqn:?; [apply hasnans_notna | done]. }
    cbn [mbind res_mbind res_bind].
    assert (Hfirst : ∀ l r, (l, r) ∈ pairs_of m ↔
              l ∈ index df ∧ r ∈ index right
              ∧ eval_strict df right (lo, ro, op) l r = true).
    { intros l r. rewrite Hiff. split.
      - intros (x & y & Hx & Hy & Hb). destruct x as [a|], y as [b|]; try done.
        apply elem_of_drop_nulls in Hx. apply elem_of_drop_nulls in Hy.
        apply elem_of_series_on in Hx as [Hl Ha]. apply elem_of_series_on in Hy as [Hr' Hb'].
        split_and!; [done | done |].
        rewrite (eval_strict_val df right (lo, ro, op) l r f) by done. simpl.
        by rewrite <- Ha, <- Hb'.
      - intros (Hl & Hr' & Hs).
        rewrite (eval_strict_val df right (lo, ro, op) l r f) in Hs by done. simpl in Hs.
        destruct (val df lo l) as [a|] eqn:Ha, (val right ro r) as [b|] eqn:Hb'; try done.
        exists (Some a), (Some b). split_and!; [| | done].
        + apply elem_of_drop_nulls, elem_of_series_on. by rewrite Ha.
        + apply elem_of_drop_nulls, elem_of_series_on. by rewrite Hb'. }
    clear Hiff. destruct m as [[l r|]|]; [| done |].
    + cbn [unpack2 mbind res_mbind res_bind pairs_of paired] in *.
      eexists. split; [done |]. cbn [well_paired result_pairs].
      split; [done |]. split; [done |]. split.
      * intros l' r' (? & ? & Hs)%Hfirst. split_and!; [done | done |].
        intros c ->%list_elem_of_singleton. by apply eval_strict_cond.
      * intros l' r' Hl Hr' Hall. apply Hfirst. split_and!; [done | done |].
        apply Hall. left.
    + eexists. split; [done |]. cbn [well_paired result_pairs pairs_of] in *.
      split_and!; [done | constructor | |].
      * by intros l' r' ?%elem_of_nil.
      * intros l' r' Hl Hr' Hall. apply Hfirst. split_and!; [done | done |].
        apply Hall. left.
  - assert (Hlen2 : (2 ≤ length conditions)%nat).
    { destruct conditions as [|? [|]]; [done | done | simpl; lia]. }
    destruct (has_eq conditions) eqn:He.
    { apply eq_spec; [done | done | done | | done]. by apply has_eq_true. }
    assert (Hneq : ∀ c, c ∈ conditions → c.2 ≠ op_value STRICTLY_EQUAL).
    { intros c Hc Hop. apply not_true_iff_false in He. apply He, has_eq_true. by exists c. }
    destruct (has_ordering conditions) eqn:Hord.
    + apply le_lt_spec; [done | done | | by apply has_ordering_true | done].
      intros c Hc. split; [by apply Hvalid | by apply Hneq].
    + by apply ne_spec.
Qed.

Lemma join_indices_raise df right conditions :
  NoDup (index df) → NoDup (index right) →
  (∀ c, c ∈ conditions → valid_condition df right c) →
  distinct_eq conditions = false →
  join_indices df right conditions (has_eq conditions) (has_ordering conditions)
  = Raise ValueError.
Proof.
  intros Hd Hr Hvalid Hdist. unfold join_indices.
  pose proof (distinct_eq_false conditions Hdist) as Hrep. cbv zeta in Hrep.
  assert (He : ∃ c1 c2 rest, filter (λ c, cond_op c = op_value STRICTLY_EQUAL) conditions
                             = c1 :: c2 :: rest).
  { destruct (filter _ conditions) as [|c1 [|c2 rest]].
    - destruct Hrep. split; constructor.
    - destruct Hrep. split; apply NoDup_singleton.
    - by exists c1, c2, rest. }
  destruct He as (c1 & c2 & rest & He).
  assert (Hlen : (2 ≤ length conditions)%nat).
  { pose proof (length_filter (λ c, cond_op c = op_value STRICTLY_EQUAL) conditions) as Hle.
    rewrite He in Hle. simpl in Hle. lia. }
  case_decide as Hone; [lia |].
  assert (Heq : has_eq conditions = true).
  { apply has_eq_true. exists c1.
    assert (Hin : c1 ∈ filter (λ c, cond_op c = op_value STRICTLY_EQUAL) conditions)
      by (rewrite He; left).
    apply list_elem_of_filter in Hin as [Hop Hin]. done. }
  rewrite Heq. by apply eq_raise.
Qed.

End join_indices_spec.

(** ** The heap *)

Section heap.
Context {A B : Type}.
Implicit Types (s : store) (n : nat) (r : ref).

Lemma bind_run (m : State A) (f : A → State B) s a s' :
  m s = (Ok a, s') → (m ≫= f) s = f a s'.
Proof. intros H. unfold mbind, State_bind. by rewrite H. Qed.

Lemma bind_raise (m : State A) (f : A → State B) s e s' :
  m s = (Raise e, s') → (m ≫= f) s = (Raise e, s').
Proof. intros H. unfold mbind, State_bind. by rewrite H. Qed.

Lemma preserves_ret n (a : A) (Q : A → Prop) : Q a → preserves n (mret a) Q.
Proof. intros H s Hs. done. Qed.

Lemma preserves_raise n e (Q : A → Prop) : preserves n (raise e) Q.
Proof. intros s Hs. done. Qed.

Lemma preserves_lift n (m : res A) : preserves n (lift m) (λ _, True).
Proof. intros s Hs. cbn. by destruct m. Qed.

Lemma preserves_bind n (m : State A) (f : A → State B) (Q : A → Prop) (Q' : B → Prop) :
  preserves n m Q → (∀ a, Q a → preserves n (f a) Q') → preserves n (m ≫= f) Q'.
Proof.
  intros Hm Hf s Hs. destruct (Hm s Hs) as (Htake & Hlen & HQ).
  unfold mbind, State_bind. destruct (m s) as [[a|e] s1]; cbn in *.
  - destruct (Hf a HQ s1 Hlen) as (Htake' & Hlen' & HQ').
    split_and!; [congruence | done | done].
  - done.
Qed.

Lemma preserves_weaken n (m : State A) (Q Q' : A → Prop) :
  preserves n m Q → (∀ a, Q a → Q' a) → preserves n m Q'.
Proof.
  intros Hm HQ s Hs. destruct (Hm s Hs) as (Htake & Hlen & H).
  split_and!; [done | done |]. destruct (m s).1; [by apply HQ | done].
Qed.

End heap.

Section heap_operations.
Implicit Types (s : store) (n : nat) (r : ref).

Lemma preserves_read n r : preserves n (read r) (λ _, True).
Proof. intros s Hs. unfold read. by case_match. Qed.

Lemma preserves_read_frame n r : preserves n (read_frame r) (λ _, True).
Proof.
  apply (preserves_bind n _ _ (λ _, True)); [apply preserves_read |].
  intros [df| |] _; [by apply preserves_ret | apply preserves_raise..].
Qed.

Lemma preserves_alloc n o : preserves n (alloc o) (λ r, (n ≤ r)%nat).
Proof.
  intros s Hs. cbn. rewrite take_app_le by done. rewrite length_app. split_and!; [done | lia | done].
Qed.

Lemma preserves_copy n r : preserves n (copy r) (λ r', (n ≤ r')%nat).
Proof.
  apply (preserves_bind n _ _ (λ _, True)); [apply preserves_read |].
  intros o _. apply preserves_alloc.
Qed.

Lemma preserves_write n r o : (n ≤ r)%nat → preserves n (write r o) (λ _, True).
Proof.
  intros Hr s Hs. unfold write. cbn [fst snd]. rewrite length_insert.
  split_and!; [| done | done]. by rewrite take_insert_ge.
Qed.

Lemma preserves_assign_index n r labels :
  (n ≤ r)%nat → preserves n (assign_index r labels) (λ _, True).
Proof.
  intros Hr. apply (preserves_bind n _ _ (λ _, True)); [apply preserves_read_frame |].
  intros df _. apply (preserves_bind n _ _ (λ _, True)); [apply preserves_lift |].
  intros df' _. by apply preserves_write.
Qed.

Lemma preserves_assign_columns n r labels :
  (n ≤ r)%nat → preserves n (assign_columns r labels) (λ _, True).
Proof.
  intros Hr. apply (preserves_bind n _ _ (λ _, True)); [apply preserves_read_frame |].
  intros df _. by apply preserves_write.
Qed.

End heap_operations.

(** ** The call leaves the caller's objects alone *)

Section frame.
Implicit Types (s : store) (n : nat) (r : ref).

Ltac preserve_step :=
  match goal with
  | |- preserves _ (raise _) _ => apply preserves_raise
  | |- preserves _ (mret _) _ => apply preserves_ret
  | |- preserves _ (if ?b then _ else _) _ => destruct b
  | |- preserves ?n (lift _ ≫= _) _ =>
      apply (preserves_bind n _ _ (λ _, True)); [apply preserves_lift | intros ? _]
  | |- preserves ?n (read_frame _ ≫= _) _ =>
      apply (preserves_bind n _ _ (λ _, True)); [apply preserves_read_frame | intros ? _]
  | |- preserves ?n (read _ ≫= _) _ =>
      apply (preserves_bind n _ _ (λ _, True)); [apply preserves_read | intros ? _]
  | |- preserves ?n (copy _ ≫= _) _ =>
      apply (preserves_bind n _ _ (λ r, (n ≤ r)%nat)); [apply preserves_copy | intros ? ?]
  | |- preserves ?n (assign_columns _ _ ≫= _) _ =>
      apply (preserves_bind n _ _ (λ _, True));
        [by apply preserves_assign_columns | intros ? _]
  | |- preserves ?n (assign_index _ _ ≫= _) _ =>
      apply (preserves_bind n _ _ (λ _, True));
        [by apply preserves_assign_index | intros ? _]
  end.

Lemma preserves_preliminary_checks n df right conditions how sort_by_appearance :
  preserves n
    (_conditional_join_preliminary_checks df right conditions how sort_by_appearance)
    (λ out, (n ≤ out.1.1.1.1)%nat ∧ (n ≤ out.1.1.1.2)%nat).
Proof.
  unfold _conditional_join_preliminary_checks.
  do 7 preserve_step. preserve_step.
  apply (preserves_bind n _ _ (λ r, (n ≤ r)%nat)).
  { destruct a4 as [| sr |]; [by apply preserves_ret | | by apply preserves_ret].
    case_bool_decide; [apply preserves_raise | apply preserves_alloc]. }
  intros right' Hright'. repeat preserve_step. done.
Qed.

Lemma preserves_empty_frame n df right how :
  (n ≤ df)%nat → (n ≤ right)%nat →
  preserves n (_create_conditional_join_empty_frame df right how) (λ _, True).
Proof.
  intros Hdf Hright. unfold _create_conditional_join_empty_frame.
  repeat preserve_step; done.
Qed.

Lemma preserves_frame n df right left_index right_index how sort_by_appearance :
  (n ≤ df)%nat → (n ≤ right)%nat →
  preserves n
    (_create_conditional_join_frame df right left_index right_index how
       sort_by_appearance)
    (λ _, True).
Proof.
  intros Hdf Hright. unfold _create_conditional_join_frame.
  apply (preserves_bind n _ _ (λ _, True)).
  { destruct sort_by_appearance; repeat preserve_step; done. }
  intros [li ri] _. repeat preserve_step; done.
Qed.

Lemma preserves_compute n df right conditions how sort_by_appearance :
  preserves n (_conditional_join_compute df right conditions how sort_by_appearance)
    (λ _, True).
Proof.
  unfold _conditional_join_compute.
  eapply preserves_bind; [apply preserves_preliminary_checks |].
  intros [[[[df' right'] conds] how'] sba] [Hdf' Hright']. cbn in Hdf', Hright'.
  do 3 preserve_step. destruct a1 as [eq_check less_great].
  do 5 preserve_step. destruct a5 as [[left_c right_c]|].
  - by apply preserves_frame.
  - by apply preserves_empty_frame.
Qed.

End frame.

(** ** Validation *)

Section validation.
Implicit Types (df right : DataFrame) (c : Condition).

Lemma check_shapes_cases conditions :
  check_shapes conditions = Ok () ∨ check_shapes conditions = Raise ValueError.
Proof.
  induction conditions as [|o conditions IH]; [by left |].
  destruct o as [| | items |]; cbn; try by right.
  case_bool_decide; cbn; [done | by right].
Qed.

Lemma check_shapes_ok conditions conds :
  mapM condition_of conditions = Some conds → check_shapes conditions = Ok ().
Proof.
  revert conds. induction conditions as [|o conditions IH]; intros conds H; [done |].
  cbn in H. destruct (condition_of o) as [c|] eqn:Hc; [| done]. cbn in H.
  destruct (mapM condition_of conditions) as [conds'|] eqn:Hm; [| done].
  destruct o as [| | [|[] [|[] [|[] [|]]]] |]; try done. cbn. by eapply IH.
Qed.

Lemma check_contents_eq df right conditions :
  check_contents df right conditions
  = match mapM condition_of conditions with
    | Some conds =>
        if forallb (valid_condition_b df right) conds then Ok conds
        else Raise ValueError
    | None => Raise ValueError
    end.
Proof.
  induction conditions as [|o conditions IH]; [done |].
  destruct o as [| | items |]; [done | done | | done].
  destruct items as [|a items]; [done |].
  destruct items as [|b items]; [by destruct a |].
  destruct items as [|d items]; [by destruct a, b |].
  destruct items; [| by destruct a, b, d].
  destruct a as [lo| | |], b as [ro| | |], d as [op| | |]; try done.
  cbn [check_contents check existsb is_str orb mbind res_mbind res_bind as_str].
  cbn [mapM condition_of mbind option_bind].
  unfold check_column, _check_operator. rewrite IH.
  destruct (mapM condition_of conditions) as [conds|];
    cbn [mbind option_bind mret option_ret forallb].
  - change (valid_condition_b df right (lo, ro, op))
      with (bool_decide ([lo] ∈ column_labels df)
            && bool_decide ([ro] ∈ column_labels right)
            && str_in op (op_value <$> all_operators)).
    destruct (bool_decide ([lo] ∈ column_labels df));
      cbn [andb mbind res_mbind res_bind]; [| done].
    destruct (bool_decide ([ro] ∈ column_labels right));
      cbn [andb mbind res_mbind res_bind]; [| done].
    destruct (str_in op _); cbn [negb andb mbind res_mbind res_bind]; [| done].
    by destruct (forallb _ conds).
  - destruct (bool_decide ([lo] ∈ column_labels df));
      cbn [andb mbind res_mbind res_bind]; [| done].
    destruct (bool_decide ([ro] ∈ column_labels right));
      cbn [andb mbind res_mbind res_bind]; [| done].
    by destruct (str_in op _).
Qed.

Lemma column_pos_ok df name :
  is_MultiIndex df = false → [name] ∈ column_labels df →
  ∃ k, column_pos df name = Some k ∧ (k < length (column_labels df))%nat.
Proof.
  unfold is_MultiIndex, column_labels, column_pos.
  destruct (columns df) as [labels|]; [| done]. intros _ Hin.
  apply list_elem_of_fmap in Hin as (l & [= <-] & Hin).
  destruct (list_find_elem_of (λ l, l = name) labels name Hin eq_refl) as [[k x] Hfind].
  rewrite Hfind. exists k. split; [done |]. rewrite length_fmap.
  apply list_find_Some in Hfind as (Hk & _). by apply lookup_lt_Some in Hk.
Qed.

Lemma dtype_of_ok df name :
  well_formed df = true → is_MultiIndex df = false → [name] ∈ column_labels df →
  ∃ d, dtype_of df name = Ok d.
Proof.
  intros Hwf Hmi Hin. destruct (column_pos_ok df name Hmi Hin) as (k & Hk & Hlt).
  unfold well_formed in Hwf. apply andb_prop in Hwf as [Hwf _].
  apply andb_prop in Hwf as [Hlen%bool_decide_eq_true _].
  unfold dtype_of. rewrite Hk. cbn.
  destruct (lookup_lt_is_Some_2 (dtypes df) k) as [d Hd]; [lia |].
  exists d. by rewrite Hd.
Qed.

Lemma type_check_eq (l r : dtype) op :
  _conditional_join_type_check l r op
  = if same_family l r
       && (if is_string_dtype l || is_categorical_dtype l
           then bool_decide (op = op_value STRICTLY_EQUAL) else true)
    then Ok () else Raise ValueError.
Proof.
  unfold _conditional_join_type_check.
  destruct l, r; cbn; try done; by case_bool_decide.
Qed.

Lemma check_types_eq df right conds (e l : bool) :
  (∀ c, c ∈ conds →
     (∃ d, dtype_of df c.1.1 = Ok d) ∧ ∃ d, dtype_of right c.1.2 = Ok d) →
  check_types df right conds e l
  = if forallb (valid_types df right) conds
    then Ok (e || has_eq conds, l || has_ordering conds)
    else Raise ValueError.
Proof.
  revert e l. induction conds as [|[[lo ro] op] conds IH]; intros e l Hd.
  - cbn. by rewrite !orb_false_r.
  - destruct (Hd (lo, ro, op)) as [[dl Hdl] [dr Hdr]]; [left |]. cbn in Hdl, Hdr.
    assert (Hd' : ∀ c, c ∈ conds →
              (∃ d, dtype_of df c.1.1 = Ok d) ∧ ∃ d, dtype_of right c.1.2 = Ok d).
    { intros c Hc. apply Hd. by right. }
    cbn [check_types forallb]. unfold valid_types at 1. cbn [fst snd].
    rewrite Hdl, Hdr. cbn [mbind res_mbind res_bind]. rewrite type_check_eq.
    destruct (same_family dl dr && _); cbn [mbind res_mbind res_bind andb]; [| done].
    change (has_eq ((lo, ro, op) :: conds))
      with (bool_decide (op = op_value STRICTLY_EQUAL) || has_eq conds).
    change (has_ordering ((lo, ro, op) :: conds))
      with (str_in op ordering || has_ordering conds).
    change (less_than_join_types ++ greater_than_join_types) with ordering.
    case_bool_decide as Hop.
    + rewrite (IH true l Hd'). subst op. change (str_in _ ordering) with false.
      cbn [orb]. by rewrite orb_true_r.
    + cbn [orb]. destruct (str_in op ordering).
      * rewrite (IH e true Hd'). cbn [orb]. by rewrite orb_true_r.
      * by rewrite (IH e l Hd').
Qed.

End validation.

Section runs.
Implicit Types (s : store) (df right : ref).

Lemma read_run s r o : s !! r = Some o → read r s = (Ok o, s).
Proof. intros H. unfold read. by rewrite H. Qed.

Lemma read_frame_run s r df_v : s !! r = Some (PdFrame df_v) → read_frame r s = (Ok df_v, s).
Proof. intros H. unfold read_frame. by rewrite (bind_run _ _ s _ s (read_run s r _ H)). Qed.

Lemma copy_run s r o : s !! r = Some o → copy r s = (Ok (length s), s ++ [o]).
Proof. intros H. unfold copy. by rewrite (bind_run _ _ s _ s (read_run s r _ H)). Qed.

Lemma assign_index_run s r df_v labels df_v' :
  s !! r = Some (PdFrame df_v) → set_index df_v labels = Ok df_v' →
  assign_index r labels s = (Ok (), <[r:=PdFrame df_v']> s).
Proof.
  intros H Hset. unfold assign_index.
  rewrite (bind_run _ _ s _ s (read_frame_run s r _ H)).
  by rewrite (bind_run _ _ s df_v' s); [| unfold lift; by rewrite Hset].
Qed.

Lemma assign_columns_run s r df_v labels :
  s !! r = Some (PdFrame df_v) →
  assign_columns r labels s
  = (Ok (), <[r:=PdFrame (mkDataFrame labels (dtypes df_v) (rows df_v))]> s).
Proof.
  intros H. unfold assign_columns.
  by rewrite (bind_run _ _ s _ s (read_frame_run s r _ H)).
Qed.

Lemma lookup_extension s (ext : list PandasObject) (k : nat) :
  (s ++ ext) !! (length s + k)%nat = ext !! k.
Proof. rewrite lookup_app_r by lia. f_equal. lia. Qed.

Ltac checks_tail σ right_v H0 ext k conditions how sort_by_appearance :=
  destruct (empty right_v) eqn:Hre;
    [destruct (mapM _ _); cbn [negb andb]; by eexists |];
  destruct (is_MultiIndex right_v) eqn:Hrm;
    [destruct (mapM _ _); cbn [negb andb]; by eexists |];
  destruct (bool_decide (conditions = [])) eqn:Hnil;
    [destruct (mapM _ _); cbn [negb andb]; by eexists |];
  destruct (mapM condition_of conditions) as [conds|] eqn:Hm;
    [ rewrite (bind_run _ _ σ () σ); [| unfold lift; by rewrite (check_shapes_ok _ _ Hm)];
      rewrite (bind_run _ _ _ _ _ (read_frame_run _ _ _ H0));
      rewrite check_contents_eq, Hm;
      destruct (forallb _ conds) eqn:Hall; cbn [negb andb]; [| by eexists];
      rewrite (bind_run _ _ σ conds σ eq_refl);
      destruct how as [h| | |]; cbn [is_str andb]; try (by eexists);
      rewrite (bind_run _ _ σ () σ eq_refl); cbn [as_str];
      destruct (str_in h _) eqn:Hh; cbn [negb andb]; [| by eexists];
      destruct sort_by_appearance as [|b| |]; cbn [is_bool]; try (by eexists);
      rewrite (bind_run _ _ σ () σ eq_refl);
      by exists right_v, conds, ext, k
    | destruct (check_shapes_cases conditions) as [Hs | Hs];
      [ rewrite (bind_run _ _ σ () σ); [| unfold lift; by rewrite Hs];
        rewrite (bind_run _ _ _ _ _ (read_frame_run _ _ _ H0));
        rewrite check_contents_eq, Hm; by eexists
      | rewrite (bind_raise _ _ σ ValueError σ); [| unfold lift; by rewrite Hs];
        by eexists ] ].

(** The preliminary checks return on the arguments that meet the contract,
    with the copies of the two tables added to the heap, and fail with a
    ValueError on the others. *)
Lemma preliminary_checks_run s df right conditions how sort_by_appearance df_v o :
  s !! df = Some (PdFrame df_v) → s !! right = Some o →
  if valid_arguments df_v o conditions how sort_by_appearance then
    ∃ right_v conds ext k,
      frame_of o = Some right_v ∧ mapM condition_of conditions = Some conds
      ∧ _conditional_join_preliminary_checks df right conditions how sort_by_appearance s
        = (Ok (length s, (length s + S k)%nat, conds, as_str how,
               match sort_by_appearance with PyBool b => b | _ => false end),
           s ++ ext)
      ∧ ext !! 0%nat = Some (PdFrame df_v) ∧ ext !! S k = Some (PdFrame right_v)
  else
    ∃ s', _conditional_join_preliminary_checks df right conditions how
            sort_by_appearance s
          = (Raise ValueError, s').
Proof.
  intros Hdf Hright. unfold valid_arguments, _conditional_join_preliminary_checks.
  rewrite (bind_run _ _ s _ s (read_frame_run s df _ Hdf)).
  destruct (empty df_v) eqn:Hempty.
  { destruct (frame_of o); [destruct (mapM _ _) |]; cbn [negb andb]; by eexists. }
  destruct (is_MultiIndex df_v) eqn:Hmulti.
  { destruct (frame_of o); [destruct (mapM _ _) |]; cbn [negb andb]; by eexists. }
  rewrite (bind_run _ _ s _ s (read_run s right _ Hright)).
  destruct o as [right_v | sr |]; cbn [frame_of]; [| | by eexists].
  - rewrite (bind_run _ _ s () s eq_refl).
    rewrite (bind_run _ _ s _ _ (copy_run s df _ Hdf)).
    rewrite (bind_run _ _ _ _ _
               (copy_run (s ++ [PdFrame df_v]) right _ (lookup_app_l_Some _ _ _ _ Hright))).
    rewrite <- app_assoc, length_app. cbn [app length].
    assert (H0 : (s ++ [PdFrame df_v; PdFrame right_v]) !! length s = Some (PdFrame df_v)).
    { by rewrite <- (Nat.add_0_r (length s)), lookup_extension. }
    assert (H1 : (s ++ [PdFrame df_v; PdFrame right_v]) !! (length s + 1)%nat
                 = Some (PdFrame right_v)) by (by rewrite lookup_extension).
    rewrite (bind_run _ _ _ _ _ (read_run _ _ _ H1)).
    rewrite (bind_run _ _ (s ++ [PdFrame df_v; PdFrame right_v]) (length s + 1)%nat _ eq_refl).
    rewrite (bind_run _ _ _ _ _ (read_frame_run _ _ _ H1)).
    checks_tail (s ++ [PdFrame df_v; PdFrame right_v]) right_v H0
      [PdFrame df_v; PdFrame right_v] 0%nat conditions how sort_by_appearance.
  - rewrite (bind_run _ _ s () s eq_refl).
    rewrite (bind_run _ _ s _ _ (copy_run s df _ Hdf)).
    rewrite (bind_run _ _ _ _ _
               (copy_run (s ++ [PdFrame df_v]) right _ (lookup_app_l_Some _ _ _ _ Hright))).
    rewrite <- app_assoc, length_app. cbn [app length].
    assert (H1 : (s ++ [PdFrame df_v; PdSeries sr]) !! (length s + 1)%nat
                 = Some (PdSeries sr)) by (by rewrite lookup_extension).
    rewrite (bind_run _ _ _ _ _ (read_run _ _ _ H1)).
    destruct (bool_decide (name sr = None ∨ name sr = Some "")) eqn:Hname; [by eexists |].
    rewrite (bind_run _ _ (s ++ [PdFrame df_v; PdSeries sr])
               (length (s ++ [PdFrame df_v; PdSeries sr]))
               ((s ++ [PdFrame df_v; PdSeries sr]) ++ [PdFrame (to_frame sr)]) eq_refl).
    rewrite <- app_assoc, length_app. cbn [app length].
    assert (H0 : (s ++ [PdFrame df_v; PdSeries sr; PdFrame (to_frame sr)]) !! length s
                 = Some (PdFrame df_v)).
    { by rewrite <- (Nat.add_0_r (length s)), lookup_extension. }
    assert (H2 : (s ++ [PdFrame df_v; PdSeries sr; PdFrame (to_frame sr)])
                   !! (length s + 2)%nat
                 = Some (PdFrame (to_frame sr))) by (by rewrite lookup_extension).
    rewrite (bind_run _ _ _ _ _ (read_frame_run _ _ _ H2)).
    checks_tail (s ++ [PdFrame df_v; PdSeries sr; PdFrame (to_frame sr)]) (to_frame sr) H0
      [PdFrame df_v; PdSeries sr; PdFrame (to_frame sr)] 1%nat
      conditions how sort_by_appearance.
Qed.

Lemma set_index_range df_v :
  set_index df_v (RangeIndex (len df_v)) = Ok (reset_index df_v).
Proof.
  unfold set_index, RangeIndex, len. rewrite decide_True; [done |].
  rewrite zrange_length. lia.
Qed.

Lemma valid_condition_of df_v right_v c :
  is_MultiIndex df_v = false → is_MultiIndex right_v = false →
  valid_condition_b df_v right_v c = true →
  valid_condition (reset_index df_v) (reset_index right_v) c.
Proof.
  intros Hl Hr Hv. unfold valid_condition_b in Hv.
  apply andb_prop in Hv as [Hv Hop]. apply andb_prop in Hv as [Hlo Hro].
  apply bool_decide_eq_true in Hlo, Hro, Hop.
  destruct (column_pos_ok df_v c.1.1 Hl Hlo) as (kl & Hkl & _).
  destruct (column_pos_ok right_v c.1.2 Hr Hro) as (kr & Hkr & _).
  split_and!; [by exists kl | by exists kr | done].
Qed.

Lemma dtypes_ok df_v right_v conds :
  well_formed df_v = true → well_formed right_v = true →
  is_MultiIndex df_v = false → is_MultiIndex right_v = false →
  forallb (valid_condition_b df_v right_v) conds = true →
  ∀ c, c ∈ conds →
    (∃ d, dtype_of df_v c.1.1 = Ok d) ∧ ∃ d, dtype_of right_v c.1.2 = Ok d.
Proof.
  intros Hwl Hwr Hl Hr Hall c Hc. rewrite forallb_forall in Hall.
  specialize (Hall c (proj1 (list_elem_of_In _ _) Hc)). unfold valid_condition_b in Hall.
  apply andb_prop in Hall as [Hv _]. apply andb_prop in Hv as [Hlo Hro].
  apply bool_decide_eq_true in Hlo, Hro.
  split; by apply dtype_of_ok.
Qed.

Lemma valid_arguments_inv df_v o conditions how sort_by_appearance right_v conds :
  frame_of o = Some right_v → mapM condition_of conditions = Some conds →
  valid_arguments df_v o conditions how sort_by_appearance = true →
  is_MultiIndex df_v = false ∧ is_MultiIndex right_v = false
  ∧ empty df_v = false ∧ empty right_v = false ∧ conds ≠ []
  ∧ forallb (valid_condition_b df_v right_v) conds = true
  ∧ (∃ h, how = PyStr h ∧ h ∈ how_value <$> [INNER; LEFT; RIGHT])
  ∧ ∃ b, sort_by_appearance = PyBool b.
Proof.
  intros Hf Hm. unfold valid_arguments. rewrite Hf, Hm. intros H.
  repeat (apply andb_prop in H as [H ?]).
  repeat match goal with
         | H : negb _ = true |- _ => apply negb_true_iff in H
         end.
  split_and!; try done.
  - intros ->. destruct conditions; [done |]. cbn in Hm.
    destruct (condition_of _); [| done]. cbn in Hm. by destruct (mapM _ _).
  - destruct how as [h| | |]; try done. exists h. split; [done |].
    unfold str_in in *. cbn [as_str] in *. by eapply bool_decide_eq_true_1.
  - destruct sort_by_appearance as [|b| |]; try done. by exists b.
Qed.

Lemma NoDup_reset_index df_v : NoDup (index (reset_index df_v)).
Proof.
  unfold index, index_of, reset_index. cbn [rows]. rewrite fst_zip.
  - apply NoDup_zrange.
  - unfold RangeIndex, len, extract_array. rewrite zrange_length, length_fmap. lia.
Qed.

(** A call that meets the contract computes the index pairs of the two
    tables labelled by position, on the copies, and assembles the result
    from them; an error of the computation ends the call. *)
Lemma compute_steps s df right conditions how sort_by_appearance df_v o right_v conds :
  s !! df = Some (PdFrame df_v) → s !! right = Some o →
  well_formed df_v = true → well_formed right_v = true →
  frame_of o = Some right_v → mapM condition_of conditions = Some conds →
  valid_call df_v o conditions how sort_by_appearance = true →
  ∃ σ (df' right' : ref) h b,
    how = PyStr h ∧ h ∈ how_value <$> [INNER; LEFT; RIGHT]
    ∧ sort_by_appearance = PyBool b
    ∧ conds ≠ []
    ∧ (∀ c, c ∈ conds → valid_condition (reset_index df_v) (reset_index right_v) c)
    ∧ σ !! df' = Some (PdFrame (reset_index df_v))
    ∧ σ !! right' = Some (PdFrame (reset_index right_v)) ∧ df' ≠ right'
    ∧ conditional_join df right conditions how sort_by_appearance s
      = match join_indices (reset_index df_v) (reset_index right_v) conds
                (has_eq conds) (has_ordering conds) with
        | Ok None => _create_conditional_join_empty_frame df' right' h σ
        | Ok (Some (l, r)) => _create_conditional_join_frame df' right' l r h b σ
        | Raise e => (Raise e, σ)
        end.
Proof.
  intros Hdf Hright Hwl Hwr Hf Hm Hvalid. unfold valid_call in Hvalid.
  apply andb_prop in Hvalid as [Hargs Htypes]. rewrite Hf, Hm in Htypes.
  destruct (valid_arguments_inv _ _ _ _ _ _ _ Hf Hm Hargs)
    as (Hml & Hmr & Hel & Her & Hne & Hall & (h & -> & Hh) & (b & ->)).
  pose proof (preliminary_checks_run s df right conditions (PyStr h) (PyBool b) df_v o
                Hdf Hright) as Hpre.
  rewrite Hargs in Hpre.
  destruct Hpre as (right_v' & conds' & ext & k & Hf' & Hm' & Hpre & H0 & H1).
  assert (right_v' = right_v) as -> by congruence.
  assert (conds' = conds) as -> by congruence.
  unfold conditional_join, _conditional_join_compute.
  rewrite (bind_run _ _ _ _ _ Hpre). cbn [as_str].
  set (σ := s ++ ext).
  assert (Hl : σ !! length s = Some (PdFrame df_v)).
  { unfold σ. by rewrite <- (Nat.add_0_r (length s)), lookup_extension. }
  assert (Hr : σ !! (length s + S k)%nat = Some (PdFrame right_v)).
  { unfold σ. by rewrite lookup_extension. }
  rewrite (bind_run _ _ _ _ _ (read_frame_run _ _ _ Hl)).
  rewrite (bind_run _ _ _ _ _ (read_frame_run _ _ _ Hr)).
  rewrite (bind_run _ _ σ (has_eq conds, has_ordering conds) σ).
  2: { unfold lift. rewrite check_types_eq by (by apply dtypes_ok). by rewrite Htypes. }
  rewrite (bind_run _ _ _ _ _ (assign_index_run _ _ _ _ _ Hl (set_index_range df_v))).
  set (σ1 := <[length s:=PdFrame (reset_index df_v)]> σ).
  assert (Hr1 : σ1 !! (length s + S k)%nat = Some (PdFrame right_v)).
  { unfold σ1. rewrite list_lookup_insert_ne by lia. done. }
  rewrite (bind_run _ _ _ _ _ (assign_index_run _ _ _ _ _ Hr1 (set_index_range right_v))).
  set (σ2 := <[(length s + S k)%nat:=PdFrame (reset_index right_v)]> σ1).
  assert (Hl2 : σ2 !! length s = Some (PdFrame (reset_index df_v))).
  { unfold σ2, σ1. rewrite list_lookup_insert_ne by lia.
    apply list_lookup_insert_eq. by apply lookup_lt_Some in Hl. }
  assert (Hr2 : σ2 !! (length s + S k)%nat = Some (PdFrame (reset_index right_v))).
  { unfold σ2. apply list_lookup_insert_eq. by apply lookup_lt_Some in Hr1. }
  rewrite (bind_run _ _ _ _ _ (read_frame_run _ _ _ Hl2)).
  rewrite (bind_run _ _ _ _ _ (read_frame_run _ _ _ Hr2)).
  exists σ2, (length s), (length s + S k)%nat, h, b.
  split_and!; [done | done | done | done | | done | done | lia |].
  { intros c Hc. apply valid_condition_of; [done | done |].
    rewrite forallb_forall in Hall. by apply Hall, list_elem_of_In. }
  destruct (join_indices _ _ _ _ _) as [result|e] eqn:Hres.
  - rewrite (bind_run _ _ σ2 result σ2) by done.
    by destruct result as [[l r]|].
  - by rewrite (bind_raise _ _ σ2 e σ2).
Qed.

Lemma compute_run s df right conditions how sort_by_appearance df_v o right_v conds :
  s !! df = Some (PdFrame df_v) → s !! right = Some o →
  well_formed df_v = true → well_formed right_v = true →
  frame_of o = Some right_v → mapM condition_of conditions = Some conds →
  valid_call df_v o conditions how sort_by_appearance = true →
  distinct_eq conds = true →
  ∃ result σ (df' right' : ref) h b,
    how = PyStr h ∧ h ∈ how_value <$> [INNER; LEFT; RIGHT]
    ∧ sort_by_appearance = PyBool b
    ∧ join_indices (reset_index df_v) (reset_index right_v) conds
        (has_eq conds) (has_ordering conds) = Ok result
    ∧ σ !! df' = Some (PdFrame (reset_index df_v))
    ∧ σ !! right' = Some (PdFrame (reset_index right_v)) ∧ df' ≠ right'
    ∧ conditional_join df right conditions how sort_by_appearance s
      = match result with
        | None => _create_conditional_join_empty_frame df' right' h σ
        | Some (l, r) => _create_conditional_join_frame df' right' l r h b σ
        end.
Proof.
  intros Hdf Hright Hwl Hwr Hf Hm Hvalid Hdist.
  destruct (compute_steps s df right conditions how sort_by_appearance df_v o right_v conds)
    as (σ & df' & right' & h & b & Hh & Hin & Hb & Hne & Hconds & Hl & Hr & Hdiff & Hrun);
    [done.. |].
  destruct (join_indices_spec (reset_index df_v) (reset_index right_v) conds)
    as (result & Hres & _);
    [apply NoDup_reset_index | apply NoDup_reset_index | done | done | done |].
  rewrite Hres in Hrun.
  exists result, σ, df', right', h, b.
  split_and!; [done | done | done | done | done | done | done |].
  by destruct result as [[l r]|].
Qed.

(** With two [==] conditions on one column the call raises the ValueError of
    the hash join. *)
Lemma compute_raise s df right conditions how sort_by_appearance df_v o right_v conds :
  s !! df = Some (PdFrame df_v) → s !! right = Some o →
  well_formed df_v = true → well_formed right_v = true →
  frame_of o = Some right_v → mapM condition_of conditions = Some conds →
  valid_call df_v o conditions how sort_by_appearance = true →
  distinct_eq conds = false →
  ∃ σ, conditional_join df right conditions how sort_by_appearance s
       = (Raise ValueError, σ).
Proof.
  intros Hdf Hright Hwl Hwr Hf Hm Hvalid Hdist.
  destruct (compute_steps s df right conditions how sort_by_appearance df_v o right_v conds)
    as (σ & df' & right' & h & b & Hh & Hin & Hb & Hne & Hconds & Hl & Hr & Hdiff & Hrun);
    [done.. |].
  rewrite join_indices_raise in Hrun by (done || apply NoDup_reset_index).
  by exists σ.
Qed.

(** A call that does not meet the contract fails with a ValueError, in the
    preliminary checks or in the type check of a condition, before any
    index is computed. *)
Lemma compute_invalid s df right conditions how sort_by_appearance df_v o :
  s !! df = Some (PdFrame df_v) → s !! right = Some o →
  well_formed df_v = true → from_option well_formed true (frame_of o) = true →
  valid_call df_v o conditions how sort_by_appearance = false →
  (∃ σ, conditional_join df right conditions how sort_by_appearance s
        = (Raise ValueError, σ))
  ∧ ((∃ σ, _conditional_join_preliminary_checks df right conditions how
             sort_by_appearance s = (Raise ValueError, σ))
     ∨ (∃ out σ right_v,
          _conditional_join_preliminary_checks df right conditions how
            sort_by_appearance s = (Ok out, σ)
          ∧ frame_of o = Some right_v
          ∧ check_types df_v right_v out.1.1.2 false false = Raise ValueError)).
Proof.
  intros Hdf Hright Hwl Hwr Hinv.
  pose proof (preliminary_checks_run s df right conditions how sort_by_appearance df_v o
                Hdf Hright) as Hpre.
  unfold valid_call in Hinv.
  destruct (valid_arguments df_v o conditions how sort_by_appearance) eqn:Hargs.
  - destruct Hpre as (right_v & conds & ext & k & Hf & Hm & Hpre & H0 & H1).
    rewrite Hf, Hm in Hinv. cbn [andb] in Hinv. rewrite Hf in Hwr. cbn in Hwr.
    destruct (valid_arguments_inv _ _ _ _ _ _ _ Hf Hm Hargs)
      as (Hml & Hmr & Hel & Her & Hne & Hall & _).
    assert (Htypes : check_types df_v right_v conds false false = Raise ValueError).
    { rewrite check_types_eq by (by apply dtypes_ok). by rewrite Hinv. }
    split.
    + unfold conditional_join, _conditional_join_compute.
      rewrite (bind_run _ _ _ _ _ Hpre).
      assert (Hl : (s ++ ext) !! length s = Some (PdFrame df_v)).
      { by rewrite <- (Nat.add_0_r (length s)), lookup_extension. }
      assert (Hr : (s ++ ext) !! (length s + S k)%nat = Some (PdFrame right_v)).
      { by rewrite lookup_extension. }
      rewrite (bind_run _ _ _ _ _ (read_frame_run _ _ _ Hl)).
      rewrite (bind_run _ _ _ _ _ (read_frame_run _ _ _ Hr)).
      rewrite (bind_raise _ _ (s ++ ext) ValueError (s ++ ext));
        [by eexists | unfold lift; by rewrite Htypes].
    + right. eexists _, _, right_v. split; [exact Hpre |]. by split.
  - destruct Hpre as [σ Hpre]. split; [| left; by exists σ].
    exists σ. unfold conditional_join, _conditional_join_compute.
    by rewrite (bind_raise _ _ _ _ _ Hpre).
Qed.

End runs.

(** ** Assembling the result *)

Section assembly.
Implicit Types (df right : DataFrame) (pairs : list (Z * Z)).

Lemma row_at_cells df l : l ∈ index df → row_at df l = Ok (l, cells_of df l).
Proof.
  intros (row & -> & Hrow)%list_elem_of_fmap. unfold row_at, cells_of.
  destruct (list_find_elem_of (λ r, r.1 = row.1) (rows df) row Hrow eq_refl)
    as [[i [l' cs]] Hfind].
  rewrite Hfind. apply list_find_Some in Hfind as (_ & Heq & _). simpl in *.
  by rewrite Heq.
Qed.

Lemma rows_at_cells df labels :
  (∀ l, l ∈ labels → l ∈ index df) →
  rows_at df labels = Ok ((λ l, (l, cells_of df l)) <$> labels).
Proof.
  induction labels as [|l labels IH]; intros H; [done |].
  cbn [rows_at]. rewrite row_at_cells by (apply H; left).
  rewrite IH by (intros; apply H; by right). done.
Qed.

Lemma cells_of_namespaced side df l : cells_of (namespaced side df) l = cells_of df l.
Proof. done. Qed.

(** The sorted pairs are the pairs, in another order. *)
Lemma ordered_Permutation pairs b : ordered pairs b ≡ₚ pairs.
Proof.
  destruct b; [| done]. unfold ordered. rewrite merge_sort_Permutation.
  rewrite fst_zip; [done |]. unfold RangeIndex. rewrite zrange_length. lia.
Qed.

Lemma elem_of_ordered pairs b p : p ∈ ordered pairs b ↔ p ∈ pairs.
Proof. by rewrite ordered_Permutation. Qed.

Lemma length_ordered pairs b : length (ordered pairs b) = length pairs.
Proof. by rewrite ordered_Permutation. Qed.

(** [np.lexsort] and the two reorderings that follow it. *)
Lemma sort_step (left_index right_index : list Z) :
  length left_index = length right_index →
  (sorter ← lexsort right_index left_index;
   right_index' ← np.take right_index sorter;
   left_index' ← np.take left_index sorter;
   Ok (left_index', right_index'))
  = Ok ((ordered (zip left_index right_index) true).*1,
        (ordered (zip left_index right_index) true).*2).
Proof.
  intros Hlen. unfold lexsort, ordered. rewrite decide_True by done.
  cbn [mbind res_mbind res_bind].
  assert (Hn : length (zip left_index right_index) = length left_index).
  { rewrite length_zip_with. lia. }
  rewrite Hn.
  set (K := zip (zip left_index right_index)
              (RangeIndex (Z.of_nat (length left_index)))).
  set (S := merge_sort lex_le K).
  assert (HK : ∀ q, q ∈ S → ∃ i : nat,
            q.2 = Z.of_nat i ∧ left_index !! i = Some q.1.1
            ∧ right_index !! i = Some q.1.2).
  { intros q Hq. unfold S in Hq. rewrite merge_sort_Permutation in Hq.
    apply list_elem_of_lookup in Hq as [i Hi]. unfold K in Hi.
    apply lookup_zip_with_Some in Hi as (p & k & -> & Hp & Hk).
    apply lookup_zip_with_Some in Hp as (l & r & -> & Hl & Hr).
    unfold RangeIndex in Hk. exists i. cbn. split_and!; [| done | done].
    apply lookup_zrange in Hk. lia. }
  rewrite (take_fmap right_index snd S).
  2: { intros q (i & -> & _ & Hi%lookup_lt_Some)%HK. lia. }
  cbn [mbind res_mbind res_bind].
  rewrite (take_fmap left_index snd S).
  2: { intros q (i & -> & Hi%lookup_lt_Some & _)%HK. lia. }
  cbn [mbind res_mbind res_bind]. f_equal. f_equal.
  - rewrite <- list_fmap_compose. apply list_fmap_ext.
    intros j q Hq%list_elem_of_lookup_2. destruct (HK q Hq) as (i & -> & Hi & _).
    rewrite Nat2Z.id. simpl. by apply list_lookup_total_correct.
  - rewrite <- list_fmap_compose. apply list_fmap_ext.
    intros j q Hq%list_elem_of_lookup_2. destruct (HK q Hq) as (i & -> & _ & Hi).
    rewrite Nat2Z.id. simpl. by apply list_lookup_total_correct.
Qed.

Lemma filter_none {A} (P : A → Prop) `{!∀ x, Decision (P x)} (l : list A) :
  (∀ x, x ∈ l → ¬ P x) → filter P l = [].
Proof.
  induction l as [|x l IH]; intros Hno; [done |]. rewrite filter_cons.
  rewrite decide_False by (apply Hno; left). apply IH. intros y Hy. apply Hno. by right.
Qed.

(** In a table with distinct labels, a label finds its row only. *)
Lemma matching_unique (t : list (Z * list value)) l b :
  NoDup (index_of t) → (l, b) ∈ t → filter (λ o, o.1 = l) t = [(l, b)].
Proof.
  unfold index_of. induction t as [|[l' b'] t IH]; intros Hnd Hin.
  - by apply elem_of_nil in Hin.
  - cbn in Hnd. apply NoDup_cons in Hnd as [Hnotin Hnd]. rewrite filter_cons. cbn.
    case_decide as Heq.
    + subst l'. apply elem_of_cons in Hin as [[= ->] | Hin].
      * f_equal. apply filter_none. intros [l'' b''] Hin' Hl. simpl in Hl. subst.
        apply Hnotin. apply list_elem_of_fmap. by exists (l, b'').
      * exfalso. apply Hnotin. apply list_elem_of_fmap. by exists (l, b).
    + apply elem_of_cons in Hin as [[= -> ->] | Hin]; [done |]. by apply IH.
Qed.

Lemma join_rows_aligned (t : list (Z * list value)) labels (A B : list (list value)) :
  length labels = length A → length labels = length B →
  (∀ (i : nat) l b, labels !! i = Some l → B !! i = Some b →
     filter (λ o, o.1 = l) t = [(l, b)]) →
  (zip labels A ≫= λ row, (λ o : Z * list value, (row.1, row.2 ++ o.2))
                             <$> filter (λ o, o.1 = row.1) t)
  = zip labels (zip_with app A B).
Proof.
  revert A B. induction labels as [|l labels IH]; intros [|a A] [|b B] HA HB Hf;
    try done.
  cbn [zip zip_with]. rewrite bind_cons. cbn [fst snd].
  rewrite (Hf 0%nat l b eq_refl eq_refl). cbn. f_equal.
  apply IH; [by injection HA | by injection HB |].
  intros i l' b' Hl Hb. by apply (Hf (S i)).
Qed.

Lemma sort_block (σ : store) (left_index right_index : list Z) (b : bool) :
  length left_index = length right_index →
  (if b then
     sorter ← lift (lexsort right_index left_index);
     right_index ← lift (np.take right_index sorter);
     left_index ← lift (np.take left_index sorter);
     mret (left_index, right_index)
   else mret (left_index, right_index)) σ
  = (Ok ((ordered (zip left_index right_index) b).*1,
         (ordered (zip left_index right_index) b).*2), σ).
Proof.
  intros Hlen. destruct b.
  - pose proof (sort_step left_index right_index Hlen) as Hs.
    destruct (lexsort right_index left_index) as [sorter|] eqn:Hsorter; [| done].
    cbn [mbind res_mbind res_bind] in Hs.
    destruct (np.take right_index sorter) as [ri'|] eqn:Hri; [| done].
    cbn [mbind res_mbind res_bind] in Hs.
    destruct (np.take left_index sorter) as [li'|] eqn:Hli; [| done].
    cbn [mbind res_mbind res_bind] in Hs.
    rewrite (bind_run _ _ σ sorter σ eq_refl).
    rewrite (bind_run _ _ σ ri' σ); [| unfold lift; by rewrite Hri].
    rewrite (bind_run _ _ σ li' σ); [| unfold lift; by rewrite Hli].
    by injection Hs as -> ->.
  - unfold ordered. rewrite fst_zip, snd_zip by lia. done.
Qed.

End assembly.

Lemma lookup_after_writes (σ : store) (a b : ref) (x y : PandasObject) :
  a ≠ b → is_Some (σ !! a) → is_Some (σ !! b) →
  <[b:=y]> (<[a:=x]> σ) !! a = Some x ∧ <[b:=y]> (<[a:=x]> σ) !! b = Some y.
Proof.
  intros Hne Ha%lookup_lt_is_Some Hb%lookup_lt_is_Some. split.
  - rewrite list_lookup_insert_ne by done. by apply list_lookup_insert_eq.
  - apply list_lookup_insert_eq. by rewrite length_insert.
Qed.

(** The renaming of the columns of the two copies, with which the two
    assemblies start. *)
Ltac namespace_steps σ df right L R Hl Hr Hne :=
  let Hr1 := fresh "Hr1" in
  let Hl2 := fresh "Hl2" in
  let Hr2 := fresh "Hr2" in
  rewrite (bind_run _ _ _ _ _ (read_frame_run _ _ _ Hl));
  rewrite (bind_run _ _ _ _ _ (assign_columns_run _ _ _ _ Hl));
  assert (Hr1 : <[df:=PdFrame (namespaced "left" L)]> σ !! right = Some (PdFrame R))
    by (by rewrite list_lookup_insert_ne);
  rewrite (bind_run _ _ _ _ _ (read_frame_run _ _ _ Hr1));
  rewrite (bind_run _ _ _ _ _ (assign_columns_run _ _ _ _ Hr1));
  destruct (lookup_after_writes σ df right (PdFrame (namespaced "left" L))
              (PdFrame (namespaced "right" R)) Hne) as [Hl2 Hr2]; [done | done |];
  rewrite (bind_run _ _ _ _ _ (read_frame_run _ _ _ Hl2));
  rewrite (bind_run _ _ _ _ _ (read_frame_run _ _ _ Hr2)).

Section frames.
Implicit Types (df right : DataFrame) (pairs : list (Z * Z)).

Lemma loc_cells df labels :
  (∀ l, l ∈ labels → l ∈ index df) →
  loc df labels
  = Ok (mkDataFrame (columns df) (dtypes df) ((λ l, (l, cells_of df l)) <$> labels)).
Proof. intros H. unfold loc. by rewrite rows_at_cells. Qed.

Lemma set_index_zip cols dts (labels : list Z) (rws : list (Z * list value)) :
  length labels = length rws →
  set_index (mkDataFrame cols dts rws) labels
  = Ok (mkDataFrame cols dts (zip labels (extract_array rws))).
Proof. intros H. unfold set_index. cbn [rows columns dtypes]. by rewrite decide_True. Qed.

(** The inner assembly: the rows of the two tables at the index pairs, side
    by side, labelled from 0. *)
Lemma inner_table NL NR (P : list (Z * Z)) :
  (∀ p, p ∈ P → p.1 ∈ index NL ∧ p.2 ∈ index NR) →
  (df_v ← loc NL P.*1;
   right_v ← loc NR P.*2;
   df_v ← set_index df_v (RangeIndex (np.size P.*1));
   right_v ← set_index right_v (index df_v);
   Ok (Some (pd_join df_v right_v (how_value INNER))))
  = Ok (Some (mkDataFrame (append_columns NL NR) (dtypes NL ++ dtypes NR)
                (zip (RangeIndex (Z.of_nat (length P)))
                   ((λ p, cells_of NL p.1 ++ cells_of NR p.2) <$> P)))).
Proof.
  intros HP.
  rewrite loc_cells by (intros l (p & -> & Hp)%list_elem_of_fmap; by apply HP).
  cbn [mbind res_mbind res_bind].
  rewrite loc_cells by (intros l (p & -> & Hp)%list_elem_of_fmap; by apply HP).
  cbn [mbind res_mbind res_bind].
  unfold np.size. rewrite !length_fmap.
  set (n := Z.of_nat (length P)).
  assert (Hn : length (RangeIndex n) = length P).
  { unfold RangeIndex, n. rewrite zrange_length. lia. }
  rewrite set_index_zip by (by rewrite !length_fmap).
  cbn [mbind res_mbind res_bind].
  set (A := (λ p : Z * Z, cells_of NL p.1) <$> P).
  set (B := (λ p : Z * Z, cells_of NR p.2) <$> P).
  assert (HA : extract_array ((λ l, (l, cells_of NL l)) <$> P.*1) = A).
  { unfold extract_array, A. rewrite <- !list_fmap_compose. done. }
  assert (HB : extract_array ((λ l, (l, cells_of NR l)) <$> P.*2) = B).
  { unfold extract_array, B. rewrite <- !list_fmap_compose. done. }
  rewrite HA.
  assert (Hidx : index (mkDataFrame (columns NL) (dtypes NL) (zip (RangeIndex n) A))
                 = RangeIndex n).
  { unfold index, index_of. cbn [rows]. apply fst_zip. unfold A.
    rewrite length_fmap. lia. }
  rewrite Hidx. rewrite set_index_zip by (by rewrite !length_fmap).
  cbn [mbind res_mbind res_bind]. rewrite HB.
  unfold pd_join.
  change (bool_decide (how_value INNER = how_value LEFT)) with false.
  change (bool_decide (how_value INNER = how_value RIGHT)) with false.
  cbv iota. cbn [rows columns dtypes]. do 2 f_equal.
  unfold append_columns, column_labels. cbn [columns]. f_equal.
  unfold matching. cbn [rows].
  rewrite (join_rows_aligned (zip (RangeIndex n) B) (RangeIndex n) A B).
  - f_equal. unfold A, B. by rewrite zip_with_fmap_same.
  - unfold A. rewrite length_fmap. lia.
  - unfold B. rewrite length_fmap. lia.
  - intros i l b' Hl Hb. apply matching_unique.
    + unfold index_of. rewrite fst_zip; [apply NoDup_zrange |].
      unfold B. rewrite length_fmap. lia.
    + apply list_elem_of_lookup. exists i. apply lookup_zip_with_Some.
      by exists l, b'.
Qed.

Lemma create_frame_inner (σ : store) (df right : ref) L R left_index right_index b :
  σ !! df = Some (PdFrame L) → σ !! right = Some (PdFrame R) → df ≠ right →
  length left_index = length right_index →
  (∀ p, p ∈ zip left_index right_index → p.1 ∈ index L ∧ p.2 ∈ index R) →
  ∃ σ',
    _create_conditional_join_frame df right left_index right_index
      (how_value INNER) b σ
    = (Ok (Some (mkDataFrame
         (append_columns (namespaced "left" L) (namespaced "right" R))
         (dtypes L ++ dtypes R)
         (zip (RangeIndex (Z.of_nat (length left_index)))
            ((λ p, cells_of L p.1 ++ cells_of R p.2)
               <$> ordered (zip left_index right_index) b)))), σ').
Proof.
  intros Hl Hr Hne Hlen Hin. unfold _create_conditional_join_frame.
  rewrite (bind_run _ _ _ _ _ (sort_block σ left_index right_index b Hlen)).
  cbv beta iota.
  namespace_steps σ df right L R Hl Hr Hne.
  set (σ2 := <[right:=_]> _). set (P := ordered (zip left_index right_index) b).
  change (bool_decide (how_value INNER = how_value INNER)) with true. cbv iota.
  pose proof (inner_table (namespaced "left" L) (namespaced "right" R) P) as Ht.
  assert (HlenP : length P = length left_index).
  { unfold P. rewrite length_ordered, length_zip_with. lia. }
  rewrite HlenP in Ht. specialize (Ht (λ p Hp, Hin p (proj1 (elem_of_ordered _ _ _) Hp))).
  destruct (loc (namespaced "left" L) P.*1) as [d1|]; [| done].
  cbn [mbind res_mbind res_bind] in Ht.
  rewrite (bind_run _ _ σ2 d1 σ2 eq_refl).
  destruct (loc (namespaced "right" R) P.*2) as [d2|]; [| done].
  cbn [mbind res_mbind res_bind] in Ht.
  rewrite (bind_run _ _ σ2 d2 σ2 eq_refl).
  destruct (set_index d1 _) as [d3|]; [| done].
  cbn [mbind res_mbind res_bind] in Ht.
  rewrite (bind_run _ _ σ2 d3 σ2 eq_refl).
  destruct (set_index d2 _) as [d4|]; [| done].
  cbn [mbind res_mbind res_bind] in Ht.
  rewrite (bind_run _ _ σ2 d4 σ2 eq_refl).
  exists σ2. unfold mret, State_ret. f_equal. exact Ht.
Qed.

Lemma create_empty_frame (σ : store) (df right : ref) L R h :
  σ !! df = Some (PdFrame L) → σ !! right = Some (PdFrame R) → df ≠ right →
  h ∈ how_value <$> [INNER; LEFT; RIGHT] →
  ∃ σ',
    _create_conditional_join_empty_frame df right h σ
    = (Ok (Some
         (if bool_decide (h = how_value INNER) then
            empty_frame (dict_merge (dtypes_to_dict (namespaced "left" L))
                           (dtypes_to_dict (namespaced "right" R)))
          else if bool_decide (h = how_value LEFT) then
            pd_join (namespaced "left" L)
              (empty_frame (widen (dtypes_to_dict (namespaced "right" R)))) h
          else
            pd_join (empty_frame (widen (dtypes_to_dict (namespaced "left" L))))
              (namespaced "right" R) h)), σ').
Proof.
  intros Hl Hr Hne Hh. unfold _create_conditional_join_empty_frame.
  namespace_steps σ df right L R Hl Hr Hne.
  eexists. cbn in Hh. rewrite !elem_of_cons, elem_of_nil in Hh.
  destruct Hh as [-> | [-> | [-> | []]]]; reflexivity.
Qed.

End frames.

(** ** The inner join *)

Section inner.
Implicit Types (s : store) (df right : ref).

(** The result of an inner join: the rows of the two tables at the index
    pairs of the join, side by side. *)
Lemma inner_run s df right conditions sort_by_appearance df_v o right_v conds :
  s !! df = Some (PdFrame df_v) → s !! right = Some o →
  well_formed df_v = true → well_formed right_v = true →
  frame_of o = Some right_v → mapM condition_of conditions = Some conds →
  valid_call df_v o conditions (PyStr (how_value INNER)) sort_by_appearance = true →
  distinct_eq conds = true →
  let L := reset_index df_v in
  let R := reset_index right_v in
  ∃ table pairs b σ,
    conditional_join df right conditions (PyStr (how_value INNER)) sort_by_appearance s
    = (Ok (Some table), σ)
    ∧ sort_by_appearance = PyBool b
    ∧ rows table
      = zip (RangeIndex (Z.of_nat (length pairs)))
          ((λ p, cells_of L p.1 ++ cells_of R p.2) <$> ordered pairs b)
    ∧ NoDup pairs ∧ sound L R conds pairs ∧ complete L R conds pairs.
Proof.
  intros Hdf Hright Hwl Hwr Hf Hm Hvalid Hdist L R.
  destruct (compute_run s df right conditions _ _ df_v o right_v conds
              Hdf Hright Hwl Hwr Hf Hm Hvalid Hdist)
    as (result & σ & df' & right' & h & b & [= <-] & _ & -> & Hres & Hl & Hr & Hne & Hrun).
  fold L R in Hres, Hl, Hr.
  assert (Hvalid' : valid_arguments df_v o conditions (PyStr (how_value INNER)) (PyBool b)
                    = true).
  { unfold valid_call in Hvalid. by apply andb_prop in Hvalid as [? _]. }
  destruct (valid_arguments_inv _ _ _ _ _ _ _ Hf Hm Hvalid')
    as (Hml & Hmr & _ & _ & Hne' & Hall & _).
  destruct (join_indices_spec L R conds) as (result' & Hres' & Hwp & Hnd & Hsound & Hcomplete);
    [apply NoDup_reset_index | apply NoDup_reset_index | done | | done |].
  { intros c Hc. apply valid_condition_of; [done | done |].
    rewrite forallb_forall in Hall. by apply Hall, list_elem_of_In. }
  assert (result' = result) as -> by congruence.
  rewrite Hrun. destruct result as [[li ri]|]; cbn [well_paired result_pairs] in *.
  - destruct Hwp as [Hlen _].
    destruct (create_frame_inner σ df' right' L R li ri b Hl Hr Hne Hlen) as [σ' Hcf].
    { intros [l r] Hp. destruct (Hsound l r Hp) as (? & ? & _). done. }
    eexists _, (zip li ri), b, σ'. split; [exact Hcf |]. split; [done |].
    cbn [rows]. rewrite length_zip_with, <- Hlen, Nat.min_id. done.
  - destruct (create_empty_frame σ df' right' L R (how_value INNER) Hl Hr Hne)
      as [σ' Hcf].
    { cbn. left. }
    eexists _, [], b, σ'. split; [exact Hcf |]. split; [done |].
    split; [| done]. by destruct b.
Qed.

End inner.

(** ** Calls and their contract *)

Section contract.
Implicit Types (s : store) (df right : ref).

Lemma inputs_inv s df right df_v o :
  inputs s df right = Some (df_v, o) →
  s !! df = Some (PdFrame df_v) ∧ s !! right = Some o
  ∧ well_formed df_v = true ∧ from_option well_formed true (frame_of o) = true.
Proof.
  unfold inputs. destruct (s !! df) as [[d| |]|]; try done.
  destruct (s !! right) as [o'|]; [| done].
  destruct (well_formed d && _) eqn:Hwf; [| done]. intros [= -> ->].
  by apply andb_prop in Hwf as [? ?].
Qed.

Lemma mapM_condition_None conditions condition :
  condition ∈ conditions → condition_of condition = None →
  mapM condition_of conditions = None.
Proof.
  intros Hin Hnone. destruct (mapM condition_of conditions) as [conds|] eqn:Hm; [| done].
  apply mapM_Some_1 in Hm. apply list_elem_of_lookup in Hin as [i Hi].
  destruct (Forall2_lookup_l _ _ _ _ _ Hm Hi) as (c & _ & Hc). congruence.
Qed.

Lemma mapM_condition_elem conditions conds condition c :
  mapM condition_of conditions = Some conds →
  condition ∈ conditions → condition_of condition = Some c → c ∈ conds.
Proof.
  intros Hm%mapM_Some_1 [i Hi]%list_elem_of_lookup Hc.
  destruct (Forall2_lookup_l _ _ _ _ _ Hm Hi) as (c' & Hc' & Heq).
  assert (c' = c) as -> by congruence. by eapply list_elem_of_lookup_2.
Qed.

Lemma forallb_false_elem {A} (f : A → bool) (l : list A) x :
  x ∈ l → f x = false → forallb f l = false.
Proof.
  intros Hin Hf. apply not_true_iff_false. intros Hall.
  rewrite forallb_forall in Hall. rewrite (Hall x) in Hf; [done |].
  by apply list_elem_of_In.
Qed.

(** Each violation makes the call one that does not meet the contract. *)
Lemma violation_invalid df_v o conditions how sort_by_appearance :
  violation df_v o conditions how →
  valid_call df_v o conditions how sort_by_appearance = false.
Proof.
  intros Hv. unfold valid_call, valid_arguments.
  destruct Hv as [He | Hmi | Hf | rv Hf He | rv Hf Hmi | -> | c Hin Hc
                  | rv cd c Hf Hin Hc Hvc | Hhow | rv cd c Hf Hin Hc Hvt].
  - rewrite He. destruct (frame_of o); [destruct (mapM _ _) |]; done.
  - rewrite Hmi. destruct (frame_of o); [destruct (mapM _ _) |];
      by rewrite ?andb_false_r.
  - by rewrite Hf.
  - rewrite Hf, He. destruct (mapM _ _); by rewrite ?andb_false_r.
  - rewrite Hf, Hmi. destruct (mapM _ _); by rewrite ?andb_false_r.
  - destruct (frame_of o); cbn; by rewrite ?andb_false_r.
  - rewrite (mapM_condition_None _ _ Hin Hc). by destruct (frame_of o).
  - rewrite Hf. destruct (mapM condition_of conditions) as [conds|] eqn:Hm; [| done].
    rewrite (forallb_false_elem _ conds c (mapM_condition_elem _ _ _ _ Hm Hin Hc) Hvc).
    by rewrite ?andb_false_r.
  - destruct (frame_of o); [destruct (mapM _ _) |]; try done.
    rewrite <- !andb_assoc.
    rewrite (andb_assoc (is_str how)), Hhow. by rewrite ?andb_false_r.
  - rewrite Hf. destruct (mapM condition_of conditions) as [conds|] eqn:Hm;
      [| by rewrite andb_false_r].
    rewrite (forallb_false_elem _ conds c (mapM_condition_elem _ _ _ _ Hm Hin Hc) Hvt).
    by rewrite andb_false_r.
Qed.


End contract.

(** ** The calls to [_interval_ranges] *)

Section interval_calls.
Implicit Types (left_c right_c : Series) (strict : bool).

(** The arrays a matcher hands to [_interval_ranges] are the bounds it
    returns when more conditions remain: the code up to there is the same. *)
Lemma less_than_call left_c right_c strict li ri si ind :
  _less_than_indices left_c right_c strict 2 = Ok (Some (Bounds li ri si ind)) →
  si ≠ [] ∧ Forall2 (λ i r, 0 ≤ i < r) si ind
  ∧ _less_than_indices left_c right_c strict 1
    = (positions ← _interval_ranges si ind;
       search_indices ← np.sub ind si;
       right_c' ← np.take ri positions;
       left_c' ← np.repeat li search_indices;
       Ok (Some (Pairs left_c' right_c'))).
Proof.
  rewrite !less_than_indices_eq. unfold less_than_result. cbv zeta.
  set (R := search_order right_c). set (a := extract_array R).
  set (rows := lt_rows strict left_c a).
  case_decide as Hrows; [done |].
  change (1 <? 2) with true. change (1 <? 1) with false. cbv iota.
  rewrite replicate_rows. intros [= <- <- <- <-].
  assert (Hb : ∀ p, p ∈ rows →
            0 ≤ lt_point strict a p.2 < Z.of_nat (length a)
            ∧ Z.of_nat (length a) ≤ Z.of_nat (length (index_of R))).
  { intros p [Hp _]%list_elem_of_filter. pose proof (lt_point_range strict a p.2).
    unfold a, extract_array, index_of. rewrite !length_fmap. fold a. split; [| lia].
    unfold a, extract_array in *. rewrite length_fmap in *. lia. }
  split_and!.
  - by destruct rows.
  - apply Forall2_fmap, Forall_Forall2_diag, Forall_forall. intros p Hp.
    by apply Hb in Hp as [? _].
  - destruct (expand_ok rows (index_of R) (lt_point strict a)
                (λ _, Z.of_nat (length a)) Hrows Hb) as (-> & Htake & Hrep).
    cbn [mbind res_mbind res_bind]. unfold np.sub.
    rewrite binop_same_length by (by rewrite !length_fmap).
    cbn [mbind res_mbind res_bind]. rewrite zip_with_fmap_same, Htake.
    cbn [mbind res_mbind res_bind]. change (index_of rows) with (rows.*1).
    by rewrite Hrep.
Qed.

Lemma greater_than_call left_c right_c strict li ri si ind :
  _greater_than_indices left_c right_c strict 2 = Ok (Some (Bounds li ri si ind)) →
  si ≠ [] ∧ Forall2 (λ i r, 0 ≤ i < r) ind si
  ∧ _greater_than_indices left_c right_c strict 1
    = (positions ← _interval_ranges ind si;
       right_c' ← np.take ri positions;
       left_c' ← np.repeat li si;
       Ok (Some (Pairs left_c' right_c'))).
Proof.
  rewrite !greater_than_indices_eq. unfold greater_than_result. cbv zeta.
  set (R := search_order right_c). set (a := extract_array R).
  set (rows := gt_rows strict left_c a).
  case_decide as Hrows; [done |].
  change (1 <? 2) with true. change (1 <? 1) with false. cbv iota.
  rewrite replicate_rows. intros [= <- <- <- <-].
  assert (Hb : ∀ p, p ∈ rows →
            0 ≤ 0 < gt_point strict a p.2
            ∧ gt_point strict a p.2 ≤ Z.of_nat (length (index_of R))).
  { intros p [Hp _]%list_elem_of_filter. pose proof (gt_point_range strict a p.2).
    unfold index_of. rewrite length_fmap.
    unfold a, extract_array in *. rewrite length_fmap in *. lia. }
  split_and!.
  - by destruct rows.
  - apply Forall2_fmap, Forall_Forall2_diag, Forall_forall. intros p Hp.
    by apply Hb in Hp as [? _].
  - destruct (expand_ok rows (index_of R) (λ _, 0) (gt_point strict a) Hrows Hb)
      as (-> & Htake & Hrep).
    cbn [mbind res_mbind res_bind]. rewrite Htake.
    cbn [mbind res_mbind res_bind]. change (index_of rows) with (rows.*1).
    replace ((λ p : Z * Z, gt_point strict a p.2) <$> rows)
      with ((λ p : Z * Z, gt_point strict a p.2 - 0) <$> rows)
      by (apply list_fmap_ext; intros; simpl; lia).
    by rewrite Hrep.
Qed.

Lemma no_call left_c right_c strict :
  (_less_than_indices left_c right_c strict 2 = Ok None →
   _less_than_indices left_c right_c strict 1 = Ok None)
  ∧ (_greater_than_indices left_c right_c strict 2 = Ok None →
     _greater_than_indices left_c right_c strict 1 = Ok None).
Proof.
  rewrite !less_than_indices_eq, !greater_than_indices_eq.
  unfold less_than_result, greater_than_result. cbv zeta.
  split; case_decide; done.
Qed.

End interval_calls.

(** ** Results without a match *)

Section empty_results.
Implicit Types (df right : DataFrame).

Lemma foldl_dict_fresh (d items : list (list string * dtype)) :
  NoDup items.*1 → (∀ k, k ∈ items.*1 → k ∉ d.*1) →
  foldl (λ d kv, if bool_decide (kv.1 ∈ d.*1)
                 then (λ it, if bool_decide (it.1 = kv.1) then kv else it) <$> d
                 else d ++ [kv]) d items
  = d ++ items.
Proof.
  revert d. induction items as [|kv items IH]; intros d Hnd Hfresh.
  - by rewrite app_nil_r.
  - cbn in Hnd. apply NoDup_cons in Hnd as [Hkv Hnd]. cbn [foldl].
    rewrite bool_decide_eq_false_2 by (apply Hfresh; left).
    rewrite IH; [by rewrite <- app_assoc | done |].
    intros k Hk. rewrite fmap_app, elem_of_app. intros [Hin | Hin].
    + apply (Hfresh k); [by right | done].
    + cbn in Hin. apply list_elem_of_singleton in Hin. by subst.
Qed.

Lemma column_labels_namespaced side df :
  column_labels (namespaced side df) = (λ l, side :: l) <$> column_labels df.
Proof. done. Qed.

Lemma well_formed_inv df :
  well_formed df = true →
  length (dtypes df) = length (column_labels df) ∧ NoDup (column_labels df)
  ∧ ∀ row, row ∈ rows df → length row.2 = length (column_labels df).
Proof.
  unfold well_formed. intros H. apply andb_prop in H as [H Hrows].
  apply andb_prop in H as [Hlen%bool_decide_eq_true Hnd%bool_decide_eq_true].
  split_and!; [done | done |]. intros row Hrow. rewrite forallb_forall in Hrows.
  eapply bool_decide_eq_true_1, Hrows. by apply list_elem_of_In.
Qed.

Lemma dtypes_to_dict_namespaced side df :
  well_formed df = true →
  dtypes_to_dict (namespaced side df)
  = zip ((λ l, side :: l) <$> column_labels df) (dtypes df).
Proof.
  intros (Hlen & Hnd & _)%well_formed_inv. unfold dtypes_to_dict.
  rewrite column_labels_namespaced. cbn [dtypes namespaced].
  rewrite foldl_dict_fresh; [done | |].
  - rewrite fst_zip by (rewrite length_fmap; lia).
    apply NoDup_fmap_2; [| done]. by intros ?? [= ->].
  - intros k _ Hin. by apply elem_of_nil in Hin.
Qed.

Lemma dict_merge_sides df right :
  well_formed df = true → well_formed right = true →
  dict_merge (dtypes_to_dict (namespaced "left" df))
    (dtypes_to_dict (namespaced "right" right))
  = zip (((λ l, "left" :: l) <$> column_labels df)
           ++ ((λ l, "right" :: l) <$> column_labels right))
      (dtypes df ++ dtypes right).
Proof.
  intros Hwl Hwr. rewrite !dtypes_to_dict_namespaced by done.
  destruct (well_formed_inv _ Hwl) as (Hlenl & Hndl & _).
  destruct (well_formed_inv _ Hwr) as (Hlenr & Hndr & _).
  unfold dict_merge. rewrite foldl_dict_fresh.
  - symmetry. apply zip_with_app. rewrite length_fmap. lia.
  - rewrite fst_zip by (rewrite length_fmap; lia).
    apply NoDup_fmap_2; [| done]. by intros ?? [= ->].
  - rewrite !fst_zip by (rewrite length_fmap; lia).
    intros k (l & -> & _)%list_elem_of_fmap (l' & [=] & _)%list_elem_of_fmap.
Qed.

(** A left join with a table without rows: every row is completed with
    nulls, and the columns that receive them are promoted. *)
Lemma pd_join_left_empty df other :
  rows other = [] → rows df ≠ [] →
  pd_join df other (how_value LEFT)
  = mkDataFrame (append_columns df other) (dtypes df ++ (promote <$> dtypes other))
      ((λ row, (row.1, row.2 ++ nulls other)) <$> rows df).
Proof.
  intros Hother Hdf. unfold pd_join, matching.
  change (bool_decide (how_value LEFT = how_value LEFT)) with true. cbv iota.
  rewrite Hother. cbn [filter list_filter].
  f_equal. f_equal. by destruct (rows df).
Qed.

Lemma pd_join_right_empty df other :
  rows df = [] → rows other ≠ [] →
  pd_join df other (how_value RIGHT)
  = mkDataFrame (append_columns df other) ((promote <$> dtypes df) ++ dtypes other)
      ((λ row, (row.1, nulls df ++ row.2)) <$> rows other).
Proof.
  intros Hdf Hother. unfold pd_join, matching.
  change (bool_decide (how_value RIGHT = how_value LEFT)) with false.
  change (bool_decide (how_value RIGHT = how_value RIGHT)) with true. cbv iota.
  rewrite Hdf. cbn [filter list_filter].
  f_equal. f_equal. by destruct (rows other).
Qed.

Lemma well_formed_reset_index df : well_formed df = true → well_formed (reset_index df) = true.
Proof.
  intros (Hlen & Hnd & Hrows)%well_formed_inv. unfold well_formed.
  change (column_labels (reset_index df)) with (column_labels df).
  change (dtypes (reset_index df)) with (dtypes df).
  rewrite !bool_decide_eq_true_2 by done. cbn [andb]. apply forallb_forall.
  intros [l cs] Hin%list_elem_of_In. apply bool_decide_eq_true.
  unfold reset_index in Hin. cbn [rows] in Hin.
  apply list_elem_of_lookup in Hin as [i Hi].
  apply lookup_zip_with_Some in Hi as (l' & cs' & [= -> ->] & _ & Hcs).
  unfold extract_array in Hcs. rewrite list_lookup_fmap in Hcs.
  apply fmap_Some in Hcs as (row & Hrow & ->).
  cbn [snd]. apply Hrows. by eapply list_elem_of_lookup_2.
Qed.

Lemma extract_reset_index df : extract_array (rows (reset_index df)) = extract_array (rows df).
Proof.
  unfold reset_index, extract_array. cbn [rows]. apply snd_zip.
  unfold RangeIndex, len. rewrite zrange_length, length_fmap. lia.
Qed.

Lemma reset_index_nonempty df : empty df = false → rows (reset_index df) ≠ [].
Proof.
  unfold empty. intros [Hrows _]%orb_false_elim. apply bool_decide_eq_false in Hrows.
  intros Hnil. apply Hrows. apply (f_equal length) in Hnil.
  unfold reset_index in Hnil. cbn [rows] in Hnil.
  rewrite length_zip_with in Hnil. unfold RangeIndex, len, extract_array in Hnil.
  rewrite zrange_length, length_fmap in Hnil. destruct (rows df); [done | simpl in *; lia].
Qed.

(** The three tables [_create_conditional_join_empty_frame] makes. *)
Lemma empty_table_inner df right :
  well_formed df = true → well_formed right = true →
  empty_frame (dict_merge (dtypes_to_dict (namespaced "left" df))
                 (dtypes_to_dict (namespaced "right" right)))
  = mkDataFrame
      (MultiIndex (((λ l, "left" :: l) <$> column_labels df)
                     ++ ((λ l, "right" :: l) <$> column_labels right)))
      (dtypes df ++ dtypes right) [].
Proof.
  intros Hwl Hwr. rewrite dict_merge_sides by done.
  destruct (well_formed_inv _ Hwl) as (Hlenl & _).
  destruct (well_formed_inv _ Hwr) as (Hlenr & _).
  unfold empty_frame. rewrite fst_zip, snd_zip; [done | |];
    rewrite !length_app, !length_fmap; lia.
Qed.

Lemma empty_table_left df right :
  well_formed df = true → well_formed right = true → rows df ≠ [] →
  pd_join (namespaced "left" df)
    (empty_frame (widen (dtypes_to_dict (namespaced "right" right)))) (how_value LEFT)
  = mkDataFrame
      (MultiIndex (((λ l, "left" :: l) <$> column_labels df)
                     ++ ((λ l, "right" :: l) <$> column_labels right)))
      (dtypes df
         ++ ((λ d, promote (if bool_decide (kind d = "i") then float64 else d))
               <$> dtypes right))
      ((λ row, (row.1, row.2 ++ nulls right)) <$> rows df).
Proof.
  intros Hwl Hwr Hne. rewrite pd_join_left_empty by done.
  rewrite dtypes_to_dict_namespaced by done.
  destruct (well_formed_inv _ Hwr) as (Hlenr & _).
  assert (Hkeys : (widen (zip ((λ l, "right" :: l) <$> column_labels right)
                            (dtypes right))).*1
                  = (λ l, "right" :: l) <$> column_labels right).
  { unfold widen. rewrite <- list_fmap_compose.
    change (fst ∘ _) with (@fst (list string) dtype).
    apply fst_zip. rewrite length_fmap. lia. }
  assert (Hvals : (widen (zip ((λ l, "right" :: l) <$> column_labels right)
                            (dtypes right))).*2
                  = (λ d, if bool_decide (kind d = "i") then float64 else d)
                      <$> dtypes right).
  { unfold widen. rewrite <- list_fmap_compose.
    rewrite <- (snd_zip ((λ l, "right" :: l) <$> column_labels right) (dtypes right))
      at 2 by (rewrite length_fmap; lia).
    by rewrite <- list_fmap_compose. }
  set (d := widen _) in *. unfold append_columns, nulls.
  change (column_labels (empty_frame d)) with (d.*1).
  change (dtypes (empty_frame d)) with (d.*2).
  cbn [columns namespaced from_product dtypes rows empty_frame].
  rewrite Hkeys, Hvals, <- list_fmap_compose, !length_fmap. done.
Qed.

Lemma empty_table_right df right :
  well_formed df = true → well_formed right = true → rows right ≠ [] →
  pd_join (empty_frame (widen (dtypes_to_dict (namespaced "left" df))))
    (namespaced "right" right) (how_value RIGHT)
  = mkDataFrame
      (MultiIndex (((λ l, "left" :: l) <$> column_labels df)
                     ++ ((λ l, "right" :: l) <$> column_labels right)))
      (((λ d, promote (if bool_decide (kind d = "i") then float64 else d))
          <$> dtypes df)
         ++ dtypes right)
      ((λ row, (row.1, nulls df ++ row.2)) <$> rows right).
Proof.
  intros Hwl Hwr Hne. rewrite pd_join_right_empty by done.
  rewrite dtypes_to_dict_namespaced by done.
  destruct (well_formed_inv _ Hwl) as (Hlenl & _).
  assert (Hkeys : (widen (zip ((λ l, "left" :: l) <$> column_labels df) (dtypes df))).*1
                  = (λ l, "left" :: l) <$> column_labels df).
  { unfold widen. rewrite <- list_fmap_compose.
    change (fst ∘ _) with (@fst (list string) dtype).
    apply fst_zip. rewrite length_fmap. lia. }
  assert (Hvals : (widen (zip ((λ l, "left" :: l) <$> column_labels df) (dtypes df))).*2
                  = (λ d, if bool_decide (kind d = "i") then float64 else d)
                      <$> dtypes df).
  { unfold widen. rewrite <- list_fmap_compose.
    rewrite <- (snd_zip ((λ l, "left" :: l) <$> column_labels df) (dtypes df))
      at 2 by (rewrite length_fmap; lia).
    by rewrite <- list_fmap_compose. }
  set (d := widen _) in *. unfold append_columns, nulls.
  change (column_labels (empty_frame d)) with (d.*1).
  change (dtypes (empty_frame d)) with (d.*2).
  cbn [columns namespaced from_product dtypes rows empty_frame].
  rewrite Hkeys, Hvals, <- list_fmap_compose, !length_fmap. done.
Qed.


End empty_results.

(** ** The left and the right join *)

Section outer.
Implicit Types (df right : DataFrame) (pairs P : list (Z * Z)).

Lemma fmap_bind {A B C} (g : B → C) (f : A → list B) (l : list A) :
  g <$> (l ≫= f) = l ≫= (λ x, g <$> f x).
Proof. induction l as [|x l IH]; [done |]. by rewrite !bind_cons, fmap_app, IH. Qed.

Lemma bind_fmap {A B C} (g : A → B) (f : B → list C) (l : list A) :
  (g <$> l) ≫= f = l ≫= (λ x, f (g x)).
Proof. induction l as [|x l IH]; [done |]. cbn [fmap list_fmap]. by rewrite !bind_cons, IH. Qed.

Lemma bind_ext_in {A B} (f g : A → list B) (l : list A) :
  (∀ x, x ∈ l → f x = g x) → l ≫= f = l ≫= g.
Proof. intros H. apply Forall_bind_ext, Forall_forall. done. Qed.

Lemma cells_of_row df row : NoDup (index df) → row ∈ rows df → cells_of df row.1 = row.2.
Proof.
  intros Hnd Hrow. unfold cells_of.
  by destruct (list_find_NoDup df row Hnd Hrow) as [i ->].
Qed.

(** The rows of a left join with the right rows relabelled by their left
    partners. *)
Lemma pd_join_left_rows NL NR (R' : DataFrame) P :
  NoDup (index NL) →
  rows R' = (λ p, (p.1, cells_of NR p.2)) <$> P →
  column_labels R' = column_labels NR →
  extract_array (rows (pd_join NL R' (how_value LEFT)))
  = row_cells NL NR <$> left_provenance NL P.
Proof.
  intros Hnd Hrows Hcols. unfold pd_join, left_provenance.
  rewrite (bool_decide_eq_true_2 (how_value LEFT = how_value LEFT)) by done.
  cbn [rows]. unfold extract_array, index, index_of.
  rewrite bind_fmap, !fmap_bind. apply bind_ext_in. intros row Hrow.
  unfold matching. rewrite Hrows.
  rewrite (filter_fmap (λ p : Z * Z, (p.1, cells_of NR p.2))
             (λ o : Z * list value, o.1 = row.1) P).
  cbn [fst]. destruct (filter (λ p : Z * Z, p.1 = row.1) P) as [|p ps].
  - cbn. unfold row_cells, nulls. cbn. rewrite Hcols.
    by rewrite (cells_of_row NL row Hnd Hrow).
  - cbn [fmap list_fmap]. rewrite <- !list_fmap_compose. cbn.
    rewrite (cells_of_row NL row Hnd Hrow). f_equal.
    apply list_fmap_ext. intros i q _. unfold row_cells. cbn.
    by rewrite (cells_of_row NL row Hnd Hrow).
Qed.

Lemma pd_join_right_rows NL NR (L' : DataFrame) P :
  NoDup (index NR) →
  rows L' = (λ p, (p.2, cells_of NL p.1)) <$> P →
  column_labels L' = column_labels NL →
  extract_array (rows (pd_join L' NR (how_value RIGHT)))
  = row_cells NL NR <$> right_provenance NR P.
Proof.
  intros Hnd Hrows Hcols. unfold pd_join, right_provenance.
  rewrite (bool_decide_eq_false_2 (how_value RIGHT = how_value LEFT)) by done.
  rewrite (bool_decide_eq_true_2 (how_value RIGHT = how_value RIGHT)) by done.
  cbn [rows]. unfold extract_array, index, index_of.
  rewrite bind_fmap, !fmap_bind. apply bind_ext_in. intros row Hrow.
  unfold matching. rewrite Hrows.
  rewrite (filter_fmap (λ p : Z * Z, (p.2, cells_of NL p.1))
             (λ o : Z * list value, o.1 = row.1) P).
  cbn [fst]. destruct (filter (λ p : Z * Z, p.2 = row.1) P) as [|p ps].
  - cbn. unfold row_cells, nulls. cbn. rewrite Hcols.
    by rewrite (cells_of_row NR row Hnd Hrow).
  - cbn [fmap list_fmap]. rewrite <- !list_fmap_compose. cbn.
    rewrite (cells_of_row NR row Hnd Hrow). f_equal.
    apply list_fmap_ext. intros i q _. unfold row_cells. cbn.
    by rewrite (cells_of_row NR row Hnd Hrow).
Qed.

Lemma nulls_namespaced side df : nulls (namespaced side df) = nulls df.
Proof. unfold nulls. by rewrite column_labels_namespaced, length_fmap. Qed.

Lemma row_cells_namespaced df right q :
  row_cells (namespaced "left" df) (namespaced "right" right) q = row_cells df right q.
Proof.
  unfold row_cells. destruct q as [[l|] [r|]]; cbn [from_option fst snd];
    by rewrite ?nulls_namespaced.
Qed.

Lemma extract_array_reset_rows (T : DataFrame) :
  extract_array (rows (reset_index T)) = extract_array (rows T).
Proof. apply extract_reset_index. Qed.

(** The left assembly: every left row with its partners, or with nulls. *)
Lemma left_table NL NR P :
  NoDup (index NL) → (∀ p, p ∈ P → p.2 ∈ index NR) →
  ∃ T,
    (right_v ← loc NR P.*2;
     right_v ← set_index right_v P.*1;
     Ok (Some (reset_index (pd_join NL right_v (how_value LEFT)))))
    = Ok (Some T)
    ∧ extract_array (rows T) = row_cells NL NR <$> left_provenance NL P.
Proof.
  intros Hnd HP.
  rewrite loc_cells by (intros l (p & -> & Hp)%list_elem_of_fmap; by apply HP).
  cbn [mbind res_mbind res_bind].
  rewrite set_index_zip by (by rewrite !length_fmap).
  cbn [mbind res_mbind res_bind]. eexists. split; [done |].
  rewrite extract_array_reset_rows. apply pd_join_left_rows; [done | | done].
  cbn [rows]. unfold extract_array. rewrite <- !list_fmap_compose.
  by rewrite zip_with_fmap_same.
Qed.

Lemma right_table NL NR P :
  NoDup (index NR) → (∀ p, p ∈ P → p.1 ∈ index NL) →
  ∃ T,
    (df_v ← loc NL P.*1;
     df_v ← set_index df_v P.*2;
     Ok (Some (reset_index (pd_join df_v NR (how_value RIGHT)))))
    = Ok (Some T)
    ∧ extract_array (rows T) = row_cells NL NR <$> right_provenance NR P.
Proof.
  intros Hnd HP.
  rewrite loc_cells by (intros l (p & -> & Hp)%list_elem_of_fmap; by apply HP).
  cbn [mbind res_mbind res_bind].
  rewrite set_index_zip by (by rewrite !length_fmap).
  cbn [mbind res_mbind res_bind]. eexists. split; [done |].
  rewrite extract_array_reset_rows. apply pd_join_right_rows; [done | | done].
  cbn [rows]. unfold extract_array. rewrite <- !list_fmap_compose.
  by rewrite zip_with_fmap_same.
Qed.

Lemma create_frame_left (σ : store) (df right : ref) L R left_index right_index b :
  σ !! df = Some (PdFrame L) → σ !! right = Some (PdFrame R) → df ≠ right →
  NoDup (index L) → length left_index = length right_index →
  (∀ p, p ∈ zip left_index right_index → p.1 ∈ index L ∧ p.2 ∈ index R) →
  ∃ T σ',
    _create_conditional_join_frame df right left_index right_index (how_value LEFT) b σ
    = (Ok (Some T), σ')
    ∧ extract_array (rows T)
      = row_cells L R <$> left_provenance L (ordered (zip left_index right_index) b).
Proof.
  intros Hl Hr Hne Hnd Hlen Hin. unfold _create_conditional_join_frame.
  rewrite (bind_run _ _ _ _ _ (sort_block σ left_index right_index b Hlen)).
  cbv beta iota.
  namespace_steps σ df right L R Hl Hr Hne.
  set (σ2 := <[right:=_]> _). set (P := ordered (zip left_index right_index) b).
  rewrite (bool_decide_eq_false_2 (how_value LEFT = how_value INNER)) by done.
  rewrite (bool_decide_eq_true_2 (how_value LEFT = how_value LEFT)) by done.
  destruct (left_table (namespaced "left" L) (namespaced "right" R) P Hnd)
    as (T & Ht & Hrows).
  { intros p Hp%elem_of_ordered. by apply Hin. }
  destruct (loc (namespaced "right" R) P.*2) as [d1|]; [| done].
  cbn [mbind res_mbind res_bind] in Ht.
  rewrite (bind_run _ _ σ2 d1 σ2 eq_refl).
  destruct (set_index d1 _) as [d2|]; [| done].
  cbn [mbind res_mbind res_bind] in Ht.
  rewrite (bind_run _ _ σ2 d2 σ2 eq_refl).
  exists T, σ2. split.
  - unfold mret, State_ret. f_equal. exact Ht.
  - rewrite Hrows. apply list_fmap_ext. intros i q _. apply row_cells_namespaced.
Qed.

Lemma create_frame_right (σ : store) (df right : ref) L R left_index right_index b :
  σ !! df = Some (PdFrame L) → σ !! right = Some (PdFrame R) → df ≠ right →
  NoDup (index R) → length left_index = length right_index →
  (∀ p, p ∈ zip left_index right_index → p.1 ∈ index L ∧ p.2 ∈ index R) →
  ∃ T σ',
    _create_conditional_join_frame df right left_index right_index (how_value RIGHT) b σ
    = (Ok (Some T), σ')
    ∧ extract_array (rows T)
      = row_cells L R <$> right_provenance R (ordered (zip left_index right_index) b).
Proof.
  intros Hl Hr Hne Hnd Hlen Hin. unfold _create_conditional_join_frame.
  rewrite (bind_run _ _ _ _ _ (sort_block σ left_index right_index b Hlen)).
  cbv beta iota.
  namespace_steps σ df right L R Hl Hr Hne.
  set (σ2 := <[right:=_]> _). set (P := ordered (zip left_index right_index) b).
  rewrite (bool_decide_eq_false_2 (how_value RIGHT = how_value INNER)) by done.
  rewrite (bool_decide_eq_false_2 (how_value RIGHT = how_value LEFT)) by done.
  rewrite (bool_decide_eq_true_2 (how_value RIGHT = how_value RIGHT)) by done.
  destruct (right_table (namespaced "left" L) (namespaced "right" R) P Hnd)
    as (T & Ht & Hrows).
  { intros p Hp%elem_of_ordered. by apply Hin. }
  destruct (loc (namespaced "left" L) P.*1) as [d1|]; [| done].
  cbn [mbind res_mbind res_bind] in Ht.
  rewrite (bind_run _ _ σ2 d1 σ2 eq_refl).
  destruct (set_index d1 _) as [d2|]; [| done].
  cbn [mbind res_mbind res_bind] in Ht.
  rewrite (bind_run _ _ σ2 d2 σ2 eq_refl).
  exists T, σ2. split.
  - unfold mret, State_ret. f_equal. exact Ht.
  - rewrite Hrows. apply list_fmap_ext. intros i q _. apply row_cells_namespaced.
Qed.

End outer.

(** ** The result of a call *)

Section results.
Implicit Types (s : store) (df right : ref).

Lemma empty_frame_labels side (df_v : DataFrame) :
  well_formed df_v = true →
  column_labels (empty_frame (widen (dtypes_to_dict (namespaced side df_v))))
  = column_labels (namespaced side df_v).
Proof.
  intros Hwf. rewrite dtypes_to_dict_namespaced by done.
  destruct (well_formed_inv _ Hwf) as (Hlen & _).
  change (column_labels (empty_frame ?d)) with (d.*1).
  unfold widen. rewrite <- list_fmap_compose.
  change (fst ∘ _) with (@fst (list string) dtype).
  rewrite column_labels_namespaced. apply fst_zip. rewrite length_fmap. lia.
Qed.

Lemma ordered_nil b : ordered [] b = [].
Proof. apply Permutation_nil_r. by rewrite ordered_Permutation. Qed.

(** The rows of the table a call returns, for the three kinds of join, from
    the index pairs of the join. *)
Lemma join_run s df right conditions how sort_by_appearance df_v o right_v conds :
  s !! df = Some (PdFrame df_v) → s !! right = Some o →
  well_formed df_v = true → well_formed right_v = true →
  frame_of o = Some right_v → mapM condition_of conditions = Some conds →
  valid_call df_v o conditions how sort_by_appearance = true →
  distinct_eq conds = true →
  let L := reset_index df_v in
  let R := reset_index right_v in
  ∃ table pairs h b σ,
    conditional_join df right conditions how sort_by_appearance s = (Ok (Some table), σ)
    ∧ how = PyStr h ∧ h ∈ how_value <$> [INNER; LEFT; RIGHT]
    ∧ sort_by_appearance = PyBool b
    ∧ extract_array (rows table) = row_cells L R <$> provenance L R (ordered pairs b) h
    ∧ NoDup pairs ∧ sound L R conds pairs ∧ complete L R conds pairs.
Proof.
  intros Hdf Hright Hwl Hwr Hf Hm Hvalid Hdist L R.
  destruct (compute_run s df right conditions _ _ df_v o right_v conds
              Hdf Hright Hwl Hwr Hf Hm Hvalid Hdist)
    as (result & σ & df' & right' & h & b & -> & Hh & -> & Hres & Hl & Hr & Hne & Hrun).
  fold L R in Hres, Hl, Hr.
  assert (Hvalid' : valid_arguments df_v o conditions (PyStr h) (PyBool b) = true).
  { unfold valid_call in Hvalid. by apply andb_prop in Hvalid as [? _]. }
  destruct (valid_arguments_inv _ _ _ _ _ _ _ Hf Hm Hvalid')
    as (Hml & Hmr & _ & _ & Hne' & Hall & _).
  pose proof (NoDup_reset_index df_v) as HndL. pose proof (NoDup_reset_index right_v) as HndR.
  fold L in HndL. fold R in HndR.
  destruct (join_indices_spec L R conds)
    as (result' & Hres' & Hwp & Hnd & Hsound & Hcomplete); [done | done | done | | done |].
  { intros c Hc. apply valid_condition_of; [done | done |].
    rewrite forallb_forall in Hall. by apply Hall, list_elem_of_In. }
  assert (result' = result) as -> by congruence.
  rewrite Hrun. pose proof Hh as Hh'. cbn in Hh'.
  rewrite !elem_of_cons, elem_of_nil in Hh'.
  destruct result as [[li ri]|]; cbn [well_paired result_pairs] in *.
  - destruct Hwp as [Hlen _].
    assert (Hin : ∀ p, p ∈ zip li ri → p.1 ∈ index L ∧ p.2 ∈ index R).
    { intros [l r] Hp. destruct (Hsound l r Hp) as (? & ? & _). done. }
    destruct Hh' as [-> | [-> | [-> | []]]].
    + destruct (create_frame_inner σ df' right' L R li ri b Hl Hr Hne Hlen Hin)
        as [σ' Hcf].
      eexists _, (zip li ri), _, b, σ'. split; [exact Hcf |].
      split_and!; [done | done | done | | done | done | done].
      cbn [rows]. unfold extract_array. rewrite snd_zip.
      * unfold provenance, inner_provenance.
        rewrite (bool_decide_eq_true_2 ("inner" = how_value INNER)) by done.
        by rewrite <- list_fmap_compose.
      * unfold RangeIndex.
        rewrite zrange_length, length_fmap, length_ordered, length_zip_with. lia.
    + destruct (create_frame_left σ df' right' L R li ri b Hl Hr Hne HndL Hlen Hin)
        as (T & σ' & Hcf & Hrows).
      exists T, (zip li ri), "left", b, σ'. split; [exact Hcf |].
      split_and!; [done | done | done | | done | done | done].
      rewrite Hrows. unfold provenance.
      rewrite (bool_decide_eq_false_2 ("left" = how_value INNER)) by done.
      by rewrite (bool_decide_eq_true_2 ("left" = how_value LEFT)) by done.
    + destruct (create_frame_right σ df' right' L R li ri b Hl Hr Hne HndR Hlen Hin)
        as (T & σ' & Hcf & Hrows).
      exists T, (zip li ri), "right", b, σ'. split; [exact Hcf |].
      split_and!; [done | done | done | | done | done | done].
      rewrite Hrows. unfold provenance.
      rewrite (bool_decide_eq_false_2 ("right" = how_value INNER)) by done.
      by rewrite (bool_decide_eq_false_2 ("right" = how_value LEFT)) by done.
  - destruct (create_empty_frame σ df' right' L R h Hl Hr Hne Hh) as [σ' Hcf].
    pose proof (well_formed_reset_index _ Hwl) as HwL.
    pose proof (well_formed_reset_index _ Hwr) as HwR. fold L in HwL. fold R in HwR.
    eexists _, [], h, b, σ'. split; [exact Hcf |].
    split_and!; [done | done | done | | done | done | done].
    rewrite ordered_nil. unfold provenance.
    destruct Hh' as [-> | [-> | [-> | []]]].
    + by rewrite (bool_decide_eq_true_2 ("inner" = how_value INNER)) by done.
    + rewrite (bool_decide_eq_false_2 ("left" = how_value INNER)) by done.
      rewrite (bool_decide_eq_true_2 ("left" = how_value LEFT)) by done.
      rewrite (pd_join_left_rows (namespaced "left" L) (namespaced "right" R) _ []);
        [| done | done | by apply empty_frame_labels].
      apply list_fmap_ext. intros i q _. apply row_cells_namespaced.
    + rewrite (bool_decide_eq_false_2 ("right" = how_value INNER)) by done.
      rewrite (bool_decide_eq_false_2 ("right" = how_value LEFT)) by done.
      rewrite (pd_join_right_rows (namespaced "left" L) (namespaced "right" R) _ []);
        [| done | done | by apply empty_frame_labels].
      apply list_fmap_ext. intros i q _. apply row_cells_namespaced.
Qed.

End results.

(** ** Matchers that return no pair *)

Lemma paired_pairs_nil m : paired m → m = None ↔ pairs_of m = [].
Proof.
  destruct m as [[l r|]|]; cbn; [| done | done].
  intros [Hlen Hne]. split; [done |]. by destruct l, r.
Qed.

Lemma outcome_decide (P : Prop) `{!Decision P} (b : bool) :
  bool_decide P = b → (if b then Ok () else Raise ValueError) = Ok () ↔ P.
Proof. intros <-. case_bool_decide; naive_solver. Qed.

(** ** Where the rows of a left and of a right join come from *)

Section provenance_rows.
Implicit Types (df right : DataFrame) (P : list (Z * Z)).







Lemma index_reset_index df : index (reset_index df) = RangeIndex (len df).
Proof.
  unfold index, index_of, reset_index. cbn [rows]. apply fst_zip.
  unfold RangeIndex, len, extract_array. rewrite zrange_length, length_fmap. lia.
Qed.




Lemma valid_call_inv df_v o conditions how sort_by_appearance :
  valid_call df_v o conditions how sort_by_appearance = true →
  ∃ right_v conds, frame_of o = Some right_v ∧ mapM condition_of conditions = Some conds.
Proof.
  unfold valid_call, valid_arguments.
  destruct (frame_of o) as [right_v|]; [| done].
  destruct (mapM condition_of conditions) as [conds|]; [| done]. by exists right_v, conds.
Qed.

End provenance_rows.

(** ** The table of a result *)

Section joined_tables.
Implicit Types (df right NL NR : DataFrame) (P pairs : list (Z * Z)).

Lemma reset_index_rows (T : DataFrame) :
  reset_index T
  = mkDataFrame (columns T) (dtypes T)
      (zip (RangeIndex (Z.of_nat (length (extract_array (rows T)))))
         (extract_array (rows T))).
Proof. unfold reset_index, len, extract_array. by rewrite length_fmap. Qed.

Lemma existsb_fmap {A B} (f : B → bool) (g : A → B) (l : list A) :
  existsb f (g <$> l) = existsb (λ x, f (g x)) l.
Proof. induction l as [|x l IH]; [done |]. cbn. by rewrite IH. Qed.

Lemma existsb_ext_in {A} (f g : A → bool) (l : list A) :
  (∀ x, x ∈ l → f x = g x) → existsb f l = existsb g l.
Proof.
  induction l as [|x l IH]; intros H; [done |]. cbn.
  rewrite (H x) by left. rewrite IH; [done |]. intros y Hy. apply H. by right.
Qed.

Lemma fmap_nil_decide {A B} `{!EqDecision A, !EqDecision B} (f : A → B) (l : list A) :
  bool_decide (f <$> l = []) = bool_decide (l = []).
Proof. apply bool_decide_ext. by destruct l. Qed.

Lemma left_frame NL NR P :
  NoDup (index NL) → (∀ p, p ∈ P → p.2 ∈ index NR) →
  (right_v ← loc NR P.*2;
   right_v ← set_index right_v P.*1;
   Ok (Some (reset_index (pd_join NL right_v (how_value LEFT)))))
  = Ok (Some (mkDataFrame (append_columns NL NR)
                (joined_dtypes NL NR P (how_value LEFT))
                (zip (RangeIndex (Z.of_nat (length (row_cells NL NR <$> left_provenance NL P))))
                   (row_cells NL NR <$> left_provenance NL P)))).
Proof.
  intros Hnd HP.
  rewrite loc_cells by (intros l (p & -> & Hp)%list_elem_of_fmap; by apply HP).
  cbn [mbind res_mbind res_bind].
  rewrite set_index_zip by (by rewrite !length_fmap).
  cbn [mbind res_mbind res_bind].
  set (R' := mkDataFrame _ _ _).
  assert (Hrows : rows R' = (λ p, (p.1, cells_of NR p.2)) <$> P).
  { unfold R'. cbn [rows]. unfold extract_array. rewrite <- !list_fmap_compose.
    by rewrite zip_with_fmap_same. }
  rewrite reset_index_rows.
  rewrite (pd_join_left_rows NL NR R' P Hnd Hrows eq_refl).
  do 3 f_equal.
  unfold pd_join, joined_dtypes.
  rewrite (bool_decide_eq_true_2 (how_value LEFT = how_value LEFT)) by done.
  rewrite (bool_decide_eq_false_2 (how_value LEFT = how_value INNER)) by done.
  cbn [dtypes]. f_equal. unfold index, index_of. rewrite existsb_fmap.
  erewrite existsb_ext_in; [reflexivity |]. intros row _. cbn beta.
  unfold matching. rewrite Hrows.
  rewrite (filter_fmap (λ p : Z * Z, (p.1, cells_of NR p.2))
             (λ o : Z * list value, o.1 = row.1) P).
  apply fmap_nil_decide.
Qed.

Lemma right_frame NL NR P :
  NoDup (index NR) → (∀ p, p ∈ P → p.1 ∈ index NL) →
  (df_v ← loc NL P.*1;
   df_v ← set_index df_v P.*2;
   Ok (Some (reset_index (pd_join df_v NR (how_value RIGHT)))))
  = Ok (Some (mkDataFrame (append_columns NL NR)
                (joined_dtypes NL NR P (how_value RIGHT))
                (zip (RangeIndex (Z.of_nat (length (row_cells NL NR <$> right_provenance NR P))))
                   (row_cells NL NR <$> right_provenance NR P)))).
Proof.
  intros Hnd HP.
  rewrite loc_cells by (intros l (p & -> & Hp)%list_elem_of_fmap; by apply HP).
  cbn [mbind res_mbind res_bind].
  rewrite set_index_zip by (by rewrite !length_fmap).
  cbn [mbind res_mbind res_bind].
  set (L' := mkDataFrame _ _ _).
  assert (Hrows : rows L' = (λ p, (p.2, cells_of NL p.1)) <$> P).
  { unfold L'. cbn [rows]. unfold extract_array. rewrite <- !list_fmap_compose.
    by rewrite zip_with_fmap_same. }
  rewrite reset_index_rows.
  rewrite (pd_join_right_rows NL NR L' P Hnd Hrows eq_refl).
  do 3 f_equal.
  unfold pd_join, joined_dtypes.
  rewrite (bool_decide_eq_false_2 (how_value RIGHT = how_value LEFT)) by done.
  rewrite (bool_decide_eq_true_2 (how_value RIGHT = how_value RIGHT)) by done.
  rewrite (bool_decide_eq_false_2 (how_value RIGHT = how_value INNER)) by done.
  cbn [dtypes]. f_equal. unfold index, index_of. rewrite existsb_fmap.
  erewrite existsb_ext_in; [reflexivity |]. intros row _. cbn beta.
  unfold matching. rewrite Hrows.
  rewrite (filter_fmap (λ p : Z * Z, (p.2, cells_of NL p.1))
             (λ o : Z * list value, o.1 = row.1) P).
  apply fmap_nil_decide.
Qed.

End joined_tables.

Section joined_runs.
Implicit Types (s σ : store) (df right : ref) (L R : DataFrame).

Lemma joined_inner L R P :
  mkDataFrame (append_columns (namespaced "left" L) (namespaced "right" R))
    (dtypes L ++ dtypes R)
    (zip (RangeIndex (Z.of_nat (length P))) ((λ p, cells_of L p.1 ++ cells_of R p.2) <$> P))
  = joined L R P (how_value INNER).
Proof.
  unfold joined, joined_dtypes, provenance, inner_provenance.
  rewrite (bool_decide_eq_true_2 (how_value INNER = how_value INNER)) by done.
  rewrite <- list_fmap_compose, length_fmap. done.
Qed.

Lemma frame_inner_run σ df right L R left_index right_index b :
  σ !! df = Some (PdFrame L) → σ !! right = Some (PdFrame R) → df ≠ right →
  length left_index = length right_index →
  (∀ p, p ∈ zip left_index right_index → p.1 ∈ index L ∧ p.2 ∈ index R) →
  ∃ σ',
    _create_conditional_join_frame df right left_index right_index (how_value INNER) b σ
    = (Ok (Some (joined L R (ordered (zip left_index right_index) b) (how_value INNER))), σ').
Proof.
  intros Hl Hr Hne Hlen Hin.
  destruct (create_frame_inner σ df right L R left_index right_index b Hl Hr Hne Hlen Hin)
    as [σ' Hcf].
  exists σ'. rewrite Hcf. do 3 f_equal. rewrite <- joined_inner. do 3 f_equal.
  rewrite length_ordered, length_zip_with. lia.
Qed.

Lemma frame_left_run σ df right L R left_index right_index b :
  σ !! df = Some (PdFrame L) → σ !! right = Some (PdFrame R) → df ≠ right →
  NoDup (index L) → length left_index = length right_index →
  (∀ p, p ∈ zip left_index right_index → p.1 ∈ index L ∧ p.2 ∈ index R) →
  ∃ σ',
    _create_conditional_join_frame df right left_index right_index (how_value LEFT) b σ
    = (Ok (Some (joined L R (ordered (zip left_index right_index) b) (how_value LEFT))), σ').
Proof.
  intros Hl Hr Hne Hnd Hlen Hin. unfold _create_conditional_join_frame.
  rewrite (bind_run _ _ _ _ _ (sort_block σ left_index right_index b Hlen)).
  cbv beta iota.
  namespace_steps σ df right L R Hl Hr Hne.
  set (σ2 := <[right:=_]> _). set (P := ordered (zip left_index right_index) b).
  rewrite (bool_decide_eq_false_2 (how_value LEFT = how_value INNER)) by done.
  rewrite (bool_decide_eq_true_2 (how_value LEFT = how_value LEFT)) by done.
  pose proof (left_frame (namespaced "left" L) (namespaced "right" R) P Hnd) as Ht.
  specialize (Ht (λ p Hp, proj2 (Hin p (proj1 (elem_of_ordered _ _ _) Hp)))).
  destruct (loc (namespaced "right" R) P.*2) as [d1|]; [| done].
  cbn [mbind res_mbind res_bind] in Ht.
  rewrite (bind_run _ _ σ2 d1 σ2 eq_refl).
  destruct (set_index d1 _) as [d2|]; [| done].
  cbn [mbind res_mbind res_bind] in Ht.
  rewrite (bind_run _ _ σ2 d2 σ2 eq_refl).
  exists σ2. unfold mret, State_ret. f_equal. rewrite Ht. do 2 f_equal.
  unfold joined, provenance.
  rewrite (bool_decide_eq_false_2 (how_value LEFT = how_value INNER)) by done.
  rewrite (bool_decide_eq_true_2 (how_value LEFT = how_value LEFT)) by done.
  cbv zeta.
  replace (row_cells (namespaced "left" L) (namespaced "right" R)
             <$> left_provenance (namespaced "left" L) P)
    with (row_cells L R <$> left_provenance L P); [done |].
  apply list_fmap_ext. intros i q _. symmetry. apply row_cells_namespaced.
Qed.

Lemma frame_right_run σ df right L R left_index right_index b :
  σ !! df = Some (PdFrame L) → σ !! right = Some (PdFrame R) → df ≠ right →
  NoDup (index R) → length left_index = length right_index →
  (∀ p, p ∈ zip left_index right_index → p.1 ∈ index L ∧ p.2 ∈ index R) →
  ∃ σ',
    _create_conditional_join_frame df right left_index right_index (how_value RIGHT) b σ
    = (Ok (Some (joined L R (ordered (zip left_index right_index) b) (how_value RIGHT))), σ').
Proof.
  intros Hl Hr Hne Hnd Hlen Hin. unfold _create_conditional_join_frame.
  rewrite (bind_run _ _ _ _ _ (sort_block σ left_index right_index b Hlen)).
  cbv beta iota.
  namespace_steps σ df right L R Hl Hr Hne.
  set (σ2 := <[right:=_]> _). set (P := ordered (zip left_index right_index) b).
  rewrite (bool_decide_eq_false_2 (how_value RIGHT = how_value INNER)) by done.
  rewrite (bool_decide_eq_false_2 (how_value RIGHT = how_value LEFT)) by done.
  rewrite (bool_decide_eq_true_2 (how_value RIGHT = how_value RIGHT)) by done.
  pose proof (right_frame (namespaced "left" L) (namespaced "right" R) P Hnd) as Ht.
  specialize (Ht (λ p Hp, proj1 (Hin p (proj1 (elem_of_ordered _ _ _) Hp)))).
  destruct (loc (namespaced "left" L) P.*1) as [d1|]; [| done].
  cbn [mbind res_mbind res_bind] in Ht.
  rewrite (bind_run _ _ σ2 d1 σ2 eq_refl).
  destruct (set_index d1 _) as [d2|]; [| done].
  cbn [mbind res_mbind res_bind] in Ht.
  rewrite (bind_run _ _ σ2 d2 σ2 eq_refl).
  exists σ2. unfold mret, State_ret. f_equal. rewrite Ht. do 2 f_equal.
  unfold joined, provenance.
  rewrite (bool_decide_eq_false_2 (how_value RIGHT = how_value INNER)) by done.
  rewrite (bool_decide_eq_false_2 (how_value RIGHT = how_value LEFT)) by done.
  cbv zeta.
  replace (row_cells (namespaced "left" L) (namespaced "right" R)
             <$> right_provenance (namespaced "right" R) P)
    with (row_cells L R <$> right_provenance R P); [done |].
  apply list_fmap_ext. intros i q _. symmetry. apply row_cells_namespaced.
Qed.

Lemma promote_widen (dts : list dtype) :
  (λ d, promote (if bool_decide (kind d = "i") then float64 else d)) <$> dts
  = promote <$> dts.
Proof. apply list_fmap_ext. intros i d _. by destruct d. Qed.

Lemma rows_by_label L (g : Z → list value) (tail : list value) :
  NoDup (index L) →
  (λ row, (row.1, row.2 ++ tail)) <$> rows L
  = zip (index L) ((λ l, cells_of L l ++ tail) <$> index L).
Proof.
  intros Hnd. unfold index, index_of. rewrite <- list_fmap_compose.
  rewrite zip_with_fmap_same. apply list_fmap_ext. intros i row Hi.
  cbn. by rewrite (cells_of_row L row Hnd (list_elem_of_lookup_2 _ _ _ Hi)).
Qed.

Lemma rows_by_label_r R (lead : list value) :
  NoDup (index R) →
  (λ row, (row.1, lead ++ row.2)) <$> rows R
  = zip (index R) ((λ r, lead ++ cells_of R r) <$> index R).
Proof.
  intros Hnd. unfold index, index_of. rewrite <- list_fmap_compose.
  rewrite zip_with_fmap_same. apply list_fmap_ext. intros i row Hi.
  cbn. by rewrite (cells_of_row R row Hnd (list_elem_of_lookup_2 _ _ _ Hi)).
Qed.

Lemma bind_singleton {A B} (f : A → B) (l : list A) : l ≫= (λ x, [f x]) = f <$> l.
Proof. induction l as [|x l IH]; [done |]. rewrite bind_cons, IH. done. Qed.

Lemma existsb_nonempty {A} (l : list A) : l ≠ [] → existsb (λ _, true) l = true.
Proof. by destruct l. Qed.

(** The tables of a result without a match. *)
Lemma joined_empty df_v right_v h :
  well_formed df_v = true → well_formed right_v = true →
  empty df_v = false → empty right_v = false →
  h ∈ how_value <$> [INNER; LEFT; RIGHT] →
  let L := reset_index df_v in
  let R := reset_index right_v in
  (if bool_decide (h = how_value INNER) then
     empty_frame (dict_merge (dtypes_to_dict (namespaced "left" L))
                    (dtypes_to_dict (namespaced "right" R)))
   else if bool_decide (h = how_value LEFT) then
     pd_join (namespaced "left" L)
       (empty_frame (widen (dtypes_to_dict (namespaced "right" R)))) h
   else
     pd_join (empty_frame (widen (dtypes_to_dict (namespaced "left" L))))
       (namespaced "right" R) h)
  = joined L R [] h.
Proof.
  intros Hwl Hwr Hel Her Hh L R.
  pose proof (well_formed_reset_index _ Hwl) as HwL.
  pose proof (well_formed_reset_index _ Hwr) as HwR.
  pose proof (reset_index_nonempty _ Hel) as HneL.
  pose proof (reset_index_nonempty _ Her) as HneR.
  pose proof (NoDup_reset_index df_v) as HndL.
  pose proof (NoDup_reset_index right_v) as HndR.
  fold L in HwL, HneL, HndL. fold R in HwR, HneR, HndR.
  cbn in Hh. rewrite !elem_of_cons, elem_of_nil in Hh.
  unfold joined, joined_dtypes, provenance.
  destruct Hh as [-> | [-> | [-> | []]]].
  - rewrite !(bool_decide_eq_true_2 ("inner" = how_value INNER)) by done.
    by rewrite (empty_table_inner _ _ HwL HwR).
  - rewrite !(bool_decide_eq_false_2 ("left" = how_value INNER)) by done.
    rewrite !(bool_decide_eq_true_2 ("left" = how_value LEFT)) by done.
    pose proof (empty_table_left _ _ HwL HwR HneL) as Ht.
    change (how_value LEFT) with "left" in Ht. rewrite Ht. clear Ht.
    cbv zeta. f_equal.
    + f_equal. rewrite promote_widen.
      rewrite (existsb_ext_in _ (λ _, true)) by done.
      rewrite existsb_nonempty; [done |].
      unfold index, index_of. by destruct (rows L).
    + unfold left_provenance. cbn [filter list_filter].
      rewrite (bind_singleton (λ l, (Some l, None))).
      rewrite <- list_fmap_compose. rewrite (rows_by_label L (cells_of L)) by done.
      f_equal. rewrite length_fmap. unfold L at 1. rewrite index_reset_index.
      unfold L, index, index_of, reset_index, len. cbn [rows].
      rewrite length_fmap, length_zip_with. unfold RangeIndex, extract_array.
      rewrite zrange_length, length_fmap. f_equal. lia.
  - rewrite !(bool_decide_eq_false_2 ("right" = how_value INNER)) by done.
    rewrite !(bool_decide_eq_false_2 ("right" = how_value LEFT)) by done.
    pose proof (empty_table_right _ _ HwL HwR HneR) as Ht.
    change (how_value RIGHT) with "right" in Ht. rewrite Ht. clear Ht.
    cbv zeta. f_equal.
    + f_equal. rewrite promote_widen.
      rewrite (existsb_ext_in _ (λ _, true)) by done.
      rewrite existsb_nonempty; [done |].
      unfold index, index_of. by destruct (rows R).
    + unfold right_provenance. cbn [filter list_filter].
      rewrite (bind_singleton (λ r, (None, Some r))).
      rewrite <- list_fmap_compose. rewrite (rows_by_label_r R) by done.
      f_equal. rewrite length_fmap. unfold R at 1. rewrite index_reset_index.
      unfold R, index, index_of, reset_index, len. cbn [rows].
      rewrite length_fmap, length_zip_with. unfold RangeIndex, extract_array.
      rewrite zrange_length, length_fmap. f_equal. lia.
Qed.

(** The table a call returns, for the three kinds of join, from the index
    pairs of the join. *)
Lemma join_table s df right conditions how sort_by_appearance df_v o right_v conds :
  s !! df = Some (PdFrame df_v) → s !! right = Some o →
  well_formed df_v = true → well_formed right_v = true →
  frame_of o = Some right_v → mapM condition_of conditions = Some conds →
  valid_call df_v o conditions how sort_by_appearance = true →
  distinct_eq conds = true →
  let L := reset_index df_v in
  let R := reset_index right_v in
  ∃ result h b σ,
    join_indices L R conds (has_eq conds) (has_ordering conds) = Ok result
    ∧ how = PyStr h ∧ h ∈ how_value <$> [INNER; LEFT; RIGHT]
    ∧ sort_by_appearance = PyBool b
    ∧ conditional_join df right conditions how sort_by_appearance s
      = (Ok (Some (joined L R (ordered (result_pairs result) b) h)), σ)
    ∧ NoDup (result_pairs result) ∧ sound L R conds (result_pairs result)
    ∧ complete L R conds (result_pairs result).
Proof.
  intros Hdf Hright Hwl Hwr Hf Hm Hvalid Hdist L R.
  destruct (compute_run s df right conditions _ _ df_v o right_v conds
              Hdf Hright Hwl Hwr Hf Hm Hvalid Hdist)
    as (result & σ & df' & right' & h & b & -> & Hh & -> & Hres & Hl & Hr & Hne & Hrun).
  fold L R in Hres, Hl, Hr.
  assert (Hvalid' : valid_arguments df_v o conditions (PyStr h) (PyBool b) = true).
  { unfold valid_call in Hvalid. by apply andb_prop in Hvalid as [? _]. }
  destruct (valid_arguments_inv _ _ _ _ _ _ _ Hf Hm Hvalid')
    as (Hml & Hmr & Hel & Her & Hne' & Hall & _).
  pose proof (NoDup_reset_index df_v) as HndL. pose proof (NoDup_reset_index right_v) as HndR.
  fold L in HndL. fold R in HndR.
  destruct (join_indices_spec L R conds)
    as (result' & Hres' & Hwp & Hnd & Hsound & Hcomplete); [done | done | done | | done |].
  { intros c Hc. apply valid_condition_of; [done | done |].
    rewrite forallb_forall in Hall. by apply Hall, list_elem_of_In. }
  assert (result' = result) as -> by congruence.
  exists result, h, b. rewrite Hrun. pose proof Hh as Hh'. cbn in Hh'.
  rewrite !elem_of_cons, elem_of_nil in Hh'.
  destruct result as [[li ri]|]; cbn [well_paired result_pairs] in *.
  - destruct Hwp as [Hlen _].
    assert (Hin : ∀ p, p ∈ zip li ri → p.1 ∈ index L ∧ p.2 ∈ index R).
    { intros [l r] Hp. destruct (Hsound l r Hp) as (? & ? & _). done. }
    destruct Hh' as [-> | [-> | [-> | []]]].
    + destruct (frame_inner_run σ df' right' L R li ri b Hl Hr Hne Hlen Hin) as [σ' Hcf].
      exists σ'. split_and!; [done | done | done | done | exact Hcf | done | done | done].
    + destruct (frame_left_run σ df' right' L R li ri b Hl Hr Hne HndL Hlen Hin) as [σ' Hcf].
      exists σ'. split_and!; [done | done | done | done | exact Hcf | done | done | done].
    + destruct (frame_right_run σ df' right' L R li ri b Hl Hr Hne HndR Hlen Hin) as [σ' Hcf].
      exists σ'. split_and!; [done | done | done | done | exact Hcf | done | done | done].
  - destruct (create_empty_frame σ df' right' L R h Hl Hr Hne Hh) as [σ' Hcf].
    exists σ'. split_and!; [done | done | done | done | | done | done | done].
    rewrite Hcf, ordered_nil. do 3 f_equal. by apply joined_empty.
Qed.

End joined_runs.

(** ** The order of the rows *)

Section appearance.
Implicit Types (df right : DataFrame) (P pairs : list (Z * Z)).

#[local] Instance lex_le_trans : Transitive lex_le.
Proof. intros [[a b] i] [[c d] j] [[e f] k]. unfold lex_le. simpl. lia. Qed.

#[local] Instance lex_le_total : Total lex_le.
Proof. intros [[a b] i] [[c d] j]. unfold lex_le. simpl. lia. Qed.








Lemma bind_Permutation_pointwise {A B} (f g : A → list B) (l : list A) :
  (∀ x, f x ≡ₚ g x) → l ≫= f ≡ₚ l ≫= g.
Proof.
  intros H. induction l as [|x l IH]; [done |]. by rewrite !bind_cons, (H x), IH.
Qed.

Lemma filter_nil_Permutation {A} (Q : A → Prop) `{!∀ x, Decision (Q x)} (l l' : list A) :
  l ≡ₚ l' → filter Q l = [] ↔ filter Q l' = [].
Proof.
  intros Hp. split; intros Hnil; apply Permutation_nil_r.
  - by rewrite <- Hp, Hnil.
  - by rewrite Hp, Hnil.
Qed.

(** The rows of a result do not depend on the order of the index pairs, up
    to their own order, and its dtypes do not depend on it. *)
Lemma provenance_Permutation df right P P' h :
  P ≡ₚ P' → provenance df right P h ≡ₚ provenance df right P' h.
Proof.
  intros Hp. unfold provenance. repeat case_bool_decide.
  - unfold inner_provenance. by rewrite Hp.
  - unfold left_provenance. apply bind_Permutation_pointwise. intros l.
    pose proof (filter_Permutation (λ p : Z * Z, p.1 = l) P P' Hp) as Hf.
    destruct (filter (λ p : Z * Z, p.1 = l) P) as [|p0 rest] eqn:H1;
      destruct (filter (λ p : Z * Z, p.1 = l) P') as [|p0' rest'] eqn:H2.
    + done.
    + by apply Permutation_nil_cons in Hf.
    + symmetry in Hf. by apply Permutation_nil_cons in Hf.
    + by rewrite Hf.
  - unfold right_provenance. apply bind_Permutation_pointwise. intros r.
    pose proof (filter_Permutation (λ p : Z * Z, p.2 = r) P P' Hp) as Hf.
    destruct (filter (λ p : Z * Z, p.2 = r) P) as [|p0 rest] eqn:H1;
      destruct (filter (λ p : Z * Z, p.2 = r) P') as [|p0' rest'] eqn:H2.
    + done.
    + by apply Permutation_nil_cons in Hf.
    + symmetry in Hf. by apply Permutation_nil_cons in Hf.
    + by rewrite Hf.
Qed.

Lemma joined_dtypes_Permutation df right P P' h :
  P ≡ₚ P' → joined_dtypes df right P h = joined_dtypes df right P' h.
Proof.
  intros Hp. unfold joined_dtypes. repeat case_bool_decide; [done | |].
  - f_equal. erewrite existsb_ext_in; [reflexivity |]. intros l _. cbn beta.
    apply bool_decide_ext. by apply filter_nil_Permutation.
  - f_equal. erewrite existsb_ext_in; [reflexivity |]. intros r _. cbn beta.
    apply bool_decide_ext. by apply filter_nil_Permutation.
Qed.

Lemma joined_rows df right P h :
  extract_array (rows (joined df right P h)) = row_cells df right <$> provenance df right P h.
Proof. unfold joined, extract_array. cbn [rows]. apply snd_zip. unfold RangeIndex. rewrite zrange_length. lia. Qed.

Lemma joined_index df right P h :
  index (joined df right P h) = RangeIndex (len (joined df right P h)).
Proof.
  unfold joined, index, index_of, len. cbn [rows].
  rewrite length_zip_with, fst_zip; unfold RangeIndex; rewrite zrange_length; [| lia].
  f_equal. lia.
Qed.

Lemma len_joined df right P h :
  len (joined df right P h) = Z.of_nat (length (provenance df right P h)).
Proof.
  unfold joined, len. cbn [rows]. rewrite length_zip_with, length_fmap.
  unfold RangeIndex. rewrite zrange_length. lia.
Qed.

End appearance.

(** ** The shape of a result *)

Section shape.
Implicit Types (df right L R : DataFrame) (P pairs : list (Z * Z)).







Lemma joined_dtypes_inner df right P :
  joined_dtypes df right P (how_value INNER) = dtypes df ++ dtypes right.
Proof. done. Qed.


End shape.

(** ** The rows a left and a right join keep *)

Section kept_rows.
Implicit Types (df right L R : DataFrame) (P pairs : list (Z * Z)).











End kept_rows.

(** ** Concatenating columns *)

Section concatenate_strings.
Import concatenate.

Lemma append_cons x (a b : string) : String x a +:+ b = String x (a +:+ b).
Proof. done. Qed.

Lemma append_nil (b : string) : "" +:+ b = b.
Proof. done. Qed.

Lemma app_cons_assoc (a : string) c (p : string) :
  (a +:+ String c "") +:+ p = a +:+ String c p.
Proof. induction a as [|x a IH]; [done |]. by rewrite !append_cons, IH. Qed.

Lemma app_empty_r (a : string) : a +:+ "" = a.
Proof. induction a as [|x a IH]; [done |]. by rewrite append_cons, IH. Qed.

Lemma prefix_char c a s : String.prefix (String c "") (String a s) = bool_decide (c = a).
Proof.
  cbn. destruct (Ascii.ascii_dec c a) as [-> | Hne].
  - rewrite bool_decide_eq_true_2 by done. by destruct s.
  - by rewrite bool_decide_eq_false_2.
Qed.

(** Splitting at a character: a piece without the character runs up to the
    next occurrence, or to the end. *)
Lemma split_from_last c acc p :
  occurs c p = false → split_from (String c "") 0 acc p = [acc +:+ p].
Proof.
  revert acc. induction p as [|a p IH]; intros acc Hp.
  - by rewrite app_empty_r.
  - cbn [occurs] in Hp. apply orb_false_elim in Hp as [Ha Hp].
    apply bool_decide_eq_false_1 in Ha.
    cbn [split_from]. rewrite prefix_char, bool_decide_eq_false_2 by done.
    by rewrite IH, app_cons_assoc.
Qed.

Lemma split_from_piece c acc p rest :
  occurs c p = false →
  split_from (String c "") 0 acc (p +:+ String c rest)
  = (acc +:+ p) :: split_from (String c "") 0 "" rest.
Proof.
  revert acc. induction p as [|a p IH]; intros acc Hp.
  - rewrite append_nil. cbn [split_from].
    rewrite prefix_char, bool_decide_eq_true_2 by done. by rewrite app_empty_r.
  - cbn [occurs] in Hp. apply orb_false_elim in Hp as [Ha Hp].
    apply bool_decide_eq_false_1 in Ha.
    rewrite append_cons. cbn [split_from].
    rewrite prefix_char, bool_decide_eq_false_2 by done.
    by rewrite IH, app_cons_assoc.
Qed.

Lemma split_from_join c (pieces : list string) :
  pieces ≠ [] → Forall (λ p, occurs c p = false) pieces →
  split_from (String c "") 0 "" (join (String c "") pieces) = pieces.
Proof.
  induction pieces as [|p pieces IH]; intros Hne Hall; [done |].
  apply Forall_cons in Hall as [Hp Hall].
  destruct pieces as [|q pieces].
  - cbn. by rewrite split_from_last.
  - change (join (String c "") (p :: q :: pieces))
      with (p +:+ String c (join (String c "") (q :: pieces))).
    rewrite split_from_piece by done. rewrite append_nil. by rewrite IH.
Qed.

(** With a separator of one character that occurs in no piece,
    [remove_empty_string] drops the empty pieces of a joined string. *)
Lemma remove_empty_join c (pieces : list string) :
  Forall (λ p, occurs c p = false) pieces →
  remove_empty_string (String c "") (join (String c "") pieces)
  = Return (join (String c "") (filter (λ x, x ≠ "") pieces)).
Proof.
  intros Hall. unfold remove_empty_string, split.
  rewrite bool_decide_eq_false_2 by done.
  destruct pieces as [|p pieces]; [done |]. by rewrite split_from_join.
Qed.

Lemma transform_return {A B} (func : A → outcome B) (g : A → B) (column : list A) :
  (∀ x, x ∈ column → func x = Return (g x)) →
  transform func column = Return (g <$> column).
Proof.
  induction column as [|x column IH]; intros H; [done |]. cbn [transform].
  rewrite (H x) by left. rewrite IH; [done |]. intros y Hy. apply H. by right.
Qed.

Lemma transform_fail {A B} (func : A → outcome B) e (column : list A) :
  column ≠ [] → (∀ x, x ∈ column → func x = Fail e) → transform func column = Fail e.
Proof. intros Hne H. destruct column as [|x column]; [done |]. cbn. by rewrite (H x) by left. Qed.

End concatenate_strings.

Section concatenate_frames.
Import concatenate.
Context {V : Type} (str : V → string).
Implicit Types (df : Frame V) (row : list (scalar V)) (values : list (scalar V)).

Lemma position_Some df name k :
  position df name = Some k → labels df !! k = Some name.
Proof.
  unfold position. destruct (list_find _ _) as [[i l]|] eqn:Hfind; [| done].
  intros [= <-]. by apply list_find_Some in Hfind as (Hi & -> & _).
Qed.

Lemma position_first df name k j :
  position df name = Some k → labels df !! j = Some name → (k ≤ j)%nat.
Proof.
  unfold position. destruct (list_find _ _) as [[i l]|] eqn:Hfind; [| done].
  intros [= <-] Hj. apply list_find_Some in Hfind as (Hi & -> & Hfirst).
  destruct (decide (i ≤ j)%nat); [done |]. exfalso. apply (Hfirst j name Hj); [lia | done].
Qed.

Lemma position_None df name : position df name = None ↔ name ∉ labels df.
Proof.
  unfold position. split.
  - destruct (list_find _ _) as [[i l]|] eqn:Hfind; [done |]. intros _ Hin.
    apply list_find_None in Hfind. rewrite Forall_forall in Hfind. by apply (Hfind name).
  - intros Hno. destruct (list_find _ _) as [[i l]|] eqn:Hfind; [| done].
    apply list_find_Some in Hfind as (Hi & -> & _). destruct Hno.
    by eapply list_elem_of_lookup_2.
Qed.

Lemma position_is_Some df name : name ∈ labels df → is_Some (position df name).
Proof.
  intros Hin. destruct (position df name) eqn:Hp; [done |].
  by apply position_None in Hp.
Qed.

Lemma position_app df name (extra : list string) (lns : list (list (scalar V))) :
  name ∈ labels df →
  position (mkFrame (labels df ++ extra) lns) name = position df name.
Proof.
  intros [k Hk]%position_is_Some. rewrite Hk. unfold position in *. cbn [labels].
  destruct (list_find (λ l, l = name) (labels df)) as [[i l]|] eqn:Hfind; [| done].
  injection Hk as ->. apply list_find_Some in Hfind as (Hi & -> & Hfirst).
  erewrite (proj2 (list_find_Some _ (labels df ++ extra) k name)); [done |].
  split_and!; [by apply lookup_app_l_Some | done |].
  intros j y Hj Hlt. apply (Hfirst j y); [| done].
  rewrite lookup_app_l in Hj; [done |]. apply lookup_lt_Some in Hi. lia.
Qed.

Lemma position_new df name (lns : list (list (scalar V))) :
  name ∉ labels df →
  position (mkFrame (labels df ++ [name]) lns) name = Some (length (labels df)).
Proof.
  intros Hno. unfold position. cbn [labels].
  erewrite (proj2 (list_find_Some _ (labels df ++ [name]) (length (labels df)) name)); [done |].
  split_and!; [by rewrite list_lookup_middle | done |].
  intros j y Hj Hlt ->. rewrite lookup_app_l in Hj by done.
  apply Hno. by eapply list_elem_of_lookup_2.
Qed.

Lemma frame_well_formed_inv df :
  well_formed df = true →
  NoDup (labels df) ∧ ∀ row, row ∈ lines df → length row = length (labels df).
Proof.
  unfold well_formed. intros [Hnd Hrows]%andb_true_iff.
  split; [by apply bool_decide_eq_true in Hnd |].
  intros row Hrow%list_elem_of_In. rewrite forallb_forall in Hrows.
  specialize (Hrows row Hrow). by apply bool_decide_eq_true in Hrows.
Qed.

Lemma frame_well_formed_intro df :
  NoDup (labels df) → (∀ row, row ∈ lines df → length row = length (labels df)) →
  well_formed df = true.
Proof.
  intros Hnd Hrows. unfold well_formed. apply andb_true_intro. split.
  - by apply bool_decide_eq_true_2.
  - apply forallb_forall. intros row Hrow%list_elem_of_In.
    by apply bool_decide_eq_true_2, Hrows.
Qed.

(** The rows of [df[column_names]]. *)
Lemma getitem_columns_rows df column_names :
  (∀ name, name ∈ column_names → name ∈ labels df) →
  getitem_columns df column_names
  = Return ((λ row, (λ name, at_column df name row) <$> column_names) <$> lines df).
Proof.
  intros Hall. unfold getitem_columns.
  assert (Hks : ∃ ks, mapM (M := option) (position df) column_names = Some ks
                      ∧ ∀ row, (λ k, default NA (row !! k)) <$> ks
                               = (λ name, at_column df name row) <$> column_names).
  { induction column_names as [|name names IH].
    - by exists [].
    - destruct IH as (ks & Hks & Hrows); [intros n Hn; apply Hall; by right |].
      destruct (position_is_Some df name) as [k Hk]; [apply Hall; left |].
      exists (k :: ks). split.
      + cbn. rewrite Hk. cbn. by rewrite Hks.
      + intros row. cbn. rewrite Hrows. f_equal. unfold at_column. by rewrite Hk. }
  destruct Hks as (ks & -> & Hrows). f_equal. apply list_fmap_ext. intros i row _.
  apply Hrows.
Qed.

Lemma getitem_columns_missing df column_names name :
  name ∈ column_names → name ∉ labels df →
  getitem_columns df column_names = Fail KeyError.
Proof.
  intros Hin Hno. unfold getitem_columns.
  assert (Hnone : mapM (M := option) (position df) column_names = None).
  { induction column_names as [|n names IH]; [by apply elem_of_nil in Hin |].
    apply elem_of_cons in Hin as [<- | Hin].
    - cbn. by rewrite (proj2 (position_None df name) Hno).
    - cbn. destruct (position df n); [| done]. cbn. by rewrite IH. }
  by rewrite Hnone.
Qed.

Lemma texts row :
  to_str str <$> (astype_str str <$> (fillna "" <$> row)) = text str <$> row.
Proof. rewrite <- !list_fmap_compose. by apply list_fmap_ext. Qed.

Lemma labels_setitem df name values :
  labels (setitem df name values)
  = if bool_decide (name ∈ labels df) then labels df else labels df ++ [name].
Proof.
  unfold setitem. destruct (position df name) as [k|] eqn:Hk.
  - rewrite bool_decide_eq_true_2; [done |].
    apply position_Some in Hk. by eapply list_elem_of_lookup_2.
  - by rewrite bool_decide_eq_false_2 by by apply position_None.
Qed.

Lemma length_lines_setitem df name values :
  length values = length (lines df) →
  length (lines (setitem df name values)) = length (lines df).
Proof.
  intros Hlen. unfold setitem. destruct (position df name); cbn [lines];
    rewrite length_zip_with; lia.
Qed.

Lemma read_zip_with (f : list (scalar V) → scalar V → list (scalar V)) (k : nat)
    (lns : list (list (scalar V))) values (g : list (scalar V) → scalar V → scalar V) :
  length values = length lns →
  (∀ row v, row ∈ lns → default NA (f row v !! k) = g row v) →
  (λ row, default NA (row !! k)) <$> zip_with f lns values = zip_with g lns values.
Proof.
  revert values. induction lns as [|row lns IH]; intros [|v values] Hlen Hf; try done.
  cbn. rewrite Hf by left. f_equal. apply IH; [by injection Hlen |].
  intros r w Hr. apply Hf. by right.
Qed.

Lemma zip_with_snd_same {A B} (l : list A) (k : list B) :
  length k = length l → zip_with (λ _ v, v) l k = k.
Proof.
  revert k. induction l as [|x l IH]; intros [|y k] Hlen; try done.
  cbn. f_equal. apply IH. by injection Hlen.
Qed.

Lemma zip_with_fst_fmap {A B C} (g : A → C) (l : list A) (k : list B) :
  length k = length l → zip_with (λ x _, g x) l k = g <$> l.
Proof.
  revert k. induction l as [|x l IH]; intros [|y k] Hlen; try done.
  cbn. f_equal. apply IH. by injection Hlen.
Qed.

(** Reading the column that was written, and another one. *)
Lemma getitem_setitem df name values :
  well_formed df = true → length values = length (lines df) →
  getitem (setitem df name values) name = Return values.
Proof.
  intros [Hnd Hrows]%frame_well_formed_inv Hlen. unfold setitem, getitem.
  destruct (position df name) as [k|] eqn:Hk.
  - change (position (mkFrame (labels df) ?l) name) with (position df name).
    rewrite Hk. cbn [lines]. f_equal.
    rewrite (read_zip_with _ k _ _ (λ _ v, v) Hlen); [by apply zip_with_snd_same |].
    intros row v Hrow. rewrite list_lookup_insert_eq; [done |].
    rewrite (Hrows row Hrow). apply position_Some in Hk. by eapply lookup_lt_Some.
  - apply position_None in Hk. rewrite position_new by done. cbn [lines]. f_equal.
    rewrite (read_zip_with _ _ _ _ (λ _ v, v) Hlen); [by apply zip_with_snd_same |].
    intros row v Hrow. rewrite <- (Hrows row Hrow). by rewrite list_lookup_middle.
Qed.

Lemma getitem_setitem_ne df name name' values :
  well_formed df = true → length values = length (lines df) → name' ≠ name →
  getitem (setitem df name values) name' = getitem df name'.
Proof.
  intros [Hnd Hrows]%frame_well_formed_inv Hlen Hne. unfold setitem, getitem.
  destruct (position df name) as [k|] eqn:Hk.
  - change (position (mkFrame (labels df) ?l) name') with (position df name').
    destruct (position df name') as [k'|] eqn:Hk'; [| done]. cbn [lines]. f_equal.
    rewrite (read_zip_with _ k' _ _ (λ row _, default NA (row !! k')) Hlen);
      [by apply zip_with_fst_fmap |].
    intros row v Hrow. rewrite list_lookup_insert_ne; [done |].
    intros ->. apply position_Some in Hk, Hk'. congruence.
  - destruct (decide (name' ∈ labels df)) as [Hin | Hno].
    + rewrite position_app by done.
      destruct (position df name') as [k'|] eqn:Hk'; [| done]. cbn [lines]. f_equal.
      rewrite (read_zip_with _ k' _ _ (λ row _, default NA (row !! k')) Hlen);
        [by apply zip_with_fst_fmap |].
      intros row v Hrow. rewrite lookup_app_l; [done |].
      rewrite (Hrows row Hrow). apply position_Some in Hk'. by eapply lookup_lt_Some.
    + rewrite (proj2 (position_None df name') Hno).
      rewrite (proj2 (position_None (mkFrame (labels df ++ [name]) _) name')); [done |].
      cbn [labels]. rewrite elem_of_app, list_elem_of_singleton. tauto.
Qed.

Lemma well_formed_setitem df name values :
  well_formed df = true → length values = length (lines df) →
  well_formed (setitem df name values) = true.
Proof.
  intros Hwf Hlen. pose proof Hwf as [Hnd Hrows]%frame_well_formed_inv.
  unfold setitem. destruct (position df name) as [k|] eqn:Hk; apply frame_well_formed_intro;
    cbn [labels lines].
  - done.
  - intros row (r & v & -> & Hr & _)%elem_of_zip_with.
    rewrite length_insert. by apply Hrows.
  - apply position_None in Hk. apply NoDup_app. split_and!; [done | | apply NoDup_singleton].
    intros x Hx ->%list_elem_of_singleton. done.
  - intros row (r & v & -> & Hr & _)%elem_of_zip_with.
    rewrite !length_app. cbn. by rewrite (Hrows r Hr).
Qed.

Lemma name_in_setitem df name values : name ∈ labels (setitem df name values).
Proof.
  rewrite labels_setitem. case_bool_decide; [done |].
  rewrite elem_of_app, list_elem_of_singleton. by right.
Qed.

(** A call without [ignore_empty], and the first half of a call with it. *)
Lemma concatenate_join column_names new_column_name sep ignore_empty df :
  (2 ≤ length column_names)%nat → (∀ name, name ∈ column_names → name ∈ labels df) →
  lines df ≠ [] →
  concatenate_columns str column_names new_column_name sep ignore_empty df
  = let df1 := setitem df new_column_name (joined_column str column_names sep df) in
    if ignore_empty then
      match getitem df1 new_column_name with
      | Fail e => (Fail e, df1)
      | Return column =>
          match transform (λ x, remove_empty_string sep (to_str str x)) column with
          | Return cleaned => (Return (), setitem df1 new_column_name (Text <$> cleaned))
          | Fail e => (Fail e, df1)
          end
      end
    else (Return (), df1).
Proof.
  intros Hlen Hall Hrows. unfold concatenate_columns.
  rewrite (proj2 (Nat.ltb_ge _ _) Hlen). rewrite getitem_columns_rows by done.
  rewrite length_fmap. destruct (lines df) as [|row0 lns] eqn:Hlines; [done |].
  cbn [length Nat.eqb]. rewrite <- Hlines. clear Hlines Hrows row0 lns. cbv zeta.
  assert (Hj : (λ row, Text (join sep (to_str str <$> (astype_str str <$> (fillna "" <$> row)))))
                 <$> ((λ row, (λ name, at_column df name row) <$> column_names) <$> lines df)
               = joined_column str column_names sep df).
  { unfold joined_column. rewrite <- list_fmap_compose. apply list_fmap_ext.
    intros i row _. cbn. by rewrite texts, <- list_fmap_compose. }
  by rewrite Hj.
Qed.

Lemma length_joined_column column_names sep df :
  length (joined_column str column_names sep df) = length (lines df).
Proof. unfold joined_column. by rewrite length_fmap. Qed.

Lemma transform_fmap_return {A B C} (func : B → outcome C) (h : A → B) (g : A → C)
    (l : list A) :
  (∀ x, x ∈ l → func (h x) = Return (g x)) →
  transform func (h <$> l) = Return (g <$> l).
Proof.
  induction l as [|x l IH]; intros H; [done |]. cbn [fmap list_fmap transform].
  rewrite (H x) by left. rewrite IH; [done |]. intros y Hy. apply H. by right.
Qed.


End concatenate_frames.

(** ** The operands of a matcher *)

(** The operands of a matcher are rows of a column of a table: the column,
    or what is left of it once rows were dropped. *)
Lemma operand_NoDup (df : DataFrame) name (col s : Series) :
  getitem_col df name = Ok col → NoDup (index df) → s `sublist_of` col →
  NoDup (index_of s).
Proof.
  unfold getitem_col. destruct (column_pos df name) as [k|]; [| done].
  intros [= <-] Hnd Hsub. eapply sublist_NoDup; [exact Hnd |].
  unfold index, index_of. apply (fmap_sublist fst) in Hsub.
  by rewrite <- list_fmap_compose in Hsub.
Qed.

Lemma key_operand_NoDup (df : DataFrame) names (keys s : KeyRows) :
  loc_cols df names = Ok keys → NoDup (index df) → s `sublist_of` keys →
  NoDup (index_of s).
Proof.
  unfold loc_cols. destruct (positions_of df names) as [ks|]; [| done].
  cbn [mbind res_mbind res_bind]. intros [= <-] Hnd Hsub.
  eapply sublist_NoDup; [exact Hnd |].
  unfold index, index_of. apply (fmap_sublist fst) in Hsub.
  by rewrite <- list_fmap_compose in Hsub.
Qed.

(** * The claims *)

(** C2 — completeness, evaluated where it fails. The two conditions
    (a, x, ==) and (a, y, ==) name the left column a twice. The call meets
    the contract, and the one pair of rows of the two tables meets both
    conditions on cells that are not null; the call raises a ValueError and
    returns no table. *)
Theorem repeated_equality_raises :
  valid_call repeated_left (PdFrame repeated_right) repeated_conditions (PyStr "inner")
    (PyBool false) = true
  ∧ Forall (λ c, eval_strict (reset_index repeated_left) (reset_index repeated_right) c 0 0
                 = true)
      [("a", "x", "=="); ("a", "y", "==")]
  ∧ (conditional_join 0%nat 1%nat repeated_conditions (PyStr "inner") (PyBool false)
       repeated_store).1
    = Raise ValueError.
Proof. split_and!; [reflexivity | by repeat constructor | vm_compute; reflexivity]. Qed.

(** C9 — no caller-visible mutation. Whatever the arguments, and whether the
    call returns or raises, the heap it leaves holds every object the caller
    had, unchanged, at its place; the call only adds objects (its copies) and
    writes to these. *)
Theorem conditional_join_preserves_inputs s df right conditions how sort_by_appearance :
  let σ := (conditional_join df right conditions how sort_by_appearance s).2 in
  take (length s) σ = s ∧ ∀ r o, s !! r = Some o → σ !! r = Some o.
Proof.
  cbv zeta. unfold conditional_join.
  destruct (preserves_compute (length s) df right conditions how sort_by_appearance s)
    as (Htake & Hlen & _); [done |].
  rewrite firstn_all in Htake. split; [done |].
  intros r o Hr. rewrite <- Htake in Hr. by apply lookup_take_Some in Hr as [? _].
Qed.

(** C6 — fail-fast validation. A call with an empty or MultiIndex-column
    table on either side, a right object that is no table (an unnamed Series
    among them), no condition, a condition that is not a tuple of three
    strings, a column that does not exist, an unknown operator, an unknown
    [how], columns of two families or outside the five families, or a string
    or categorical column under an operator other than [==], raises a
    ValueError; the error comes from the preliminary checks or from the type
    check of a condition, so before any match is computed. *)
Theorem validation_fails_fast s df right conditions how sort_by_appearance df_v o :
  inputs s df right = Some (df_v, o) →
  violation df_v o conditions how →
  (∃ σ, conditional_join df right conditions how sort_by_appearance s
        = (Raise ValueError, σ))
  ∧ ((∃ σ, _conditional_join_preliminary_checks df right conditions how
             sort_by_appearance s = (Raise ValueError, σ))
     ∨ (∃ out σ right_v,
          _conditional_join_preliminary_checks df right conditions how
            sort_by_appearance s = (Ok out, σ)
          ∧ frame_of o = Some right_v
          ∧ check_types df_v right_v out.1.1.2 false false = Raise ValueError)).
Proof.
  intros (Hdf & Hright & Hwl & Hwr)%inputs_inv Hv.
  apply compute_invalid; [done.. |]. by apply violation_invalid.
Qed.

Lemma validation_fails_fast_witness :
  (∃ σ, conditional_join 0%nat 1%nat [PyTuple [PyStr "a"; PyStr "x"; PyStr "=>"]]
          (PyStr "inner") (PyBool false) example_store
        = (Raise ValueError, σ))
  ∧ ((∃ σ, _conditional_join_preliminary_checks 0%nat 1%nat
             [PyTuple [PyStr "a"; PyStr "x"; PyStr "=>"]] (PyStr "inner") (PyBool false)
             example_store = (Raise ValueError, σ))
     ∨ (∃ out σ right_v,
          _conditional_join_preliminary_checks 0%nat 1%nat
            [PyTuple [PyStr "a"; PyStr "x"; PyStr "=>"]] (PyStr "inner") (PyBool false)
            example_store = (Ok out, σ)
          ∧ frame_of (PdFrame example_right) = Some right_v
          ∧ check_types example_left right_v out.1.1.2 false false = Raise ValueError)).
Proof.
  apply (validation_fails_fast example_store 0%nat 1%nat _ _ _ example_left
           (PdFrame example_right)); [reflexivity |].
  apply (unknown_column_or_operator _ _ _ _ example_right
           (PyTuple [PyStr "a"; PyStr "x"; PyStr "=>"]) ("a", "x", "=>"));
    [reflexivity | left | reflexivity | reflexivity].
Defined.

(** C3 — null exclusion, evaluated where it fails. The left row has a null
    in column b. With the conditions (a, x, !=), (b, y, !=) the inner join
    returns this row paired with the right row, although its cell under the
    second condition is null; with the same two conditions in the other order
    it returns no row. *)
Theorem null_leak :
  (conditional_join 0%nat 1%nat
     [PyTuple [PyStr "a"; PyStr "x"; PyStr "!="]; PyTuple [PyStr "b"; PyStr "y"; PyStr "!="]]
     (PyStr "inner") (PyBool false) null_store).1
  = Ok (Some (mkDataFrame
          (MultiIndex [["left"; "a"]; ["left"; "b"]; ["right"; "x"]; ["right"; "y"]])
          [float64; float64; float64; float64]
          [(0, [Some 1; None; Some 2; Some 5])]))
  ∧ (conditional_join 0%nat 1%nat
       [PyTuple [PyStr "b"; PyStr "y"; PyStr "!="]; PyTuple [PyStr "a"; PyStr "x"; PyStr "!="]]
       (PyStr "inner") (PyBool false) null_store).1
    = Ok (Some (mkDataFrame
            (MultiIndex [["left"; "a"]; ["left"; "b"]; ["right"; "x"]; ["right"; "y"]])
            [float64; float64; float64; float64] [])).
Proof. split; vm_compute; reflexivity. Qed.

(** C10 — the precondition of [_interval_ranges] is always met. The arrays
    [_less_than_indices] and [_greater_than_indices] hand to
    [_interval_ranges] are the bounds they return when more conditions
    remain. They are never empty, of one length, and every range they bound
    is a non-empty range of positions (the rows whose insertion point is the
    length of the right column, or is below 1, were discarded before); the
    call then returns the ranges one after the other, so none of its array
    accesses is out of bounds; and when no row is left the matcher returns
    without the call. Under this precondition [_interval_ranges] returns the
    concatenation of the ranges for any arrays. *)
Theorem interval_ranges_precondition (left_c right_c : Series) (strict : bool) :
  (∀ li ri si ind,
     _less_than_indices left_c right_c strict 2 = Ok (Some (Bounds li ri si ind)) →
     si ≠ [] ∧ length si = length ind ∧ Forall2 (λ i r, 0 ≤ i < r) si ind
     ∧ _interval_ranges si ind = Ok (ranges si ind)
     ∧ _less_than_indices left_c right_c strict 1
       = (positions ← _interval_ranges si ind;
          search_indices ← np.sub ind si;
          right_c' ← np.take ri positions;
          left_c' ← np.repeat li search_indices;
          Ok (Some (Pairs left_c' right_c'))))
  ∧ (∀ li ri si ind,
       _greater_than_indices left_c right_c strict 2 = Ok (Some (Bounds li ri si ind)) →
       si ≠ [] ∧ length ind = length si ∧ Forall2 (λ i r, 0 ≤ i < r) ind si
       ∧ _interval_ranges ind si = Ok (ranges ind si)
       ∧ _greater_than_indices left_c right_c strict 1
         = (positions ← _interval_ranges ind si;
            right_c' ← np.take ri positions;
            left_c' ← np.repeat li si;
            Ok (Some (Pairs left_c' right_c'))))
  ∧ (_less_than_indices left_c right_c strict 2 = Ok None →
     _less_than_indices left_c right_c strict 1 = Ok None)
  ∧ (_greater_than_indices left_c right_c strict 2 = Ok None →
     _greater_than_indices left_c right_c strict 1 = Ok None)
  ∧ ∀ indices right,
      indices ≠ [] → Forall2 Z.lt indices right →
      _interval_ranges indices right = Ok (ranges indices right).
Proof.
  split_and!.
  - intros li ri si ind (Hne & Hall & Hcall)%less_than_call.
    split_and!; [done | by eapply Forall2_length | done | | done].
    apply interval_ranges_ok; [done |].
    eapply Forall2_impl; [exact Hall |]. intros; simpl in *; lia.
  - intros li ri si ind (Hne & Hall & Hcall)%greater_than_call.
    split_and!; [done | by eapply Forall2_length | done | | done].
    apply interval_ranges_ok.
    + intros ->. apply Forall2_nil_inv_l in Hall. done.
    + eapply Forall2_impl; [exact Hall |]. intros; simpl in *; lia.
  - apply no_call.
  - apply no_call.
  - apply interval_ranges_ok.
Qed.

Lemma interval_ranges_precondition_witness :
  ∃ li ri si ind,
    _less_than_indices example_left_column example_right_column true 2
    = Ok (Some (Bounds li ri si ind))
    ∧ _interval_ranges si ind = Ok (ranges si ind).
Proof.
  exists [0; 3], [1; 2; 0], [0; 2], [3; 3].
  assert (H : _less_than_indices example_left_column example_right_column true 2
              = Ok (Some (Bounds [0; 3] [1; 2; 0] [0; 2] [3; 3])))
    by (vm_compute; reflexivity).
  split; [exact H |].
  destruct (interval_ranges_precondition example_left_column example_right_column true)
    as [Hlt _].
  by destruct (Hlt _ _ _ _ H) as (_ & _ & _ & Hcall & _).
Defined.

(** * Further properties *)



(** X2 — one matcher on one condition. On rows of two columns of one dtype,
    taken from two tables with distinct row labels, [_generic_func_cond_join]
    with any of the six operators returns, each once, the label pairs of the
    rows whose cells are both not null and compare under the operator; it
    returns None, never a pair of empty arrays, exactly when there is no such
    pair. For [==] the rows are to come without nulls, as the callers hand
    them over. *)
Theorem generic_matcher_exact (df right : DataFrame) left_on right_on
    (left_col right_col left_c right_c : Series) op f :
  getitem_col df left_on = Ok left_col → getitem_col right right_on = Ok right_col →
  same_dtype df right left_on right_on = true →
  NoDup (index df) → NoDup (index right) →
  left_c `sublist_of` left_col → right_c `sublist_of` right_col →
  dict_get operator_map op = Ok f →
  (op = "==" → hasnans left_c = false ∧ hasnans right_c = false) →
  ∃ m, _generic_func_cond_join left_c right_c op 1 = Ok m
       ∧ paired m ∧ NoDup (pairs_of m)
       ∧ (∀ l r, (l, r) ∈ pairs_of m ↔
            ∃ x y, (l, Some x) ∈ left_c ∧ (r, Some y) ∈ right_c
                   ∧ f (Some x) (Some y) = true)
       ∧ (m = None ↔
            ∀ l r x y, (l, Some x) ∈ left_c → (r, Some y) ∈ right_c →
              f (Some x) (Some y) = false).
Proof.
  intros Hlc Hrc _ Hdl Hdr Hsl Hsr Hf Hnan.
  pose proof (operand_NoDup df left_on left_col left_c Hlc Hdl Hsl) as Hl.
  pose proof (operand_NoDup right right_on right_col right_c Hrc Hdr Hsr) as Hr.
  destruct (generic_pairs left_c right_c op f Hl Hr Hf Hnan) as (m & Hm & Hp & Hnd & Hiff).
  assert (Hiff' : ∀ l r, (l, r) ∈ pairs_of m ↔
            ∃ x y, (l, Some x) ∈ left_c ∧ (r, Some y) ∈ right_c
                   ∧ f (Some x) (Some y) = true).
  { intros l r. rewrite Hiff. split.
    - intros ([x|] & [y|] & Hx & Hy & Hb); try done. by exists x, y.
    - intros (x & y & Hx & Hy & Hb). by exists (Some x), (Some y). }
  exists m. split_and!; [done.. |].
  rewrite (paired_pairs_nil m Hp). split.
  - intros Hnil l r x y Hx Hy. destruct (f (Some x) (Some y)) eqn:Hb; [| done].
    exfalso. apply (not_elem_of_nil (l, r)). rewrite <- Hnil. apply Hiff'. by exists x, y.
  - intros Hnone. destruct (pairs_of m) as [|[l r] rest] eqn:Hpairs; [done |].
    destruct (proj1 (Hiff' l r)) as (x & y & Hx & Hy & Hb); [left |].
    by rewrite (Hnone l r x y Hx Hy) in Hb.
Qed.

Lemma generic_matcher_exact_witness :
  ∃ m, _generic_func_cond_join [(10, Some 1); (11, Some 3); (12, Some 2)]
         [(0, Some 2); (1, Some 1)] "<=" 1 = Ok m
       ∧ paired m ∧ NoDup (pairs_of m)
       ∧ ((10, 0) ∈ pairs_of m ↔
            ∃ x y, (10, Some x) ∈ [(10, Some 1); (11, Some 3); (12, Some 2)]
                   ∧ (0, Some y) ∈ [(0, Some 2); (1, Some 1)]
                   ∧ operator.le (Some x) (Some y) = true).
Proof.
  destruct (generic_matcher_exact example_left example_right "a" "x"
              [(10, Some 1); (11, Some 3); (12, Some 2)] [(0, Some 2); (1, Some 1)]
              [(10, Some 1); (11, Some 3); (12, Some 2)] [(0, Some 2); (1, Some 1)]
              "<=" operator.le)
    as (m & Hm & Hp & Hnd & Hiff & _).
  - reflexivity.
  - reflexivity.
  - reflexivity.
  - apply (bool_decide_unpack (NoDup (index example_left))). vm_compute. exact I.
  - apply (bool_decide_unpack (NoDup (index example_right))). vm_compute. exact I.
  - done.
  - done.
  - reflexivity.
  - intros [=].
  - exists m. split_and!; [exact Hm | exact Hp | exact Hnd | exact (Hiff 10 0)].
Defined.

(** X3 — the matcher of [==]. [_equal_indices] is given rows of the key
    columns [left_on] of one table and [right_on] of another, the two tables
    with distinct row labels and every key column of the dtype of its
    partner. When no label comes twice in [left_on] or in [right_on] it
    returns, each once, the pairs of rows that carry the same key tuple, a
    null being equal to a null: as label pairs when the condition is the only
    one, and as pairs of positions when more conditions remain. When a label
    comes twice it raises a ValueError, whatever the rows. *)
Theorem equal_indices_exact (df right : DataFrame) (left_on right_on : list string)
    (left_keys right_keys left_c right_c : KeyRows) :
  loc_cols df left_on = Ok left_keys → loc_cols right right_on = Ok right_keys →
  Forall2 (λ l r, same_dtype df right l r = true) left_on right_on →
  NoDup (index df) → NoDup (index right) →
  left_c `sublist_of` left_keys → right_c `sublist_of` right_keys →
  (NoDup left_on ∧ NoDup right_on →
   ∃ m1 m2,
     _equal_indices left_on right_on left_c right_c 1 = Ok m1
     ∧ _equal_indices left_on right_on left_c right_c 2 = Ok m2
     ∧ paired m1 ∧ paired m2 ∧ NoDup (pairs_of m1) ∧ NoDup (pairs_of m2)
     ∧ (∀ l r, (l, r) ∈ pairs_of m1 ↔ ∃ k, (l, k) ∈ left_c ∧ (r, k) ∈ right_c)
     ∧ (∀ i j, (i, j) ∈ pairs_of m2 ↔
          ∃ (a b : nat) l r k, i = Z.of_nat a ∧ j = Z.of_nat b
            ∧ left_c !! a = Some (l, k) ∧ right_c !! b = Some (r, k)))
  ∧ (¬ (NoDup left_on ∧ NoDup right_on) →
     ∀ len_conditions,
       _equal_indices left_on right_on left_c right_c len_conditions = Raise ValueError).
Proof.
  intros Hlk Hrk _ Hdl Hdr Hsl Hsr.
  pose proof (key_operand_NoDup df left_on left_keys left_c Hlk Hdl Hsl) as Hl.
  pose proof (key_operand_NoDup right right_on right_keys right_c Hrk Hdr Hsr) as Hr.
  split; cycle 1.
  { intros Hrep n. unfold _equal_indices. by rewrite merge_operation_raise. }
  intros [Hlo Hro].
  destruct (equal_indices_labels left_on right_on left_c right_c Hlo Hro Hl Hr)
    as (m1 & Hm1 & Hp1 & Hnd1 & Hiff1).
  exists m1.
  set (P := equal_positions (extract_array left_c) (extract_array right_c)).
  destruct (equal_positions_spec (extract_array left_c) (extract_array right_c))
    as [Hnd Hiff]. fold P in Hnd, Hiff.
  assert (Hpos : ∀ i j, (i, j) ∈ P ↔
            ∃ (a b : nat) l r k, i = Z.of_nat a ∧ j = Z.of_nat b
              ∧ left_c !! a = Some (l, k) ∧ right_c !! b = Some (r, k)).
  { intros i j. rewrite Hiff. unfold extract_array. split.
    - intros (a & b & k & -> & -> & Ha & Hb). rewrite list_lookup_fmap in Ha, Hb.
      apply fmap_Some in Ha as ([l k1] & Ha & ->), Hb as ([r k2] & Hb & Hk).
      simpl in Hk. subst k2. by exists a, b, l, r, k1.
    - intros (a & b & l & r & k & -> & -> & Ha & Hb). exists a, b, k.
      rewrite !list_lookup_fmap. split_and!; [done | done | |].
      + apply fmap_Some. by exists (l, k).
      + apply fmap_Some. by exists (r, k). }
  assert (H2 : _equal_indices left_on right_on left_c right_c 2
               = Ok (if 0 <? np.size P.*1 then Some (Pairs P.*1 P.*2) else None)).
  { unfold _equal_indices. rewrite merge_operation_ok by done.
    cbn [mbind res_mbind res_bind]. unfold _get_join_indexers. cbv zeta. fold P.
    by destruct (0 <? np.size P.*1). }
  eexists. split; [exact Hm1 |]. split; [exact H2 |].
  split; [done |].
  destruct (0 <? np.size P.*1) eqn:Hz.
  - cbn [paired pairs_of].
    rewrite zip_fst_snd. split; [| done]. split; [by rewrite !length_fmap |].
    apply Z.ltb_lt in Hz. unfold np.size in Hz. destruct P; [simpl in Hz; lia | done].
  - cbn [paired pairs_of]. split; [done |]. split; [done |]. split; [constructor |].
    split; [done |].
    intros i j. rewrite <- Hpos. apply Z.ltb_ge in Hz. unfold np.size in Hz.
    destruct P; [done | simpl in Hz; lia].
Qed.

Lemma equal_indices_exact_witness :
  (∃ m1 m2,
     _equal_indices ["a"] ["x"] [(10, [Some 1]); (11, [Some 3]); (12, [Some 2])]
       [(0, [Some 2]); (1, [Some 1])] 1 = Ok m1
     ∧ _equal_indices ["a"] ["x"] [(10, [Some 1]); (11, [Some 3]); (12, [Some 2])]
         [(0, [Some 2]); (1, [Some 1])] 2 = Ok m2
     ∧ NoDup (pairs_of m1) ∧ NoDup (pairs_of m2)
     ∧ ((12, 0) ∈ pairs_of m1 ↔
          ∃ k, (12, k) ∈ [(10, [Some 1]); (11, [Some 3]); (12, [Some 2])]
               ∧ (0, k) ∈ [(0, [Some 2]); (1, [Some 1])]))
  ∧ _equal_indices ["a"; "a"] ["x"; "x"]
      [(10, [Some 1; Some 1]); (11, [Some 3; Some 3]); (12, [Some 2; Some 2])]
      [(0, [Some 2; Some 2]); (1, [Some 1; Some 1])] 2
    = Raise ValueError.
Proof.
  split.
  - destruct (equal_indices_exact example_left example_right ["a"] ["x"]
                [(10, [Some 1]); (11, [Some 3]); (12, [Some 2])]
                [(0, [Some 2]); (1, [Some 1])]
                [(10, [Some 1]); (11, [Some 3]); (12, [Some 2])]
                [(0, [Some 2]); (1, [Some 1])]) as [Hok _].
    + reflexivity.
    + reflexivity.
    + repeat constructor.
    + apply (bool_decide_unpack (NoDup (index example_left))). vm_compute. exact I.
    + apply (bool_decide_unpack (NoDup (index example_right))). vm_compute. exact I.
    + done.
    + done.
    + destruct Hok as (m1 & m2 & H1 & H2 & _ & _ & Hn1 & Hn2 & Hiff & _).
      { split; apply NoDup_singleton. }
      exists m1, m2. split_and!; [exact H1 | exact H2 | exact Hn1 | exact Hn2 | exact (Hiff 12 0)].
  - destruct (equal_indices_exact example_left example_right ["a"; "a"] ["x"; "x"]
                [(10, [Some 1; Some 1]); (11, [Some 3; Some 3]); (12, [Some 2; Some 2])]
                [(0, [Some 2; Some 2]); (1, [Some 1; Some 1])]
                [(10, [Some 1; Some 1]); (11, [Some 3; Some 3]); (12, [Some 2; Some 2])]
                [(0, [Some 2; Some 2]); (1, [Some 1; Some 1])]) as [_ Hraise].
    + reflexivity.
    + reflexivity.
    + repeat constructor.
    + apply (bool_decide_unpack (NoDup (index example_left))). vm_compute. exact I.
    + apply (bool_decide_unpack (NoDup (index example_right))). vm_compute. exact I.
    + done.
    + done.
    + apply Hraise. intros [Hnd _]. apply NoDup_cons in Hnd as [Hnotin _].
      apply Hnotin. left.
Defined.

(** X4 — what the type check accepts. [_conditional_join_type_check] passes
    exactly when the two columns are of one family (both datetime64, both
    integer, both float64, both string or both categorical) and, for a string
    or categorical left column, the operator is [==]; in every other case it
    raises a ValueError. An integer column against a float column is
    rejected. *)
Theorem type_check_accepts (l r : dtype) (op : string) :
  (_conditional_join_type_check l r op = Ok () ↔
     ((l = r ∧ l ∈ [datetime64; float64; object_; category])
      ∨ (l ∈ [int64; uint64] ∧ r ∈ [int64; uint64]))
     ∧ (l ∈ [object_; category] → op = "=="))
  ∧ (_conditional_join_type_check l r op ≠ Ok () →
     _conditional_join_type_check l r op = Raise ValueError).
Proof.
  rewrite type_check_eq. split; [| by case_match].
  destruct (decide (op = "==")) as [-> | Hne].
  - destruct l, r; apply (outcome_decide _); vm_compute; reflexivity.
  - assert (Hf : op = "==" ↔ False) by tauto. rewrite Hf.
    rewrite (bool_decide_eq_false_2 (op = op_value STRICTLY_EQUAL)) by done.
    destruct l, r; apply (outcome_decide _); vm_compute; reflexivity.
Qed.

(** X5 — which calls return a table. With a table for [df] and any object
    for [right], a call whose arguments meet the contract (two non-empty
    tables with plain column labels, the right one possibly a named Series;
    at least one condition, each a tuple of two existing columns and one of
    the six operators; [how] one of "inner", "left", "right"; a boolean
    [sort_by_appearance]; for every condition two columns of one family,
    compared with [==] when they are strings or categories) returns a table,
    for the three kinds of join, unless two of its [==] conditions name one
    column of a table: then it raises the ValueError of the hash join. Every
    other call raises an exception. No call returns None. *)
Theorem conditional_join_total s df right conditions how sort_by_appearance df_v o :
  inputs s df right = Some (df_v, o) →
  match mapM condition_of conditions with
  | Some conds =>
      if valid_call df_v o conditions how sort_by_appearance
      then if distinct_eq conds
           then ∃ table σ,
                  conditional_join df right conditions how sort_by_appearance s
                  = (Ok (Some table), σ)
           else ∃ σ,
                  conditional_join df right conditions how sort_by_appearance s
                  = (Raise ValueError, σ)
      else ∃ e σ,
             conditional_join df right conditions how sort_by_appearance s
             = (Raise e, σ)
  | None =>
      valid_call df_v o conditions how sort_by_appearance = false
      ∧ ∃ e σ,
          conditional_join df right conditions how sort_by_appearance s
          = (Raise e, σ)
  end.
Proof.
  intros (Hdf & Hright & Hwl & Hwr)%inputs_inv.
  assert (Hinvalid : valid_call df_v o conditions how sort_by_appearance = false →
            ∃ e σ, conditional_join df right conditions how sort_by_appearance s
                   = (Raise e, σ)).
  { intros Hvalid.
    destruct (compute_invalid s df right conditions how sort_by_appearance df_v o
                Hdf Hright Hwl Hwr Hvalid) as [[σ Hraise] _].
    by exists ValueError, σ. }
  destruct (valid_call df_v o conditions how sort_by_appearance) eqn:Hvalid.
  - destruct (valid_call_inv _ _ _ _ _ Hvalid) as (right_v & conds & Hf & Hm).
    rewrite Hm. rewrite Hf in Hwr. cbn in Hwr.
    destruct (distinct_eq conds) eqn:Hdist.
    + destruct (join_run s df right conditions how sort_by_appearance df_v o right_v conds
                  Hdf Hright Hwl Hwr Hf Hm Hvalid Hdist)
        as (table & pairs & h & b & σ & Hrun & _).
      by exists table, σ.
    + exact (compute_raise s df right conditions how sort_by_appearance df_v o right_v conds
               Hdf Hright Hwl Hwr Hf Hm Hvalid Hdist).
  - destruct (mapM condition_of conditions); [| split; [done |]]; by apply Hinvalid.
Qed.

Lemma conditional_join_total_witness :
  (∃ table σ,
     conditional_join 0%nat 1%nat example_conditions (PyStr "right") (PyBool true)
       example_store
     = (Ok (Some table), σ))
  ∧ (∃ σ,
       conditional_join 0%nat 1%nat repeated_conditions (PyStr "left") (PyBool false)
         repeated_store
       = (Raise ValueError, σ))
  ∧ ∃ e σ,
      conditional_join 0%nat 1%nat example_conditions (PyStr "outer") (PyBool true)
        example_store
      = (Raise e, σ).
Proof.
  split_and!.
  - exact (conditional_join_total example_store 0%nat 1%nat example_conditions
             (PyStr "right") (PyBool true) example_left (PdFrame example_right) eq_refl).
  - exact (conditional_join_total repeated_store 0%nat 1%nat repeated_conditions
             (PyStr "left") (PyBool false) repeated_left (PdFrame repeated_right) eq_refl).
  - exact (conditional_join_total example_store 0%nat 1%nat example_conditions
             (PyStr "outer") (PyBool true) example_left (PdFrame example_right) eq_refl).
Defined.

(** X6 — the preliminary checks work on copies. On arguments that pass them,
    [_conditional_join_preliminary_checks] returns two objects that were not
    on the heap before, distinct from each other: a copy of [df], and a copy
    of [right], a named Series having become a table of one column; with them
    the conditions as triples of strings, [how] and [sort_by_appearance]. The
    objects the caller had are as they were. *)
Theorem preliminary_checks_copy s df right conditions how sort_by_appearance df_v o :
  s !! df = Some (PdFrame df_v) → s !! right = Some o →
  valid_arguments df_v o conditions how sort_by_appearance = true →
  ∃ (df' right' : ref) conds h b σ right_v,
    _conditional_join_preliminary_checks df right conditions how sort_by_appearance s
    = (Ok (df', right', conds, h, b), σ)
    ∧ (length s ≤ df')%nat ∧ (length s ≤ right')%nat ∧ df' ≠ right'
    ∧ σ !! df' = Some (PdFrame df_v) ∧ σ !! right' = Some (PdFrame right_v)
    ∧ frame_of o = Some right_v ∧ mapM condition_of conditions = Some conds
    ∧ how = PyStr h ∧ sort_by_appearance = PyBool b
    ∧ take (length s) σ = s.
Proof.
  intros Hdf Hright Hvalid.
  pose proof (preliminary_checks_run s df right conditions how sort_by_appearance df_v o
                Hdf Hright) as Hrun.
  rewrite Hvalid in Hrun.
  destruct Hrun as (right_v & conds & ext & k & Hf & Hm & Hrun & H0 & Hk).
  destruct (valid_arguments_inv _ _ _ _ _ _ _ Hf Hm Hvalid)
    as (_ & _ & _ & _ & _ & _ & (h & -> & _) & (b & ->)).
  exists (length s), (length s + S k)%nat, conds, h, b, (s ++ ext), right_v.
  split; [exact Hrun |]. split_and!; [lia | lia | lia | | | done | done | done | done |].
  - rewrite lookup_app_r by lia. by rewrite Nat.sub_diag.
  - rewrite lookup_app_r by lia. by replace (length s + S k - length s)%nat with (S k) by lia.
  - by rewrite take_app_length.
Qed.

Lemma preliminary_checks_copy_witness :
  ∃ (df' right' : ref) conds σ,
    _conditional_join_preliminary_checks 0%nat 1%nat example_conditions (PyStr "inner")
      (PyBool false) example_store
    = (Ok (df', right', conds, "inner", false), σ)
    ∧ σ !! df' = Some (PdFrame example_left) ∧ take 2 σ = example_store.
Proof.
  destruct (preliminary_checks_copy example_store 0%nat 1%nat example_conditions
              (PyStr "inner") (PyBool false) example_left (PdFrame example_right))
    as (df' & right' & conds & h & b & σ & right_v & Hrun & _ & _ & _ & Hl & _ & _ & _
        & Hh & Hb & Htake); [reflexivity.. |].
  injection Hh as <-. injection Hb as <-.
  exists df', right', conds, σ. split; [exact Hrun |]. split; [exact Hl | exact Htake].
Defined.







(** X10 — sort_by_appearance changes the order of the rows only. On
    arguments that meet the contract, with no column named by two [==]
    conditions, the call with sort_by_appearance =
    True and the call with sort_by_appearance = False return tables with the
    same columns, the same dtypes, the same row labels and the same rows up
    to their order. *)
Theorem sort_by_appearance_reorders s df right conditions how df_v o right_v conds :
  inputs s df right = Some (df_v, o) → frame_of o = Some right_v →
  mapM condition_of conditions = Some conds →
  valid_call df_v o conditions how (PyBool false) = true →
  distinct_eq conds = true →
  ∃ sorted unsorted σ1 σ2,
    conditional_join df right conditions how (PyBool true) s = (Ok (Some sorted), σ1)
    ∧ conditional_join df right conditions how (PyBool false) s = (Ok (Some unsorted), σ2)
    ∧ columns sorted = columns unsorted ∧ dtypes sorted = dtypes unsorted
    ∧ index sorted = index unsorted
    ∧ extract_array (rows sorted) ≡ₚ extract_array (rows unsorted).
Proof.
  intros (Hdf & Hright & Hwl & Hwr)%inputs_inv Hf Hm Hvalid Hdist.
  rewrite Hf in Hwr. cbn in Hwr.
  assert (Hvalid' : valid_call df_v o conditions how (PyBool true) = true) by exact Hvalid.
  destruct (join_table s df right conditions how (PyBool true) df_v o right_v conds
              Hdf Hright Hwl Hwr Hf Hm Hvalid' Hdist)
    as (result & h & b & σ1 & Hres & -> & Hh & [= <-] & Hrun1 & _).
  destruct (join_table s df right conditions (PyStr h) (PyBool false) df_v o right_v conds
              Hdf Hright Hwl Hwr Hf Hm Hvalid Hdist)
    as (result' & h' & b' & σ2 & Hres' & [= <-] & _ & [= <-] & Hrun2 & _).
  assert (result' = result) as -> by congruence.
  eexists _, _, σ1, σ2. split; [exact Hrun1 |]. split; [exact Hrun2 |].
  assert (Hp : row_cells (reset_index df_v) (reset_index right_v)
                 <$> provenance (reset_index df_v) (reset_index right_v)
                       (ordered (result_pairs result) true) h
               ≡ₚ row_cells (reset_index df_v) (reset_index right_v)
                    <$> provenance (reset_index df_v) (reset_index right_v)
                          (ordered (result_pairs result) false) h).
  { apply fmap_Permutation, provenance_Permutation. by rewrite !ordered_Permutation. }
  split_and!.
  - done.
  - apply joined_dtypes_Permutation. by rewrite !ordered_Permutation.
  - rewrite !joined_index, !len_joined. do 2 f_equal.
    apply Permutation_length, provenance_Permutation. by rewrite !ordered_Permutation.
  - by rewrite !joined_rows.
Qed.

Lemma sort_by_appearance_reorders_witness :
  ∃ sorted unsorted σ1 σ2,
    conditional_join 0%nat 1%nat example_conditions (PyStr "inner") (PyBool true)
      example_store
    = (Ok (Some sorted), σ1)
    ∧ conditional_join 0%nat 1%nat example_conditions (PyStr "inner") (PyBool false)
        example_store
      = (Ok (Some unsorted), σ2)
    ∧ extract_array (rows sorted) ≡ₚ extract_array (rows unsorted).
Proof.
  destruct (sort_by_appearance_reorders example_store 0%nat 1%nat example_conditions
              (PyStr "inner") example_left (PdFrame example_right) example_right
              [("a", "x", "<"); ("b", "y", "!=")])
    as (t1 & t2 & σ1 & σ2 & H1 & H2 & _ & _ & _ & Hp); [reflexivity.. |].
  exists t1, t2, σ1, σ2. split_and!; [exact H1 | exact H2 | exact Hp].
Defined.





(** X13 — what [concatenate_columns] rejects. With fewer than two column
    names the call raises a JanitorError; with two or more, one of which is
    no column of the table, it raises a KeyError. In both cases the table is
    as it was. *)
Theorem concatenate_columns_rejects {V} (str : V → string) column_names new_column_name
    sep ignore_empty (df : concatenate.Frame V) :
  ((length column_names < 2)%nat →
   concatenate.concatenate_columns str column_names new_column_name sep ignore_empty df
   = (concatenate.Fail concatenate.JanitorError, df))
  ∧ ((2 ≤ length column_names)%nat →
     (∃ name, name ∈ column_names ∧ name ∉ concatenate.labels df) →
     concatenate.concatenate_columns str column_names new_column_name sep ignore_empty df
     = (concatenate.Fail concatenate.KeyError, df)).
Proof.
  split.
  - intros Hlen. unfold concatenate.concatenate_columns.
    by rewrite (proj2 (Nat.ltb_lt _ _) Hlen).
  - intros Hlen (name & Hin & Hno). unfold concatenate.concatenate_columns.
    rewrite (proj2 (Nat.ltb_ge _ _) Hlen).
    by rewrite (getitem_columns_missing df column_names name Hin Hno).
Qed.

(** X14 — [concatenate_columns] works on the table it is given. On a well
    formed table with at least one row, with at least two column names, all
    of them columns, and without ignore_empty, the call returns the table itself, changed in one
    column: the column [new_column_name] holds for every row the texts of
    its cells in the named columns, in the order of the names, a null being
    the empty text, joined by [sep]. The column is replaced where it is when
    the name exists and added after the last column otherwise; every other
    column is as it was, and the table is still well formed. *)
Theorem concatenate_columns_joins {V} (str : V → string) column_names new_column_name sep
    (df : concatenate.Frame V) :
  concatenate.well_formed df = true → (2 ≤ length column_names)%nat →
  (∀ name, name ∈ column_names → name ∈ concatenate.labels df) →
  concatenate.lines df ≠ [] →
  ∃ df',
    concatenate.concatenate_columns str column_names new_column_name sep false df
    = (concatenate.Return (), df')
    ∧ concatenate.labels df'
      = (if bool_decide (new_column_name ∈ concatenate.labels df)
         then concatenate.labels df else concatenate.labels df ++ [new_column_name])
    ∧ concatenate.well_formed df' = true
    ∧ length (concatenate.lines df') = length (concatenate.lines df)
    ∧ (∀ name, name ≠ new_column_name →
         concatenate.getitem df' name = concatenate.getitem df name)
    ∧ concatenate.getitem df' new_column_name
      = concatenate.Return (concatenate.joined_column str column_names sep df).
Proof.
  intros Hwf Hlen Hall Hrows. rewrite (concatenate_join str) by done. cbv zeta.
  pose proof (length_joined_column str column_names sep df) as Hj.
  eexists. split; [reflexivity |]. split_and!.
  - apply labels_setitem.
  - by apply well_formed_setitem.
  - by apply length_lines_setitem.
  - intros name Hne. by apply getitem_setitem_ne.
  - by apply getitem_setitem.
Qed.

Lemma concatenate_columns_joins_witness :
  ∃ df',
    concatenate.concatenate_columns concatenate.str_bool ["a"; "c"] "id" "-" false
      concatenate.example_frame
    = (concatenate.Return (), df')
    ∧ concatenate.labels df' = ["a"; "b"; "c"; "id"]
    ∧ concatenate.getitem df' "id"
      = concatenate.Return
          [concatenate.Text "x-True"; concatenate.Text "-"; concatenate.Text "y-False"].
Proof.
  destruct (concatenate_columns_joins concatenate.str_bool ["a"; "c"] "id" "-"
              concatenate.example_frame)
    as (df' & Hrun & Hlabels & _ & _ & _ & Hnew).
  - reflexivity.
  - simpl. lia.
  - intros name Hname. repeat (apply elem_of_cons in Hname as [-> | Hname]);
      [by left | by right; right; left | by apply elem_of_nil in Hname].
  - discriminate.
  - exists df'. split; [exact Hrun |]. split; [exact Hlabels | exact Hnew].
Defined.

(** X15 — ignore_empty leaves out the empty texts. On a well formed table
    with at least one row,
    with at least two column names, all of them columns, and a separator of
    one character that occurs in none of the texts to join, the call with
    ignore_empty returns the table itself with, in the column
    [new_column_name], for every row the texts of its cells in the named
    columns that are not empty, joined by the separator: a null or an empty
    cell leaves no separator behind, and a row of nulls gives the empty
    text. The other columns are as they were. *)
Theorem concatenate_columns_ignores_empty {V} (str : V → string) column_names
    new_column_name (c : Ascii.ascii) (df : concatenate.Frame V) :
  concatenate.well_formed df = true → (2 ≤ length column_names)%nat →
  (∀ name, name ∈ column_names → name ∈ concatenate.labels df) →
  concatenate.lines df ≠ [] →
  (∀ row name, row ∈ concatenate.lines df → name ∈ column_names →
     concatenate.occurs c
       (concatenate.text str (concatenate.at_column df name row)) = false) →
  ∃ df',
    concatenate.concatenate_columns str column_names new_column_name (String c "") true df
    = (concatenate.Return (), df')
    ∧ concatenate.labels df'
      = (if bool_decide (new_column_name ∈ concatenate.labels df)
         then concatenate.labels df else concatenate.labels df ++ [new_column_name])
    ∧ concatenate.well_formed df' = true
    ∧ (∀ name, name ≠ new_column_name →
         concatenate.getitem df' name = concatenate.getitem df name)
    ∧ concatenate.getitem df' new_column_name
      = concatenate.Return
          ((λ row,
              concatenate.Text
                (concatenate.join (String c "")
                   (filter (λ x, x ≠ "")
                      ((λ name, concatenate.text str (concatenate.at_column df name row))
                         <$> column_names))))
             <$> concatenate.lines df).
Proof.
  intros Hwf Hlen Hall Hrows Hfree. rewrite (concatenate_join str) by done. cbv zeta.
  pose proof (length_joined_column str column_names (String c "") df) as Hj.
  set (df1 := concatenate.setitem df new_column_name _).
  assert (Hwf1 : concatenate.well_formed df1 = true) by by apply well_formed_setitem.
  assert (Hlen1 : length (concatenate.lines df1) = length (concatenate.lines df))
    by by apply length_lines_setitem.
  unfold df1 at 1. rewrite getitem_setitem by done.
  unfold concatenate.joined_column at 1.
  rewrite (transform_fmap_return _ _
             (λ row, concatenate.join (String c "")
                       (filter (λ x, x ≠ "")
                          ((λ name, concatenate.text str (concatenate.at_column df name row))
                             <$> column_names)))); cycle 1.
  { intros row Hrow. cbn [concatenate.to_str]. apply remove_empty_join.
    apply Forall_fmap, Forall_forall. intros name Hname. by apply Hfree. }
  eexists. split; [reflexivity |].
  assert (Hlen2 : length (concatenate.Text (V := V)
                            <$> ((λ row, concatenate.join (String c "")
                                    (filter (λ x, x ≠ "")
                                       ((λ name, concatenate.text str
                                                   (concatenate.at_column df name row))
                                          <$> column_names)))
                                   <$> concatenate.lines df))
                  = length (concatenate.lines df1)) by by rewrite !length_fmap.
  split_and!.
  - rewrite labels_setitem.
    rewrite bool_decide_eq_true_2 by apply name_in_setitem. apply labels_setitem.
  - by apply well_formed_setitem.
  - intros name Hne. rewrite getitem_setitem_ne by done. by apply getitem_setitem_ne.
  - rewrite getitem_setitem by done. by rewrite <- list_fmap_compose.
Qed.

Lemma concatenate_columns_ignores_empty_witness :
  ∃ df',
    concatenate.concatenate_columns concatenate.str_bool ["a"; "b"; "c"] "id" "-" true
      concatenate.example_frame
    = (concatenate.Return (), df')
    ∧ concatenate.getitem df' "id"
      = concatenate.Return
          [concatenate.Text "x-True"; concatenate.Text ""; concatenate.Text "y-z-False"].
Proof.
  destruct (concatenate_columns_ignores_empty concatenate.str_bool ["a"; "b"; "c"] "id"
              (Ascii.ascii_of_nat 45) concatenate.example_frame)
    as (df' & Hrun & _ & _ & _ & Hnew).
  - reflexivity.
  - simpl. lia.
  - intros name Hname. exact Hname.
  - discriminate.
  - intros row name Hrow Hname.
    repeat (apply elem_of_cons in Hrow as [-> | Hrow]);
      try (by apply elem_of_nil in Hrow);
      repeat (apply elem_of_cons in Hname as [-> | Hname]);
      try (by apply elem_of_nil in Hname); reflexivity.
  - exists df'. split; [exact Hrun | exact Hnew].
Defined.

(** X16 — a call that fails on the separator has changed the table. With
    ignore_empty and an empty separator, on a well formed table with at
    least one row the call raises, [str.split] refusing the empty separator;
    the table it leaves holds the column [new_column_name], with the texts
    joined without separator. *)
Theorem concatenate_columns_empty_separator {V} (str : V → string) column_names
    new_column_name (df : concatenate.Frame V) :
  concatenate.well_formed df = true → (2 ≤ length column_names)%nat →
  (∀ name, name ∈ column_names → name ∈ concatenate.labels df) →
  concatenate.lines df ≠ [] →
  ∃ e df',
    concatenate.concatenate_columns str column_names new_column_name "" true df
    = (concatenate.Fail e, df')
    ∧ concatenate.labels df'
      = (if bool_decide (new_column_name ∈ concatenate.labels df)
         then concatenate.labels df else concatenate.labels df ++ [new_column_name])
    ∧ concatenate.getitem df' new_column_name
      = concatenate.Return (concatenate.joined_column str column_names "" df).
Proof.
  intros Hwf Hlen Hall Hrows. rewrite (concatenate_join str) by done. cbv zeta.
  pose proof (length_joined_column str column_names "" df) as Hj.
  rewrite getitem_setitem by done.
  rewrite (transform_fail _ concatenate.ValueError); [| | done].
  - eexists _, _. split; [reflexivity |]. split; [apply labels_setitem |].
    by apply getitem_setitem.
  - intros Hnil. apply Hrows. apply (f_equal length) in Hnil.
    rewrite Hj in Hnil. by destruct (concatenate.lines df).
Qed.

Lemma concatenate_columns_empty_separator_witness :
  ∃ e df',
    concatenate.concatenate_columns concatenate.str_bool ["a"; "c"] "id" "" true
      concatenate.example_frame
    = (concatenate.Fail e, df')
    ∧ concatenate.getitem df' "id"
      = concatenate.Return
          [concatenate.Text "xTrue"; concatenate.Text ""; concatenate.Text "yFalse"].
Proof.
  destruct (concatenate_columns_empty_separator concatenate.str_bool ["a"; "c"] "id"
              concatenate.example_frame)
    as (e & df' & Hrun & _ & Hnew).
  - reflexivity.
  - simpl. lia.
  - intros name Hname. repeat (apply elem_of_cons in Hname as [-> | Hname]);
      [by left | by right; right; left | by apply elem_of_nil in Hname].
  - discriminate.
  - exists e, df'. split; [exact Hrun | exact Hnew].
Defined.



(** X18 — soundness of the inner join on columns of one dtype. On a call
    that meets the contract, with how = "inner", no column named by two [==]
    conditions and every condition on two columns of one dtype, the rows of
    the returned table are the rows of the two input tables at index pairs
    (l, r), l and r being positions of rows, side by side; and every one of
    these pairs meets every supplied condition, re-evaluated with Python's
    operator on the cell of row l of the left table and the cell of row r of
    the right table. *)
Theorem conditional_join_sound s df right conditions sort_by_appearance
    df_v o right_v conds :
  inputs s df right = Some (df_v, o) → frame_of o = Some right_v →
  mapM condition_of conditions = Some conds →
  valid_call df_v o conditions (PyStr "inner") sort_by_appearance = true →
  distinct_eq conds = true →
  same_dtypes df_v right_v conds = true →
  ∃ table pairs σ,
    conditional_join df right conditions (PyStr "inner") sort_by_appearance s
    = (Ok (Some table), σ)
    ∧ extract_array (rows table)
      = (λ p, cells_of (reset_index df_v) p.1 ++ cells_of (reset_index right_v) p.2)
          <$> pairs
    ∧ ∀ l r, (l, r) ∈ pairs →
        l ∈ index (reset_index df_v) ∧ r ∈ index (reset_index right_v)
        ∧ ∀ c, c ∈ conds →
            eval_cond (reset_index df_v) (reset_index right_v) c l r = true.
Proof.
  intros (Hdf & Hright & Hwl & Hwr)%inputs_inv Hf Hm Hvalid Hdist _.
  rewrite Hf in Hwr. cbn in Hwr.
  destruct (inner_run s df right conditions sort_by_appearance df_v o right_v conds
              Hdf Hright Hwl Hwr Hf Hm Hvalid Hdist)
    as (table & pairs & b & σ & Hrun & _ & Hrows & _ & Hsound & _).
  exists table, (ordered pairs b), σ. split; [done |]. split.
  - rewrite Hrows. unfold extract_array. apply snd_zip.
    unfold RangeIndex. rewrite zrange_length, length_fmap, length_ordered. lia.
  - intros l r Hp%elem_of_ordered. by apply Hsound.
Qed.

Lemma conditional_join_sound_witness :
  ∃ table pairs σ,
    conditional_join 0%nat 1%nat example_conditions (PyStr "inner") (PyBool true)
      example_store
    = (Ok (Some table), σ)
    ∧ extract_array (rows table)
      = (λ p, cells_of (reset_index example_left) p.1
              ++ cells_of (reset_index example_right) p.2) <$> pairs
    ∧ ∀ l r, (l, r) ∈ pairs →
        l ∈ index (reset_index example_left) ∧ r ∈ index (reset_index example_right)
        ∧ ∀ c, c ∈ [("a", "x", "<"); ("b", "y", "!=")] →
            eval_cond (reset_index example_left) (reset_index example_right) c l r = true.
Proof.
  apply (conditional_join_sound example_store 0%nat 1%nat example_conditions (PyBool true)
           example_left (PdFrame example_right) example_right);
    reflexivity.
Defined.

(** X19 — completeness and uniqueness of the inner join on columns of one
    dtype. On a call that meets the contract, with how = "inner", no column
    named by two [==] conditions and every condition on two columns of one
    dtype, whatever combiner the conditions select, the index pairs the
    returned table is made of hold no pair twice, and hold every pair (l, r)
    of rows of the two input tables that meets every supplied condition on
    cells that are not null. *)
Theorem conditional_join_complete s df right conditions sort_by_appearance
    df_v o right_v conds :
  inputs s df right = Some (df_v, o) → frame_of o = Some right_v →
  mapM condition_of conditions = Some conds →
  valid_call df_v o conditions (PyStr "inner") sort_by_appearance = true →
  distinct_eq conds = true →
  same_dtypes df_v right_v conds = true →
  ∃ table pairs σ,
    conditional_join df right conditions (PyStr "inner") sort_by_appearance s
    = (Ok (Some table), σ)
    ∧ extract_array (rows table)
      = (λ p, cells_of (reset_index df_v) p.1 ++ cells_of (reset_index right_v) p.2)
          <$> pairs
    ∧ NoDup pairs
    ∧ ∀ l r, l ∈ index (reset_index df_v) → r ∈ index (reset_index right_v) →
        (∀ c, c ∈ conds →
           eval_strict (reset_index df_v) (reset_index right_v) c l r = true) →
        (l, r) ∈ pairs.
Proof.
  intros (Hdf & Hright & Hwl & Hwr)%inputs_inv Hf Hm Hvalid Hdist _.
  rewrite Hf in Hwr. cbn in Hwr.
  destruct (inner_run s df right conditions sort_by_appearance df_v o right_v conds
              Hdf Hright Hwl Hwr Hf Hm Hvalid Hdist)
    as (table & pairs & b & σ & Hrun & _ & Hrows & Hnd & _ & Hcomplete).
  exists table, (ordered pairs b), σ. split; [done |]. split; [| split].
  - rewrite Hrows. unfold extract_array. apply snd_zip.
    unfold RangeIndex. rewrite zrange_length, length_fmap, length_ordered. lia.
  - by rewrite ordered_Permutation.
  - intros l r Hl Hr Hall. apply elem_of_ordered. by apply Hcomplete.
Qed.

Lemma conditional_join_complete_witness :
  ∃ table pairs σ,
    conditional_join 0%nat 1%nat example_conditions (PyStr "inner") (PyBool true)
      example_store
    = (Ok (Some table), σ)
    ∧ extract_array (rows table)
      = (λ p, cells_of (reset_index example_left) p.1
              ++ cells_of (reset_index example_right) p.2) <$> pairs
    ∧ NoDup pairs
    ∧ ∀ l r, l ∈ index (reset_index example_left) →
        r ∈ index (reset_index example_right) →
        (∀ c, c ∈ [("a", "x", "<"); ("b", "y", "!=")] →
           eval_strict (reset_index example_left) (reset_index example_right) c l r
           = true) →
        (l, r) ∈ pairs.
Proof.
  apply (conditional_join_complete example_store 0%nat 1%nat example_conditions
           (PyBool true) example_left (PdFrame example_right) example_right);
    reflexivity.
Defined.

(** X20 — the range matchers on columns of one dtype, ties included. On
    rows of two columns of one dtype, taken from two tables with distinct row
    labels, [_less_than_indices] with one condition returns, each once, the
    label pairs of the rows with left value < right value when the comparison
    is strict and left value <= right value when it is not, nulls apart; it
    returns None, never a pair of empty arrays, when there is no such pair.
    [_greater_than_indices] mirrors it, with the pairs where left value >
    right value (>= when not strict). *)
Theorem range_matchers_correct (df right : DataFrame) left_on right_on
    (left_col right_col left_c right_c : Series) (strict : bool) :
  getitem_col df left_on = Ok left_col → getitem_col right right_on = Ok right_col →
  same_dtype df right left_on right_on = true →
  NoDup (index df) → NoDup (index right) →
  left_c `sublist_of` left_col → right_c `sublist_of` right_col →
  (∃ m, _less_than_indices left_c right_c strict 1 = Ok m
        ∧ paired m ∧ NoDup (pairs_of m)
        ∧ ∀ l r, (l, r) ∈ pairs_of m ↔
            ∃ x y, (l, Some x) ∈ left_c ∧ (r, Some y) ∈ right_c
                   ∧ if strict then x < y else x ≤ y)
  ∧ (∃ m, _greater_than_indices left_c right_c strict 1 = Ok m
          ∧ paired m ∧ NoDup (pairs_of m)
          ∧ ∀ l r, (l, r) ∈ pairs_of m ↔
              ∃ x y, (l, Some x) ∈ left_c ∧ (r, Some y) ∈ right_c
                     ∧ if strict then y < x else y ≤ x).
Proof.
  intros Hlc Hrc _ Hdl Hdr Hsl Hsr.
  pose proof (operand_NoDup df left_on left_col left_c Hlc Hdl Hsl) as Hl.
  pose proof (operand_NoDup right right_on right_col right_c Hrc Hdr Hsr) as Hr.
  split.
  - exists (less_than_result left_c right_c strict 1).
    split; [apply less_than_indices_eq |]. by apply less_than_pairs.
  - exists (greater_than_result left_c right_c strict 1).
    split; [apply greater_than_indices_eq |]. by apply greater_than_pairs.
Qed.

Lemma range_matchers_correct_witness :
  (∃ m, _less_than_indices [(10, Some 1); (11, Some 3); (12, Some 2)]
          [(0, Some 2); (1, Some 1)] true 1 = Ok m
        ∧ NoDup (pairs_of m)
        ∧ ((10, 0) ∈ pairs_of m ↔
             ∃ x y, (10, Some x) ∈ [(10, Some 1); (11, Some 3); (12, Some 2)]
                    ∧ (0, Some y) ∈ [(0, Some 2); (1, Some 1)] ∧ x < y))
  ∧ (∃ m, _greater_than_indices [(10, Some 1); (11, Some 3); (12, Some 2)]
            [(0, Some 2); (1, Some 1)] true 1 = Ok m
          ∧ NoDup (pairs_of m)
          ∧ ((12, 0) ∈ pairs_of m ↔
               ∃ x y, (12, Some x) ∈ [(10, Some 1); (11, Some 3); (12, Some 2)]
                      ∧ (0, Some y) ∈ [(0, Some 2); (1, Some 1)] ∧ y < x)).
Proof.
  destruct (range_matchers_correct example_left example_right "a" "x"
              [(10, Some 1); (11, Some 3); (12, Some 2)] [(0, Some 2); (1, Some 1)]
              [(10, Some 1); (11, Some 3); (12, Some 2)] [(0, Some 2); (1, Some 1)] true)
    as [(m & Hm & _ & Hnd & Hiff) (m' & Hm' & _ & Hnd' & Hiff')].
  - reflexivity.
  - reflexivity.
  - reflexivity.
  - apply (bool_decide_unpack (NoDup (index example_left))). vm_compute. exact I.
  - apply (bool_decide_unpack (NoDup (index example_right))). vm_compute. exact I.
  - done.
  - done.
  - split.
    + exists m. split_and!; [exact Hm | exact Hnd | exact (Hiff 10 0)].
    + exists m'. split_and!; [exact Hm' | exact Hnd' | exact (Hiff' 12 0)].
Defined.
